(* ===== verification/_CoqProject ===== *)
-Q . S2P
Prelude.v
Errors.v
LogEntry.v
CObj.v
CMem.v
Securec.v
SecurecProps.v
Mpsc.v
MpscConc.v
MpscLink.v
MpscLin.v
PQueue.v
RemoteCodec.v
Os.v
Queues.v
Format.v
Text.v
RemoteServer.v
RemoteClient.v
FileManager.v
FileManagerOps.v
FileCompress.v
Ipc.v
Prelog.v
Layout.v
Logger.v
Daemon.v
Cat.v
Exe.v
Network.v
Connection.v
System.v
Progress.v
