(* ===== verification/Prelude.v ===== *)
(** * A verification library for SiLog

    SiLog is a logging system for Linux. An application calls the logging library,
    which puts each message into an entry, the entry into a queue, and sends the
    queued entries as datagrams over a Unix socket. A daemon receives them into a
    second queue, writes each as a line to a log file that it rotates and
    compresses, and broadcasts it over TCP to the viewers connected to it.

    ** Parts and files

    - Prelude.v (this file): machine integers as [Z] with their wrap-around, byte
      buffers with bounds-checked reads and writes, the tactics and hint databases.
    - Errors.v: silog_comm/include/silog_error.h.
    - LogEntry.v: levels, [logEntry_t] and its type, C strings in arrays
      (interface/silog.h, silog_logger/include/silog_logger.h, silog_utils.c).
    - CObj.v: the contracts of the bounded copying functions on single objects, as
      the other parts use them.
    - CMem.v, Securec.v, SecurecProps.v: a flat memory of bytes with the C library
      functions on it, every function of silog_comm/src/silog_securec.c, and their
      theorems; [securec_meets_objects] discharges the contracts of CObj.v.
    - Mpsc.v: silog_mpsc.c as sequential operations on its bytes; the class [Fifo]
      is what the queue promises to its clients. MpscConc.v: the same functions as
      a step relation at the granularity of atomic accesses, for any number of
      producers and one consumer. MpscLink.v: a call that is not interrupted
      does the same in both. MpscLin.v: with one producer and one consumer every
      interleaving does.
    - PQueue.v: silog_pqueue.c on its bytes, with the comparison as an argument.
      Queues.v: the functions of both queues with their allocations and their
      diagnostics, as the other parts call them.
    - RemoteCodec.v: the wire format of an entry in silog_remote.c.
    - Os.v: the monad of the effectful parts. A program transforms the variables of
      a component and a trace of kernel calls with their answers; the kernel is any
      instance of [Os], the other threads any instance of [Others], which acts when
      a mutex is taken. [wp] is total correctness. [ledger] and [files] account for
      open descriptors and files; [zoom] runs a component inside a larger program.
    - Format.v: conversions of integers, silog_time.c.
    - RemoteServer.v, RemoteClient.v: the server and the client of silog_remote.c.
    - FileManager.v, FileManagerOps.v: silog_dae/src/silog_file_manager.c;
      FileCompress.v: its compression thread.
    - Ipc.v: silog_ipc.c. Prelog.v: silog_prelog.c.
    - Layout.v: the bytes of an entry in memory and in a datagram.
    - Logger.v: silog_logger/src/silog_logger.c, over Mpsc, Ipc and Prelog.
    - Daemon.v: silog_dae/src/silog_daemon.c, over Mpsc, Ipc, Prelog, FileManager
      and RemoteServer.
    - Text.v: functions of the C library on strings and decimal numbers.
    - Cat.v: the viewer, silog_cat/src/silog_cat.c, over RemoteClient and Prelog.
    - Exe.v: the command line tool, silog_exe/src/silog_exe.c, over Ipc and Daemon.
    - Network.v: what each program does to the data that the kernel carries between
      the processes. Connection.v: one connection of the remote service over time.
    - System.v: an application, the daemon and a viewer together on one kernel.
      Progress.v: the same on a kernel that cooperates, and a concrete machine.

    ** How the parts interact

    Inside a process the parts call each other through [zoom]: Logger.v calls the
    operations of Queues.v, Mpsc.v and Ipc.v on its own variables, Daemon.v those of
    Queues.v, Mpsc.v, Ipc.v, FileManager.v and RemoteServer.v, Cat.v those of
    RemoteClient.v. Between the processes there are two channels of the kernel. [silogLog] queues an entry
    and [send_round] sends it as a datagram; [recv_round] receives it into the queue
    of the daemon, [write_round] hands it to [SilogFileManagerWriteRaw] and to
    [SilogRemoteBroadcast], which puts its wire image on every connection;
    [SilogRemoteClientReceive] reassembles the stream and calls [SilogCatPrintLog].
    [transit] is what is under way on the two channels, [sys_step] one round of one
    of the threads, [sys_run] a schedule of them. Every process keeps its own
    variables; each round is the very definition of its component.

    ** Correspondence with the code

    Definitions keep the names of the functions; a structure is a record, its
    static variable the state of the component; a function that can fail returns
    its error code. [None] is the absence of a result: an access outside an
    object, a deadlock, a loop that does not end. A theorem about [wp] states that
    the call returns.

    A function is split where it contains a loop or a block worth a lemma of its
    own ([scan_loop], [send_loop], [relay], ...). The endless loops of the threads
    are given by one round; the thread functions of the daemon take the number of
    times their flag is read as true.

    ** What the theorems show

    - Queue: the operations refine a bounded FIFO, wrap-around of the positions
      included; interleaved producers and the consumer exchange the accepted
      elements in ticket order without races and without blocking, as long as no
      rejected push is overtaken; what happens otherwise is shown too. A call
      without interruption does the same on the bytes and in atomic steps. With one
      producer and one consumer every interleaving answers like calls made one
      after the other ([spsc_atomic]); with two producers a pop may miss an
      element that was pushed before ([two_producers_hide]).
    - Priority queue: push keeps the heap order, the top is greatest, no operation
      loses or invents elements; the order that pops really give is shown.
    - Secure C functions: results on every branch, no write outside the
      destination, equivalence of memcpy_s and memmove_s, of strtok_s and a list
      function, exactness of the searches.
    - Remote protocol: the codec round trip and its one defective field, the
      reassembly of the stream however it is split, delivery of a broadcast,
      the table of clients and the descriptors under every sequence of calls.
    - File manager: every sequence of calls returns with the mutex free and only
      the current file open; outcome of write, rotation, clean-up and start on all
      branches; size limits; the compression thread ends, and gives every accepted
      path to gzip once and in order, however its rounds meet the submissions.
    - Transport, pre-log, logger: outcome of a send with reconnection, of a
      diagnostic line, of a message from call to queue; the sender keeps the order.
    - Daemon: the line of an entry always fits; every interleaving of the threads
      hands the accepted datagrams to the file and to the clients once and in
      order; outcomes of start and stop.
    - Viewer: the parser of the options inverts their printing; the texts shown are
      those of the received entries that pass the filters, in order; what a wrong
      command line does.
    - Command line tool: the outcomes of start, stop, status and test as processes
      and their calls; which process is signalled, what is stored and sent.
    - The whole system: under every interleaving of the rounds the daemon handles
      entries of logged messages in the order of logging, and the viewer shows
      handled entries in order with their contents ([system_end_to_end]); what is
      neither refused nor waiting any more has arrived once and in order
      ([system_lossless]); on a kernel that cooperates a schedule of known length
      brings everything to the file and to the viewer ([system_delivers]).

    ** Bounds and fuel

    Loops that are not structural take fuel: the number of the clients or files
    for a scan over them, the length of the buffer for a partial send, the size of
    the memory for the string loops, the number of queued jobs for the drain of the
    compression queue. The specifications prove that the fuel given by the callers
    is enough. Integers are unbounded only where the theorem states the range. The
    schedule [drain] that empties the system has three rounds and 377 rounds of the
    viewer for each message, as a receive may bring a single byte of an entry.

    ** Assumptions

    They are classes with instances that satisfy them: [FileSys] (allocation
    succeeds, [scandir], [stat] and [localtime_r] answer in range), [LocalTime] (the
    same of [localtime_r] alone), [SendLaw] and [RecvLaw] (a transfer moves at most
    what was asked), [ClientsOnly] (only the logging library sends to the socket of
    the daemon), [PidFile] (the file of the process identifier holds no number too
    large for its type), [Alone] (the process that prints the status has one
    thread), [Memcmp] (the sign of memcmp), [OthersOk], [AcceptorsOnly], [FmOthersOk]
    and [PrelogOthersOk] (other threads keep the invariants; the accepting thread is
    proved to). For the system: [Network] (one kernel keeps the datagrams whole and
    in order and the bytes of the connection in order, other threads move none of
    it) and, for the delivery alone, [Cooperative] (nothing is refused, what is
    under way is delivered, no descriptor is handed out twice); [machine] satisfies
    both. The conditions on a run are [steady] (the descriptor of the connection is
    not handed out again, each send on it is taken whole or fails), [all_taken] (it
    is taken), [all_sent] and [can_send] (the same of the application). The
    expansion of a printf format, the scanf family behind the secure
    functions and [strerror] are parameters.

    ** Not modelled

    Memory orderings weaker than the default sequential consistency, which the
    code does not use; the branches for other systems than Linux in silog_time.c and
    silog_adapter.h; tests and build files.
    The system has one application, one viewer and one connection between the viewer
    and the daemon, from its acceptance to its end: a disconnected viewer takes no
    further step there (the reconnection is a part of [cat_round] in Cat.v). The
    rounds of the threads are atomic in System.v, except that clients are accepted
    and the file manager's other threads act whenever a mutex is taken; the
    interleaving of the accesses to a queue is the subject of MpscConc.v. For the
    queues of the daemon, which have one producer and one consumer at a time,
    [spsc_atomic] shows that nothing is lost by that; an application is taken to
    log from one thread at a time. *)

From Stdlib Require Export ZArith Lia.
From stdpp Require Export prelude list.

#[local] Open Scope Z_scope.

(** ** Machine integers

    Every C integer is a [Z]; arithmetic of a w-bit unsigned type is written
    with the wrap-around function of its width, conversions to signed types
    with [i32]. *)

Definition u8 (x : Z) : Z := x mod 2 ^ 8.
Definition u16 (x : Z) : Z := x mod 2 ^ 16.
Definition u32 (x : Z) : Z := x mod 2 ^ 32.
Definition u64 (x : Z) : Z := x mod 2 ^ 64.
Definition i32 (x : Z) : Z := (x + 2 ^ 31) mod 2 ^ 32 - 2 ^ 31.

Definition is_u8 (x : Z) : Prop := 0 <= x < 2 ^ 8.
Definition is_u16 (x : Z) : Prop := 0 <= x < 2 ^ 16.
Definition is_u32 (x : Z) : Prop := 0 <= x < 2 ^ 32.
Definition is_u64 (x : Z) : Prop := 0 <= x < 2 ^ 64.
Definition is_i32 (x : Z) : Prop := - 2 ^ 31 <= x < 2 ^ 31.

Declare Scope silog_scope.
Delimit Scope silog_scope with silog.

(** The length of a list as a C [size_t]. *)
Abbreviation len l := (Z.of_nat (length l)).

Create HintDb silog.
Create Rewrite HintDb silog_int.
Create Rewrite HintDb silog_wrap.

Lemma u32_range x : is_u32 (u32 x).
Proof. apply Z.mod_pos_bound; lia. Qed.
Lemma u64_range x : is_u64 (u64 x).
Proof. apply Z.mod_pos_bound; lia. Qed.
Lemma u16_range x : is_u16 (u16 x).
Proof. apply Z.mod_pos_bound; lia. Qed.
Lemma u8_range x : is_u8 (u8 x).
Proof. apply Z.mod_pos_bound; lia. Qed.
Lemma i32_range x : is_i32 (i32 x).
Proof.
  unfold is_i32, i32. pose proof (Z.mod_pos_bound (x + 2 ^ 31) (2 ^ 32)). lia.
Qed.

Lemma u8_small x : is_u8 x -> u8 x = x.
Proof. apply Z.mod_small. Qed.
Lemma u16_small x : is_u16 x -> u16 x = x.
Proof. apply Z.mod_small. Qed.
Lemma u32_small x : is_u32 x -> u32 x = x.
Proof. apply Z.mod_small. Qed.
Lemma u64_small x : is_u64 x -> u64 x = x.
Proof. apply Z.mod_small. Qed.
Lemma i32_small x : is_i32 x -> i32 x = x.
Proof. unfold is_i32, i32; intros. rewrite Z.mod_small; lia. Qed.

#[export] Hint Resolve u8_range u16_range u32_range u64_range i32_range : silog.
#[export] Hint Rewrite u8_small u16_small u32_small u64_small i32_small
  using (unfold is_u8, is_u16, is_u32, is_u64, is_i32 in *; lia) : silog_int.

Lemma u32_add_l x y : u32 (u32 x + y) = u32 (x + y).
Proof. apply Zplus_mod_idemp_l. Qed.
Lemma u32_add_r x y : u32 (x + u32 y) = u32 (x + y).
Proof. apply Zplus_mod_idemp_r. Qed.
Lemma u32_sub_l x y : u32 (u32 x - y) = u32 (x - y).
Proof. apply Zminus_mod_idemp_l. Qed.
Lemma u32_sub_r x y : u32 (x - u32 y) = u32 (x - y).
Proof. apply Zminus_mod_idemp_r. Qed.
#[export] Hint Rewrite u32_add_l u32_add_r u32_sub_l u32_sub_r : silog_wrap.

(** Two unbounded counters less than 2^32 apart that agree modulo 2^32 are equal. *)
Lemma u32_inj_near x y : Z.abs (x - y) < 2 ^ 32 -> u32 x = u32 y -> x = y.
Proof.
  unfold u32; intros Hd He.
  pose proof (Z.div_mod x (2 ^ 32)). pose proof (Z.div_mod y (2 ^ 32)). lia.
Qed.

(** Congruent numbers closer than the modulus are equal. *)
Lemma mod_inj_near c x y : Z.abs (x - y) < c -> x mod c = y mod c -> x = y.
Proof.
  intros Hd He. assert (Hc : c <> 0) by lia.
  pose proof (Z.div_mod x c Hc). pose proof (Z.div_mod y c Hc).
  assert (x / c = y / c) by nia. nia.
Qed.

(** A power of two below 2^32 divides 2^32, so a 32-bit counter indexes a ring
    of that capacity correctly across wrap-around. *)
Lemma u32_mod_pow2 k x : 0 <= k <= 32 -> u32 x mod 2 ^ k = x mod 2 ^ k.
Proof.
  intros Hk. unfold u32. apply Z.mod_mod_divide.
  exists (2 ^ (32 - k)). rewrite <- Z.pow_add_r by lia. f_equal; lia.
Qed.

(** ** Byte buffers

    A C object of n bytes is a [list Z] of length n. [rd] and [wr] are the
    accesses of [memcpy] to a range of the object; out of bounds is [None]. *)

Definition rd (b : list Z) (off n : Z) : option (list Z) :=
  if (0 <=? off) && (0 <=? n) && (off + n <=? len b)
  then Some (take (Z.to_nat n) (drop (Z.to_nat off) b)) else None.

Definition wr (b : list Z) (off : Z) (d : list Z) : option (list Z) :=
  if (0 <=? off) && (off + len d <=? len b)
  then Some (take (Z.to_nat off) b ++ d ++ drop (Z.to_nat off + length d) b) else None.

Lemma rd_Some b off n :
  0 <= off -> 0 <= n -> off + n <= len b ->
  rd b off n = Some (take (Z.to_nat n) (drop (Z.to_nat off) b)).
Proof. intros. unfold rd. by rewrite !(proj2 (Z.leb_le _ _)) by lia. Qed.

Lemma wr_Some b off d :
  0 <= off -> off + len d <= len b ->
  wr b off d = Some (take (Z.to_nat off) b ++ d ++ drop (Z.to_nat off + length d) b).
Proof. intros. unfold wr. by rewrite !(proj2 (Z.leb_le _ _)) by lia. Qed.

Lemma rd_inv b off n d :
  rd b off n = Some d ->
  0 <= off /\ 0 <= n /\ off + n <= len b /\ d = take (Z.to_nat n) (drop (Z.to_nat off) b).
Proof.
  unfold rd. destruct (_ && _ && _) eqn:E; [|done]. intros [= <-].
  rewrite !andb_true_iff, !Z.leb_le in E. tauto.
Qed.

Lemma wr_length b off d b' : wr b off d = Some b' -> length b' = length b.
Proof.
  unfold wr. destruct (_ && _) eqn:E; [|done]. intros [= <-].
  rewrite andb_true_iff, !Z.leb_le in E.
  rewrite !length_app, length_take, length_drop. lia.
Qed.

Lemma rd_length b off n d : rd b off n = Some d -> len d = n.
Proof.
  intros (?&?&?&->)%rd_inv. rewrite length_take, length_drop. lia.
Qed.

Lemma rd_wr_same b off d b' : wr b off d = Some b' -> rd b' off (len d) = Some d.
Proof.
  intros Hw. pose proof (wr_length _ _ _ _ Hw) as Hl. revert Hw. unfold wr.
  destruct (_ && _) eqn:E; [|done]. intros [= <-].
  rewrite andb_true_iff, !Z.leb_le in E.
  rewrite rd_Some by lia. f_equal.
  rewrite drop_app_length' by (rewrite length_take; lia).
  by rewrite Nat2Z.id, take_app_length.
Qed.

(** A read of a range disjoint from the written one is unaffected. *)
Lemma rd_wr_other b off d b' off' n :
  wr b off d = Some b' -> off' + n <= off \/ off + len d <= off' ->
  rd b' off' n = rd b off' n.
Proof.
  intros Hw Hdis. pose proof (wr_length _ _ _ _ Hw) as Hl. unfold rd. rewrite Hl.
  destruct (_ && _ && _) eqn:E; [|done].
  rewrite !andb_true_iff, !Z.leb_le in E. revert Hw. unfold wr.
  destruct (_ && _) eqn:E2; [|done]. rewrite andb_true_iff, !Z.leb_le in E2.
  intros [= <-]. f_equal. apply list_eq; intros i.
  destruct (decide (i < Z.to_nat n)%nat) as [Hi|Hi]; cycle 1.
  { rewrite !lookup_take_ge by lia. done. }
  rewrite !lookup_take_lt, !lookup_drop by lia.
  destruct Hdis.
  - rewrite lookup_app_l by (rewrite length_take; lia).
    by rewrite lookup_take_lt by lia.
  - rewrite lookup_app_r by (rewrite length_take; lia).
    rewrite lookup_app_r by (rewrite length_take; lia).
    rewrite lookup_drop, length_take. f_equal. lia.
Qed.

(** ** Tactics *)

(** Case analysis on the boolean tests of the code, with the tests of [Z]
    reflected to propositions. *)
Ltac reflectZ :=
  repeat match goal with
  | H : _ && _ = true |- _ => apply andb_true_iff in H as [? ?]
  | H : _ || _ = false |- _ => apply orb_false_iff in H as [? ?]
  | H : negb _ = true |- _ => apply negb_true_iff in H
  | H : negb _ = false |- _ => apply negb_false_iff in H
  | H : (_ =? _) = true |- _ => apply Z.eqb_eq in H
  | H : (_ =? _) = false |- _ => apply Z.eqb_neq in H
  | H : (_ <? _) = true |- _ => apply Z.ltb_lt in H
  | H : (_ <? _) = false |- _ => apply Z.ltb_ge in H
  | H : (_ <=? _) = true |- _ => apply Z.leb_le in H
  | H : (_ <=? _) = false |- _ => apply Z.leb_gt in H
  end.

(** Split the first [if] or [match] of the goal on its scrutinee. *)
Ltac case_if :=
  match goal with
  | |- context [if ?b then _ else _] => destruct b eqn:?
  end; reflectZ.

Ltac case_if_in H :=
  match type of H with
  | context [if ?b then _ else _] => destruct b eqn:?
  end; reflectZ.

(** Decide a boolean test of [Z] in the goal by arithmetic. *)
Ltac ztest :=
  repeat match goal with
  | |- context [?x =? ?y] =>
      first [rewrite (proj2 (Z.eqb_eq x y)) by lia | rewrite (proj2 (Z.eqb_neq x y)) by lia]
  | |- context [?x <? ?y] =>
      first [rewrite (proj2 (Z.ltb_lt x y)) by lia | rewrite (proj2 (Z.ltb_ge x y)) by lia]
  | |- context [?x <=? ?y] =>
      first [rewrite (proj2 (Z.leb_le x y)) by lia | rewrite (proj2 (Z.leb_gt x y)) by lia]
  end.

(** Reduce the monadic binds on [Some] in the goal, and nothing else. *)
Ltac bind_some :=
  repeat (match goal with
          | |- context [mbind ?f (Some ?x)] => change (mbind f (Some x)) with (f x)
          end; cbn beta).
