(* ===== verification/Errors.v ===== *)
(** * Error codes of SiLog (silog_comm/include/silog_error.h) and of the
    bounds-checked library functions (silog_securec.h). *)

From S2P Require Import Prelude.
#[local] Open Scope Z_scope.

(** The enumeration [ErrorCode]; [err] gives each constructor its C value. *)
Inductive ErrorCode :=
  | SILOG_OK
  | SILOG_UNKNOWN | SILOG_INVALID_ARG | SILOG_NULL_PTR | SILOG_OUT_OF_MEMORY
  | SILOG_TIMEOUT | SILOG_NOT_IMPLEMENTED | SILOG_BUSY
  | SILOG_FILE_OPEN | SILOG_FILE_READ | SILOG_FILE_WRITE | SILOG_FILE_NOT_EXIST
  | SILOG_FILE_PERMISSION
  | SILOG_NET_CONNECT | SILOG_NET_FILE_CREATE | SILOG_NET_FILE_OPEN | SILOG_NET_FILE_ERROR
  | SILOG_NET_SEND | SILOG_NET_RECV | SILOG_NET_TIMEOUT | SILOG_NET_CLOSED
  | SILOG_NET_UNREACHABLE
  | SILOG_SYS_CALL | SILOG_SYS_RESOURCE | SILOG_THREAD_CREATE | SILOG_THREAD_JOIN
  | SILOG_MUTEX_LOCK
  | SILOG_STR_TOO_LONG | SILOG_STR_EMPTY | SILOG_STR_ERR
  | SILOG_TRANS_NOT_INIT | SILOG_TRANS_QUEUE_FULL | SILOG_TRANS_QUEUE_EMPTY
  | SILOG_FILE_MANAGER_NOT_INIT.

#[global] Instance ErrorCode_eq_dec : EqDecision ErrorCode.
Proof. solve_decision. Defined.

Definition err (e : ErrorCode) : Z :=
  match e with
  | SILOG_OK => 0
  | SILOG_UNKNOWN => 1000
  | SILOG_INVALID_ARG => 1001
  | SILOG_NULL_PTR => 1002
  | SILOG_OUT_OF_MEMORY => 1003
  | SILOG_TIMEOUT => 1004
  | SILOG_NOT_IMPLEMENTED => 1005
  | SILOG_BUSY => 1006
  | SILOG_FILE_OPEN => 2000
  | SILOG_FILE_READ => 2001
  | SILOG_FILE_WRITE => 2002
  | SILOG_FILE_NOT_EXIST => 2003
  | SILOG_FILE_PERMISSION => 2004
  | SILOG_NET_CONNECT => 3000
  | SILOG_NET_FILE_CREATE => 3001
  | SILOG_NET_FILE_OPEN => 3002
  | SILOG_NET_FILE_ERROR => 3003
  | SILOG_NET_SEND => 3004
  | SILOG_NET_RECV => 3005
  | SILOG_NET_TIMEOUT => 3006
  | SILOG_NET_CLOSED => 3007
  | SILOG_NET_UNREACHABLE => 3008
  | SILOG_SYS_CALL => 4000
  | SILOG_SYS_RESOURCE => 4001
  | SILOG_THREAD_CREATE => 4002
  | SILOG_THREAD_JOIN => 4003
  | SILOG_MUTEX_LOCK => 4004
  | SILOG_STR_TOO_LONG => 5000
  | SILOG_STR_EMPTY => 5001
  | SILOG_STR_ERR => 5002
  | SILOG_TRANS_NOT_INIT => 5003
  | SILOG_TRANS_QUEUE_FULL => 5004
  | SILOG_TRANS_QUEUE_EMPTY => 5005
  | SILOG_FILE_MANAGER_NOT_INIT => 5006
  end.

(** [errno_t] of the bounds-checked functions. *)
Inductive errno_t := EOK | EINVAL | ERANGE.

#[global] Instance errno_t_eq_dec : EqDecision errno_t.
Proof. solve_decision. Defined.

Definition errno_val (e : errno_t) : Z :=
  match e with EOK => 0 | EINVAL => 22 | ERANGE => 34 end.
