(* ===== verification/LogEntry.v ===== *)
(** * Log entries (interface/silog.h, silog_logger/include/silog_logger.h,
    silog_comm/src/silog_utils.c)

    The levels, the fixed-size record that travels between processes, and C
    strings stored in its arrays. *)

From S2P Require Import Prelude Errors.
From stdpp Require Export strings.
#[local] Open Scope Z_scope.

(** ** Levels *)

Inductive silogLevel := SILOG_DEBUG | SILOG_INFO | SILOG_WARN | SILOG_ERROR | SILOG_FATAL.

#[global] Instance silogLevel_eq_dec : EqDecision silogLevel.
Proof. solve_decision. Defined.

(** The value of an enumerator; a variable of the enumeration type may hold any
    unsigned 32-bit value (entries are read from sockets), so the fields and
    arguments of that type are [Z] below. *)
Definition level_val (l : silogLevel) : Z :=
  match l with
  | SILOG_DEBUG => 0 | SILOG_INFO => 1 | SILOG_WARN => 2 | SILOG_ERROR => 3 | SILOG_FATAL => 4
  end.

(** [SilogUtilsLevelToName]: the table has five non-null entries. *)
Definition SilogUtilsLevelToName (level : Z) : string :=
  if (level <? 0) || (5 <=? level) then "UNKNOWN"
  else match level with
       | 0 => "DEBUG" | 1 => "INFO" | 2 => "WARN" | 3 => "ERROR" | _ => "FATAL"
       end.

(** ** The record *)

Definition SILOG_TAG_MAX_LEN : Z := 32.
Definition SILOG_FILE_MAX_LEN : Z := 64.
Definition SILOG_MSG_MAX_LEN : Z := 256.

Record logEntry_t := MkEntry {
  ts : Z;
  pid : Z;
  tid : Z;
  level : Z;
  tag : list Z;
  file : list Z;
  line : Z;
  msg : list Z;
  msgLen : Z;
  enabled : Z
}.

(** An array of [n] bytes. *)
Definition bytes_of (n : Z) (l : list Z) : Prop := len l = n /\ Forall is_u8 l.

(** The type of a [logEntry_t] object. *)
Record entry_typed (e : logEntry_t) : Prop := {
  et_ts : is_u64 (ts e);
  et_pid : is_i32 (pid e);
  et_tid : is_i32 (tid e);
  et_level : is_u32 (level e);
  et_tag : bytes_of SILOG_TAG_MAX_LEN (tag e);
  et_file : bytes_of SILOG_FILE_MAX_LEN (file e);
  et_line : is_u32 (line e);
  et_msg : bytes_of SILOG_MSG_MAX_LEN (msg e);
  et_msgLen : is_u16 (msgLen e);
  et_enabled : is_u8 (enabled e)
}.

(** ** C strings in arrays *)

(** The bytes before the first NUL: [strlen] is its length, provided that there
    is a NUL in the array. *)
Fixpoint cstr (l : list Z) : list Z :=
  match l with
  | [] => []
  | c :: l => if c =? 0 then [] else c :: cstr l
  end.

Definition has_nul (l : list Z) : bool := existsb (Z.eqb 0) l.

Lemma cstr_length l : has_nul l = true -> (length (cstr l) < length l)%nat.
Proof.
  unfold has_nul. induction l as [|c l IH]; cbn [existsb cstr length]; [done|].
  rewrite (Z.eqb_sym 0 c). destruct (c =? 0); simpl; [lia|]. intros H. specialize (IH H). lia.
Qed.

Lemma cstr_prefix l : cstr l = take (length (cstr l)) l.
Proof.
  induction l as [|c l IH]; simpl; [done|]. destruct (c =? 0); simpl; [done|]. by rewrite <- IH.
Qed.

Lemma cstr_no_nul l : Forall (fun c => c <> 0) (cstr l).
Proof.
  induction l as [|c l IH]; simpl; [done|]. destruct (c =? 0) eqn:E; reflectZ; [done|].
  by constructor.
Qed.

Lemma cstr_app_nul s l : Forall (fun c => c <> 0) s -> cstr (s ++ 0 :: l) = s.
Proof.
  induction 1 as [|c s Hc _ IH]; simpl; [done|]. ztest. by rewrite IH.
Qed.

Lemma has_nul_spec l : has_nul l = true <-> 0 ∈ l.
Proof.
  unfold has_nul. rewrite existsb_exists. split.
  - intros (x & Hx & He). reflectZ. subst. by apply list_elem_of_In.
  - intros H. exists 0. split; [by apply list_elem_of_In|done].
Qed.
