(* ===== verification/CObj.v ===== *)
(** * Bounds-checked copies between C objects.

    The contract under which the other components use the functions of
    silog_securec.c: the destination is a range of one object, the source
    another object. [Securec] proves that the definitions translated from
    silog_securec.c meet it in a flat memory.

    The second component of a result is [None] where the C call would access
    memory outside its objects. *)

From S2P Require Import Prelude Errors LogEntry.
#[local] Open Scope Z_scope.

(** [memcpy_s(dst + off, destMax, src, count)]. *)
Definition obj_memcpy_s (dst : list Z) (off destMax : Z) (src : list Z) (count : Z)
    : errno_t * option (list Z) :=
  if destMax =? 0 then (EINVAL, Some dst)
  else if destMax <? count then (ERANGE, Some dst)
  else (EOK, d ← rd src 0 count; wr dst off d).

Lemma rd_all d : rd d 0 (len d) = Some d.
Proof. rewrite rd_Some by lia. by rewrite drop_0, take_ge by lia. Qed.

(** A copy of a whole object of [n] bytes to a range of [n] bytes. *)
Lemma obj_memcpy_s_full dst off n src :
  0 < n -> len src = n -> (obj_memcpy_s dst off n src n).2 = wr dst off src.
Proof.
  intros Hn Hs. unfold obj_memcpy_s. ztest. simpl. by rewrite <- Hs, rd_all.
Qed.

(** [memmove_s(b + doff, destMax, b + soff, count)] inside one object. *)
Definition obj_memmove_s (b : list Z) (doff destMax soff count : Z) : errno_t * option (list Z) :=
  if destMax =? 0 then (EINVAL, Some b)
  else if destMax <? count then (ERANGE, Some b)
  else (EOK, d ← rd b soff count; wr b doff d).

(** [strncpy_s(dst, destMax, src, count)] for a string [src] of which at most
    [count] bytes before the NUL are taken. *)
Definition obj_strncpy_s (dst : list Z) (destMax : Z) (src : list Z) (count : Z)
    : errno_t * option (list Z) :=
  if destMax =? 0 then (EINVAL, Some dst)
  else
    let s := take (Z.to_nat count) src in
    if destMax <=? len s then (ERANGE, wr dst 0 [0])
    else (EOK, wr dst 0 (s ++ [0])).

(** [snprintf_s(dst, destMax, count, ...)] where the expansion of the format is
    [s]: the truncated string with its NUL, then a NUL at the last position; the
    result is the length of the whole expansion. *)
Definition obj_snprintf_s (dst : list Z) (destMax count : Z) (s : list Z) : Z * option (list Z) :=
  if destMax =? 0 then (-1, Some dst)
  else
    let maxWrite := if count <? destMax - 1 then count else destMax - 1 in
    (len s, d ← wr dst 0 (take (Z.to_nat maxWrite) s ++ [0]); wr d maxWrite [0]).

(** [strncat_s(dst, destMax, src, count)]: the string in the first [destMax] bytes
    is extended by at most [count] characters, or nothing happens. *)
Definition obj_strncat_s (dst : list Z) (destMax : Z) (src : list Z) (count : Z)
    : errno_t * option (list Z) :=
  if destMax =? 0 then (EINVAL, Some dst)
  else
    let d := cstr (take (Z.to_nat destMax) dst) in
    let s := take (Z.to_nat count) src in
    if destMax <=? len d + len s then (ERANGE, Some dst)
    else (EOK, wr dst (len d) (s ++ [0])).

(** [vsnprintf(dst + off, size, ...)] of the C library into a part of an object. *)
Definition obj_vsnprintf (dst : list Z) (off size : Z) (s : list Z) : Z * option (list Z) :=
  (len s, if size =? 0 then Some dst else wr dst off (take (Z.to_nat (size - 1)) s ++ [0])).
