(* ===== verification/CMem.v ===== *)
(** * Flat C memory and the string functions of the C library

    The memory in which the functions of silog_securec.c run: a finite map from
    addresses to bytes. An access to an address outside it, a write through the
    null pointer, or a [memcpy] between overlapping ranges is [None]. *)

From S2P Require Import Prelude Errors LogEntry.
From stdpp Require Export gmap.
#[local] Open Scope Z_scope.

Definition memory := gmap Z Z.
Definition NULL : Z := 0.

(** ** Accesses *)

Fixpoint load_n (m : memory) (p : Z) (n : nat) : option (list Z) :=
  match n with
  | O => Some []
  | S n => b ← m !! p; l ← load_n m (p + 1) n; Some (b :: l)
  end.

Definition store (m : memory) (p v : Z) : option memory :=
  match m !! p with Some _ => Some (<[p := v]> m) | None => None end.

Fixpoint store_n (m : memory) (p : Z) (l : list Z) : option memory :=
  match l with
  | [] => Some m
  | b :: l => m ← store m p b; store_n m (p + 1) l
  end.

(** ** The C library *)

Definition memset (m : memory) (p c n : Z) : option memory :=
  store_n m p (replicate (Z.to_nat n) (u8 c)).

Definition memmove (m : memory) (dest src n : Z) : option memory :=
  l ← load_n m src (Z.to_nat n); store_n m dest l.

(** [memcpy] is undefined on ranges that share a byte. *)
Definition memcpy (m : memory) (dest src n : Z) : option memory :=
  if (0 <? n) && (dest <? src + n) && (src <? dest + n) then None else memmove m dest src n.

Fixpoint strnlen_n (m : memory) (p : Z) (n : nat) : option Z :=
  match n with
  | O => Some 0
  | S n => c ← m !! p; if c =? 0 then Some 0 else k ← strnlen_n m (p + 1) n; Some (k + 1)
  end.
Definition strnlen (m : memory) (p n : Z) : option Z := strnlen_n m p (Z.to_nat n).

(** [strlen]: no string is longer than the memory, which bounds the recursion. *)
Fixpoint strlen_n (fuel : nat) (m : memory) (p : Z) : option Z :=
  match fuel with
  | O => None
  | S fuel => c ← m !! p; if c =? 0 then Some 0 else k ← strlen_n fuel m (p + 1); Some (k + 1)
  end.
Definition strlen (m : memory) (p : Z) : option Z := strlen_n (size m) m p.

(** [strchr(p, c) != NULL] for a character other than NUL. *)
Fixpoint strchr_n (fuel : nat) (m : memory) (p c : Z) : option bool :=
  match fuel with
  | O => None
  | S fuel => b ← m !! p; if b =? c then Some true else if b =? 0 then Some false else strchr_n fuel m (p + 1) c
  end.
Definition strchr_found (m : memory) (p c : Z) : option bool := strchr_n (size m) m p c.

(** [memchr]: the address of the first byte equal to [c], or the null pointer. *)
Fixpoint memchr_n (m : memory) (p c : Z) (n : nat) : option Z :=
  match n with
  | O => Some NULL
  | S n => b ← m !! p; if b =? u8 c then Some p else memchr_n m (p + 1) c n
  end.
Definition memchr (m : memory) (p c n : Z) : option Z := memchr_n m p c (Z.to_nat n).

(** [memcmp]: only the sign of its result is specified; [diff] is the value that
    the implementation returns for the first pair of bytes that differ. *)
Class Memcmp := { diff : Z -> Z -> Z; diff_sgn : forall a b, Z.sgn (diff a b) = Z.sgn (a - b) }.
Fixpoint memcmp_l `{!Memcmp} (a b : list Z) : Z :=
  match a, b with
  | x :: a, y :: b => if x =? y then memcmp_l a b else diff x y
  | _, _ => 0
  end.
Definition memcmp `{!Memcmp} (m : memory) (p q n : Z) : option Z :=
  a ← load_n m p (Z.to_nat n); b ← load_n m q (Z.to_nat n); Some (memcmp_l a b).

(** What a formatted print produces: the text of the arguments, or a failure
    after some bytes were stored (a conversion error, or a text longer than
    [INT_MAX]). *)
Inductive expansion := Expands (s : list Z) | Fails (part : list Z).
Definition vsnprintf (m : memory) (dest n : Z) (x : expansion) : option (Z * memory) :=
  match x with
  | Expands s =>
      if n =? 0 then Some (len s, m)
      else m ← store_n m dest (take (Z.to_nat (n - 1)) s ++ [0]); Some (len s, m)
  | Fails part => m ← store_n m dest (take (Z.to_nat n) part); Some (-1, m)
  end.

(** ** What the memory holds *)

(** The bytes [l] are stored from address [p] on. *)
Definition bytes (m : memory) (p : Z) (l : list Z) : Prop :=
  forall i b, l !! i = Some b -> m !! (p + Z.of_nat i) = Some b.

(** [m'] differs from [m] only in the [n] bytes from [p] on. *)
Definition only (m : memory) (p n : Z) (m' : memory) : Prop :=
  forall a, a < p \/ p + n <= a -> m' !! a = m !! a.

(** At most [n] bytes from [p] on hold the string [s]: it ends before, or it
    fills them all. *)
Definition strn (m : memory) (p n : Z) (s : list Z) : Prop :=
  Forall (fun c => c <> 0) s /\
  (len s < n /\ bytes m p (s ++ [0]) \/ len s = n /\ bytes m p s).
Definition cstring (m : memory) (p : Z) (s : list Z) : Prop :=
  Forall (fun c => c <> 0) s /\ bytes m p (s ++ [0]).

Lemma bytes_nil m p : bytes m p [].
Proof. intros i b H. by rewrite lookup_nil in H. Qed.

Lemma bytes_cons m p b l : bytes m p (b :: l) <-> m !! p = Some b /\ bytes m (p + 1) l.
Proof.
  split.
  - intros H. split.
    + specialize (H 0%nat b eq_refl). by rewrite Z.add_0_r in H.
    + intros i c Hi. specialize (H (S i) c Hi). rewrite <- H. f_equal. lia.
  - intros [Hb Hl] [|i] c Hi; cbn in Hi.
    + injection Hi as <-. by rewrite Z.add_0_r.
    + specialize (Hl i c Hi). rewrite <- Hl. f_equal. lia.
Qed.

Lemma bytes_app m p l1 l2 : bytes m p (l1 ++ l2) <-> bytes m p l1 /\ bytes m (p + len l1) l2.
Proof.
  revert p. induction l1 as [|b l1 IH]; intros p; cbn [app].
  - cbn. rewrite Z.add_0_r. split; [|tauto]. intros H. split; [apply bytes_nil|done].
  - rewrite !bytes_cons, IH. cbn [length]. replace (p + Z.of_nat (S (length l1))) with (p + 1 + len l1) by lia. tauto.
Qed.

Lemma bytes_take m p l n : bytes m p l -> bytes m p (take n l).
Proof. intros H. rewrite <- (take_drop n l) in H. by apply bytes_app in H as [? _]. Qed.

Lemma bytes_drop m p l n : bytes m p l -> (n <= length l)%nat -> bytes m (p + Z.of_nat n) (drop n l).
Proof.
  intros H Hn. rewrite <- (take_drop n l) in H. apply bytes_app in H as [_ H].
  rewrite length_take in H. by replace (Z.of_nat n) with (Z.of_nat (n `min` length l)) by lia.
Qed.

Lemma bytes_only m m' p n q l :
  bytes m q l -> only m p n m' -> q + len l <= p \/ p + n <= q -> bytes m' q l.
Proof.
  intros H Ho Hd i b Hi. apply lookup_lt_Some in Hi as Hl. rewrite Ho by lia. by apply H.
Qed.

Lemma load_bytes m p l : bytes m p l -> load_n m p (length l) = Some l.
Proof.
  revert p. induction l as [|b l IH]; intros p H; cbn [load_n length]; [done|].
  apply bytes_cons in H as [-> H]. bind_some. by rewrite IH.
Qed.

Lemma load_bytes_n m p l n :
  bytes m p l -> 0 <= n <= len l -> load_n m p (Z.to_nat n) = Some (take (Z.to_nat n) l).
Proof.
  intros H Hn. rewrite <- (load_bytes m p (take (Z.to_nat n) l)) by by apply bytes_take.
  f_equal. rewrite length_take. lia.
Qed.

Lemma only_refl m p n : only m p n m.
Proof. done. Qed.
Lemma only_weaken m p n m' q k : only m p n m' -> q <= p -> p + n <= q + k -> only m q k m'.
Proof. intros H ?? a Ha. apply H. lia. Qed.
Lemma only_trans m1 m2 m3 p n : only m1 p n m2 -> only m2 p n m3 -> only m1 p n m3.
Proof. intros H1 H2 a Ha. by rewrite H2, H1. Qed.

Lemma store_ok m p v old :
  m !! p = Some old -> store m p v = Some (<[p := v]> m) /\ only m p 1 (<[p := v]> m).
Proof.
  intros H. unfold store. rewrite H. split; [done|]. intros a Ha. apply lookup_insert_ne. lia.
Qed.

(** A store over allocated bytes: it succeeds, the bytes are there, and nothing
    else changes. *)
Lemma store_n_ok m p l old :
  bytes m p old -> length old = length l ->
  exists m', store_n m p l = Some m' /\ bytes m' p l /\ only m p (len l) m'.
Proof.
  revert m p old. induction l as [|b l IH]; intros m p [|o old] H Hl; try done.
  - exists m. split; [done|]. split; [apply bytes_nil|apply only_refl].
  - apply bytes_cons in H as [Ho H]. destruct (store_ok m p b o Ho) as [Hs Hon]. cbn [store_n].
    rewrite Hs. bind_some. cbn [length] in *.
    assert (bytes (<[p:=b]> m) (p + 1) old) as H1 by (eapply bytes_only; [done|done|lia]).
    destruct (IH _ _ _ H1 ltac:(lia)) as (m' & -> & Hb & Ho'). exists m'. split; [done|]. split.
    + apply bytes_cons. split; [|done]. rewrite Ho' by lia. apply lookup_insert_eq.
    + apply only_trans with (<[p:=b]> m).
      * eapply only_weaken; [done|lia|lia].
      * eapply only_weaken; [done|lia|lia].
Qed.

(** A store into the first bytes of a range. *)
Lemma store_prefix m p l old :
  bytes m p old -> (length l <= length old)%nat ->
  exists m', store_n m p l = Some m' /\ bytes m' p (l ++ drop (length l) old) /\ only m p (len old) m'.
Proof.
  intros H Hl. destruct (store_n_ok m p l (take (length l) old)) as (m' & Hs & Hb & Ho);
    [by apply bytes_take|rewrite length_take; lia|].
  exists m'. split; [done|]. split; [|by eapply only_weaken; [done|lia|lia]].
  apply bytes_app. split; [done|]. eapply bytes_only; [by apply bytes_drop| exact Ho|lia].
Qed.

(** ** Strings *)

Lemma strnlen_ok m p n s : strn m p n s -> strnlen m p n = Some (len s).
Proof.
  unfold strnlen. intros [Hs Hb]. revert p n Hb. induction Hs as [|c s Hc _ IH]; intros p n Hb.
  - destruct Hb as [[Hn Hb]|[Hn _]]; [|by subst n].
    destruct (Z.to_nat n) as [|k] eqn:Hk; [done|]. cbn [strnlen_n app] in *.
    apply bytes_cons in Hb as [-> _]. done.
  - destruct (Z.to_nat n) as [|k] eqn:Hk; [cbn in Hb; lia|]. cbn [strnlen_n app length] in *.
    assert (m !! p = Some c /\ strnlen_n m (p + 1) k = Some (len s)) as [-> Hr].
    { destruct Hb as [[Hn Hb]|[Hn Hb]]; apply bytes_cons in Hb as [Hp Hb]; (split; [done|]);
        replace k with (Z.to_nat (n - 1)) by lia; apply IH; [left|right]; split; try done; lia. }
    bind_some. ztest. rewrite Hr. bind_some. f_equal. lia.
Qed.

Lemma strn_bytes m p l : bytes m p l -> strn m p (len l) (cstr l).
Proof.
  intros H. split; [apply cstr_no_nul|]. revert p H. induction l as [|c l IH]; intros p H; cbn [cstr].
  - by right.
  - apply bytes_cons in H as [Hc H]. case_if.
    + left. subst c. split; [simpl; lia|]. apply bytes_cons. split; [done|apply bytes_nil].
    + specialize (IH _ H). cbn [app]. rewrite !bytes_cons. cbn [length]. destruct IH as [[? ?]|[? ?]].
      * left. split; [lia|]. by split.
      * right. split; [lia|]. by split.
Qed.

Lemma strn_cstring m p s n : cstring m p s -> 0 <= n -> strn m p n (take (Z.to_nat n) s).
Proof.
  intros [Hs Hb] Hn. split; [by apply Forall_take|]. destruct (decide (len s < n)).
  - left. rewrite take_ge by lia. done.
  - right. rewrite length_take. split; [lia|]. apply bytes_take. by apply bytes_app in Hb as [? _].
Qed.

Lemma strn_take_bytes m p n s : strn m p n s -> bytes m p s.
Proof. intros [_ [[_ H]|[_ H]]]; [|done]. by apply bytes_app in H as [? _]. Qed.

(** Distinct allocated bytes are at most as many as the memory has. *)
Lemma bytes_size m p l : bytes m p l -> (length l <= size m)%nat.
Proof.
  intros H. rewrite <- (size_dom m).
  assert (length l = size (list_to_set (C:=gset Z) (map (fun i => p + Z.of_nat i) (seq 0 (length l))))) as ->.
  { rewrite size_list_to_set; [by rewrite length_map, length_seq|].
    apply NoDup_fmap_2; [intros ???; lia|apply NoDup_seq]. }
  apply subseteq_size. intros a Ha. apply elem_of_list_to_set, list_elem_of_In, in_map_iff in Ha as (i & <- & Hi).
  apply in_seq in Hi. destruct (lookup_lt_is_Some_2 l i ltac:(lia)) as [b Hb].
  apply elem_of_dom. exists b. by apply H.
Qed.

Lemma strlen_n_ok fuel m p s : cstring m p s -> (length s < fuel)%nat -> strlen_n fuel m p = Some (len s).
Proof.
  intros [Hs Hb]. revert fuel p Hb. induction Hs as [|c s Hc _ IH]; intros [|fuel] p Hb Hf; cbn [length] in *; try lia;
    cbn [strlen_n app] in *; apply bytes_cons in Hb as [-> Hb]; bind_some; [done|].
  ztest. rewrite (IH fuel) by (done || lia). bind_some. f_equal. lia.
Qed.
Lemma strlen_ok m p s : cstring m p s -> strlen m p = Some (len s).
Proof.
  intros H. apply strlen_n_ok; [done|]. destruct H as [_ H]. apply bytes_size in H.
  rewrite length_app in H. cbn in H. lia.
Qed.
