(* ===== verification/Securec.v ===== *)
(** * The bounds-checked functions (silog_comm/src/silog_securec.c)

    Every function over the flat memory of [CMem]. A pointer is an address, 0 is
    the null pointer; an output parameter ([result], [position]) is a flag that
    says whether the pointer is given, with the stored value in the result. The
    result [None] is an undefined behaviour. *)

From S2P Require Import Prelude Errors LogEntry CObj CMem.
#[local] Open Scope Z_scope.

(** ** Memory *)

Definition memset_s (m : memory) (dest destMax c count : Z) : option (errno_t * memory) :=
  if (dest =? NULL) || (destMax =? 0) then Some (EINVAL, m)
  else if destMax <? count then Some (ERANGE, m)
  else m ← memset m dest c count; Some (EOK, m).

Definition memcpy_s (m : memory) (dest destMax src count : Z) : option (errno_t * memory) :=
  if (dest =? NULL) || (destMax =? 0) then Some (EINVAL, m)
  else if src =? NULL then Some (EINVAL, m)
  else if destMax <? count then Some (ERANGE, m)
  else if (src <? dest) && (dest <? src + count) then
    m ← memmove m dest src count; Some (EOK, m)
  else if (dest <? src) && (src <? dest + destMax) then
    m ← memmove m dest src count; Some (EOK, m)
  else
    m ← memcpy m dest src count; Some (EOK, m).

Definition memmove_s (m : memory) (dest destMax src count : Z) : option (errno_t * memory) :=
  if (dest =? NULL) || (destMax =? 0) then Some (EINVAL, m)
  else if src =? NULL then Some (EINVAL, m)
  else if destMax <? count then Some (ERANGE, m)
  else m ← memmove m dest src count; Some (EOK, m).

(** ** Copying and appending strings *)

Definition strcpy_s (m : memory) (dest destMax src : Z) : option (errno_t * memory) :=
  if (dest =? NULL) || (destMax =? 0) then Some (EINVAL, m)
  else if src =? NULL then m ← store m dest 0; Some (EINVAL, m)
  else
    srcLen ← strlen m src;
    if destMax <=? srcLen then m ← store m dest 0; Some (ERANGE, m)
    else m ← memcpy m dest src (srcLen + 1); Some (EOK, m).

Definition strncpy_s (m : memory) (dest destMax src count : Z) : option (errno_t * memory) :=
  if (dest =? NULL) || (destMax =? 0) then Some (EINVAL, m)
  else if src =? NULL then m ← store m dest 0; Some (EINVAL, m)
  else
    srcLen ← strnlen m src count;
    if destMax <=? srcLen then m ← store m dest 0; Some (ERANGE, m)
    else m ← memcpy m dest src srcLen; m ← store m (dest + srcLen) 0; Some (EOK, m).

Definition strcat_s (m : memory) (dest destMax src : Z) : option (errno_t * memory) :=
  if (dest =? NULL) || (destMax =? 0) then Some (EINVAL, m)
  else if src =? NULL then Some (EINVAL, m)
  else
    destLen ← strnlen m dest destMax;
    srcLen ← strlen m src;
    if destMax <=? u64 (destLen + srcLen) then Some (ERANGE, m)
    else m ← memcpy m (dest + destLen) src (srcLen + 1); Some (EOK, m).

Definition strncat_s (m : memory) (dest destMax src count : Z) : option (errno_t * memory) :=
  if (dest =? NULL) || (destMax =? 0) then Some (EINVAL, m)
  else if src =? NULL then Some (EINVAL, m)
  else
    destLen ← strnlen m dest destMax;
    srcLen ← strnlen m src count;
    if destMax <=? u64 (destLen + srcLen) then Some (ERANGE, m)
    else
      m ← memcpy m (dest + destLen) src srcLen;
      m ← store m (dest + destLen + srcLen) 0; Some (EOK, m).

(** ** Comparing and searching *)

Definition strnlen_s (m : memory) (str strMax : Z) : option Z :=
  if (str =? NULL) || (strMax =? 0) then Some 0 else strnlen m str strMax.

Section compare.
Context `{!Memcmp}.

Definition strcmp_s (m : memory) (str1 str1Max str2 str2Max : Z) (result : bool)
    : option (errno_t * option Z) :=
  if negb result then Some (EINVAL, None)
  else if (str1 =? NULL) || (str1Max =? 0) then
    if (str2 =? NULL) || (str2Max =? 0) then Some (EOK, Some 0) else Some (EOK, Some (-1))
  else if (str2 =? NULL) || (str2Max =? 0) then Some (EOK, Some 1)
  else
    len1 ← strnlen m str1 str1Max;
    len2 ← strnlen m str2 str2Max;
    let minLen := if len1 <? len2 then len1 else len2 in
    cmp ← memcmp m str1 str2 minLen;
    if negb (cmp =? 0) then Some (EOK, Some cmp)
    else if len1 <? len2 then Some (EOK, Some (-1))
    else if len2 <? len1 then Some (EOK, Some 1)
    else Some (EOK, Some 0).

Definition strncmp_s (m : memory) (str1 str1Max str2 str2Max count : Z) (result : bool)
    : option (errno_t * option Z) :=
  if negb result then Some (EINVAL, None)
  else if (str1 =? NULL) || (str1Max =? 0) then
    if (str2 =? NULL) || (str2Max =? 0) then Some (EOK, Some 0) else Some (EOK, Some (-1))
  else if (str2 =? NULL) || (str2Max =? 0) then Some (EOK, Some 1)
  else
    len1 ← strnlen m str1 str1Max;
    len2 ← strnlen m str2 str2Max;
    let maxCompare := if len1 <? count then len1 else count in
    let maxCompare := if len2 <? maxCompare then len2 else maxCompare in
    cmp ← memcmp m str1 str2 maxCompare;
    if negb (cmp =? 0) then Some (EOK, Some cmp) else Some (EOK, Some 0).

Definition strchr_s (m : memory) (str strMax c : Z) (position : bool) : option (errno_t * option Z) :=
  if negb position then Some (EINVAL, None)
  else if (str =? NULL) || (strMax =? 0) then Some (EINVAL, Some 0)
  else
    n ← strnlen m str strMax;
    p ← memchr m str c n;
    if p =? NULL then Some (EINVAL, Some 0) else Some (EOK, Some (p - str)).

(** The loop from the last character down to the first. *)
Fixpoint strrchr_loop (i : nat) (m : memory) (str c : Z) : option (errno_t * option Z) :=
  match i with
  | O => Some (EINVAL, Some 0)
  | S i => b ← m !! (str + Z.of_nat i);
           if b =? u8 c then Some (EOK, Some (Z.of_nat i)) else strrchr_loop i m str c
  end.
Definition strrchr_s (m : memory) (str strMax c : Z) (position : bool) : option (errno_t * option Z) :=
  if negb position then Some (EINVAL, None)
  else if (str =? NULL) || (strMax =? 0) then Some (EINVAL, Some 0)
  else n ← strnlen m str strMax; strrchr_loop (Z.to_nat n) m str c.

Fixpoint strstr_loop (fuel : nat) (m : memory) (str substr last subLen i : Z) : option (errno_t * option Z) :=
  match fuel with
  | O => None
  | S fuel =>
      if i <=? last then
        c ← memcmp m (str + i) substr subLen;
        if c =? 0 then Some (EOK, Some i) else strstr_loop fuel m str substr last subLen (i + 1)
      else Some (EINVAL, Some 0)
  end.
Definition strstr_s (m : memory) (str strMax substr substrMax : Z) (position : bool)
    : option (errno_t * option Z) :=
  if negb position then Some (EINVAL, None)
  else if (str =? NULL) || (strMax =? 0) then Some (EINVAL, Some 0)
  else if substr =? NULL then Some (EINVAL, Some 0)
  else
    strLen ← strnlen m str strMax;
    subLen ← strnlen m substr substrMax;
    if subLen =? 0 then Some (EOK, Some 0)
    else if substrMax =? 0 then Some (EINVAL, Some 0)
    else if strLen <? subLen then Some (EINVAL, Some 0)
    else strstr_loop (S (S (Z.to_nat (strLen - subLen)))) m str substr (strLen - subLen) subLen 0.
End compare.

(** ** Splitting *)

(** [while ( **context != 0 && (strchr(strDelimit, **context) != NULL) == skip)
    context++]. *)
Fixpoint strtok_scan (fuel : nat) (skip : bool) (m : memory) (strDelimit c : Z) : option Z :=
  match fuel with
  | O => None
  | S fuel =>
      b ← m !! c;
      if b =? 0 then Some c
      else d ← strchr_found m strDelimit b;
           if eqb d skip then strtok_scan fuel skip m strDelimit (c + 1) else Some c
  end.

(** The token, the new value of [*context] and the memory; [context] is [None]
    for a null pointer. *)
Definition strtok_s (m : memory) (strToken strDelimit : Z) (context : option Z)
    : option (Z * option Z * memory) :=
  match context with
  | None => Some (NULL, None, m)
  | Some c =>
      if strDelimit =? NULL then Some (NULL, Some c, m)
      else
        let c := if negb (strToken =? NULL) then strToken else c in
        if c =? NULL then Some (NULL, Some c, m)
        else
          c ← strtok_scan (size m) true m strDelimit c;
          b ← m !! c;
          if b =? 0 then Some (NULL, Some NULL, m)
          else
            let token := c in
            c ← strtok_scan (size m) false m strDelimit c;
            b ← m !! c;
            if negb (b =? 0) then m ← store m c 0; Some (token, Some (c + 1), m)
            else Some (token, Some NULL, m)
  end.

(** ** Formatted output; the format and its arguments are the [expansion], [None]
    for a null format. *)

Definition sprintf_s (m : memory) (dest destMax : Z) (format : option expansion) : option (Z * memory) :=
  if (dest =? NULL) || (destMax =? 0) then Some (-1, m)
  else match format with
  | None => m ← store m dest 0; Some (-1, m)
  | Some x =>
      r ← vsnprintf m dest destMax x;
      if (r.1 <? 0) || (destMax <=? r.1) then m ← store r.2 dest 0; Some (-1, m) else Some r
  end.

Definition snprintf_s (m : memory) (dest destMax count : Z) (format : option expansion) : option (Z * memory) :=
  if (dest =? NULL) || (destMax =? 0) then Some (-1, m)
  else match format with
  | None => m ← store m dest 0; Some (-1, m)
  | Some x =>
      let maxWrite := if count <? destMax - 1 then count else destMax - 1 in
      r ← vsnprintf m dest (maxWrite + 1) x;
      if r.1 <? 0 then m ← store r.2 dest 0; Some (-1, m)
      else m ← store r.2 (dest + maxWrite) 0; Some (r.1, m)
  end.

Definition vsprintf_s (m : memory) (dest destMax : Z) (format : option expansion) : option (Z * memory) :=
  if (dest =? NULL) || (destMax =? 0) then Some (-1, m)
  else match format with
  | None => m ← store m dest 0; Some (-1, m)
  | Some x =>
      r ← vsnprintf m dest destMax x;
      if (r.1 <? 0) || (destMax <=? r.1) then m ← store r.2 dest 0; Some (-1, m) else Some r
  end.

Definition vsnprintf_s (m : memory) (dest destMax count : Z) (format : option expansion) : option (Z * memory) :=
  if (dest =? NULL) || (destMax =? 0) then Some (-1, m)
  else match format with
  | None => m ← store m dest 0; Some (-1, m)
  | Some x =>
      let maxWrite := if count <? destMax - 1 then count else destMax - 1 in
      r ← vsnprintf m dest (maxWrite + 1) x;
      if r.1 <? 0 then m ← store r.2 dest 0; Some (-1, m)
      else m ← store r.2 (dest + maxWrite) 0; Some (r.1, m)
  end.

(** ** Formatted input: the three functions of the C library are parameters. *)

Section scan.
Context {va_list : Type}.
Context (vsscanf vfscanf : memory -> Z -> Z -> va_list -> option (Z * memory)).
Context (vscanf : memory -> Z -> va_list -> option (Z * memory)).
Definition EOF : Z := -1.

Definition vsscanf_s_internal (m : memory) (buffer format : Z) (args : va_list) : option (Z * memory) :=
  if (buffer =? NULL) || (format =? NULL) then Some (EOF, m) else vsscanf m buffer format args.
Definition sscanf_s (m : memory) (buffer bufferSize format : Z) (args : va_list) : option (Z * memory) :=
  if (buffer =? NULL) || (format =? NULL) then Some (EOF, m) else vsscanf_s_internal m buffer format args.
Definition vsscanf_s (m : memory) (buffer bufferSize format : Z) (args : va_list) : option (Z * memory) :=
  if (buffer =? NULL) || (format =? NULL) then Some (EOF, m) else vsscanf_s_internal m buffer format args.
Definition vfscanf_s (m : memory) (stream format : Z) (args : va_list) : option (Z * memory) :=
  if (stream =? NULL) || (format =? NULL) then Some (EOF, m) else vfscanf m stream format args.
Definition fscanf_s (m : memory) (stream format : Z) (args : va_list) : option (Z * memory) :=
  if (stream =? NULL) || (format =? NULL) then Some (EOF, m) else vfscanf_s m stream format args.
Definition vscanf_s (m : memory) (format : Z) (args : va_list) : option (Z * memory) :=
  if format =? NULL then Some (EOF, m) else vscanf m format args.
Definition scanf_s (m : memory) (format : Z) (args : va_list) : option (Z * memory) :=
  if format =? NULL then Some (EOF, m) else vscanf_s m format args.
End scan.

(** ** Reasoning *)

(** The argument checks passed: neither pointer null, the size positive. *)
Ltac args_ok := rewrite ?(proj2 (Z.eqb_neq _ _)) by (unfold NULL in *; lia); cbn [orb].

Lemma memmove_ok m dest old src l :
  bytes m dest old -> bytes m src l -> (length l <= length old)%nat ->
  exists m', memmove m dest src (len l) = Some m' /\ bytes m' dest (l ++ drop (length l) old) /\
    only m dest (len old) m'.
Proof.
  intros Hd Hs Hl. unfold memmove. rewrite Nat2Z.id, (load_bytes _ _ _ Hs). bind_some.
  by apply store_prefix.
Qed.

Lemma memcpy_disjoint m dest src n :
  n <= 0 \/ dest + n <= src \/ src + n <= dest -> memcpy m dest src n = memmove m dest src n.
Proof.
  intros H. unfold memcpy. destruct (_ && _ && _) eqn:E; [|done]. reflectZ. lia.
Qed.

Lemma store_at m p l i v :
  bytes m p l -> (i < length l)%nat ->
  exists m', store m (p + Z.of_nat i) v = Some m' /\ bytes m' p (<[i := v]> l) /\ only m p (len l) m'.
Proof.
  intros H Hi. destruct (lookup_lt_is_Some_2 l i Hi) as [o Ho].
  destruct (store_ok m (p + Z.of_nat i) v o (H _ _ Ho)) as [-> Hon]. eexists. split; [done|]. split.
  - intros j b Hj. destruct (decide (j = i)) as [->|Hne].
    + rewrite list_lookup_insert_eq in Hj by done. injection Hj as <-. apply lookup_insert_eq.
    + rewrite list_lookup_insert_ne in Hj by done. 
      etrans; [apply lookup_insert_ne; lia|by apply H].
  - eapply only_weaken; [done|lia|lia].
Qed.

(** The first byte cleared: the empty string. *)
Lemma store_empty m p l :
  bytes m p l -> 0 < len l ->
  exists m', store m p 0 = Some m' /\ cstring m' p [] /\ only m p (len l) m'.
Proof.
  intros H Hl. destruct (store_at m p l 0 0 H ltac:(lia)) as (m' & Hs & Hb & Ho).
  rewrite Z.add_0_r in Hs. exists m'. split; [done|]. split; [|done]. split; [constructor|].
  destruct l as [|c l]; [simpl in Hl; lia|]. cbn in Hb. apply bytes_cons in Hb as [? _].
  apply bytes_cons. split; [done|apply bytes_nil].
Qed.

(** *** Strings: a reference for the four functions that build one *)

Inductive str_op := OpCpy | OpNcpy (count : Z) | OpCat | OpNcat (count : Z).

Definition run_str (o : str_op) (m : memory) (dest destMax src : Z) : option (errno_t * memory) :=
  match o with
  | OpCpy => strcpy_s m dest destMax src
  | OpNcpy n => strncpy_s m dest destMax src n
  | OpCat => strcat_s m dest destMax src
  | OpNcat n => strncat_s m dest destMax src n
  end.

(** The string to be built from the old one and the source. *)
Definition str_result (o : str_op) (old s : list Z) : list Z :=
  match o with
  | OpCpy => s
  | OpNcpy n => take (Z.to_nat n) s
  | OpCat => old ++ s
  | OpNcat n => old ++ take (Z.to_nat n) s
  end.
Definition str_copies (o : str_op) : bool := match o with OpCpy | OpNcpy _ => true | _ => false end.
Definition str_count (o : str_op) : Z := match o with OpNcpy n | OpNcat n => n | _ => 0 end.

Lemma cstring_intro m p s l : Forall (fun c => c <> 0) s -> bytes m p (s ++ 0 :: l) -> cstring m p s.
Proof.
  intros Hs Hb. split; [done|]. change (0 :: l) with ([0] ++ l) in Hb. rewrite (assoc_L (++)) in Hb.
  by apply bytes_app in Hb as [? _].
Qed.

(** A string copied behind [a] in a buffer that held [a ++ rest]. *)
Lemma append_ok m dest a rest src s :
  bytes m dest (a ++ rest) -> bytes m src s -> (length s < length rest)%nat ->
  src + len s <= dest \/ dest + len (a ++ rest) <= src ->
  Forall (fun c => c <> 0) a -> Forall (fun c => c <> 0) s ->
  exists m', (m1 ← memcpy m (dest + len a) src (len s); store m1 (dest + len a + len s) 0) = Some m' /\
    cstring m' dest (a ++ s) /\ only m dest (len (a ++ rest)) m'.
Proof.
  intros Hd Hs Hl Hdis Ha Hns. apply bytes_app in Hd as [Hda Hdr]. rewrite length_app in *.
  rewrite memcpy_disjoint by lia.
  destruct (memmove_ok m (dest + len a) rest src s Hdr Hs ltac:(lia)) as (m1 & -> & Hb1 & Ho1). bind_some.
  destruct (store_at m1 (dest + len a) _ (length s) 0 Hb1) as (m2 & -> & Hb2 & Ho2);
    [rewrite length_app, length_drop; lia|].
  exists m2. split; [done|]. rewrite insert_app_r_alt in Hb2 by lia. rewrite Nat.sub_diag in Hb2.
  destruct (drop (length s) rest) as [|c r] eqn:Hr.
  { apply (f_equal length) in Hr. rewrite length_drop in Hr. cbn in Hr. lia. }
  cbn in Hb2. assert (only m (dest + len a) (len rest) m2) as Ho.
  { eapply only_trans; [done|]. eapply only_weaken; [exact Ho2|lia|].
    rewrite <- Hr, length_app, length_drop. lia. }
  split; [|eapply only_weaken; [exact Ho|lia|lia]].
  apply cstring_intro with r; [by apply Forall_app|]. rewrite <- (assoc_L (++)). apply bytes_app.
  split; [|done]. eapply bytes_only; [exact Hda|exact Ho|lia].
Qed.

(** The same with the terminator copied from the source. *)
Lemma append_nul_ok m dest a rest src s :
  bytes m dest (a ++ rest) -> cstring m src s -> (length s < length rest)%nat ->
  src + len s + 1 <= dest \/ dest + len (a ++ rest) <= src ->
  Forall (fun c => c <> 0) a ->
  exists m', memcpy m (dest + len a) src (len s + 1) = Some m' /\
    cstring m' dest (a ++ s) /\ only m dest (len (a ++ rest)) m'.
Proof.
  intros Hd [Hns Hs] Hl Hdis Ha. apply bytes_app in Hd as [Hda Hdr]. rewrite length_app in *.
  rewrite memcpy_disjoint by lia. replace (len s + 1) with (len (s ++ [0])) by (rewrite length_app; simpl; lia).
  destruct (memmove_ok m (dest + len a) rest src _ Hdr Hs) as (m1 & -> & Hb1 & Ho1);
    [rewrite length_app; simpl; lia|].
  exists m1. split; [done|]. split; [|eapply only_weaken; [exact Ho1|lia|lia]].
  rewrite <- (assoc_L (++)) in Hb1. cbn [app] in Hb1.
  eapply cstring_intro; [by apply Forall_app|]. rewrite <- (assoc_L (++)). apply bytes_app.
  split; [|exact Hb1]. eapply bytes_only; [exact Hda|exact Ho1|lia].
Qed.

(** What each of the four does. *)
Lemma run_str_spec o m dest old src s :
  dest <> NULL -> src <> NULL -> 0 < len old < 2 ^ 63 -> len s < 2 ^ 63 -> 0 <= str_count o ->
  bytes m dest old -> cstring m src s ->
  src + len s + 1 <= dest \/ dest + len old <= src ->
  let new := str_result o (cstr old) s in
  exists e m', run_str o m dest (len old) src = Some (e, m') /\ only m dest (len old) m' /\
    if len new <? len old then e = EOK /\ cstring m' dest new
    else e = ERANGE /\ if str_copies o then cstring m' dest [] else m' = m.
Proof.
  intros Hd Hsrc Hold Hs63 Hc Hb Hs Hdis. cbv zeta.
  pose proof (strlen_ok _ _ _ Hs) as Hlen.
  pose proof (strnlen_ok _ _ _ _ (strn_bytes _ _ _ Hb)) as Hdl.
  assert (forall n, 0 <= n -> strnlen m src n = Some (len (take (Z.to_nat n) s))) as Hnl.
  { intros n Hn. by apply strnlen_ok, strn_cstring. }
  assert (bytes m src s) as Hsb by (by destruct Hs as [_ H]; apply bytes_app in H as [? _]).
  assert (forall n, Forall (fun c => c <> 0) (take n s)) as Hns by (intros; apply Forall_take; apply Hs).
  destruct (store_empty m dest old Hb ltac:(lia)) as (m0 & Hst & Hs0 & Ho0).
  pose proof (cstr_no_nul old) as Hcn.
  assert (len (cstr old) <= len old) as Hcl by (rewrite (cstr_prefix old) at 1; rewrite length_take; lia).
  set (rest := drop (length (cstr old)) old).
  assert (old = cstr old ++ rest) as Hsplit
    by (unfold rest; rewrite (cstr_prefix old) at 1; by rewrite take_drop).
  assert (bytes m dest (cstr old ++ rest)) as Hb2 by by rewrite <- Hsplit.
  assert (len rest = len old - len (cstr old)) as Hrl by (unfold rest; rewrite length_drop; lia).
  assert (len (cstr old ++ rest) = len old) as Hal by by rewrite <- Hsplit.
  assert (forall n, len (take n s) <= len s) as Htl by (intros; rewrite length_take; lia).
  destruct o as [|n| |n]; cbn [run_str str_result str_copies str_count] in *;
    [unfold strcpy_s|unfold strncpy_s|unfold strcat_s|unfold strncat_s];
    args_ok; rewrite ?Hdl, ?Hlen, ?(Hnl n Hc); bind_some.
  - case_if; reflectZ; ztest.
    + rewrite Hst. bind_some. by exists ERANGE, m0.
    + destruct (append_nul_ok m dest [] old src s) as (m' & Hm & Hcs & Hon); try done; [lia|].
      rewrite Z.add_0_r in Hm. rewrite Hm. bind_some. by exists EOK, m'.
  - case_if; reflectZ; ztest.
    + rewrite Hst. bind_some. by exists ERANGE, m0.
    + destruct (append_ok m dest [] old src (take (Z.to_nat n) s)) as (m' & Hm & Hcs & Hon); try done;
        [by apply bytes_take|lia|specialize (Htl (Z.to_nat n)); cbn [app]; lia|].
      cbn [length Z.of_nat] in Hm. rewrite Z.add_0_r in Hm.
      destruct (memcpy m dest src (len (take (Z.to_nat n) s))) as [m1|]; [|done].
      change (store m1 (dest + len (take (Z.to_nat n) s)) 0 = Some m') in Hm. bind_some. rewrite Hm. bind_some.
      by exists EOK, m'.
  - rewrite u64_small by (unfold is_u64; lia). rewrite length_app. case_if; reflectZ; ztest.
    + by exists ERANGE, m.
    + destruct (append_nul_ok m dest (cstr old) rest src s) as (m' & Hm & Hcs & Hon); try done; [lia|lia|].
      rewrite Hm. bind_some. exists EOK, m'. rewrite Hal in Hon. done.
  - specialize (Htl (Z.to_nat n)).
    rewrite u64_small by (unfold is_u64; lia). rewrite length_app. case_if; reflectZ; ztest.
    + by exists ERANGE, m.
    + destruct (append_ok m dest (cstr old) rest src (take (Z.to_nat n) s)) as (m' & Hm & Hcs & Hon); try done;
        [by apply bytes_take|lia|lia|].
      destruct (memcpy m (dest + len (cstr old)) src (len (take (Z.to_nat n) s))) as [m1|]; [|done].
      change (store m1 (dest + len (cstr old) + len (take (Z.to_nat n) s)) 0 = Some m') in Hm. bind_some.
      rewrite Hm. bind_some. exists EOK, m'. rewrite Hal in Hon. done.
Qed.
