(* ===== verification/SecurecProps.v ===== *)
(** * Properties of the bounds-checked functions

    The functions of [Securec] against reference definitions on lists: copies,
    string building, comparison, searching, splitting and formatted output; and
    the proof that they meet the contracts of [CObj] that the other components
    use. *)

From S2P Require Import Prelude Errors LogEntry CObj CMem Securec.
#[local] Open Scope Z_scope.

(** ** Comparing *)

(** The lexicographic order of byte strings, as a sign. *)
Fixpoint lex (a b : list Z) : Z :=
  match a, b with
  | [], [] => 0
  | [], _ :: _ => -1
  | _ :: _, [] => 1
  | x :: a, y :: b => if x =? y then lex a b else Z.sgn (x - y)
  end.

Section compare.
Context `{!Memcmp}.

Lemma diff_nonzero x y : x <> y -> diff x y <> 0.
Proof. intros Hn E. pose proof (diff_sgn x y) as Hs. rewrite E in Hs. cbn in Hs. lia. Qed.

Lemma memcmp_l_zero a b : length a = length b -> memcmp_l a b = 0 <-> a = b.
Proof.
  revert b. induction a as [|x a IH]; intros [|y b] Hl; try done. cbn [memcmp_l]. injection Hl as Hl. case_if.
  - subst. rewrite (IH b Hl). split; [by intros ->|by intros [= ->]].
  - split; [intros E; by apply diff_nonzero in E|by intros [= ? _]].
Qed.

Lemma memcmp_load m p q a b :
  bytes m p a -> bytes m q b -> length a = length b -> memcmp m p q (len a) = Some (memcmp_l a b).
Proof.
  intros Ha Hb Hl. unfold memcmp. rewrite Nat2Z.id. rewrite (load_bytes _ _ _ Ha). bind_some.
  rewrite Hl, (load_bytes _ _ _ Hb). done.
Qed.

(** The sign of the comparison of the common part, then of the lengths. *)
Lemma lex_common a b :
  let n := Nat.min (length a) (length b) in
  let c := memcmp_l (take n a) (take n b) in
  lex a b = if negb (c =? 0) then Z.sgn c else Z.sgn (len a - len b).
Proof.
  revert b. induction a as [|x a IH]; intros [|y b]; cbn [lex length Nat.min take memcmp_l]; try done.
  case_if.
  - rewrite IH. cbn zeta. case_if; [done|]. f_equal. lia.
  - rewrite (proj2 (Z.eqb_neq _ _)) by by apply diff_nonzero. cbn [negb]. by rewrite diff_sgn.
Qed.

Lemma strcmp_s_spec m p n a q k b :
  p <> NULL -> q <> NULL -> 0 < n -> 0 < k -> strn m p n a -> strn m q k b ->
  exists r, strcmp_s m p n q k true = Some (EOK, Some r) /\ Z.sgn r = lex a b.
Proof.
  intros Hp Hq Hn Hk Ha Hb. unfold strcmp_s. cbn [negb]. args_ok.
  rewrite (strnlen_ok _ _ _ _ Ha), (strnlen_ok _ _ _ _ Hb). bind_some. rewrite (lex_common a b).
  set (j := Nat.min (length a) (length b)). cbn zeta.
  replace (if len a <? len b then len a else len b) with (len (take j a))
    by (rewrite length_take; case_if; lia).
  rewrite (memcmp_load m p q (take j a) (take j b));
    [|apply bytes_take; by eapply strn_take_bytes|apply bytes_take; by eapply strn_take_bytes
     |rewrite !length_take; lia].
  bind_some. case_if; [by eexists|]. repeat case_if; eexists; (split; [done|]); cbn; lia.
Qed.

Lemma strncmp_s_spec m p n a q k b c :
  p <> NULL -> q <> NULL -> 0 < n -> 0 < k -> 0 <= c -> strn m p n a -> strn m q k b ->
  exists r, strncmp_s m p n q k c true = Some (EOK, Some r) /\
    let j := Nat.min (Z.to_nat c) (Nat.min (length a) (length b)) in
    Z.sgn r = lex (take j a) (take j b).
Proof.
  intros Hp Hq Hn Hk Hc Ha Hb. unfold strncmp_s. cbn [negb]. args_ok.
  rewrite (strnlen_ok _ _ _ _ Ha), (strnlen_ok _ _ _ _ Hb). bind_some.
  set (j := Nat.min (Z.to_nat c) (Nat.min (length a) (length b))). cbn zeta.
  match goal with |- context [memcmp m p q ?x] => replace x with (len (take j a)) end.
  2:{ rewrite length_take. destruct (len a <? c) eqn:?; reflectZ; case_if; lia. }
  assert (length (take j a) = length (take j b)) as Hl by (rewrite !length_take; lia).
  rewrite (memcmp_load m p q (take j a) (take j b)) by
    (done || (apply bytes_take; by eapply strn_take_bytes)).
  bind_some. rewrite (lex_common (take j a) (take j b)). rewrite <- Hl, Nat.min_id. rewrite !(take_ge (take j _)) by lia.
  case_if; cbn [negb]; eexists; (split; [done|]).
  - done.
  - cbn. lia.
Qed.

(** ** Searching *)

Lemma memchr_ok m p c l :
  0 < p -> bytes m p l ->
  memchr_n m p c (length l) = Some NULL /\ (forall b, b ∈ l -> b <> u8 c) \/
  exists i, memchr_n m p c (length l) = Some (p + Z.of_nat i) /\ l !! i = Some (u8 c) /\
    forall j b, (j < i)%nat -> l !! j = Some b -> b <> u8 c.
Proof.
  revert p. induction l as [|x l IH]; intros p Hp Hb; cbn [memchr_n length].
  - left. split; [done|]. intros b Hb'. by apply not_elem_of_nil in Hb'.
  - apply bytes_cons in Hb as [-> Hb]. bind_some. case_if.
    + right. exists 0%nat. rewrite Z.add_0_r. subst x. split; [done|]. split; [done|]. intros j b Hj. lia.
    + destruct (IH (p + 1) ltac:(lia) Hb) as [[-> Hno]|(i & -> & Hi & Hf)].
      * left. split; [done|]. intros b [->|?]%elem_of_cons; [done|by apply Hno].
      * right. exists (S i). split; [f_equal; lia|]. split; [done|]. intros [|j] b Hj Hl.
        -- by injection Hl as <-.
        -- eapply Hf; [|exact Hl]. lia.
Qed.

Lemma strchr_s_spec m p n s c :
  0 < p -> 0 < n -> strn m p n s ->
  (strchr_s m p n c true = Some (EINVAL, Some 0) /\ forall b, b ∈ s -> b <> u8 c) \/
  exists i, strchr_s m p n c true = Some (EOK, Some (Z.of_nat i)) /\ s !! i = Some (u8 c) /\
    forall j b, (j < i)%nat -> s !! j = Some b -> b <> u8 c.
Proof.
  intros Hp Hn Hs. unfold strchr_s. cbn [negb]. args_ok. rewrite (strnlen_ok _ _ _ _ Hs). bind_some.
  unfold memchr. rewrite Nat2Z.id.
  destruct (memchr_ok m p c s Hp (strn_take_bytes _ _ _ _ Hs)) as [[-> ?]|(i & -> & ? & ?)]; bind_some.
  - by left.
  - right. exists i. unfold NULL. ztest. split; [do 3 f_equal; lia|done].
Qed.

Lemma strrchr_loop_ok m p c s k :
  bytes m p s -> (k <= length s)%nat ->
  (strrchr_loop k m p c = Some (EINVAL, Some 0) /\ forall j b, (j < k)%nat -> s !! j = Some b -> b <> u8 c) \/
  exists i, strrchr_loop k m p c = Some (EOK, Some (Z.of_nat i)) /\ s !! i = Some (u8 c) /\
    forall j b, (i < j < k)%nat -> s !! j = Some b -> b <> u8 c.
Proof.
  intros Hb. induction k as [|k IH]; intros Hk; cbn [strrchr_loop].
  - left. split; [done|]. intros j b Hj. lia.
  - destruct (lookup_lt_is_Some_2 s k ltac:(lia)) as [x Hx]. rewrite (Hb _ _ Hx). bind_some. case_if.
    + right. exists k. subst x. split; [done|]. split; [done|]. intros j b Hj. lia.
    + assert (forall j b, j = k -> s !! j = Some b -> b <> u8 c) as Hlast by (intros j b -> Hl; congruence).
      destruct (IH ltac:(lia)) as [[-> Hno]|(i & -> & Hi & Hf)].
      * left. split; [done|]. intros j b Hj Hl. destruct (decide (j = k)); [eauto|]. eapply Hno; [|done]. lia.
      * right. exists i. split; [done|]. split; [done|]. intros j b Hj Hl.
        destruct (decide (j = k)); [eauto|]. eapply Hf; [|done]. lia.
Qed.

Lemma strrchr_s_spec m p n s c :
  p <> NULL -> 0 < n -> strn m p n s ->
  (strrchr_s m p n c true = Some (EINVAL, Some 0) /\ forall j b, s !! j = Some b -> b <> u8 c) \/
  exists i, strrchr_s m p n c true = Some (EOK, Some (Z.of_nat i)) /\ s !! i = Some (u8 c) /\
    forall j b, (i < j)%nat -> s !! j = Some b -> b <> u8 c.
Proof.
  intros Hp Hn Hs. unfold strrchr_s. cbn [negb]. args_ok. rewrite (strnlen_ok _ _ _ _ Hs). bind_some.
  rewrite Nat2Z.id.
  destruct (strrchr_loop_ok m p c s (length s) (strn_take_bytes _ _ _ _ Hs)) as [[-> Hf]|(i & -> & ? & Hf)]; [done| |].
  - left. split; [done|]. intros j b Hl. eapply Hf; [|done]. by eapply lookup_lt_Some.
  - right. exists i. split; [done|]. split; [done|]. intros j b Hj Hl. eapply Hf; [|done].
    split; [done|]. by eapply lookup_lt_Some.
Qed.

(** [u] occurs in [s] at position [i]. *)
Definition occurs (u s : list Z) (i : nat) : Prop := take (length u) (drop i s) = u.

Lemma occurs_fits u s i : occurs u s i -> (0 < length u)%nat -> (i + length u <= length s)%nat.
Proof.
  unfold occurs. intros Ho Hu. apply (f_equal length) in Ho. rewrite length_take, length_drop in Ho. lia.
Qed.

Lemma strstr_loop_ok m p q s u fuel i :
  bytes m p s -> bytes m q u -> (length u <= length s)%nat -> (i <= S (length s - length u))%nat ->
  (S (length s - length u) - i < fuel)%nat ->
  let r := strstr_loop fuel m p q (len s - len u) (len u) (Z.of_nat i) in
  (r = Some (EINVAL, Some 0) /\ forall j, (i <= j)%nat -> (j + length u <= length s)%nat -> ~ occurs u s j) \/
  exists k, r = Some (EOK, Some (Z.of_nat k)) /\ (i <= k)%nat /\ occurs u s k /\
    forall j, (i <= j < k)%nat -> ~ occurs u s j.
Proof.
  intros Hs Hu Hlen. revert i. induction fuel as [|fuel IH]; intros i Hi Hf; [lia|]. cbn zeta. cbn [strstr_loop].
  case_if; cycle 1.
  { left. split; [done|]. intros j Hj Hl. lia. }
  assert (length (take (length u) (drop i s)) = length u) as Hlu by (rewrite length_take, length_drop; lia).
  assert (memcmp m (p + Z.of_nat i) q (len u) = Some (memcmp_l (take (length u) (drop i s)) u)) as ->.
  { rewrite <- Hlu at 1. apply memcmp_load; [apply bytes_take, bytes_drop; [done|lia]|done|done]. }
  bind_some. case_if.
  - right. exists i. split; [done|]. split; [lia|]. split; [by apply memcmp_l_zero|]. intros j Hj. lia.
  - assert (~ occurs u s i) as Hno by (intros Ho; apply Heqb0; by apply memcmp_l_zero).
    replace (Z.of_nat i + 1) with (Z.of_nat (S i)) by lia.
    destruct (IH (S i) ltac:(lia) ltac:(lia)) as [[-> Hn]|(k & -> & Hk & Ho & Hn)].
    + left. split; [done|]. intros j Hj Hl. destruct (decide (j = i)) as [->|]; [done|]. apply Hn; lia.
    + right. exists k. split; [done|]. split; [lia|]. split; [done|]. intros j Hj.
      destruct (decide (j = i)) as [->|]; [done|]. apply Hn. lia.
Qed.

Lemma strstr_s_spec m p n s q k u :
  p <> NULL -> q <> NULL -> 0 < n -> 0 < k -> strn m p n s -> strn m q k u ->
  let r := strstr_s m p n q k true in
  (r = Some (EINVAL, Some 0) /\ forall j, ~ occurs u s j) \/
  exists i, r = Some (EOK, Some (Z.of_nat i)) /\ occurs u s i /\ forall j, (j < i)%nat -> ~ occurs u s j.
Proof.
  intros Hp Hq Hn Hk Hs Hu. cbn zeta. unfold strstr_s. cbn [negb]. args_ok.
  rewrite (strnlen_ok _ _ _ _ Hs), (strnlen_ok _ _ _ _ Hu). bind_some.
  destruct u as [|x u'] eqn:Eu.
  { right. exists 0%nat. split; [done|]. split; [done|]. intros j Hj. lia. }
  rewrite <- Eu in *. assert (0 < length u)%nat as Hpos by (subst; simpl; lia). clear Eu x u'.
  rewrite (proj2 (Z.eqb_neq (len u) 0)) by lia. case_if.
  { left. split; [done|]. intros j Hj%occurs_fits; lia. }
  pose proof (strn_take_bytes _ _ _ _ Hs) as Hsb. pose proof (strn_take_bytes _ _ _ _ Hu) as Hub.
  replace 0 with (Z.of_nat 0) by done.
  destruct (strstr_loop_ok m p q s u (S (S (Z.to_nat (len s - len u)))) 0 Hsb Hub ltac:(lia) ltac:(lia) ltac:(lia))
    as [[-> Hf]|(i & -> & _ & Ho & Hf)].
  - left. split; [done|]. intros j Ho. apply (Hf j); [lia| |done]. by apply occurs_fits.
  - right. exists i. split; [done|]. split; [done|]. intros j Hj. apply Hf. lia.
Qed.
End compare.

(** ** Splitting

    The tokens of a string: its maximal runs of characters that are not
    delimiters, in order. *)

Definition is_delim (d : list Z) (c : Z) : bool := bool_decide (c ∈ d).

Fixpoint tokens_from (d : list Z) (cur : option (list Z)) (s : list Z) : list (list Z) :=
  match s with
  | [] => match cur with Some w => [w] | None => [] end
  | c :: s =>
      if is_delim d c then match cur with
                           | Some w => w :: tokens_from d None s
                           | None => tokens_from d None s
                           end
      else tokens_from d (Some (default [] cur ++ [c])) s
  end.
Definition tokens (d s : list Z) : list (list Z) := tokens_from d None s.

(** All the tokens that repeated calls of [strtok_s] return, read after each call;
    the first call passes the string, the later ones a null pointer. *)
Fixpoint strtok_all (fuel : nat) (m : memory) (strToken strDelimit context : Z) : option (list (list Z) * memory) :=
  match fuel with
  | O => None
  | S fuel =>
      '(token, context, m) ← strtok_s m strToken strDelimit (Some context);
      if token =? NULL then Some ([], m)
      else
        n ← strlen m token;
        s ← load_n m token (Z.to_nat n);
        r ← strtok_all fuel m NULL strDelimit (default NULL context);
        Some (s :: r.1, r.2)
  end.

(** The number of leading characters whose being a delimiter is [skip]. *)
Fixpoint pre (d : list Z) (skip : bool) (s : list Z) : nat :=
  match s with
  | [] => 0
  | c :: s => if eqb (is_delim d c) skip then S (pre d skip s) else 0
  end.

Lemma pre_le d skip s : (pre d skip s <= length s)%nat.
Proof. induction s as [|c s IH]; cbn [pre length]; [done|]. case_if; lia. Qed.

(** After the leading delimiters the string is empty or starts a word. *)
Lemma pre_drop d s : drop (pre d true s) s = [] \/ (0 < pre d false (drop (pre d true s) s))%nat.
Proof.
  induction s as [|c s IH]; cbn [pre]; [by left|]. destruct (is_delim d c) eqn:E; cbn [eqb drop]; [exact IH|].
  right. cbn [pre]. rewrite E. cbn. lia.
Qed.

Lemma tokens_skip d s : tokens d s = tokens d (drop (pre d true s) s).
Proof.
  unfold tokens. induction s as [|c s IH]; cbn [pre]; [done|].
  destruct (is_delim d c) eqn:E; cbn; [by rewrite E|by rewrite E].
Qed.

Lemma tokens_word d acc s :
  tokens_from d (Some acc) s = (acc ++ take (pre d false s) s) :: tokens d (drop (S (pre d false s)) s).
Proof.
  revert acc. induction s as [|c s IH]; intros acc; cbn [pre tokens_from]; [by rewrite app_nil_r|].
  destruct (is_delim d c) eqn:E; cbn.
  - by rewrite app_nil_r.
  - rewrite IH. cbn. by rewrite <- (assoc_L (++)).
Qed.

Lemma tokens_start d s :
  (0 < pre d false s)%nat -> tokens d s = take (pre d false s) s :: tokens d (drop (S (pre d false s)) s).
Proof.
  destruct s as [|c s]; cbn [pre]; [lia|]. unfold tokens at 1. cbn [tokens_from].
  destruct (is_delim d c) eqn:E; cbn; [lia|]. intros _. by rewrite tokens_word.
Qed.

Lemma strchr_found_ok m q d c :
  cstring m q d -> c <> 0 -> strchr_found m q c = Some (is_delim d c).
Proof.
  intros Hd Hc. unfold strchr_found. pose proof (bytes_size _ _ _ (proj2 Hd)) as Hsz.
  rewrite length_app in Hsz. cbn in Hsz. assert (length d < size m)%nat as Hf by lia. clear Hsz.
  destruct Hd as [Hn Hb]. revert q Hb Hf. generalize (size m) as fuel. unfold is_delim.
  induction Hn as [|x d Hx _ IH]; intros [|fuel] q Hb Hf; cbn [length] in *; try lia; cbn [strchr_n app] in *;
    apply bytes_cons in Hb as [-> Hb]; bind_some.
  - by ztest.
  - case_if.
    + f_equal. symmetry. apply bool_decide_eq_true. subst. apply elem_of_cons. by left.
    + ztest. rewrite (IH fuel) by (done || lia). f_equal. apply bool_decide_ext. rewrite elem_of_cons. naive_solver.
Qed.

Lemma strtok_scan_ok m q d skip s fuel c :
  cstring m q d -> cstring m c s -> (length s < fuel)%nat ->
  strtok_scan fuel skip m q c = Some (c + Z.of_nat (pre d skip s)).
Proof.
  intros Hd [Hs Hb]. revert fuel c Hb. induction Hs as [|x s Hx _ IH]; intros [|fuel] c Hb Hf;
    cbn [length] in *; try lia; cbn [strtok_scan pre app] in *; apply bytes_cons in Hb as [-> Hb]; bind_some.
  - ztest. f_equal. lia.
  - ztest. rewrite (strchr_found_ok _ _ _ _ Hd Hx). bind_some. destruct (eqb _ _).
    + rewrite IH by (done || lia). f_equal. lia.
    + f_equal. lia.
Qed.

Lemma cstring_drop m p s n :
  cstring m p s -> (n <= length s)%nat -> cstring m (p + Z.of_nat n) (drop n s).
Proof.
  intros [Hs Hb] Hn. split; [by apply Forall_drop|].
  apply (bytes_drop _ _ _ n) in Hb; [|rewrite length_app; lia]. by rewrite drop_app_le in Hb.
Qed.

Lemma cstring_first m p s : cstring m p s -> m !! p = Some (default 0 (head s)).
Proof. intros [_ Hb]. destruct s; by apply bytes_cons in Hb as [? _]. Qed.

Lemma cstring_fuel m p s : cstring m p s -> (length s < size m)%nat.
Proof. intros [_ H%bytes_size]. rewrite length_app in H. cbn in H. lia. Qed.

(** One call on the string [s] at [c]: no token is left, or the token starts after
    the leading delimiters, and the delimiter behind it is cleared. *)
Lemma strtok_step m strToken q d ctx c s :
  q <> NULL -> 0 < c -> c = (if negb (strToken =? NULL) then strToken else ctx) ->
  cstring m q d -> cstring m c s ->
  let a := pre d true s in let w := drop a s in let b := pre d false w in
  strtok_s m strToken q (Some ctx) =
    match w with
    | [] => Some (NULL, Some NULL, m)
    | _ => match drop b w with
           | [] => Some (c + Z.of_nat a, Some NULL, m)
           | _ => Some (c + Z.of_nat a, Some (c + Z.of_nat (a + b) + 1), <[c + Z.of_nat (a + b) := 0]> m)
           end
    end.
Proof.
  intros Hq Hc0 Hc Hd Hs a w b. unfold strtok_s. args_ok. rewrite <- Hc. args_ok.
  rewrite (strtok_scan_ok m q d true s) by (done || by eapply cstring_fuel). bind_some. fold a.
  assert (a <= length s)%nat as Ha by apply pre_le.
  pose proof (cstring_drop _ _ _ a Hs Ha) as Hw. fold w in Hw.
  pose proof (cstring_first _ _ _ Hw) as Hfst. clearbody w.
  destruct w as [|x w']; [by rewrite Hfst|]. assert (x <> 0) as Hx by (destruct Hw as [Hw _]; by inversion Hw).
  rewrite Hfst. bind_some. cbn [head default]. unfold id. rewrite (proj2 (Z.eqb_neq x 0)) by done.
  rewrite (strtok_scan_ok m q d false (x :: w')) by (done || by eapply cstring_fuel). bind_some. fold b.
  assert (b <= length (x :: w'))%nat as Hb by apply pre_le.
  pose proof (cstring_drop _ _ _ b Hw Hb) as Hr. pose proof (cstring_first _ _ _ Hr) as Hrf. rewrite Hrf. bind_some.
  replace (c + Z.of_nat a + Z.of_nat b) with (c + Z.of_nat (a + b)) in * by lia.
  destruct (drop b (x :: w')) as [|y r]; [done|]. cbn [head default]. unfold id.
  assert (y <> 0) as Hy by (destruct Hr as [Hr _]; by inversion Hr).
  ztest. cbn [negb]. destruct (store_ok m (c + Z.of_nat (a + b)) 0 _ Hrf) as [-> _]. done.
Qed.

Lemma cstring_bytes m p s : cstring m p s -> bytes m p s.
Proof. intros [_ H]. by apply bytes_app in H as [? _]. Qed.

Lemma cstring_read m p s :
  cstring m p s -> strlen m p = Some (len s) /\ load_n m p (Z.to_nat (len s)) = Some s.
Proof. intros H. split; [by apply strlen_ok|]. rewrite Nat2Z.id. by apply load_bytes, cstring_bytes. Qed.

Lemma cstring_take_all m p s n : cstring m p s -> drop n s = [] -> cstring m p (take n s).
Proof. intros H Hd. apply (f_equal length) in Hd. rewrite length_drop in Hd. cbn in Hd. by rewrite take_ge by lia. Qed.

(** Clearing the byte after the first [b] characters splits a string. *)
Lemma cstring_split m p w b y r :
  cstring m p w -> drop b w = y :: r ->
  let m1 := <[p + Z.of_nat b := 0]> m in
  cstring m1 p (take b w) /\ cstring m1 (p + Z.of_nat b + 1) r /\ only m (p + Z.of_nat b) 1 m1.
Proof.
  intros Hw Er m1. assert (b < length w)%nat as Hb.
  { apply (f_equal length) in Er. rewrite length_drop in Er. cbn in Er. lia. }
  pose proof (cstring_drop _ _ _ b Hw ltac:(lia)) as Hr. rewrite Er in Hr.
  destruct (store_ok m (p + Z.of_nat b) 0 y) as [_ Hon]; [by apply cstring_first in Hr|]. fold m1 in Hon.
  assert (len (take b w) = Z.of_nat b) as Htl by (rewrite length_take; lia).
  split; [|split; [|done]].
  - split; [apply Forall_take, Hw|]. apply bytes_app. split.
    + eapply bytes_only; [apply bytes_take; by apply cstring_bytes|exact Hon|lia].
    + rewrite Htl. apply bytes_cons. split; [apply lookup_insert_eq|apply bytes_nil].
  - apply (cstring_drop _ _ _ 1) in Hr as [Hrn Hrb]; [|cbn; lia]. split; [done|].
    eapply bytes_only; [exact Hrb|exact Hon|lia].
Qed.

Lemma cstring_only m m' p n q s :
  cstring m q s -> only m p n m' -> q + len s < p \/ p + n <= q -> cstring m' q s.
Proof.
  intros [Hn Hb] Ho Hd. split; [done|]. eapply bytes_only; [done|done|]. rewrite length_app. cbn. lia.
Qed.

Lemma strtok_all_ok fuel m strToken q d ctx c s :
  q <> NULL -> 0 < c -> c = (if negb (strToken =? NULL) then strToken else ctx) ->
  cstring m q d -> cstring m c s -> q + len d < c \/ c + len s < q -> (length s < fuel)%nat ->
  exists m', strtok_all fuel m strToken q ctx = Some (tokens d s, m') /\ only m c (len s) m'.
Proof.
  revert m strToken ctx c s. induction fuel as [|fuel IH]; intros m strToken ctx c s Hq Hc0 Hc Hd Hs Hdis Hf; [lia|].
  cbn [strtok_all]. rewrite (strtok_step m strToken q d ctx c s) by done. rewrite (tokens_skip d s).
  pose proof (pre_le d true s) as Ha. pose proof (pre_drop d s) as Hpos.
  pose proof (cstring_drop _ _ _ (pre d true s) Hs Ha) as Hw.
  assert (length (drop (pre d true s) s) = length s - pre d true s)%nat as Hlw by apply length_drop.
  set (a := pre d true s) in *. set (w := drop a s) in *. clearbody w.
  destruct (decide (w = [])) as [->|Hne].
  { bind_some. exists m. split; [done|apply only_refl]. }
  destruct Hpos as [?|Hpos]; [done|]. pose proof (pre_le d false w) as Hb. rewrite (tokens_start d w Hpos).
  assert (forall (A : Type) (X Y : A), match w with [] => X | _ :: _ => Y end = Y) as -> by by destruct w.
  set (b := pre d false w) in *.
  assert (drop (S b) w = tail (drop b w)) as ->
    by (rewrite <- Nat.add_1_r, <- drop_drop; by destruct (drop b w)).
  assert (length (drop b w) = length w - b)%nat as Hlr by apply length_drop.
  replace (c + Z.of_nat (a + b)) with (c + Z.of_nat a + Z.of_nat b) by lia.
  destruct (drop b w) as [|y r] eqn:Er.
  - destruct (cstring_read _ _ _ (cstring_take_all _ _ _ b Hw Er)) as [Hl1 Hl2].
    bind_some. cbn beta iota. rewrite (proj2 (Z.eqb_neq _ _)) by (unfold NULL; lia). rewrite Hl1. bind_some. rewrite Hl2. bind_some.
    destruct fuel as [|fuel]; [lia|]. cbn [strtok_all]. unfold strtok_s. args_ok. cbn.
    exists m. split; [done|apply only_refl].
  - destruct (cstring_split m _ w b y r Hw Er) as (Ht & Hr1 & Hon). cbn [length] in *.
    destruct (cstring_read _ _ _ Ht) as [Hl1 Hl2].
    bind_some. cbn beta iota. rewrite (proj2 (Z.eqb_neq _ _)) by (unfold NULL; lia). rewrite Hl1. bind_some. rewrite Hl2. bind_some.
    destruct (IH (<[c + Z.of_nat a + Z.of_nat b:=0]> m) NULL (c + Z.of_nat a + Z.of_nat b + 1) (c + Z.of_nat a + Z.of_nat b + 1) r)
      as (m2 & Hall & Hon2); [done|lia|done|eapply cstring_only; [exact Hd|exact Hon|lia]|done|lia|lia|].
    cbn [default]. unfold id. rewrite Hall. bind_some. exists m2. split; [done|].
    eapply only_trans; (eapply only_weaken; [done|lia|lia]).
Qed.

(** ** The contracts on objects *)

Lemma bytes_rd m p b off n d :
  bytes m p b -> rd b off n = Some d -> load_n m (p + off) (Z.to_nat n) = Some d.
Proof.
  intros Hb (Ho & Hn & Hl & ->)%rd_inv. replace (p + off) with (p + Z.of_nat (Z.to_nat off)) by lia.
  apply load_bytes_n; [apply bytes_drop; [done|lia]|]. rewrite length_drop. lia.
Qed.

Lemma bytes_wr m p b off d b' :
  bytes m p b -> wr b off d = Some b' ->
  exists m', store_n m (p + off) d = Some m' /\ bytes m' p b' /\ only m p (len b) m'.
Proof.
  intros Hb Hw. revert Hw. unfold wr. destruct (_ && _) eqn:E; [|done]. reflectZ. intros [= <-].
  pose proof (bytes_drop _ _ _ (Z.to_nat off) Hb ltac:(lia)) as Hd.
  rewrite Z2Nat.id in Hd by lia.
  destruct (store_prefix m (p + off) d _ Hd) as (m' & -> & Hb' & Ho); [rewrite length_drop; lia|].
  rewrite drop_drop, length_drop in *.
  exists m'. split; [done|]. split; [|eapply only_weaken; [exact Ho|lia|lia]].
  apply bytes_app. rewrite length_take. replace (Z.of_nat (Z.to_nat off `min` length b)) with off by lia.
  split; [|done]. eapply bytes_only; [by apply bytes_take|exact Ho|rewrite length_take; lia].
Qed.

Lemma wr_app b off d1 d2 :
  wr b off (d1 ++ d2) = (b1 ← wr b off d1; wr b1 (off + len d1) d2).
Proof.
  destruct (decide (0 <= off /\ off + len d1 <= len b)) as [[Ho1 Ho2]|Hno].
  - rewrite (wr_Some b off d1) by done. bind_some. set (b1 := take (Z.to_nat off) b ++ d1 ++ drop (Z.to_nat off + length d1) b).
    assert (length b1 = length b) as Hl by (unfold b1; rewrite !length_app, length_take, length_drop; lia).
    unfold wr. rewrite Hl, length_app. replace (off + Z.of_nat (length d1 + length d2)) with (off + len d1 + len d2) by lia.
    rewrite !(proj2 (Z.leb_le 0 _)) by lia. cbn [andb]. case_if; [|done]. f_equal. unfold b1.
    rewrite !(assoc_L (++) (take (Z.to_nat off) b)).
    assert (length (take (Z.to_nat off) b ++ d1) = Z.to_nat (off + len d1)) as HA
      by (rewrite length_app, length_take; lia).
    rewrite take_app_length' by done. rewrite drop_app_ge by lia.
    rewrite drop_drop, HA, <- !(assoc_L (++)). do 4 f_equal. lia.
  - assert (wr b off d1 = None) as ->.
    { unfold wr. destruct (_ && _) eqn:E; [|done]. reflectZ. lia. }
    cbn. unfold wr. rewrite length_app. destruct (_ && _) eqn:E; [|done]. reflectZ. lia.
Qed.

Section objects.
Context (m : memory) (dp : Z) (dst : list Z) (Hdp : 0 < dp) (Hdst : bytes m dp dst).

Definition apart (sp n : Z) : Prop := 0 < sp /\ (sp + n <= dp \/ dp + len dst <= sp).

Lemma memcpy_s_object off destMax sp src count e dst' :
  0 <= off -> 0 <= count -> 0 <= destMax -> bytes m sp src -> apart sp (len src) ->
  obj_memcpy_s dst off destMax src count = (e, Some dst') ->
  exists m', memcpy_s m (dp + off) destMax sp count = Some (e, m') /\ bytes m' dp dst' /\ only m dp (len dst) m'.
Proof.
  intros Hoff Hc Hdm Hs [Hsp Hap]. unfold obj_memcpy_s, memcpy_s.
  rewrite (proj2 (Z.eqb_neq (dp + off) NULL)), (proj2 (Z.eqb_neq sp NULL)) by (unfold NULL; lia). cbn [orb].
  case_if; [intros [= <- <-]; exists m; by split_and!|]. case_if; [intros [= <- <-]; exists m; by split_and!|].
  intros [= <- Hw]. destruct (rd src 0 count) as [d|] eqn:Hrd; [|done]. cbn in Hw.
  pose proof (rd_length _ _ _ _ Hrd) as Hld. pose proof (rd_inv _ _ _ _ Hrd) as (_ & _ & Hcs & _).
  pose proof (bytes_rd _ _ _ _ _ _ Hs Hrd) as Hl. rewrite Z.add_0_r in Hl.
  destruct (bytes_wr _ _ _ _ _ _ Hdst Hw) as (m' & Hst & Hb & Ho).
  assert (memmove m (dp + off) sp count = Some m') as Hmm by (unfold memmove; rewrite Hl; bind_some; done).
  assert (off + len d <= len dst) as Hfit.
  { revert Hw. unfold wr. destruct (_ && _) eqn:E; [|done]. by reflectZ. }
  exists m'. split; [|done]. case_if; [by rewrite Hmm|]. case_if; [by rewrite Hmm|].
  rewrite memcpy_disjoint by lia. by rewrite Hmm.
Qed.

Lemma memmove_s_object doff destMax soff count e dst' :
  0 <= doff -> 0 <= soff -> 0 <= count -> 0 <= destMax ->
  obj_memmove_s dst doff destMax soff count = (e, Some dst') ->
  exists m', memmove_s m (dp + doff) destMax (dp + soff) count = Some (e, m') /\ bytes m' dp dst' /\
    only m dp (len dst) m'.
Proof.
  intros Hd Hs Hc Hdm. unfold obj_memmove_s, memmove_s.
  rewrite (proj2 (Z.eqb_neq (dp + doff) NULL)), (proj2 (Z.eqb_neq (dp + soff) NULL)) by (unfold NULL; lia). cbn [orb].
  case_if; [intros [= <- <-]; exists m; by split_and!|]. case_if; [intros [= <- <-]; exists m; by split_and!|].
  intros [= <- Hw]. destruct (rd dst soff count) as [d|] eqn:Hrd; [|done]. cbn in Hw.
  destruct (bytes_wr _ _ _ _ _ _ Hdst Hw) as (m' & Hst & Hb & Ho).
  exists m'. split; [|done]. unfold memmove. rewrite (bytes_rd _ _ _ _ _ _ Hdst Hrd). bind_some. by rewrite Hst.
Qed.

Lemma strncpy_s_object destMax sp s count e dst' :
  0 <= count -> 0 <= destMax -> cstring m sp s -> apart sp (len s + 1) ->
  obj_strncpy_s dst destMax s count = (e, Some dst') ->
  exists m', strncpy_s m dp destMax sp count = Some (e, m') /\ bytes m' dp dst' /\ only m dp (len dst) m'.
Proof.
  intros Hc Hdm Hs [Hsp Hap]. unfold obj_strncpy_s, strncpy_s.
  rewrite (proj2 (Z.eqb_neq dp NULL)) by (unfold NULL; lia). cbn [orb].
  case_if; [intros [= <- <-]; exists m; by split_and!|].
  rewrite (proj2 (Z.eqb_neq sp NULL)) by (unfold NULL; lia).
  rewrite (strnlen_ok _ _ _ _ (strn_cstring _ _ _ count Hs Hc)). bind_some. set (t := take (Z.to_nat count) s).
  assert (len t <= len s) as Hts by (unfold t; rewrite length_take; lia).
  case_if; intros [= <- Hw].
  - destruct (bytes_wr _ _ _ _ _ _ Hdst Hw) as (m' & Hst & Hb & Ho). rewrite Z.add_0_r in Hst. cbn in Hst.
    exists m'. split; [|done]. destruct (store m dp 0); [|done]. cbn in *. congruence.
  - rewrite wr_app in Hw. destruct (wr dst 0 t) as [d1|] eqn:Hw1; [|done]. cbn [mbind option_bind] in Hw.
    assert (len t <= len dst) as Hfit.
    { revert Hw1. unfold wr. destruct (_ && _) eqn:E; [|done]. by reflectZ. }
    destruct (bytes_wr _ _ _ _ _ _ Hdst Hw1) as (m1 & Hst & Hb & Ho). rewrite Z.add_0_r in Hst.
    destruct (bytes_wr _ _ _ _ _ _ Hb Hw) as (m2 & Hst2 & Hb2 & Ho2).
    rewrite (wr_length _ _ _ _ Hw1) in Ho2. exists m2.
    rewrite memcpy_disjoint by lia. unfold memmove. rewrite Nat2Z.id.
    rewrite (load_bytes m sp t) by (apply bytes_take; by apply cstring_bytes). bind_some. rewrite Hst. bind_some.
    replace (dp + (0 + len t)) with (dp + len t) in Hst2 by lia. cbn in Hst2.
    destruct (store m1 (dp + len t) 0) as [m3|]; [|done]. cbn in *. injection Hst2 as ->.
    split; [done|]. split; [done|]. by eapply only_trans.
Qed.

Lemma strncat_s_object destMax sp s count e dst' :
  0 <= count -> 0 <= destMax <= len dst -> len dst < 2 ^ 63 -> len s < 2 ^ 63 ->
  cstring m sp s -> apart sp (len s + 1) ->
  obj_strncat_s dst destMax s count = (e, Some dst') ->
  exists m', strncat_s m dp destMax sp count = Some (e, m') /\ bytes m' dp dst' /\ only m dp (len dst) m'.
Proof.
  intros Hc Hdm H63 Hs63 Hs [Hsp Hap]. unfold obj_strncat_s, strncat_s.
  rewrite (proj2 (Z.eqb_neq dp NULL)), (proj2 (Z.eqb_neq sp NULL)) by (unfold NULL; lia). cbn [orb].
  case_if; [intros [= <- <-]; exists m; by split_and!|].
  pose proof (strn_bytes _ _ _ (bytes_take _ _ _ (Z.to_nat destMax) Hdst)) as Hd.
  rewrite length_take in Hd. replace (Z.of_nat (Z.to_nat destMax `min` length dst)) with destMax in Hd by lia.
  rewrite (strnlen_ok _ _ _ _ Hd). bind_some.
  rewrite (strnlen_ok _ _ _ _ (strn_cstring _ _ _ count Hs Hc)). bind_some.
  set (t := take (Z.to_nat count) s). set (d := cstr (take (Z.to_nat destMax) dst)) in *.
  assert (len t <= len s) as Hts by (unfold t; rewrite length_take; lia).
  assert (len d <= destMax) as Hdl by (destruct Hd as [_ [[? _]|[? _]]]; lia).
  rewrite (u64_small (len d + len t)) by (unfold is_u64; lia). case_if; intros [= <- Hw].
  { subst. exists m. by split_and!. }
  rewrite wr_app in Hw. destruct (wr dst (len d) t) as [d1|] eqn:Hw1; [|done]. cbn [mbind option_bind] in Hw.
  destruct (bytes_wr _ _ _ _ _ _ Hdst Hw1) as (m1 & Hst & Hb & Ho).
  destruct (bytes_wr _ _ _ _ _ _ Hb Hw) as (m2 & Hst2 & Hb2 & Ho2).
  rewrite (wr_length _ _ _ _ Hw1) in Ho2. exists m2.
  rewrite memcpy_disjoint by lia. unfold memmove. rewrite Nat2Z.id.
  rewrite (load_bytes m sp t) by (apply bytes_take; by apply cstring_bytes). bind_some. rewrite Hst. bind_some.
  replace (dp + (len d + len t)) with (dp + len d + len t) in Hst2 by lia. cbn in Hst2.
  destruct (store m1 (dp + len d + len t) 0) as [m3|]; [|done]. cbn in *. injection Hst2 as ->.
  split; [done|]. split; [done|]. by eapply only_trans.
Qed.

Lemma snprintf_s_object destMax count s r dst' :
  0 <= count -> 0 <= destMax -> obj_snprintf_s dst destMax count s = (r, Some dst') ->
  exists m', snprintf_s m dp destMax count (Some (Expands s)) = Some (r, m') /\
    vsnprintf_s m dp destMax count (Some (Expands s)) = Some (r, m') /\ bytes m' dp dst' /\ only m dp (len dst) m'.
Proof.
  intros Hc Hdm. unfold obj_snprintf_s, snprintf_s, vsnprintf_s.
  rewrite (proj2 (Z.eqb_neq dp NULL)) by (unfold NULL; lia). cbn [orb].
  case_if; [intros [= <- <-]; exists m; by split_and!|].
  set (w := if count <? destMax - 1 then count else destMax - 1). intros [= <- Hw].
  assert (0 <= w) as Hw0 by (unfold w; case_if; lia). unfold vsnprintf. ztest.
  replace (w + 1 - 1) with w by lia. destruct (wr dst 0 (take (Z.to_nat w) s ++ [0])) as [d1|] eqn:Hw1; [|done].
  cbn [mbind option_bind] in Hw.
  destruct (bytes_wr _ _ _ _ _ _ Hdst Hw1) as (m1 & Hst & Hb & Ho). rewrite Z.add_0_r in Hst.
  destruct (bytes_wr _ _ _ _ _ _ Hb Hw) as (m2 & Hst2 & Hb2 & Ho2). rewrite (wr_length _ _ _ _ Hw1) in Ho2.
  rewrite Hst. bind_some. cbn [fst snd]. ztest. cbn in Hst2.
  destruct (store m1 (dp + w) 0) as [m3|]; [|done]. cbn in *. injection Hst2 as ->.
  exists m2. split; [done|]. split; [done|]. split; [done|]. by eapply only_trans.
Qed.
End objects.

(** ** Formatted output *)

Lemma vsnprintf_ok m dest old n s :
  bytes m dest old -> 0 < n <= len old -> Forall (fun c => c <> 0) s ->
  exists m', vsnprintf m dest n (Expands s) = Some (len s, m') /\
    cstring m' dest (take (Z.to_nat (n - 1)) s) /\ only m dest (len old) m' /\
    exists l, length l = length old /\ bytes m' dest l.
Proof.
  intros Hb Hn Hs. unfold vsnprintf. ztest. set (t := take (Z.to_nat (n - 1)) s).
  assert (len t <= n - 1) as Ht by (unfold t; rewrite length_take; lia).
  destruct (store_prefix m dest (t ++ [0]) old Hb) as (m' & -> & Hb' & Ho); [rewrite length_app; cbn; lia|].
  bind_some. exists m'. split; [done|]. split.
  - eapply cstring_intro; [by apply Forall_take|]. rewrite <- (assoc_L (++)) in Hb'. exact Hb'.
  - split; [done|]. eexists. split; [|exact Hb']. rewrite !length_app, length_drop, ?length_app. cbn. lia.
Qed.

Lemma vsnprintf_fails m dest old n part :
  bytes m dest old -> 0 < n <= len old ->
  exists m' l, vsnprintf m dest n (Fails part) = Some (-1, m') /\ bytes m' dest l /\ length l = length old /\
    only m dest (len old) m'.
Proof.
  intros Hb Hn. unfold vsnprintf.
  assert (length (take (Z.to_nat n) part) <= length old)%nat as Hl by (rewrite length_take; lia).
  destruct (store_prefix m dest _ old Hb Hl) as (m' & -> & Hb' & Ho). bind_some. eexists m', _.
  split; [done|]. split; [exact Hb'|]. split; [|done]. rewrite length_app, length_drop. lia.
Qed.

(** The string that a formatted print leaves and its result, [count] limiting the
    characters stored if given. *)
Definition print_result (destMax : Z) (count : option Z) (x : expansion) : Z * list Z :=
  match x, count with
  | Fails _, _ => (-1, [])
  | Expands s, None => if destMax <=? len s then (-1, []) else (len s, s)
  | Expands s, Some n => (len s, take (Z.to_nat (Z.min n (destMax - 1))) s)
  end.

Lemma sprintf_s_spec m dest old x :
  dest <> NULL -> 0 < len old -> bytes m dest old ->
  (forall s, x = Expands s -> Forall (fun c => c <> 0) s) ->
  exists m', sprintf_s m dest (len old) (Some x) = Some ((print_result (len old) None x).1, m') /\
    cstring m' dest (print_result (len old) None x).2 /\ only m dest (len old) m'.
Proof.
  intros Hd Hl Hb Hx. unfold sprintf_s. args_ok. destruct x as [s|part]; cbn [print_result].
  - destruct (vsnprintf_ok m dest old (len old) s Hb ltac:(lia) (Hx s eq_refl)) as (m1 & -> & Hs & Ho & l & Hll & Hbl).
    bind_some. cbn [fst snd]. rewrite (proj2 (Z.ltb_ge (len s) 0)) by lia. cbn [orb]. case_if; cbn [fst snd].
    + destruct (store_empty m1 dest l Hbl ltac:(lia)) as (m2 & -> & H2 & Ho2). bind_some. exists m2.
      split; [done|]. split; [done|]. rewrite Hll in Ho2. by eapply only_trans.
    + exists m1. rewrite take_ge in Hs by lia. done.
  - destruct (vsnprintf_fails m dest old (len old) part Hb ltac:(lia)) as (m1 & l & -> & Hbl & Hll & Ho).
    bind_some. cbn [fst snd Z.ltb orb Z.compare].
    destruct (store_empty m1 dest l Hbl ltac:(lia)) as (m2 & -> & H2 & Ho2). bind_some. exists m2.
    split; [done|]. split; [done|]. rewrite Hll in Ho2. by eapply only_trans.
Qed.

Lemma snprintf_s_spec m dest old count x :
  dest <> NULL -> 0 < len old -> 0 <= count -> bytes m dest old ->
  (forall s, x = Expands s -> Forall (fun c => c <> 0) s) ->
  exists m', snprintf_s m dest (len old) count (Some x) = Some ((print_result (len old) (Some count) x).1, m') /\
    cstring m' dest (print_result (len old) (Some count) x).2 /\ only m dest (len old) m'.
Proof.
  intros Hd Hl Hc Hb Hx. unfold snprintf_s. args_ok.
  replace (if count <? len old - 1 then count else len old - 1) with (Z.min count (len old - 1)) by (case_if; lia).
  set (w := Z.min count (len old - 1)). destruct x as [s|part]; cbn [print_result].
  - specialize (Hx s eq_refl). fold w. destruct (vsnprintf_ok m dest old (w + 1) s Hb ltac:(lia) Hx)
      as (m1 & -> & Hs & Ho & l & Hll & Hbl).
    bind_some. cbn [fst snd]. ztest. replace (w + 1 - 1) with w in Hs by lia. set (t := take (Z.to_nat w) s) in *.
    assert (len t <= w) as Htw by (unfold t; rewrite length_take; lia).
    destruct (store_at m1 dest l (Z.to_nat w) 0 Hbl ltac:(lia)) as (m2 & Hst & Hb2 & Ho2).
    rewrite Z2Nat.id in Hst by lia. rewrite Hst. bind_some. exists m2. split; [done|].
    split; [|rewrite Hll in Ho2; by eapply only_trans]. split; [apply Hs|]. intros i b Hi.
    destruct (decide (i = Z.to_nat w)) as [->|Hne].
    + replace b with 0; [apply Hb2, list_lookup_insert_eq; lia|].
      apply lookup_lt_Some in Hi as Hlt. rewrite length_app in Hlt. cbn in Hlt.
      rewrite lookup_app_r in Hi by lia. replace (Z.to_nat w - length t)%nat with 0%nat in Hi by lia. by injection Hi.
    + apply lookup_lt_Some in Hi as Hlt. rewrite length_app in Hlt. cbn in Hlt.
      apply Hb2. rewrite list_lookup_insert_ne by done.
      destruct (lookup_lt_is_Some_2 l i ltac:(lia)) as [b' Hb']. pose proof (Hbl _ _ Hb') as H1.
      pose proof (proj2 Hs _ _ Hi). congruence.
  - destruct (vsnprintf_fails m dest old (w + 1) part Hb ltac:(lia)) as (m1 & l & -> & Hbl & Hll & Ho).
    bind_some. cbn [fst snd Z.ltb Z.compare].
    destruct (store_empty m1 dest l Hbl ltac:(lia)) as (m2 & -> & H2 & Ho2). bind_some. exists m2.
    split; [done|]. split; [done|]. rewrite Hll in Ho2. by eapply only_trans.
Qed.

(** ** Properties *)

(** [memcpy_s] is [memmove_s]: on all arguments, overlapping or not, it gives
    the same error code and the same memory, with one exception, the copy of a
    positive number of bytes onto themselves, which reaches [memcpy] on
    overlapping ranges. *)
Theorem memcpy_s_is_memmove_s m dest destMax src count :
  0 <= count -> 0 <= destMax ->
  memcpy_s m dest destMax src count =
    if (dest =? src) && negb (dest =? NULL) && (0 <? count) && (count <=? destMax) then None
    else memmove_s m dest destMax src count.
Proof.
  intros Hc Hd. unfold memcpy_s, memmove_s, memcpy.
  destruct (dest =? NULL) eqn:E1; [by rewrite andb_false_r|]. rewrite andb_true_r.
  destruct (destMax =? 0) eqn:E2; cbn [orb]; reflectZ.
  { destruct (_ && _) eqn:E; [|done]. reflectZ. lia. }
  destruct (src =? NULL) eqn:E3; reflectZ.
  { destruct (_ && _) eqn:E; [|done]. reflectZ. lia. }
  destruct (destMax <? count) eqn:E4; reflectZ.
  { destruct (_ && _) eqn:E; [|done]. reflectZ. lia. }
  destruct (dest =? src) eqn:E5; reflectZ.
  - subst src. rewrite Z.ltb_irrefl. cbn [andb]. destruct (0 <? count) eqn:E6; reflectZ; cbn [andb]; [|done].
    by ztest.
  - cbn [andb]. case_if; [done|]. case_if; [done|]. case_if; [|done].
    exfalso. apply andb_false_iff in Heqb as [?|?], Heqb0 as [?|?]; reflectZ; lia.
Qed.

(** C14: The four functions that copy or append strings never write outside the
    destination of the size passed to them, and build exactly the string asked
    for, with its terminator, when it fits; when it does not they return ERANGE,
    and the destination is the empty string after a copy and unchanged after an
    append. *)
Theorem string_functions_build o m dest old src s :
  dest <> NULL -> src <> NULL -> 0 < len old < 2 ^ 63 -> len s < 2 ^ 63 -> 0 <= str_count o ->
  bytes m dest old -> cstring m src s ->
  src + len s + 1 <= dest \/ dest + len old <= src ->
  let new := str_result o (cstr old) s in
  exists e m', run_str o m dest (len old) src = Some (e, m') /\ only m dest (len old) m' /\
    if len new <? len old then e = EOK /\ cstring m' dest new
    else e = ERANGE /\ if str_copies o then cstring m' dest [] else m' = m.
Proof. apply run_str_spec. Qed.

(** [strcmp_s] orders the two bounded strings lexicographically by unsigned
    bytes, whatever non-zero values [memcmp] returns, and [strncmp_s] their first
    characters. *)
Theorem string_comparisons_order `{!Memcmp} m p n a q k b c :
  p <> NULL -> q <> NULL -> 0 < n -> 0 < k -> 0 <= c -> strn m p n a -> strn m q k b ->
  (exists r, strcmp_s m p n q k true = Some (EOK, Some r) /\ Z.sgn r = lex a b) /\
  exists r, strncmp_s m p n q k c true = Some (EOK, Some r) /\
    let j := Nat.min (Z.to_nat c) (Nat.min (length a) (length b)) in
    Z.sgn r = lex (take j a) (take j b).
Proof. intros. split; [by apply strcmp_s_spec|by apply strncmp_s_spec]. Qed.

(** C32: The searches are exact: [strstr_s] reports the first position at which the
    substring occurs, [strchr_s] the first and [strrchr_s] the last position of a
    character, and they report EINVAL only if there is none. *)
Theorem searches_are_exact `{!Memcmp} m p n s q k u c :
  0 < p -> q <> NULL -> 0 < n -> 0 < k -> strn m p n s -> strn m q k u ->
  ((strstr_s m p n q k true = Some (EINVAL, Some 0) /\ forall j, ~ occurs u s j) \/
   exists i, strstr_s m p n q k true = Some (EOK, Some (Z.of_nat i)) /\ occurs u s i /\
     forall j, (j < i)%nat -> ~ occurs u s j) /\
  ((strchr_s m p n c true = Some (EINVAL, Some 0) /\ forall b, b ∈ s -> b <> u8 c) \/
   exists i, strchr_s m p n c true = Some (EOK, Some (Z.of_nat i)) /\ s !! i = Some (u8 c) /\
     forall j b, (j < i)%nat -> s !! j = Some b -> b <> u8 c) /\
  ((strrchr_s m p n c true = Some (EINVAL, Some 0) /\ forall j b, s !! j = Some b -> b <> u8 c) \/
   exists i, strrchr_s m p n c true = Some (EOK, Some (Z.of_nat i)) /\ s !! i = Some (u8 c) /\
     forall j b, (i < j)%nat -> s !! j = Some b -> b <> u8 c).
Proof.
  intros Hp Hq Hn Hk Hs Hu. assert (p <> NULL) by (unfold NULL; lia).
  split; [by apply strstr_s_spec|]. split; [by apply strchr_s_spec|by apply strrchr_s_spec].
Qed.

(** C15: Repeated calls of [strtok_s] return exactly the tokens of the string, its
    maximal runs without delimiters, in order and then a null pointer; they end
    after at most one call more than there are characters, and change nothing
    outside the string. *)
Theorem strtok_returns_tokens m p q d s :
  0 < p -> q <> NULL -> cstring m q d -> cstring m p s -> q + len d < p \/ p + len s < q ->
  exists m', strtok_all (S (length s)) m p q NULL = Some (tokens d s, m') /\ only m p (len s) m'.
Proof.
  intros Hp Hq Hd Hs Hdis. apply strtok_all_ok; try done; [|lia].
  rewrite (proj2 (Z.eqb_neq p NULL)) by (unfold NULL; lia). done.
Qed.

(** C28: The functions meet the contracts on objects under which the other
    components use them: if the contract gives a result for an object [dst], the
    call in any memory that holds [dst] gives the same code, leaves the new
    contents in its place and changes nothing else. *)
Theorem securec_meets_objects m dp dst :
  0 < dp -> bytes m dp dst ->
  (forall off destMax sp src count e dst', 0 <= off -> 0 <= count -> 0 <= destMax ->
     bytes m sp src -> apart dp dst sp (len src) ->
     obj_memcpy_s dst off destMax src count = (e, Some dst') ->
     exists m', memcpy_s m (dp + off) destMax sp count = Some (e, m') /\ bytes m' dp dst' /\ only m dp (len dst) m') /\
  (forall doff destMax soff count e dst', 0 <= doff -> 0 <= soff -> 0 <= count -> 0 <= destMax ->
     obj_memmove_s dst doff destMax soff count = (e, Some dst') ->
     exists m', memmove_s m (dp + doff) destMax (dp + soff) count = Some (e, m') /\ bytes m' dp dst' /\
       only m dp (len dst) m') /\
  (forall destMax sp s count e dst', 0 <= count -> 0 <= destMax -> cstring m sp s -> apart dp dst sp (len s + 1) ->
     obj_strncpy_s dst destMax s count = (e, Some dst') ->
     exists m', strncpy_s m dp destMax sp count = Some (e, m') /\ bytes m' dp dst' /\ only m dp (len dst) m') /\
  (forall destMax sp s count e dst', 0 <= count -> 0 <= destMax <= len dst -> len dst < 2 ^ 63 -> len s < 2 ^ 63 ->
     cstring m sp s -> apart dp dst sp (len s + 1) -> obj_strncat_s dst destMax s count = (e, Some dst') ->
     exists m', strncat_s m dp destMax sp count = Some (e, m') /\ bytes m' dp dst' /\ only m dp (len dst) m') /\
  (forall destMax count s r dst', 0 <= count -> 0 <= destMax ->
     obj_snprintf_s dst destMax count s = (r, Some dst') ->
     exists m', snprintf_s m dp destMax count (Some (Expands s)) = Some (r, m') /\
       vsnprintf_s m dp destMax count (Some (Expands s)) = Some (r, m') /\ bytes m' dp dst' /\
       only m dp (len dst) m').
Proof.
  intros Hdp Hb. split_and!; intros.
  - by eapply memcpy_s_object.
  - by eapply memmove_s_object.
  - by eapply strncpy_s_object.
  - by eapply strncat_s_object.
  - by eapply snprintf_s_object.
Qed.

(** C33: Formatted output never leaves the destination and always leaves a
    terminated string in it. [sprintf_s] and [vsprintf_s] store the whole text or,
    if it does not fit, the empty string with the result -1; [snprintf_s] and
    [vsnprintf_s] store the prefix that fits and return the length of the whole
    text, also when it was truncated. *)
Theorem formatted_output_fits m dest old count x :
  dest <> NULL -> 0 < len old -> 0 <= count -> bytes m dest old ->
  (forall s, x = Expands s -> Forall (fun c => c <> 0) s) ->
  (exists m', sprintf_s m dest (len old) (Some x) = Some ((print_result (len old) None x).1, m') /\
     vsprintf_s m dest (len old) (Some x) = Some ((print_result (len old) None x).1, m') /\
     cstring m' dest (print_result (len old) None x).2 /\ only m dest (len old) m') /\
  exists m', snprintf_s m dest (len old) count (Some x) = Some ((print_result (len old) (Some count) x).1, m') /\
    vsnprintf_s m dest (len old) count (Some x) = Some ((print_result (len old) (Some count) x).1, m') /\
    cstring m' dest (print_result (len old) (Some count) x).2 /\ only m dest (len old) m'.
Proof.
  intros Hd Hl Hc Hb Hx. split.
  - destruct (sprintf_s_spec m dest old x Hd Hl Hb Hx) as (m' & Hs & ?). exists m'. done.
  - destruct (snprintf_s_spec m dest old count x Hd Hl Hc Hb Hx) as (m' & Hs & ?). exists m'. done.
Qed.

(** ** The properties at concrete inputs *)

(** A memory with the given ranges. *)
Definition mem_of (rs : list (Z * list Z)) : memory :=
  foldr (fun r m => list_to_map (zip (map (fun i => r.1 + Z.of_nat i) (seq 0 (length r.2))) r.2) ∪ m) ∅ rs.

Lemma bytes_load m p l : load_n m p (length l) = Some l -> bytes m p l.
Proof.
  revert p. induction l as [|b l IH]; intros p H; [apply bytes_nil|]. cbn [load_n length] in H.
  destruct (m !! p) as [c|] eqn:E; [|done]. cbn [mbind option_bind] in H.
  destruct (load_n m (p + 1) (length l)) as [l'|] eqn:El; [|done]. injection H as -> ->.
  apply bytes_cons. split; [done|]. by apply IH.
Qed.

(** "ab,,c" at 100, "," at 200, ten bytes at 300. *)
Definition demo_mem : memory :=
  mem_of [(100, [97; 98; 44; 44; 99; 0]); (200, [44; 0]); (300, replicate 10 7)].

Lemma demo_text : cstring demo_mem 100 [97; 98; 44; 44; 99].
Proof. split; [by repeat constructor|]. apply bytes_load. vm_compute. reflexivity. Qed.
Lemma demo_delim : cstring demo_mem 200 [44].
Proof. split; [by repeat constructor|]. apply bytes_load. vm_compute. reflexivity. Qed.
Lemma demo_buffer : bytes demo_mem 300 (replicate 10 7).
Proof. apply bytes_load. vm_compute. reflexivity. Qed.

#[export] Instance sub_memcmp : Memcmp := {| diff a b := a - b; diff_sgn _ _ := eq_refl |}.

Lemma memcpy_s_is_memmove_s_witness :
  memcpy_s demo_mem 101 4 100 4 = memmove_s demo_mem 101 4 100 4.
Proof. rewrite memcpy_s_is_memmove_s; [reflexivity|lia|lia]. Defined.

Lemma string_functions_build_witness :
  exists e m', strncpy_s demo_mem 300 10 100 2 = Some (e, m') /\ e = EOK /\ cstring m' 300 [97; 98].
Proof.
  destruct (string_functions_build (OpNcpy 2) demo_mem 300 (replicate 10 7) 100 [97; 98; 44; 44; 99])
    as (e & m' & Hr & _ & He);
    [discriminate|discriminate|cbn; lia|cbn; lia|cbn; lia|exact demo_buffer|exact demo_text|cbn; lia|].
  exists e, m'. split; [exact Hr|exact He].
Defined.

Lemma string_comparisons_order_witness :
  exists r, strcmp_s demo_mem 100 6 200 2 true = Some (EOK, Some r) /\ Z.sgn r = 1.
Proof.
  destruct (string_comparisons_order demo_mem 100 6 [97; 98; 44; 44; 99] 200 2 [44] 1) as [H _];
    [discriminate|discriminate|lia|lia|lia| | |exact H].
  - apply (strn_cstring _ _ _ 6 demo_text). lia.
  - apply (strn_cstring _ _ _ 2 demo_delim). lia.
Defined.

Lemma searches_are_exact_witness :
  strrchr_s demo_mem 100 6 44 true = Some (EOK, Some 3) /\
  ((strstr_s demo_mem 100 6 200 2 true = Some (EINVAL, Some 0) /\ forall j, ~ occurs [44] [97; 98; 44; 44; 99] j) \/
   exists i, strstr_s demo_mem 100 6 200 2 true = Some (EOK, Some (Z.of_nat i)) /\ occurs [44] [97; 98; 44; 44; 99] i /\
     forall j, (j < i)%nat -> ~ occurs [44] [97; 98; 44; 44; 99] j).
Proof.
  split; [vm_compute; reflexivity|].
  apply (searches_are_exact demo_mem 100 6 [97; 98; 44; 44; 99] 200 2 [44] 44); [lia|discriminate|lia|lia| |].
  - apply (strn_cstring _ _ _ 6 demo_text). lia.
  - apply (strn_cstring _ _ _ 2 demo_delim). lia.
Defined.

Lemma strtok_returns_tokens_witness :
  exists m', strtok_all 6 demo_mem 100 200 NULL = Some ([[97; 98]; [99]], m') /\ only demo_mem 100 5 m'.
Proof.
  apply (strtok_returns_tokens demo_mem 100 200 [44] [97; 98; 44; 44; 99]);
    [lia|discriminate|exact demo_delim|exact demo_text|cbn; lia].
Defined.

Lemma securec_meets_objects_witness :
  exists m', snprintf_s demo_mem 300 10 9 (Some (Expands [104; 105])) = Some (2, m') /\
    bytes m' 300 [104; 105; 0; 7; 7; 7; 7; 7; 7; 0].
Proof.
  destruct (securec_meets_objects demo_mem 300 (replicate 10 7)) as (_ & _ & _ & _ & H);
    [lia|exact demo_buffer|].
  destruct (H 10 9 [104; 105] 2 [104; 105; 0; 7; 7; 7; 7; 7; 7; 0]) as (m' & Hs & _ & Hb & _);
    [lia|lia|reflexivity|]. exists m'. split; [exact Hs|exact Hb].
Defined.

Lemma formatted_output_fits_witness :
  exists m', snprintf_s demo_mem 300 10 3 (Some (Expands [104; 101; 108; 108; 111])) = Some (5, m') /\
    cstring m' 300 [104; 101; 108].
Proof.
  destruct (formatted_output_fits demo_mem 300 (replicate 10 7) 3 (Expands [104; 101; 108; 108; 111]))
    as [_ (m' & Hs & _ & Hc & _)]; [discriminate|cbn; lia|lia|exact demo_buffer| |].
  - intros s [= <-]. by repeat constructor.
  - exists m'. split; [exact Hs|exact Hc].
Defined.
