(* ===== verification/Mpsc.v ===== *)
(** * The multi-producer single-consumer ring (silog_comm/src/silog_mpsc.c)

    The queue run by one thread at a time: [SilogMpscQueueInit],
    [SilogMpscQueuePush], [SilogMpscQueuePop] and [SilogMpscQueueDestroy],
    translated at the level of bytes and 32-bit counters, refine a bounded
    FIFO of elements. Interleaved executions are the subject of [MpscConc]. *)

From S2P Require Import Prelude Errors CObj.
#[local] Open Scope Z_scope.

(** ** Data *)

(** [SiLogMpscQueue]: [None] is a null pointer, the buffer is the malloc'ed
    object, the [atomic_uint] array a list of 32-bit values. *)
Record SiLogMpscQueue := MkMpsc {
  mq_buffer : option (list Z);
  mq_elementSize : Z;
  mq_capacity : Z;
  mq_writePos : Z;
  mq_readPos : Z;
  mq_seq : option (list Z);
  mq_capacityMask : Z
}.

Definition set_writePos (w : Z) (q : SiLogMpscQueue) : SiLogMpscQueue :=
  MkMpsc (mq_buffer q) (mq_elementSize q) (mq_capacity q) w (mq_readPos q) (mq_seq q)
    (mq_capacityMask q).
Definition set_readPos (r : Z) (q : SiLogMpscQueue) : SiLogMpscQueue :=
  MkMpsc (mq_buffer q) (mq_elementSize q) (mq_capacity q) (mq_writePos q) r (mq_seq q)
    (mq_capacityMask q).
Definition set_seq (s : option (list Z)) (q : SiLogMpscQueue) : SiLogMpscQueue :=
  MkMpsc (mq_buffer q) (mq_elementSize q) (mq_capacity q) (mq_writePos q) (mq_readPos q) s
    (mq_capacityMask q).
Definition set_buffer (b : option (list Z)) (q : SiLogMpscQueue) : SiLogMpscQueue :=
  MkMpsc b (mq_elementSize q) (mq_capacity q) (mq_writePos q) (mq_readPos q) (mq_seq q)
    (mq_capacityMask q).

(** ** Operations *)

(** The initialisation loop [seq[i] = i] over an allocated array. *)
Definition seq_init (s : list Z) (capacity : Z) : list Z :=
  foldl (fun s i => <[i := Z.of_nat i]> s) s (seq 0 (Z.to_nat capacity)).

(** [SilogMpscQueueInit]; [lq] is the queue pointer, [mem] and [seqmem] are the
    results of the two allocations, of [u32 (elementSize * capacity)] bytes (a
    32-bit product) and of [capacity] atomic integers. *)
Definition mpsc_init (mem seqmem : option (list Z)) (elementSize capacity : Z)
    (q : SiLogMpscQueue) : ErrorCode * SiLogMpscQueue :=
  if (elementSize =? 0) || (capacity =? 0) then (SILOG_INVALID_ARG, q)
  else if negb (Z.land capacity (u32 (capacity - 1)) =? 0) then (SILOG_INVALID_ARG, q)
  else match mem with
  | None => (SILOG_OUT_OF_MEMORY, set_buffer None q)
  | Some b =>
    match seqmem with
    | None => (SILOG_OUT_OF_MEMORY, set_seq None (set_buffer None q))
    | Some s =>
      (SILOG_OK, MkMpsc (Some b) elementSize capacity 0 0
                   (Some (seq_init s capacity)) (u32 (capacity - 1)))
    end
  end.

Definition SilogMpscQueueInit (mem seqmem : option (list Z)) (elementSize capacity : Z)
    (lq : option SiLogMpscQueue) : ErrorCode * option SiLogMpscQueue :=
  match lq with
  | None => (SILOG_INVALID_ARG, None)
  | Some q => let '(ret, q) := mpsc_init mem seqmem elementSize capacity q in (ret, Some q)
  end.

Definition mpsc_destroy (q : SiLogMpscQueue) : SiLogMpscQueue :=
  let q := match mq_buffer q with Some _ => set_buffer None q | None => q end in
  match mq_seq q with Some _ => set_seq None q | None => q end.

Definition SilogMpscQueueDestroy (lq : option SiLogMpscQueue) : option SiLogMpscQueue :=
  mpsc_destroy <$> lq.

(** The compare-and-swap loop on [seq[index]] when no other thread runs: it
    exchanges at once, or leaves through the [expected == desired] exit, or
    spins for ever ([None]). *)
Definition cas_seq (s : list Z) (index : Z) (write desired : Z) : option (list Z) :=
  x ← s !! Z.to_nat index;
  if x =? write then Some (<[Z.to_nat index := desired]> s)
  else if x =? desired then Some s
  else None.

(** [SilogMpscQueuePush] after its null-pointer guard. [None]: the call would
    not return or would access memory outside its objects. *)
Definition mpsc_push (element : list Z) (q : SiLogMpscQueue)
    : option (ErrorCode * SiLogMpscQueue) :=
  match mq_buffer q, mq_seq q with
  | Some b, Some s =>
    if mq_capacity q =? 0 then Some (SILOG_TRANS_NOT_INIT, q)
    else
      let write := mq_writePos q in
      let q := set_writePos (u32 (write + 1)) q in
      let read := mq_readPos q in
      if mq_capacity q <=? u32 (write - read)
      then Some (SILOG_TRANS_QUEUE_FULL, set_writePos (u32 (mq_writePos q - 1)) q)
      else
        let index := Z.land write (mq_capacityMask q) in
        let desired := u32 (write + mq_capacity q) in
        s ← cas_seq s index write desired;
        b ← (obj_memcpy_s b (u32 (index * mq_elementSize q)) (mq_elementSize q)
               element (mq_elementSize q)).2;
        s ← Some (<[Z.to_nat index := u32 (write + 1)]> s);
        Some (SILOG_OK, set_seq (Some s) (set_buffer (Some b) q))
  | _, _ => Some (SILOG_TRANS_NOT_INIT, q)
  end.

Definition SilogMpscQueuePush (lq : option SiLogMpscQueue) (element : option (list Z))
    : option (ErrorCode * option SiLogMpscQueue) :=
  match lq, element with
  | Some q, Some e => '(ret, q) ← mpsc_push e q; Some (ret, Some q)
  | _, _ => Some (SILOG_INVALID_ARG, lq)
  end.

(** [SilogMpscQueuePop] after its null-pointer guard; the third component is
    what is copied to [outElement], if anything. *)
Definition mpsc_pop (q : SiLogMpscQueue)
    : option (ErrorCode * SiLogMpscQueue * option (list Z)) :=
  match mq_buffer q, mq_seq q with
  | Some b, Some s =>
    let read := mq_readPos q in
    let index := Z.land read (mq_capacityMask q) in
    sq ← s !! Z.to_nat index;
    if negb (sq =? u32 (read + 1)) then Some (SILOG_TRANS_QUEUE_EMPTY, q, None)
    else
      out ← rd b (u32 (index * mq_elementSize q)) (mq_elementSize q);
      let s := <[Z.to_nat index := u32 (read + mq_capacity q)]> s in
      Some (SILOG_OK, set_readPos (u32 (read + 1)) (set_seq (Some s) q), Some out)
  | _, _ => Some (SILOG_TRANS_NOT_INIT, q, None)
  end.

(** [outElement] tells whether the output pointer is not null. *)
Definition SilogMpscQueuePop (lq : option SiLogMpscQueue) (outElement : bool)
    : option (ErrorCode * option SiLogMpscQueue * option (list Z)) :=
  match lq, outElement with
  | Some q, true => '(ret, q, out) ← mpsc_pop q; Some (ret, Some q, out)
  | _, _ => Some (SILOG_INVALID_ARG, lq, None)
  end.

(** ** Specification: a bounded FIFO

    What a queue of byte elements promises to its clients. [fifo_repr q l]
    says that [q] holds the elements [l], oldest first. *)
Class Fifo (Q : Type) (push : list Z -> Q -> option (ErrorCode * Q))
    (pop : Q -> option (ErrorCode * Q * option (list Z))) (elementSize capacity : Z) := {
  fifo_repr : Q -> list (list Z) -> Prop;
  fifo_bound : forall q l, fifo_repr q l -> len l <= capacity;
  fifo_push_ok : forall q l e, fifo_repr q l -> len e = elementSize -> len l < capacity ->
    exists q', push e q = Some (SILOG_OK, q') /\ fifo_repr q' (l ++ [e]);
  fifo_push_full : forall q l e, fifo_repr q l -> len l = capacity ->
    exists q', push e q = Some (SILOG_TRANS_QUEUE_FULL, q') /\ fifo_repr q' l;
  fifo_pop_ok : forall q l e, fifo_repr q (e :: l) ->
    exists q', pop q = Some (SILOG_OK, q', Some e) /\ fifo_repr q' l;
  fifo_pop_empty : forall q, fifo_repr q [] -> pop q = Some (SILOG_TRANS_QUEUE_EMPTY, q, None)
}.

(** ** Representation invariant

    The 32-bit positions are the images of unbounded counters [r] (elements
    popped so far) and [w] (elements pushed so far). Slot [i mod capacity] is
    ready for the consumer at ticket [i] when its sequence number is [i + 1],
    and free for the producer of ticket [i] when it is [i]. *)
Record mpsc_inv (r w : Z) (l : list (list Z)) (b s : list Z) (q : SiLogMpscQueue) : Prop := {
  inv_es : 0 < mq_elementSize q;
  inv_cap : exists k, 0 <= k <= 31 /\ mq_capacity q = 2 ^ k;
  inv_fit : mq_elementSize q * mq_capacity q < 2 ^ 32;
  inv_mask : mq_capacityMask q = mq_capacity q - 1;
  inv_pos : r <= w <= r + mq_capacity q;
  inv_w : mq_writePos q = u32 w;
  inv_r : mq_readPos q = u32 r;
  inv_len : len l = w - r;
  inv_b : mq_buffer q = Some b;
  inv_s : mq_seq q = Some s;
  inv_blen : len b = mq_elementSize q * mq_capacity q;
  inv_slen : len s = mq_capacity q;
  inv_data : forall i e, l !! i = Some e ->
    rd b (((r + Z.of_nat i) mod mq_capacity q) * mq_elementSize q) (mq_elementSize q) = Some e;
  inv_ready : forall i, r <= i < w -> s !! Z.to_nat (i mod mq_capacity q) = Some (u32 (i + 1));
  inv_free : forall i, w <= i < r + mq_capacity q ->
    s !! Z.to_nat (i mod mq_capacity q) = Some (u32 i)
}.

Definition mpsc_repr (elementSize capacity : Z) (q : SiLogMpscQueue) (l : list (list Z)) : Prop :=
  mq_elementSize q = elementSize /\ mq_capacity q = capacity /\
  exists r w b s, mpsc_inv r w l b s q.

(** ** Ring arithmetic *)

Lemma ring_index k mask w :
  0 <= k <= 31 -> mask = 2 ^ k - 1 -> Z.land (u32 w) mask = w mod 2 ^ k.
Proof.
  intros Hk ->. replace (2 ^ k - 1) with (Z.ones k) by (rewrite Z.ones_equiv; lia).
  rewrite Z.land_ones by lia. apply u32_mod_pow2; lia.
Qed.

(** The byte offset of a slot does not wrap when the whole buffer fits in 32 bits. *)
Lemma slot_offset es cap i :
  0 < es -> 0 < cap -> es * cap < 2 ^ 32 ->
  u32 ((i mod cap) * es) = (i mod cap) * es /\
  0 <= (i mod cap) * es /\ (i mod cap) * es + es <= es * cap.
Proof.
  intros. pose proof (Z.mod_pos_bound i cap ltac:(lia)).
  split; [apply u32_small; unfold is_u32|]; nia.
Qed.

Lemma slots_disjoint es cap i j :
  0 < es -> 0 < Z.abs (i - j) < cap ->
  (j mod cap) * es + es <= (i mod cap) * es \/ (i mod cap) * es + es <= (j mod cap) * es.
Proof.
  intros Hes Hij. assert (i mod cap <> j mod cap).
  { intros He. apply mod_inj_near in He; lia. }
  nia.
Qed.

Lemma slot_neq cap i j :
  0 < cap -> 0 < Z.abs (i - j) < cap -> Z.to_nat (i mod cap) <> Z.to_nat (j mod cap).
Proof.
  intros Hc Hij He. pose proof (Z.mod_pos_bound i cap Hc). pose proof (Z.mod_pos_bound j cap Hc).
  assert (i mod cap = j mod cap) as Heq by lia. apply mod_inj_near in Heq; lia.
Qed.

Lemma slot_lt cap i (s : list Z) :
  0 < cap -> len s = cap -> (Z.to_nat (i mod cap) < length s)%nat.
Proof. intros. pose proof (Z.mod_pos_bound i cap ltac:(lia)). lia. Qed.

Lemma inv_cap_pos r w l b s q : mpsc_inv r w l b s q -> 0 < mq_capacity q <= 2 ^ 31.
Proof.
  intros [_ (k & Hk & ->) _ _ _ _ _ _ _ _ _ _ _ _ _]. split; [lia|].
  apply Z.pow_le_mono_r; lia.
Qed.

Lemma inv_index r w l b s q x :
  mpsc_inv r w l b s q -> Z.land (u32 x) (mq_capacityMask q) = x mod mq_capacity q.
Proof.
  intros H. destruct (inv_cap _ _ _ _ _ _ H) as (k & Hk & Hc). rewrite Hc.
  apply ring_index; [done|]. rewrite <- Hc. apply H.
Qed.

(** ** The operations on the representation *)

Lemma mpsc_push_step r w l b s q e :
  mpsc_inv r w l b s q -> len e = mq_elementSize q -> len l < mq_capacity q ->
  exists b' s',
    mpsc_push e q = Some (SILOG_OK,
      set_seq (Some s') (set_buffer (Some b') (set_writePos (u32 (w + 1)) q))) /\
    wr b ((w mod mq_capacity q) * mq_elementSize q) e = Some b' /\
    s' = <[Z.to_nat (w mod mq_capacity q) := u32 (w + 1)]> s.
Proof.
  intros H He Hl. pose proof (inv_cap_pos _ _ _ _ _ _ H) as Hc. destruct H eqn:HH. clear HH.
  destruct (slot_offset (mq_elementSize q) (mq_capacity q) w) as (Ho & Hlo & Hhi); try lia.
  eexists _, _. split_and!; [|apply wr_Some; lia|reflexivity].
  unfold mpsc_push. rewrite inv_b0, inv_s0, inv_w0. ztest. simpl.
  rewrite inv_r0, u32_sub_l, u32_sub_r, (u32_small (w - r)) by (unfold is_u32; lia). ztest.
  rewrite (inv_index _ _ _ _ _ _ w H), Ho, !u32_add_l.
  unfold cas_seq. rewrite (inv_free0 w) by lia. simpl. rewrite Z.eqb_refl. simpl.
  rewrite obj_memcpy_s_full, wr_Some by lia. simpl. by rewrite list_insert_insert_eq.
Qed.

Lemma mpsc_push_inv r w l b s q e b' s' :
  mpsc_inv r w l b s q -> len e = mq_elementSize q -> len l < mq_capacity q ->
  wr b ((w mod mq_capacity q) * mq_elementSize q) e = Some b' ->
  s' = <[Z.to_nat (w mod mq_capacity q) := u32 (w + 1)]> s ->
  mpsc_inv r (w + 1) (l ++ [e]) b' s'
    (set_seq (Some s') (set_buffer (Some b') (set_writePos (u32 (w + 1)) q))).
Proof.
  intros H He Hl Hw ->. pose proof (inv_cap_pos _ _ _ _ _ _ H) as Hc. destruct H.
  pose proof (wr_length _ _ _ _ Hw). split; simpl; auto; try lia.
  - rewrite length_app; simpl; lia.
  - by rewrite length_insert.
  - intros i x Hi. apply lookup_app_Some in Hi as [Hi|[Hge Hi]].
    + rewrite (rd_wr_other _ _ _ _ _ _ Hw); [by apply inv_data0|].
      apply lookup_lt_Some in Hi. rewrite He.
      destruct (slots_disjoint (mq_elementSize q) (mq_capacity q) w (r + Z.of_nat i)); lia.
    + apply list_lookup_singleton_Some in Hi as [Hz ->].
      replace (r + Z.of_nat i) with w by lia. pose proof (rd_wr_same _ _ _ _ Hw) as Hs. by rewrite He in Hs.
  - intros i Hi. destruct (decide (i = w)) as [->|].
    + rewrite list_lookup_insert_eq; [done|]. apply slot_lt; lia.
    + rewrite list_lookup_insert_ne by (apply slot_neq; lia). apply inv_ready0; lia.
  - intros i Hi. rewrite list_lookup_insert_ne by (apply slot_neq; lia). apply inv_free0; lia.
Qed.

Lemma mpsc_push_full r w l b s q e :
  mpsc_inv r w l b s q -> len l = mq_capacity q ->
  mpsc_push e q = Some (SILOG_TRANS_QUEUE_FULL, q).
Proof.
  intros H Hl. pose proof (inv_cap_pos _ _ _ _ _ _ H) as Hc. destruct H.
  unfold mpsc_push. rewrite inv_b0, inv_s0, inv_w0. ztest. simpl.
  rewrite inv_r0, u32_sub_l, u32_sub_r, (u32_small (w - r)) by (unfold is_u32; lia). ztest.
  rewrite u32_add_l, u32_sub_l, Z.add_simpl_r. do 2 f_equal.
  unfold set_writePos; simpl. rewrite <- inv_w0. by destruct q.
Qed.

Lemma mpsc_pop_step r w l b s q e :
  mpsc_inv r w (e :: l) b s q ->
  let s' := <[Z.to_nat (r mod mq_capacity q) := u32 (r + mq_capacity q)]> s in
  let q' := set_readPos (u32 (r + 1)) (set_seq (Some s') q) in
  mpsc_pop q = Some (SILOG_OK, q', Some e) /\ mpsc_inv (r + 1) w l b s' q'.
Proof.
  intros H s' q'. pose proof (inv_cap_pos _ _ _ _ _ _ H) as Hc. destruct H eqn:HH. clear HH.
  simpl in inv_len0.
  destruct (slot_offset (mq_elementSize q) (mq_capacity q) r) as (Ho & Hlo & Hhi); try lia.
  split.
  - unfold mpsc_pop. rewrite inv_b0, inv_s0, inv_r0, (inv_index _ _ _ _ _ _ r H), Ho.
    rewrite (inv_ready0 r), !u32_add_l by lia. simpl. rewrite Z.eqb_refl. simpl.
    pose proof (inv_data0 0%nat e eq_refl) as Hd. rewrite Z.add_0_r in Hd.
    by rewrite Hd.
  - split; subst s' q'; simpl; auto; try lia.
    + by rewrite length_insert.
    + intros i x Hi. rewrite <- (inv_data0 (S i) x Hi). do 3 f_equal. lia.
    + intros i Hi. rewrite list_lookup_insert_ne by (apply slot_neq; lia). apply inv_ready0; lia.
    + intros i Hi. destruct (decide (i = r + mq_capacity q)) as [->|].
      * replace ((r + mq_capacity q) mod mq_capacity q) with (r mod mq_capacity q)
          by (rewrite <- (Z.mod_add r 1) by lia; f_equal; lia).
        rewrite list_lookup_insert_eq; [done|]. apply slot_lt; lia.
      * rewrite list_lookup_insert_ne by (apply slot_neq; lia). apply inv_free0; lia.
Qed.

Lemma mpsc_pop_empty r w b s q :
  mpsc_inv r w [] b s q -> mpsc_pop q = Some (SILOG_TRANS_QUEUE_EMPTY, q, None).
Proof.
  intros H. pose proof (inv_cap_pos _ _ _ _ _ _ H) as Hc. destruct H eqn:HH. clear HH.
  simpl in inv_len0.
  unfold mpsc_pop. rewrite inv_b0, inv_s0, inv_r0, (inv_index _ _ _ _ _ _ r H).
  rewrite (inv_free0 r), u32_add_l by lia. simpl.
  destruct (u32 r =? u32 (r + 1)) eqn:E; [|done]. reflectZ.
  apply u32_inj_near in E; lia.
Qed.

(** The queue implements the bounded FIFO of its capacity. *)
#[global] Program Instance mpsc_fifo (es cap : Z) : Fifo SiLogMpscQueue mpsc_push mpsc_pop es cap :=
  {| fifo_repr := mpsc_repr es cap |}.
Next Obligation.
  intros es cap q l (<- & <- & r & w & b & s & []). lia.
Qed.
Next Obligation.
  intros es cap q l e (Hes & Hcap & r & w & b & s & H) He Hl.
  destruct (mpsc_push_step r w l b s q e) as (b' & s' & Hp & Hw & Hs); [done|lia|lia|].
  eexists. split; [exact Hp|]. split_and!; [done..|]. exists r, (w + 1), b', s'.
  eapply mpsc_push_inv; eauto; lia.
Qed.
Next Obligation.
  intros es cap q l e (Hes & Hcap & r & w & b & s & H) Hl.
  exists q. split; [eapply mpsc_push_full; [done|lia]|]. by split_and!; [..|exists r, w, b, s].
Qed.
Next Obligation.
  intros es cap q l e (Hes & Hcap & r & w & b & s & H).
  destruct (mpsc_pop_step r w l b s q e H) as [Hp Hi].
  eexists. split; [exact Hp|]. split_and!; [done..|]. eauto.
Qed.
Next Obligation.
  intros es cap q (Hes & Hcap & r & w & b & s & H). by eapply mpsc_pop_empty.
Qed.

(** ** Initialisation *)

(** The test [(capacity & (capacity - 1)) != 0] of the code is exact. *)
Lemma pow2_test cap :
  0 < cap -> Z.land cap (cap - 1) = 0 <-> exists k, 0 <= k /\ cap = 2 ^ k.
Proof.
  intros Hc. split; [|intros (k & Hk & ->)].
  - intros Hl. exists (Z.log2 cap). split; [apply Z.log2_nonneg|].
    destruct (Z.log2_spec cap Hc) as [Hlo Hhi].
    destruct (decide (2 ^ Z.log2 cap = cap)) as [->|Hne]; [done|exfalso].
    assert (Z.log2 (cap - 1) = Z.log2 cap) as Hlog.
    { apply Z.log2_unique; [apply Z.log2_nonneg|lia]. }
    assert (Z.testbit (Z.land cap (cap - 1)) (Z.log2 cap) = true) as Ht.
    { rewrite Z.land_spec, Z.bit_log2 by lia. rewrite <- Hlog, Z.bit_log2; [done|].
      pose proof (Z.pow_pos_nonneg 2 (Z.log2 cap) ltac:(lia) (Z.log2_nonneg _)). lia. }
    by rewrite Hl, Z.bits_0 in Ht.
  - replace (2 ^ k - 1) with (Z.ones k) by (rewrite Z.ones_equiv; lia).
    rewrite Z.land_ones by lia. apply Z.mod_same. lia.
Qed.

Lemma seq_init_lookup s n i :
  (i < n)%nat -> (n <= length s)%nat ->
  seq_init s (Z.of_nat n) !! i = Some (Z.of_nat i) /\
  length (seq_init s (Z.of_nat n)) = length s.
Proof.
  unfold seq_init. rewrite Nat2Z.id. induction n as [|n IH]; [lia|intros Hi Hn].
  rewrite seq_S, foldl_app; simpl.
  assert (length (foldl (fun s i => <[i:=Z.of_nat i]> s) s (seq 0 n)) = length s) as Hlen.
  { clear. generalize (seq 0 n); intros t. revert s.
    induction t as [|x t IH]; intros s; simpl; [done|]. by rewrite IH, length_insert. }
  rewrite length_insert. split; [|done]. destruct (decide (i = n)) as [->|].
  - rewrite list_lookup_insert_eq; [done|lia].
  - rewrite list_lookup_insert_ne by lia. apply IH; lia.
Qed.

Lemma mpsc_init_repr es cap k b s q :
  0 < es -> 0 <= k <= 31 -> cap = 2 ^ k -> es * cap < 2 ^ 32 ->
  len b = u32 (es * cap) -> len s = cap ->
  exists q', mpsc_init (Some b) (Some s) es cap q = (SILOG_OK, q') /\ mpsc_repr es cap q' [].
Proof.
  intros Hes Hk Hcap Hfit Hb Hs.
  assert (0 < cap <= 2 ^ 31) by (subst; split; [lia|apply Z.pow_le_mono_r; lia]).
  assert (u32 (cap - 1) = cap - 1) as Hm by (apply u32_small; unfold is_u32; lia).
  assert (is_u32 (es * cap)) by (unfold is_u32; nia).
  rewrite u32_small in Hb by done. unfold mpsc_init. ztest. simpl.
  rewrite Hm, (proj2 (pow2_test cap ltac:(lia))) by (exists k; split; [lia|done]).
  simpl. eexists; split; [reflexivity|]. split_and!; [done..|].
  exists 0, 0, b, (seq_init s cap). split; simpl; auto; try lia.
  - exists k. lia.
  - destruct (seq_init_lookup s (Z.to_nat cap) 0) as [_ Hl]; [lia..|].
    rewrite Z2Nat.id in Hl by lia. by rewrite Hl.
  - intros i e Hi. discriminate Hi.
  - intros i Hi. rewrite Z.mod_small by lia.
    destruct (seq_init_lookup s (Z.to_nat cap) (Z.to_nat i)) as [Hl _]; [lia..|].
    rewrite Z2Nat.id in Hl by lia. rewrite Hl, u32_small by (unfold is_u32; lia).
    f_equal; lia.
Qed.

(** ** Runs of operations against the specification *)

Inductive queue_op := OpPush (e : list Z) | OpPop.
Inductive queue_res := ResPush (ret : ErrorCode) | ResPop (ret : ErrorCode) (out : option (list Z)).

(** A run of the bounded FIFO itself. *)
Fixpoint fifo_run (capacity : Z) (ops : list queue_op) (l : list (list Z))
    : list queue_res * list (list Z) :=
  match ops with
  | [] => ([], l)
  | OpPush e :: ops =>
      if len l <? capacity
      then let '(rs, l') := fifo_run capacity ops (l ++ [e]) in (ResPush SILOG_OK :: rs, l')
      else let '(rs, l') := fifo_run capacity ops l in (ResPush SILOG_TRANS_QUEUE_FULL :: rs, l')
  | OpPop :: ops =>
      match l with
      | [] => let '(rs, l') := fifo_run capacity ops [] in
              (ResPop SILOG_TRANS_QUEUE_EMPTY None :: rs, l')
      | e :: l => let '(rs, l') := fifo_run capacity ops l in
                  (ResPop SILOG_OK (Some e) :: rs, l')
      end
  end.

Section Runs.
Context {Q : Type} {push : list Z -> Q -> option (ErrorCode * Q)}
  {pop : Q -> option (ErrorCode * Q * option (list Z))} {es cap : Z}
  `{!Fifo Q push pop es cap}.

Fixpoint queue_run (ops : list queue_op) (q : Q) : option (list queue_res * Q) :=
  match ops with
  | [] => Some ([], q)
  | OpPush e :: ops =>
      '(ret, q) ← push e q; '(rs, q) ← queue_run ops q; Some (ResPush ret :: rs, q)
  | OpPop :: ops =>
      '(ret, q, out) ← pop q; '(rs, q) ← queue_run ops q; Some (ResPop ret out :: rs, q)
  end.

Definition op_sized (op : queue_op) : Prop :=
  match op with OpPush e => len e = es | OpPop => True end.

(** Any implementation of the interface, driven by any sequence of
    operations, returns what the bounded FIFO returns. *)
Lemma queue_run_refines ops q l :
  fifo_repr q l -> Forall op_sized ops ->
  exists q', queue_run ops q = Some ((fifo_run cap ops l).1, q') /\
             fifo_repr q' (fifo_run cap ops l).2.
Proof.
  intros Hr Ho. revert q l Hr. induction Ho as [|op ops Hop Ho IH]; intros q l Hr; simpl; [eauto|].
  destruct op as [e|]; simpl in Hop.
  - pose proof (fifo_bound _ _ Hr). case_if.
    + destruct (fifo_push_ok q l e) as (q1 & -> & Hr1); [done..|].
      destruct (IH _ _ Hr1) as (q2 & Hq & Hr2). simpl. rewrite Hq. simpl.
      destruct (fifo_run cap ops (l ++ [e])). eauto.
    + destruct (fifo_push_full q l e) as (q1 & -> & Hr1); [done|lia|].
      destruct (IH _ _ Hr1) as (q2 & Hq & Hr2). simpl. rewrite Hq. simpl.
      destruct (fifo_run cap ops l). eauto.
  - destruct l as [|e l].
    + rewrite fifo_pop_empty by done. destruct (IH _ _ Hr) as (q2 & Hq & Hr2).
      simpl. rewrite Hq. simpl. destruct (fifo_run cap ops []). eauto.
    + destruct (fifo_pop_ok q l e Hr) as (q1 & -> & Hr1).
      destruct (IH _ _ Hr1) as (q2 & Hq & Hr2). simpl. rewrite Hq. simpl.
      destruct (fifo_run cap ops l). eauto.
Qed.
End Runs.
Arguments op_sized es op : clear implicits.

(** A run of the queue of silog_mpsc.c. *)
Definition mpsc_run : list queue_op -> SiLogMpscQueue -> option (list queue_res * SiLogMpscQueue) :=
  queue_run (push:=mpsc_push) (pop:=mpsc_pop).

Lemma mpsc_run_refines es cap ops q l :
  mpsc_repr es cap q l -> Forall (op_sized es) ops ->
  exists q', mpsc_run ops q = Some ((fifo_run cap ops l).1, q') /\
             mpsc_repr es cap q' (fifo_run cap ops l).2.
Proof.
  apply (queue_run_refines (push:=mpsc_push) (pop:=mpsc_pop) (Fifo0:=mpsc_fifo es cap)).
Qed.

(** ** Properties *)

(** C5: a queue initialised with a power-of-two capacity whose storage fits in
    32 bits behaves, under every sequence of pushes and pops, exactly like a
    FIFO bounded by its capacity: same return codes, same elements in the same
    order, and no call diverges or leaves its buffers, also after the 32-bit
    positions wrap around. *)
Theorem mpsc_refines_fifo es cap k b s q0 ops :
  0 < es -> 0 <= k <= 31 -> cap = 2 ^ k -> es * cap < 2 ^ 32 ->
  len b = u32 (es * cap) -> len s = cap -> Forall (op_sized es) ops ->
  exists q q', SilogMpscQueueInit (Some b) (Some s) es cap (Some q0) = (SILOG_OK, Some q) /\
    mpsc_run ops q = Some ((fifo_run cap ops []).1, q') /\
    mpsc_repr es cap q' (fifo_run cap ops []).2.
Proof.
  intros Hes Hk Hcap Hfit Hb Hs Hops.
  destruct (mpsc_init_repr es cap k b s q0) as (q & Hi & Hr); [done..|].
  destruct (mpsc_run_refines es cap ops q [] Hr Hops) as (q' & Hq & Hr').
  exists q, q'. simpl. by rewrite Hi.
Qed.

Definition mpsc_nil : SiLogMpscQueue := MkMpsc None 0 0 0 0 None 0.

Lemma mpsc_refines_fifo_witness :
  exists q q', SilogMpscQueueInit (Some [9; 9; 9; 9]) (Some [7; 7]) 2 2 (Some mpsc_nil)
      = (SILOG_OK, Some q) /\
    mpsc_run
      [OpPush [1; 2]; OpPush [3; 4]; OpPush [5; 6]; OpPop; OpPush [5; 6]; OpPop; OpPop; OpPop] q
    = Some ([ResPush SILOG_OK; ResPush SILOG_OK; ResPush SILOG_TRANS_QUEUE_FULL;
             ResPop SILOG_OK (Some [1; 2]); ResPush SILOG_OK; ResPop SILOG_OK (Some [3; 4]);
             ResPop SILOG_OK (Some [5; 6]); ResPop SILOG_TRANS_QUEUE_EMPTY None], q') /\
    mpsc_repr 2 2 q' [].
Proof.
  apply (mpsc_refines_fifo 2 2 1); try reflexivity; try lia. repeat constructor.
Defined.

(** from any state reached after arbitrarily many operations (positions
    [r] and [w] anywhere, wrapped to 32 bits) a push followed by draining the
    queue returns every stored element and the new one last. *)
Theorem mpsc_push_then_drain r w l b s q e :
  mpsc_inv r w l b s q -> len e = mq_elementSize q -> len l < mq_capacity q ->
  exists q', mpsc_run
      (OpPush e :: replicate (S (length l)) OpPop) q
    = Some (ResPush SILOG_OK :: map (fun x => ResPop SILOG_OK (Some x)) (l ++ [e]), q') /\
    mpsc_repr (mq_elementSize q) (mq_capacity q) q' [].
Proof.
  intros H He Hl.
  destruct (mpsc_run_refines (mq_elementSize q) (mq_capacity q)
              (OpPush e :: replicate (S (length l)) OpPop) q l) as (q' & Hq & Hr).
  { split_and!; [done..|eauto]. }
  { constructor; [done|]. apply Forall_replicate. done. }
  exists q'. rewrite Hq. revert Hr.
  change (fifo_run (mq_capacity q) (OpPush e :: ?o) l) with
    (if len l <? mq_capacity q
     then let '(rs, l') := fifo_run (mq_capacity q) o (l ++ [e]) in (ResPush SILOG_OK :: rs, l')
     else let '(rs, l') := fifo_run (mq_capacity q) o l in
          (ResPush SILOG_TRANS_QUEUE_FULL :: rs, l')).
  ztest. assert (forall t, fifo_run (mq_capacity q) (replicate (length t) OpPop) t =
    (map (fun x => ResPop SILOG_OK (Some x)) t, [])) as Hd.
  { induction t as [|x t IH]; simpl; [done|]. by rewrite IH. }
  replace (S (length l)) with (length (l ++ [e])) by (rewrite length_app; simpl; lia).
  rewrite Hd. simpl. done.
Qed.

(** A queue whose positions are one step before the 32-bit wrap-around. *)
Definition mpsc_near_wrap : SiLogMpscQueue :=
  MkMpsc (Some [0; 0; 5; 6]) 2 2 0 (2 ^ 32 - 1) (Some [0; 0]) 1.

Lemma mpsc_near_wrap_inv :
  mpsc_inv (2 ^ 32 - 1) (2 ^ 32) [[5; 6]] [0; 0; 5; 6] [0; 0]
    mpsc_near_wrap.
Proof.
  split; simpl; try reflexivity; try lia.
  - exists 1. lia.
  - intros [|i] e; simpl; [|done]. intros [= <-]. reflexivity.
  - intros i Hi. assert (i = 2 ^ 32 - 1) as -> by lia. reflexivity.
  - intros i Hi. assert (i = 2 ^ 32) as -> by lia. reflexivity.
Qed.

Lemma mpsc_push_then_drain_witness :
  exists q', mpsc_run [OpPush [7; 8]; OpPop; OpPop]
      mpsc_near_wrap
    = Some ([ResPush SILOG_OK; ResPop SILOG_OK (Some [5; 6]); ResPop SILOG_OK (Some [7; 8])], q') /\
    mpsc_repr 2 2 q' [].
Proof.
  apply (mpsc_push_then_drain (2 ^ 32 - 1) (2 ^ 32) [[5; 6]] [0; 0; 5; 6] [0; 0]
           mpsc_near_wrap [7; 8]).
  - apply mpsc_near_wrap_inv.
  - reflexivity.
  - reflexivity.
Defined.

(** initialisation succeeds exactly on a non-null queue with a non-zero
    element size, a power-of-two capacity and both allocations granted. *)
Theorem mpsc_init_ok_iff mem seqmem es cap lq :
  is_u32 es -> is_u32 cap ->
  (SilogMpscQueueInit mem seqmem es cap lq).1 = SILOG_OK <->
  is_Some lq /\ es <> 0 /\ (exists k, 0 <= k /\ cap = 2 ^ k) /\ is_Some mem /\ is_Some seqmem.
Proof.
  intros Hes Hcap. unfold is_u32 in *. destruct lq as [q|]; simpl; cycle 1.
  { split; [done|]. intros [[? ?] _]. done. }
  unfold mpsc_init. destruct (decide (cap = 0)) as [->|Hc0].
  { rewrite orb_true_r. split; [done|]. intros (_ & _ & (k & Hk & Hp) & _).
    pose proof (Z.pow_pos_nonneg 2 k). lia. }
  rewrite (u32_small (cap - 1)) by (unfold is_u32; lia).
  destruct (es =? 0) eqn:E1; reflectZ; simpl; [split; [done|tauto]|]. ztest.
  pose proof (pow2_test cap ltac:(lia)) as Hp.
  destruct (Z.land cap (cap - 1) =? 0) eqn:E2; reflectZ; simpl; [|split; [done|tauto]].
  destruct mem as [b|]; simpl; [|split; [done|intros (_&_&_&[? ?]&_); done]].
  destruct seqmem as [s|]; simpl; [|split; [done|intros (_&_&_&_&[? ?]); done]].
  split; [|done]. intros _. split_and!; eauto. by apply Hp.
Qed.

Lemma mpsc_init_ok_iff_witness :
  (SilogMpscQueueInit (Some [0]) (Some [0]) 1 6 (Some mpsc_nil)).1 = SILOG_OK <->
  is_Some (Some mpsc_nil) /\ 1 <> 0 /\ (exists k, 0 <= k /\ 6 = 2 ^ k) /\
  is_Some (Some [0]) /\ is_Some (Some [0]).
Proof. apply mpsc_init_ok_iff; unfold is_u32; lia. Defined.

(** the size passed to the allocator is a 32-bit product. With elements of
    1 MiB and a capacity of 4096 it wraps to zero: initialisation still
    succeeds and the first push writes outside the buffer. *)
Theorem mpsc_init_size_wraps s q0 :
  len s = 4096 ->
  u32 (2 ^ 20 * 4096) = 0 /\
  exists q, mpsc_init (Some []) (Some s) (2 ^ 20) 4096 q0 = (SILOG_OK, q) /\
    forall e, len e = 2 ^ 20 -> mpsc_push e q = None.
Proof.
  intros Hs. split; [reflexivity|].
  destruct (seq_init_lookup s (Z.to_nat 4096) 0) as [Hl _]; [lia..|].
  rewrite Z2Nat.id in Hl by lia.
  eexists. split; [reflexivity|]. intros e He. revert Hl.
  generalize (seq_init s 4096). intros s' Hl.
  unfold mpsc_push, cas_seq, obj_memcpy_s. cbn [mq_buffer mq_seq mq_capacity mq_writePos
    mq_readPos mq_elementSize mq_capacityMask set_writePos].
  change (Z.to_nat (Z.land 0 (u32 (4096 - 1)))) with 0%nat. rewrite Hl.
  change (mbind ?f (Some 0)) with (f 0). cbn beta.
  change (0 =? 0) with true. cbn iota. change (mbind ?f (Some ?x)) with (f x). cbn beta.
  change (2 ^ 20 =? 0) with false. change (2 ^ 20 <? 2 ^ 20) with false. cbn iota. cbn [snd].
  rewrite <- He, rd_all. change (mbind ?f (Some ?x)) with (f x). cbn beta.
  unfold wr. change (len []) with 0.
  replace (u32 (Z.land 0 (u32 (4096 - 1)) * len e)) with 0 by (by rewrite Z.land_0_l).
  rewrite He. reflexivity.
Qed.

Lemma mpsc_init_size_wraps_witness :
  u32 (2 ^ 20 * 4096) = 0 /\
  exists q, mpsc_init (Some []) (Some (replicate 4096 0)) (2 ^ 20) 4096 mpsc_nil = (SILOG_OK, q) /\
    forall e, len e = 2 ^ 20 -> mpsc_push e q = None.
Proof. apply mpsc_init_size_wraps. rewrite length_replicate. reflexivity. Defined.
