(* ===== verification/MpscConc.v ===== *)
(** * Interleavings of the MPSC ring (silog_comm/src/silog_mpsc.c)

    Any number of producer threads inside [SilogMpscQueuePush] and one consumer
    inside [SilogMpscQueuePop], interleaved at their atomic accesses. A step of
    the model is one atomic operation of the code together with the local
    computation that follows it; the copy of an element is one step of its own
    (the theorems show that no two threads copy the same slot at once).

    Elements are kept abstract (a type [A]); [Mpsc] treats the bytes. *)

From S2P Require Import Prelude Errors Mpsc.
#[local] Open Scope Z_scope.

Section Conc.
Context {A : Type}.

(** Where a producer is inside [SilogMpscQueuePush]; [w] is its local [write]. *)
Inductive ppc :=
  | PIdle
  | PTest (w : Z) (e : A)      (* after fetch_add, before the load of readPos *)
  | PRollback                  (* found full, before fetch_sub *)
  | PCas (w : Z) (e : A)       (* in the compare-and-swap loop *)
  | PCopy (w : Z) (e : A)      (* slot claimed, before memcpy_s *)
  | PPublish (w : Z) (e : A).  (* copied, before seq[index] = write + 1 *)

(** Where the consumer is inside [SilogMpscQueuePop]; [r] is its local [read]. *)
Inductive cpc :=
  | CIdle
  | CCopy (r : Z)              (* slot ready, before memcpy_s *)
  | CRelease (r : Z) (e : A)   (* copied, before seq[index] = read + capacity *)
  | CAdvance (r : Z) (e : A).  (* released, before readPos = read + 1 *)

Record cstate := MkC {
  cs_wpos : Z;
  cs_rpos : Z;
  cs_seq : list Z;
  cs_buf : list A;
  cs_prod : list ppc;
  cs_cons : cpc
}.

Inductive act :=
  | ATake (p : nat) (e : A)    (* call push: atomic_fetch_add(&writePos, 1) *)
  | ATest (p : nat)            (* atomic_load(&readPos) and the full test *)
  | ARollback (p : nat)        (* atomic_fetch_sub(&writePos, 1), return *)
  | ACas (p : nat)             (* atomic_compare_exchange_weak *)
  | ACasSpurious (p : nat)     (* the same, failing spuriously *)
  | ACopy (p : nat)            (* memcpy_s to the slot *)
  | APublish (p : nat)         (* atomic_store(&seq[index], write + 1), return *)
  | AConsLoad                  (* call pop: load readPos and seq[index], test *)
  | AConsCopy                  (* memcpy_s to outElement *)
  | AConsRelease               (* atomic_store(&seq[index], read + capacity) *)
  | AConsAdvance.              (* atomic_store(&readPos, read + 1), return *)

(** What is visible of a step: tickets taken, results returned. *)
Inductive ev :=
  | EvTake (p : nat) (e : A)
  | EvFull (p : nat)
  | EvOk (p : nat)
  | EvPop (e : A)
  | EvEmpty
  | EvTau.

Variable cap : Z.

Definition slot (w : Z) : nat := Z.to_nat (Z.land w (cap - 1)).

Definition set_prod (p : nat) (pc : ppc) (st : cstate) : cstate :=
  MkC (cs_wpos st) (cs_rpos st) (cs_seq st) (cs_buf st) (<[p := pc]> (cs_prod st)) (cs_cons st).
Definition set_cons (pc : cpc) (st : cstate) : cstate :=
  MkC (cs_wpos st) (cs_rpos st) (cs_seq st) (cs_buf st) (cs_prod st) pc.
Definition set_wpos (w : Z) (st : cstate) : cstate :=
  MkC w (cs_rpos st) (cs_seq st) (cs_buf st) (cs_prod st) (cs_cons st).
Definition set_rpos (r : Z) (st : cstate) : cstate :=
  MkC (cs_wpos st) r (cs_seq st) (cs_buf st) (cs_prod st) (cs_cons st).
Definition upd_seq (i : nat) (x : Z) (st : cstate) : cstate :=
  MkC (cs_wpos st) (cs_rpos st) (<[i := x]> (cs_seq st)) (cs_buf st) (cs_prod st) (cs_cons st).
Definition upd_buf (i : nat) (e : A) (st : cstate) : cstate :=
  MkC (cs_wpos st) (cs_rpos st) (cs_seq st) (<[i := e]> (cs_buf st)) (cs_prod st) (cs_cons st).

(** One step of producer [p] whose program counter is [pc]. *)
Definition prod_step (a : act) (pc : ppc) (st : cstate) : option (cstate * ev) :=
  match a, pc with
  | ATake p e, PIdle =>
      Some (set_prod p (PTest (cs_wpos st) e) (set_wpos (u32 (cs_wpos st + 1)) st), EvTake p e)
  | ATest p, PTest w e =>
      if cap <=? u32 (w - cs_rpos st)
      then Some (set_prod p PRollback st, EvFull p)
      else Some (set_prod p (PCas w e) st, EvTau)
  | ARollback p, PRollback =>
      Some (set_prod p PIdle (set_wpos (u32 (cs_wpos st - 1)) st), EvTau)
  | ACas p, PCas w e =>
      x ← cs_seq st !! slot w;
      if x =? w then Some (set_prod p (PCopy w e) (upd_seq (slot w) (u32 (w + cap)) st), EvTau)
      else if x =? u32 (w + cap) then Some (set_prod p (PCopy w e) st, EvTau)
      else Some (st, EvTau)
  | ACasSpurious p, PCas w e =>
      x ← cs_seq st !! slot w;
      if x =? u32 (w + cap) then Some (set_prod p (PCopy w e) st, EvTau) else Some (st, EvTau)
  | ACopy p, PCopy w e => Some (set_prod p (PPublish w e) (upd_buf (slot w) e st), EvTau)
  | APublish p, PPublish w e =>
      Some (set_prod p PIdle (upd_seq (slot w) (u32 (w + 1)) st), EvOk p)
  | _, _ => None
  end.

Definition cons_step (a : act) (st : cstate) : option (cstate * ev) :=
  match a, cs_cons st with
  | AConsLoad, CIdle =>
      x ← cs_seq st !! slot (cs_rpos st);
      if x =? u32 (cs_rpos st + 1) then Some (set_cons (CCopy (cs_rpos st)) st, EvTau)
      else Some (st, EvEmpty)
  | AConsCopy, CCopy r =>
      e ← cs_buf st !! slot r; Some (set_cons (CRelease r e) st, EvTau)
  | AConsRelease, CRelease r e =>
      Some (set_cons (CAdvance r e) (upd_seq (slot r) (u32 (r + cap)) st), EvTau)
  | AConsAdvance, CAdvance r e =>
      Some (set_cons CIdle (set_rpos (u32 (r + 1)) st), EvPop e)
  | _, _ => None
  end.

Definition act_prod (a : act) : option nat :=
  match a with
  | ATake p _ | ATest p | ARollback p | ACas p | ACasSpurious p | ACopy p | APublish p => Some p
  | _ => None
  end.

(** One step of the system. *)
Definition cstep (a : act) (st : cstate) : option (cstate * ev) :=
  match act_prod a with
  | Some p => pc ← cs_prod st !! p; prod_step a pc st
  | None => cons_step a st
  end.

(** A schedule, with the events it produces. *)
Fixpoint crun (acts : list act) (st : cstate) : option (cstate * list ev) :=
  match acts with
  | [] => Some (st, [])
  | a :: acts => '(st, v) ← cstep a st; '(st, vs) ← crun acts st; Some (st, v :: vs)
  end.

(** The state left by [SilogMpscQueueInit], with [n] producer threads. *)
Definition cinit (n : nat) (junk : list A) : cstate :=
  MkC 0 0 (seq_init (replicate (Z.to_nat cap) 0) cap) junk (replicate n PIdle) CIdle.

(** Elements whose ticket was taken and not given back, in ticket order. *)
Definition accepted_step (l : list A) (v : ev) : list A :=
  match v with EvTake _ e => l ++ [e] | EvFull _ => removelast l | _ => l end.
Definition accepted (vs : list ev) : list A := foldl accepted_step [] vs.

(** Elements returned by pop, in order. *)
Definition popped (vs : list ev) : list A :=
  omap (fun v => match v with EvPop e => Some e | _ => None end) vs.

(** ** Quiet schedules

    A push that finds the queue full gives its ticket back with a second atomic
    operation. A schedule is quiet when no other producer takes a ticket between
    the two: the rejected ticket is the last one taken when the test fails, and
    nobody takes one until it is given back. *)

Definition is_rollback (pc : ppc) : bool := match pc with PRollback => true | _ => false end.

Definition quiet_act (a : act) (st : cstate) : bool :=
  match a with
  | ATake _ _ => negb (existsb is_rollback (cs_prod st))
  | ATest p =>
      match cs_prod st !! p with
      | Some (PTest w _) =>
          if cap <=? u32 (w - cs_rpos st) then cs_wpos st =? u32 (w + 1) else true
      | _ => true
      end
  | _ => true
  end.

Fixpoint quiet (acts : list act) (st : cstate) : bool :=
  match acts with
  | [] => true
  | a :: acts =>
      match cstep a st with
      | Some (st', _) => quiet_act a st && quiet acts st'
      | None => true
      end
  end.

(** ** The invariant of quiet schedules

    [r] and [length els] are the unbounded counts of tickets consumed and
    taken, [els] the elements in ticket order, [g p] the ticket of producer [p]
    while it holds one. *)

Definition sl (i : Z) : nat := Z.to_nat (i mod cap).

Definition pc_ticket (pc : ppc) : option (Z * A) :=
  match pc with
  | PTest w e | PCas w e | PCopy w e | PPublish w e => Some (w, e)
  | PIdle | PRollback => None
  end.

Definition owns (g : nat -> Z) (ps : list ppc) (p : nat) (i : Z) : Prop :=
  exists pc t, ps !! p = Some pc /\ pc_ticket pc = Some t /\ g p = i.

Definition slot_ok (sq : list Z) (bf : list A) (r i : Z) (pc : ppc) : Prop :=
  match pc with
  | PIdle | PRollback => True
  | PTest _ _ => i < r + cap -> sq !! sl i = Some (u32 i)
  | PCas _ _ => i < r + cap /\ sq !! sl i = Some (u32 i)
  | PCopy _ _ => i < r + cap /\ sq !! sl i = Some (u32 (i + cap))
  | PPublish _ e => i < r + cap /\ sq !! sl i = Some (u32 (i + cap)) /\ bf !! sl i = Some e
  end.

(** Ticket [i] is published, unless the consumer has just released it. *)
Definition published (c : cpc) (sq : list Z) (bf : list A) (els : list A) (r i : Z) : Prop :=
  match c with
  | CAdvance _ _ => if decide (i = r) then sq !! sl i = Some (u32 (r + cap))
                    else sq !! sl i = Some (u32 (i + 1)) /\ bf !! sl i = els !! Z.to_nat i
  | _ => sq !! sl i = Some (u32 (i + 1)) /\ bf !! sl i = els !! Z.to_nat i
  end.

Definition cons_ok (g : nat -> Z) (ps : list ppc) (els : list A) (r : Z) (c : cpc) : Prop :=
  match c with
  | CIdle => True
  | CCopy rr => rr = u32 r /\ r < len els /\ forall p, ~ owns g ps p r
  | CRelease rr e | CAdvance rr e =>
      rr = u32 r /\ r < len els /\ (forall p, ~ owns g ps p r) /\ els !! Z.to_nat r = Some e
  end.

Definition pending (ps : list ppc) : Z := if existsb is_rollback ps then 1 else 0.

Record cinv (r : Z) (els : list A) (g : nat -> Z) (st : cstate) : Prop := {
  ci_cap : exists k, 1 <= k <= 31 /\ cap = 2 ^ k;
  ci_n : len (cs_prod st) < 2 ^ 31;
  ci_slen : len (cs_seq st) = cap;
  ci_blen : len (cs_buf st) = cap;
  ci_rpos : cs_rpos st = u32 r;
  ci_wpos : cs_wpos st = u32 (len els + pending (cs_prod st));
  ci_pos : 0 <= r <= len els;
  ci_rb : forall p q, cs_prod st !! p = Some PRollback -> cs_prod st !! q = Some PRollback -> p = q;
  ci_own : forall p pc w e, cs_prod st !! p = Some pc -> pc_ticket pc = Some (w, e) ->
    r <= g p < len els /\ w = u32 (g p) /\ els !! Z.to_nat (g p) = Some e /\
    slot_ok (cs_seq st) (cs_buf st) r (g p) pc;
  ci_inj : forall p q i, owns g (cs_prod st) p i -> owns g (cs_prod st) q i -> p = q;
  ci_pub : forall i, r <= i < len els ->
    (exists p, owns g (cs_prod st) p i) \/
    (i < r + cap /\ published (cs_cons st) (cs_seq st) (cs_buf st) els r i);
  ci_free : forall i, len els <= i < r + cap -> cs_seq st !! sl i = Some (u32 i);
  ci_cons : cons_ok g (cs_prod st) els r (cs_cons st)
}.

(** *** Arithmetic of the ring *)

Lemma cinv_cap r els g st : cinv r els g st -> 2 <= cap <= 2 ^ 31.
Proof.
  intros H. destruct (ci_cap _ _ _ _ H) as (k & Hk & ->). split.
  - change 2 with (2 ^ 1) at 1. apply Z.pow_le_mono_r; lia.
  - apply Z.pow_le_mono_r; lia.
Qed.

Lemma slot_sl r els g st i : cinv r els g st -> slot (u32 i) = sl i.
Proof.
  intros H. destruct (ci_cap _ _ _ _ H) as (k & Hk & Hc). unfold slot, sl.
  rewrite (ring_index k (cap - 1) i), Hc by lia. done.
Qed.

Lemma sl_ne r i j : 2 <= cap -> r <= i < r + cap -> r <= j < r + cap -> i <> j -> sl i <> sl j.
Proof. intros. apply slot_neq; lia. Qed.

Lemma sl_lt {B} (l : list B) i : 2 <= cap -> len l = cap -> (sl i < length l)%nat.
Proof.
  intros. unfold sl. pose proof (Z.mod_pos_bound i cap ltac:(lia)). lia.
Qed.

Lemma sl_next r : 2 <= cap -> sl (r + cap) = sl r.
Proof.
  intros. unfold sl. f_equal. rewrite <- (Z.mod_add r 1 cap) by lia. f_equal. lia.
Qed.

(** A write to the slot of ticket [j] leaves the other tickets of the window alone. *)
Lemma window_upd {B} (l : list B) r i j x :
  2 <= cap -> r <= i < r + cap -> r <= j < r + cap -> i <> j -> <[sl j := x]> l !! sl i = l !! sl i.
Proof. intros. apply list_lookup_insert_ne. eapply not_eq_sym, sl_ne; eauto. Qed.

(** *** Ownership of tickets *)

Lemma owns_fun g ps p i j : owns g ps p i -> owns g ps p j -> i = j.
Proof. intros (?&?&?&?&?) (?&?&?&?&?). congruence. Qed.

Lemma owns_same g ps p pc pc' q i :
  ps !! p = Some pc -> pc_ticket pc' = pc_ticket pc ->
  owns g (<[p := pc']> ps) q i <-> owns g ps q i.
Proof.
  intros Hp Ht. unfold owns. destruct (decide (p = q)) as [->|Hne].
  - rewrite list_lookup_insert_eq by (by eapply lookup_lt_Some). split.
    + intros (x & t & [= <-] & Hx & Hg). exists pc, t. rewrite <- Ht. done.
    + intros (x & t & Hx & Hpt & Hg). simplify_eq. exists pc', t. rewrite Ht. done.
  - by rewrite list_lookup_insert_ne.
Qed.

Lemma owns_drop g ps p pc' q i :
  (p < length ps)%nat -> pc_ticket pc' = None ->
  owns g (<[p := pc']> ps) q i <-> owns g ps q i /\ q <> p.
Proof.
  intros Hp Ht. unfold owns. destruct (decide (p = q)) as [->|Hne].
  - rewrite list_lookup_insert_eq by done. split; [|tauto].
    intros (x & t & [= <-] & Hx & Hg). congruence.
  - rewrite list_lookup_insert_ne by done. split; [|tauto]. intros H. by split.
Qed.

(** Tickets beyond the window are held by distinct producers, so there are at
    most as many as producers. *)
Lemma tickets_bound r els g st :
  cinv r els g st -> len els - r <= cap + len (cs_prod st).
Proof.
  intros H. pose proof (cinv_cap _ _ _ _ H) as Hc.
  assert (forall m : nat, Z.of_nat m <= len els - (r + cap) ->
    exists ps, length ps = m /\
      forall j p, ps !! j = Some p -> owns g (cs_prod st) p (r + cap + Z.of_nat j)) as Hps.
  { induction m as [|m IH]; intros Hm; [by exists []|].
    destruct IH as (ps & Hl & Ho); [lia|].
    destruct (ci_pub _ _ _ _ H (r + cap + Z.of_nat m)) as [[p Hp]|[Hlt _]]; [|exists (ps ++ [p])|].
    - pose proof (ci_pos _ _ _ _ H). lia.
    - split; [rewrite length_app; simpl; lia|]. intros j q Hq.
      apply lookup_app_Some in Hq as [Hq|[Hge Hq]]; [by apply Ho|].
      apply list_lookup_singleton_Some in Hq as [Hz <-].
      by replace j with m by lia.
    - lia. }
  destruct (Z.le_gt_cases (len els - r) cap) as [|Hgt]; [lia|].
  destruct (Hps (Z.to_nat (len els - (r + cap)))) as (ps & Hl & Ho); [lia|].
  assert (NoDup ps) as Hnd.
  { apply NoDup_alt. intros i j p Hi Hj. apply Ho in Hi, Hj.
    pose proof (owns_fun _ _ _ _ _ Hi Hj). lia. }
  assert (length ps <= length (seq 0 (length (cs_prod st))))%nat as Hle.
  { apply submseteq_length, NoDup_submseteq; [done|]. intros p (j & Hj)%list_elem_of_lookup.
    destruct (Ho _ _ Hj) as (pc & t & Hpc & _). apply lookup_lt_Some in Hpc.
    apply elem_of_seq. lia. }
  rewrite length_seq in Hle. lia.
Qed.

(** *** Rejected pushes *)

Lemma existsb_lookup (ps : list ppc) :
  existsb is_rollback ps = true <-> exists p, ps !! p = Some PRollback.
Proof.
  rewrite existsb_exists. split.
  - intros (x & Hx & Hr). apply list_elem_of_In, list_elem_of_lookup in Hx as [p Hp].
    exists p. by destruct x.
  - intros [p Hp]. exists PRollback. split; [|done].
    apply list_elem_of_In, list_elem_of_lookup. eauto.
Qed.

Lemma pending_other ps p pc pc' :
  ps !! p = Some pc -> pc <> PRollback -> pc' <> PRollback ->
  pending (<[p := pc']> ps) = pending ps.
Proof.
  intros Hp Hn Hn'. unfold pending.
  assert (existsb is_rollback (<[p:=pc']> ps) = existsb is_rollback ps) as ->; [|done].
  apply eq_true_iff_eq. rewrite !existsb_lookup. split; intros [q Hq]; exists q.
  - destruct (decide (p = q)) as [->|]; [|by rewrite list_lookup_insert_ne in Hq].
    rewrite list_lookup_insert_eq in Hq by (by eapply lookup_lt_Some). congruence.
  - rewrite list_lookup_insert_ne; [done|]. intros ->. congruence.
Qed.

Lemma pending_none ps :
  (forall p, ps !! p <> Some PRollback) -> pending ps = 0.
Proof.
  intros H. unfold pending. destruct (existsb _ _) eqn:E; [|done].
  apply existsb_lookup in E as [p Hp]. by apply H in Hp.
Qed.

Lemma pending_some ps p : ps !! p = Some PRollback -> pending ps = 1.
Proof.
  intros H. unfold pending. rewrite (proj2 (existsb_lookup ps)); [done|eauto].
Qed.

(** *** Preservation, one action at a time *)

Lemma slot_ok_frame sq bf sq' bf' r i pc :
  (i < r + cap -> sq' !! sl i = sq !! sl i /\ bf' !! sl i = bf !! sl i) ->
  slot_ok sq bf r i pc -> slot_ok sq' bf' r i pc.
Proof.
  intros Hf. destruct pc; simpl; auto.
  - intros H Hi. destruct (Hf Hi) as [-> _]. auto.
  - intros [Hi H]. destruct (Hf Hi) as [-> _]. auto.
  - intros [Hi H]. destruct (Hf Hi) as [-> _]. auto.
  - intros (Hi & H & H2). destruct (Hf Hi) as [-> ->]. auto.
Qed.

Lemma published_frame c sq bf sq' bf' els r i :
  sq' !! sl i = sq !! sl i -> bf' !! sl i = bf !! sl i ->
  published c sq bf els r i -> published c sq' bf' els r i.
Proof. intros Hs Hb. unfold published. by rewrite Hs, Hb. Qed.

Lemma owner_of r els g st p pc t :
  cinv r els g st -> cs_prod st !! p = Some pc -> pc_ticket pc = Some t ->
  owns g (cs_prod st) p (g p).
Proof. intros _ Hp Ht. exists pc, t. done. Qed.

(** A producer moves on while keeping its ticket, touching at most its own slot. *)
Lemma inv_advance r els g st p pc pc' w e sq' bf' :
  cinv r els g st -> cs_prod st !! p = Some pc ->
  pc_ticket pc = Some (w, e) -> pc_ticket pc' = Some (w, e) ->
  len sq' = cap -> len bf' = cap ->
  (forall i, r <= i < r + cap -> i <> g p ->
     sq' !! sl i = cs_seq st !! sl i /\ bf' !! sl i = cs_buf st !! sl i) ->
  slot_ok sq' bf' r (g p) pc' ->
  cinv r els g (MkC (cs_wpos st) (cs_rpos st) sq' bf' (<[p := pc']> (cs_prod st)) (cs_cons st)).
Proof.
  intros H Hp Ht Ht' Hsl Hbl Hf Hok.
  assert (forall q i, owns g (<[p := pc']> (cs_prod st)) q i <-> owns g (cs_prod st) q i) as Ho.
  { intros q i. eapply owns_same; [done|congruence]. }
  pose proof (owner_of _ _ _ _ _ _ _ H Hp Ht) as Hown. destruct H.
  destruct (ci_own0 p pc w e Hp Ht) as (Hr & Hw & He & _).
  split; simpl; auto.
  - by rewrite length_insert.
  - rewrite (pending_other _ _ pc); [done..| |]; intros ->; discriminate.
  - intros q q' Hq Hq'. apply ci_rb0.
    + destruct (decide (p = q)) as [->|]; [|by rewrite list_lookup_insert_ne in Hq].
      rewrite list_lookup_insert_eq in Hq by (by eapply lookup_lt_Some). by simplify_eq.
    + destruct (decide (p = q')) as [->|]; [|by rewrite list_lookup_insert_ne in Hq'].
      rewrite list_lookup_insert_eq in Hq' by (by eapply lookup_lt_Some). by simplify_eq.
  - intros q pcq wq eq' Hq Htq. destruct (decide (p = q)) as [->|Hne].
    + rewrite list_lookup_insert_eq in Hq by (by eapply lookup_lt_Some). by simplify_eq.
    + rewrite list_lookup_insert_ne in Hq by done.
      destruct (ci_own0 q pcq wq eq' Hq Htq) as (Hrq & Hwq & Heq & Hokq).
      split_and!; [lia..|done|done|]. revert Hokq. apply slot_ok_frame. intros Hi.
      apply Hf; [lia|]. intros Hgq. apply Hne. apply (ci_inj0 p q (g p)); [done|].
      exists pcq, (wq, eq'). by rewrite Hgq.
  - intros q q' i. rewrite !Ho. apply ci_inj0.
  - intros i Hi. destruct (ci_pub0 i Hi) as [[q Hq]|[Hlt Hpub]]; [left; exists q; by apply Ho|].
    destruct (decide (i = g p)) as [->|Hne]; [left; exists p; by apply Ho|].
    right. split; [done|]. destruct (Hf i) as [Hs Hb]; [lia|done|].
    by apply (published_frame _ (cs_seq st) (cs_buf st)).
  - intros i Hi. destruct (Hf i) as [-> _]; [lia..|]. by apply ci_free0.
  - revert ci_cons0. unfold cons_ok. destruct (cs_cons st); intros HH; try setoid_rewrite Ho; done.
Qed.

(** A producer that holds no ticket any more: the facts about the others. *)
Lemma other_tickets ps p pc' q pcq t :
  (p < length ps)%nat -> pc_ticket pc' = None ->
  <[p := pc']> ps !! q = Some pcq -> pc_ticket pcq = Some t -> q <> p /\ ps !! q = Some pcq.
Proof.
  intros Hp Ht Hq Htq. destruct (decide (p = q)) as [->|Hne].
  - rewrite list_lookup_insert_eq in Hq by done. by simplify_eq.
  - by rewrite list_lookup_insert_ne in Hq.
Qed.

Lemma other_rollback ps p pc' q :
  (p < length ps)%nat -> pc' <> PRollback ->
  <[p := pc']> ps !! q = Some PRollback -> q <> p /\ ps !! q = Some PRollback.
Proof.
  intros Hp Ht Hq. destruct (decide (p = q)) as [->|Hne].
  - rewrite list_lookup_insert_eq in Hq by done. by simplify_eq.
  - by rewrite list_lookup_insert_ne in Hq.
Qed.

(** Dropping a producer's claim leaves the consumer's knowledge intact. *)
Lemma cons_ok_mono g g' ps ps' els els' r c :
  (forall p, owns g' ps' p r -> owns g ps p r) -> len els <= len els' ->
  (forall x, els !! Z.to_nat r = Some x -> els' !! Z.to_nat r = Some x) ->
  cons_ok g ps els r c -> cons_ok g' ps' els' r c.
Proof.
  intros Ho Hl He. destruct c; simpl; auto.
  - intros (-> & ? & Hn). split_and!; [done|lia|]. intros p Hp. by eapply Hn, Ho.
  - intros (-> & ? & Hn & ?). split_and!; [done|lia| |auto]. intros p Hp. by eapply Hn, Ho.
  - intros (-> & ? & Hn & ?). split_and!; [done|lia| |auto]. intros p Hp. by eapply Hn, Ho.
Qed.

Lemma inv_publish r els g st p w e :
  cinv r els g st -> cs_prod st !! p = Some (PPublish w e) ->
  cinv r els g (set_prod p PIdle (upd_seq (slot w) (u32 (w + 1)) st)).
Proof.
  intros H Hp. pose proof (cinv_cap _ _ _ _ H) as Hc.
  pose proof (lookup_lt_Some _ _ _ Hp) as Hlt.
  pose proof (owner_of _ _ _ _ _ _ _ H Hp eq_refl) as Hown.
  destruct (ci_own _ _ _ _ H p _ w e Hp eq_refl) as (Hr & -> & He & Hgr & Hs & Hb).
  rewrite (slot_sl _ _ _ _ _ H), u32_add_l. destruct H.
  assert (forall q i, owns g (<[p := PIdle]> (cs_prod st)) q i <->
                      owns g (cs_prod st) q i /\ q <> p) as Ho.
  { intros. by apply owns_drop. }
  split; simpl; auto.
  - by rewrite length_insert.
  - by rewrite length_insert.
  - by rewrite (pending_other _ _ (PPublish (u32 (g p)) e)).
  - intros q q' [_ Hq]%other_rollback [_ Hq']%other_rollback; eauto.
  - intros q pcq wq eq' Hq Htq.
    destruct (other_tickets _ _ PIdle _ _ _ Hlt eq_refl Hq Htq) as [Hne Hq'].
    destruct (ci_own0 q pcq wq eq' Hq' Htq) as (Hrq & Hwq & Heq & Hokq).
    split_and!; [lia..|done|done|]. revert Hokq. apply slot_ok_frame. intros Hi.
    split; [|done]. apply (window_upd _ r); [lia..|]. intros Hg. apply Hne.
    apply (ci_inj0 q p (g p)); [|done]. exists pcq, (wq, eq'). done.
  - intros q q' i [Hq _]%Ho [Hq' _]%Ho. eauto.
  - intros i Hi. destruct (decide (i = g p)) as [->|Hne].
    + right. split; [done|]. unfold published.
      rewrite list_lookup_insert_eq by (apply sl_lt; lia). rewrite Hb, He.
      destruct (cs_cons st); try done. case_decide as Hgp; [|done]. exfalso.
      destruct ci_cons0 as (_ & _ & Hno & _). apply (Hno p). by rewrite <- Hgp.
    + destruct (ci_pub0 i Hi) as [[q Hq]|[Hi2 Hpub]].
      * left. exists q. apply Ho. split; [done|]. intros ->. apply Hne.
        by eapply owns_fun.
      * right. split; [done|]. eapply published_frame; [|done|done].
        apply (window_upd _ r); lia.
  - intros i Hi. rewrite (window_upd _ r); [by apply ci_free0|lia..].
  - revert ci_cons0. apply cons_ok_mono; [|done|done]. by intros q [Hq _]%Ho.
Qed.

Lemma inv_take r els g st p e :
  cinv r els g st -> cs_prod st !! p = Some PIdle -> pending (cs_prod st) = 0 ->
  cinv r (els ++ [e]) (fun q => if decide (q = p) then len els else g q)
    (set_prod p (PTest (cs_wpos st) e) (set_wpos (u32 (cs_wpos st + 1)) st)).
Proof.
  intros H Hp Hpend. pose proof (lookup_lt_Some _ _ _ Hp) as Hlt. destruct H.
  rewrite ci_wpos0, Hpend, Z.add_0_r, u32_add_l.
  set (g' := fun q => if decide (q = p) then len els else g q).
  assert (forall q i, owns g' (<[p := PTest (u32 (len els)) e]> (cs_prod st)) q i <->
            owns g (cs_prod st) q i \/ (q = p /\ i = len els)) as Ho.
  { intros q i. unfold owns, g'. destruct (decide (q = p)) as [->|Hne].
    - rewrite list_lookup_insert_eq by done. split.
      + intros (pc & t & _ & _ & <-). auto.
      + intros [(pc & t & Hpc & Ht & _)|[_ ->]]; [by simplify_eq|]. by eexists _, _.
    - rewrite list_lookup_insert_ne by done. split; [auto|]. intros [?|[? _]]; done. }
  assert (len (els ++ [e]) = len els + 1) as Hlen by (rewrite length_app; simpl; lia).
  assert (forall q i, owns g (cs_prod st) q i -> r <= i < len els) as Hrange.
  { intros q i (pc & [w x] & Hpc & Ht & <-). by apply (ci_own0 q pc w x). }
  split; simpl; auto; try lia.
  - by rewrite length_insert.
  - rewrite (pending_other _ _ PIdle), Hpend by done. f_equal. lia.
  - intros q q' [_ Hq]%other_rollback [_ Hq']%other_rollback; eauto.
  - intros q pcq wq eq' Hq Htq. unfold g'. destruct (decide (q = p)) as [->|Hne].
    + rewrite list_lookup_insert_eq in Hq by done. simplify_eq. simpl in *. simplify_eq.
      split_and!; [lia..|done| |].
      * rewrite lookup_app_r by lia. replace (_ - _)%nat with 0%nat by lia. done.
      * intros Hi. apply ci_free0. lia.
    + rewrite list_lookup_insert_ne in Hq by done.
      destruct (ci_own0 q pcq wq eq' Hq Htq) as (Hrq & Hwq & Heq & Hokq).
      split_and!; [lia..|done| |done]. by apply lookup_app_l_Some.
  - intros q q' i [Hq|[-> Hi]]%Ho [Hq'|[-> Hi']]%Ho; eauto.
    + apply Hrange in Hq. lia.
    + apply Hrange in Hq'. lia.
  - intros i Hi. destruct (decide (i = len els)) as [->|].
    { left. exists p. apply Ho. auto. }
    destruct (ci_pub0 i) as [[q Hq]|[Hi2 Hpub]]; [lia| |].
    { left. exists q. apply Ho. auto. }
    right. split; [done|]. revert Hpub. unfold published.
    rewrite !lookup_app_l by lia. done.
  - intros i Hi. apply ci_free0. lia.
  - revert ci_cons0. destruct (cs_cons st) eqn:Ec; simpl; auto.
    all: intros (-> & ? & Hn & HH) || intros (-> & ? & Hn); split_and!; auto; try lia.
    all: try (intros q [Hq|[-> Hq]]%Ho; [by apply (Hn q)|lia]).
    all: by apply lookup_app_l_Some.
Qed.

(** The full test computes the exact distance between ticket and consumer. *)
Lemma test_exact r els g st p w e :
  cinv r els g st -> cs_prod st !! p = Some (PTest w e) ->
  u32 (w - cs_rpos st) = g p - r.
Proof.
  intros H Hp. pose proof (tickets_bound _ _ _ _ H). pose proof (cinv_cap _ _ _ _ H).
  pose proof (ci_n _ _ _ _ H).
  destruct (ci_own _ _ _ _ H p _ w e Hp eq_refl) as (Hr & -> & _).
  rewrite (ci_rpos _ _ _ _ H), u32_sub_l, u32_sub_r. apply u32_small. unfold is_u32. lia.
Qed.

(** A quiet rejection concerns the last ticket, beyond the window. *)
Lemma full_last r els g st p w e :
  cinv r els g st -> cs_prod st !! p = Some (PTest w e) ->
  cap <= u32 (w - cs_rpos st) -> cs_wpos st = u32 (w + 1) ->
  pending (cs_prod st) = 0 /\ len els = g p + 1 /\ r + cap <= g p.
Proof.
  intros H Hp Hf Hw. rewrite (test_exact _ _ _ _ _ _ _ H Hp) in Hf.
  pose proof (tickets_bound _ _ _ _ H). pose proof (cinv_cap _ _ _ _ H).
  pose proof (ci_n _ _ _ _ H).
  destruct (ci_own _ _ _ _ H p _ w e Hp eq_refl) as (Hr & -> & _).
  rewrite (ci_wpos _ _ _ _ H), u32_add_l in Hw.
  assert (0 <= pending (cs_prod st) <= 1) by (unfold pending; destruct (existsb _ _); lia).
  apply u32_inj_near in Hw; lia.
Qed.

Lemma inv_full r els g st p w e :
  cinv r els g st -> cs_prod st !! p = Some (PTest w e) ->
  cap <= u32 (w - cs_rpos st) -> cs_wpos st = u32 (w + 1) ->
  cinv r (removelast els) g (set_prod p PRollback st).
Proof.
  intros H Hp Hf Hw. pose proof (cinv_cap _ _ _ _ H) as Hc.
  destruct (full_last _ _ _ _ _ _ _ H Hp Hf Hw) as (Hpend & Hlast & Hbeyond).
  pose proof (lookup_lt_Some _ _ _ Hp) as Hlt.
  pose proof (owner_of _ _ _ _ _ _ _ H Hp eq_refl) as Hown. destruct H.
  destruct (exists_last (l:=els)) as (els' & x & ->).
  { intros ->. simpl in Hlast. lia. }
  rewrite removelast_last. rewrite length_app in *. simpl in *.
  assert (forall q, cs_prod st !! q <> Some PRollback) as Hno.
  { intros q Hq. rewrite (pending_some _ q Hq) in Hpend. lia. }
  assert (forall q i, owns g (<[p := PRollback]> (cs_prod st)) q i <->
                      owns g (cs_prod st) q i /\ q <> p) as Ho.
  { intros. by apply owns_drop. }
  split; simpl; auto; try lia.
  - by rewrite length_insert.
  - rewrite (pending_some _ p) by (by rewrite list_lookup_insert_eq).
    rewrite ci_wpos0. f_equal. lia.
  - intros q q' Hq Hq'. destruct (decide (p = q)) as [<-|]; cycle 1.
    { rewrite list_lookup_insert_ne in Hq by done. by apply Hno in Hq. }
    destruct (decide (p = q')) as [<-|]; [done|].
    rewrite list_lookup_insert_ne in Hq' by done. by apply Hno in Hq'.
  - intros q pcq wq eq' Hq Htq.
    destruct (other_tickets _ _ PRollback _ _ _ Hlt eq_refl Hq Htq) as [Hne Hq'].
    destruct (ci_own0 q pcq wq eq' Hq' Htq) as (Hrq & Hwq & Heq & Hokq).
    assert (g q <> g p) as Hgne.
    { intros Hg. apply Hne. apply (ci_inj0 q p (g p)); [|done]. by exists pcq, (wq, eq'). }
    split_and!; [lia..|done| |done]. rewrite lookup_app_l in Heq by lia. done.
  - intros q q' i [Hq _]%Ho [Hq' _]%Ho. eauto.
  - intros i Hi. destruct (ci_pub0 i) as [[q Hq]|[Hi2 Hpub]]; [lia| |].
    { left. exists q. apply Ho. split; [done|]. intros ->.
      pose proof (owns_fun _ _ _ _ _ Hq Hown). lia. }
    right. split; [done|]. revert Hpub. unfold published.
    rewrite !lookup_app_l by lia. done.
  - revert ci_cons0. destruct (cs_cons st) eqn:Ec; simpl; auto.
    all: intros (-> & ? & Hn & HH) || intros (-> & ? & Hn); split_and!; auto; try lia.
    all: try (intros q [Hq _]%Ho; by apply (Hn q)).
    all: by rewrite lookup_app_l in HH by lia.
Qed.

Lemma inv_rollback r els g st p :
  cinv r els g st -> cs_prod st !! p = Some PRollback ->
  cinv r els g (set_prod p PIdle (set_wpos (u32 (cs_wpos st - 1)) st)).
Proof.
  intros H Hp. pose proof (lookup_lt_Some _ _ _ Hp) as Hlt. destruct H.
  assert (forall q, <[p := PIdle]> (cs_prod st) !! q <> Some PRollback) as Hno.
  { intros q [Hne Hq]%other_rollback; [|done|done]. by apply Hne, ci_rb0. }
  assert (forall q i, owns g (<[p := PIdle]> (cs_prod st)) q i <->
                      owns g (cs_prod st) q i) as Ho.
  { intros. by apply (owns_same _ _ _ PRollback). }
  split; simpl; auto.
  - by rewrite length_insert.
  - rewrite (pending_none _ Hno), ci_wpos0, (pending_some _ p Hp), u32_sub_l. f_equal. lia.
  - intros q q' Hq. by apply Hno in Hq.
  - intros q pcq wq eq' Hq Htq.
    destruct (other_tickets _ _ PIdle _ _ _ Hlt eq_refl Hq Htq) as [Hne Hq']. eauto.
  - intros q q' i. rewrite !Ho. apply ci_inj0.
  - intros i Hi. setoid_rewrite Ho. by apply ci_pub0.
  - revert ci_cons0. apply cons_ok_mono; [|done|done]. by intros q Hq%Ho.
Qed.

(** *** The consumer *)

(** The slot of the next ticket reads [r + 1] only when that ticket is published. *)
Lemma load_ready r els g st :
  cinv r els g st -> cs_cons st = CIdle -> cs_seq st !! sl r = Some (u32 (r + 1)) ->
  r < len els /\ forall p, ~ owns g (cs_prod st) p r.
Proof.
  intros H Hc Hs. pose proof (cinv_cap _ _ _ _ H) as Hcap.
  assert (u32 r <> u32 (r + 1)) as Hn1 by (intros He%u32_inj_near; lia).
  assert (u32 (r + cap) <> u32 (r + 1)) as Hn2 by (intros He%u32_inj_near; lia).
  destruct H. split.
  - destruct (Z.lt_ge_cases r (len els)) as [|Hge]; [done|].
    rewrite ci_free0 in Hs by lia. by simplify_eq.
  - intros p (pc & [w e] & Hp & Ht & Hg).
    destruct (ci_own0 p pc w e Hp Ht) as (_ & _ & _ & Hok). rewrite Hg in Hok.
    destruct pc; simpl in *; try done.
    + rewrite Hok in Hs by lia. by simplify_eq.
    + destruct Hok as [_ Hok]. rewrite Hok in Hs. by simplify_eq.
    + destruct Hok as [_ Hok]. rewrite Hok in Hs. by simplify_eq.
    + destruct Hok as (_ & Hok & _). rewrite Hok in Hs. by simplify_eq.
Qed.

(** Steps of the consumer that only move its program counter. *)
Lemma inv_cons_pc r els g st c :
  cinv r els g st -> (forall rr e, cs_cons st <> CAdvance rr e) ->
  (forall rr e, c <> CAdvance rr e) -> cons_ok g (cs_prod st) els r c ->
  cinv r els g (set_cons c st).
Proof.
  intros [] Hn Hn' Hok. split; simpl; auto. intros i Hi. 
  destruct (ci_pub0 i Hi) as [|[Hi2 Hpub]]; [by left|right]. split; [done|].
  revert Hpub. unfold published.
  destruct (cs_cons st) as [| | |rr e]; [| | |by destruct (Hn rr e)];
    (destruct c as [| | |rr' e']; [done..|by destruct (Hn' rr' e')]).
Qed.

Lemma inv_release r els g st rr e :
  cinv r els g st -> cs_cons st = CRelease rr e ->
  cinv r els g (set_cons (CAdvance rr e) (upd_seq (slot rr) (u32 (rr + cap)) st)).
Proof.
  intros H Hcs. pose proof (cinv_cap _ _ _ _ H) as Hc. pose proof (ci_cons _ _ _ _ H) as Hok.
  rewrite Hcs in Hok. destruct Hok as (-> & Hr & Hno & He).
  rewrite (slot_sl _ _ _ _ _ H), u32_add_l. destruct H. split; simpl; auto.
  - by rewrite length_insert.
  - intros p pc w x Hp Ht. destruct (ci_own0 p pc w x Hp Ht) as (Hrp & Hwp & Hep & Hokp).
    split_and!; [lia..|done|done|]. revert Hokp. apply slot_ok_frame. intros Hi.
    split; [|done]. apply (window_upd _ r); [lia..|]. intros Hg. apply (Hno p).
    exists pc, (w, x). done.
  - intros i Hi. destruct (ci_pub0 i Hi) as [|[Hi2 Hpub]]; [by left|right]. split; [done|].
    rewrite Hcs in Hpub. simpl in Hpub. case_decide as Hir.
    + subst i. apply list_lookup_insert_eq. apply sl_lt; lia.
    + by rewrite (window_upd _ r) by lia.
  - intros i Hi. rewrite (window_upd _ r) by lia. by apply ci_free0.
Qed.

Lemma inv_adv r els g st rr e :
  cinv r els g st -> cs_cons st = CAdvance rr e ->
  els !! Z.to_nat r = Some e /\ cinv (r + 1) els g (set_cons CIdle (set_rpos (u32 (rr + 1)) st)).
Proof.
  intros H Hcs. pose proof (cinv_cap _ _ _ _ H) as Hc. pose proof (ci_cons _ _ _ _ H) as Hok.
  rewrite Hcs in Hok. destruct Hok as (-> & Hr & Hno & He). split; [done|].
  rewrite u32_add_l. destruct H.
  assert (cs_seq st !! sl (r + cap) = Some (u32 (r + cap))) as Hnext.
  { rewrite sl_next by lia. destruct (ci_pub0 r) as [[p Hp]|[_ Hpub]]; [lia|by apply Hno in Hp|].
    rewrite Hcs in Hpub. simpl in Hpub. by rewrite decide_True in Hpub. }
  split; simpl; auto; try lia.
  - intros p pc w x Hp Ht. destruct (ci_own0 p pc w x Hp Ht) as (Hrp & Hwp & Hep & Hokp).
    assert (g p <> r). { intros Hg. apply (Hno p). by exists pc, (w, x). }
    split_and!; [lia..|done|done|]. destruct pc; simpl in *; try tauto.
    + intros Hi. destruct (decide (g p = r + cap)) as [->|]; [done|]. apply Hokp. lia.
    + split; [lia|tauto].
    + split; [lia|tauto].
    + split; [lia|tauto].
  - intros i Hi. destruct (ci_pub0 i) as [|[Hi2 Hpub]]; [lia|by left|right]. split; [lia|].
    rewrite Hcs in Hpub. simpl in Hpub. by rewrite decide_False in Hpub by lia.
  - intros i Hi. destruct (decide (i = r + cap)) as [->|]; [done|]. apply ci_free0. lia.
Qed.

(** *** All steps together *)

Definition consumed (r : Z) (els : list A) (v : ev) (r' : Z) : Prop :=
  match v with
  | EvPop e => els !! Z.to_nat r = Some e /\ r' = r + 1
  | _ => r' = r
  end.

Lemma set_prod_eta st p pc :
  set_prod p pc st = MkC (cs_wpos st) (cs_rpos st) (cs_seq st) (cs_buf st)
                       (<[p := pc]> (cs_prod st)) (cs_cons st).
Proof. done. Qed.

Lemma prod_step_inv r els g st p pc a st' v :
  cinv r els g st -> act_prod a = Some p -> cs_prod st !! p = Some pc ->
  quiet_act a st = true -> prod_step a pc st = Some (st', v) ->
  exists g', cinv r (accepted_step els v) g' st' /\ consumed r els v r.
Proof.
  intros H Ha Hp Hq Hs. pose proof (cinv_cap _ _ _ _ H) as Hc.
  pose proof (ci_slen _ _ _ _ H). pose proof (ci_blen _ _ _ _ H).
  destruct a; simpl in Ha; simplify_eq; destruct pc; simpl in Hs; simplify_eq; simpl.
  - eexists. split; [|done]. apply inv_take; [done..|]. unfold pending.
    simpl in Hq. apply negb_true_iff in Hq. by rewrite Hq.
  - simpl in Hq. rewrite Hp in Hq. case_if_in Hs; simplify_eq; reflectZ; exists g; split; try done.
    + by eapply inv_full.
    + destruct (ci_own _ _ _ _ H p _ w e Hp eq_refl) as (Hr & Hw & He & Hok).
      rewrite (test_exact _ _ _ _ _ _ _ H Hp) in Heqb. simpl in Hok.
      rewrite set_prod_eta. eapply inv_advance; try done. simpl. split; [lia|]. apply Hok. lia.
  - exists g. split; [|done]. by apply inv_rollback.
  - destruct (ci_own _ _ _ _ H p _ w e Hp eq_refl) as (Hr & -> & He & Hgr & Hok).
    rewrite (slot_sl _ _ _ _ _ H), Hok in Hs. simpl in Hs. rewrite Z.eqb_refl, u32_add_l in Hs.
    simplify_eq. exists g. split; [|done]. rewrite set_prod_eta. simpl.
    eapply inv_advance; try done; simpl; [by rewrite length_insert|..].
    + intros i Hi Hne. by rewrite (window_upd _ r) by lia.
    + rewrite list_lookup_insert_eq; [done|]. apply sl_lt; lia.
  - destruct (ci_own _ _ _ _ H p _ w e Hp eq_refl) as (Hr & -> & He & Hgr & Hok).
    rewrite (slot_sl _ _ _ _ _ H), Hok in Hs. simpl in Hs.
    rewrite u32_add_l in Hs. case_if_in Hs; [|simplify_eq; by exists g].
    apply u32_inj_near in Heqb; lia.
  - destruct (ci_own _ _ _ _ H p _ w e Hp eq_refl) as (Hr & -> & He & Hgr & Hok).
    exists g. split; [|done]. rewrite set_prod_eta, (slot_sl _ _ _ _ _ H). simpl.
    eapply inv_advance; try done; simpl; [by rewrite length_insert|..].
    + intros i Hi Hne. by rewrite (window_upd _ r) by lia.
    + rewrite list_lookup_insert_eq; [done|]. apply sl_lt; lia.
  - exists g. split; [|done]. by eapply inv_publish.
Qed.

Lemma cons_step_inv r els g st a st' v :
  cinv r els g st -> cons_step a st = Some (st', v) ->
  exists r', cinv r' (accepted_step els v) g st' /\ consumed r els v r'.
Proof.
  intros H Hs. pose proof (ci_cons _ _ _ _ H) as Hok. unfold cons_step in Hs.
  destruct a, (cs_cons st) as [|rr|rr x0|rr x0] eqn:Ec; simplify_eq.
  - rewrite (ci_rpos _ _ _ _ H), (slot_sl _ _ _ _ _ H) in Hs.
    destruct (cs_seq st !! sl r) as [x|] eqn:Ex; simpl in Hs; [|done].
    rewrite u32_add_l in Hs. case_if_in Hs; simplify_eq; exists r; [|done]. split; [|done].
    destruct (load_ready _ _ _ _ H Ec Ex) as [Hr Hno].
    apply inv_cons_pc; [done|by rewrite Ec|done|]. done.
  - destruct Hok as (-> & Hr & Hno). rewrite (slot_sl _ _ _ _ _ H) in Hs.
    destruct (ci_pub _ _ _ _ H r) as [[p Hp]|[_ Hpub]].
    { pose proof (ci_pos _ _ _ _ H). lia. } { by apply Hno in Hp. }
    rewrite Ec in Hpub. simpl in Hpub. destruct Hpub as [_ Hb]. rewrite Hb in Hs.
    destruct (els !! Z.to_nat r) as [e|] eqn:Ee; simpl in Hs; simplify_eq.
    exists r. split; [|done]. apply inv_cons_pc; [done|by rewrite Ec|done|]. done.
  - exists r. split; [|done]. by apply inv_release.
  - destruct (inv_adv _ _ _ _ _ _ H Ec) as [He Hi]. exists (r + 1). by simpl.
Qed.

Lemma cstep_inv r els g st a st' v :
  cinv r els g st -> quiet_act a st = true -> cstep a st = Some (st', v) ->
  exists r' g', cinv r' (accepted_step els v) g' st' /\ consumed r els v r'.
Proof.
  intros H Hq Hs. unfold cstep in Hs. destruct (act_prod a) as [p|] eqn:Ea.
  - destruct (cs_prod st !! p) as [pc|] eqn:Ep; simpl in Hs; [|done].
    destruct (prod_step_inv _ _ _ _ _ _ _ _ _ H Ea Ep Hq Hs) as (g' & Hi & Hc). eauto.
  - destruct (cons_step_inv _ _ _ _ _ _ _ H Hs) as (r' & Hi & Hc). eauto.
Qed.

Lemma consumed_take r els g st v r' g' st' :
  cinv r els g st -> cinv r' (accepted_step els v) g' st' -> consumed r els v r' ->
  take (Z.to_nat r') (accepted_step els v) = take (Z.to_nat r) els ++ popped [v].
Proof.
  intros H H' Hc. pose proof (ci_pos _ _ _ _ H). pose proof (ci_pos _ _ _ _ H').
  destruct v; simpl in *; subst; rewrite ?app_nil_r; auto.
  - rewrite take_app_le by lia. done.
  - destruct (decide (els = [])) as [->|Hne]; [done|].
    destruct (exists_last Hne) as (els' & x & ->). rewrite removelast_last in *.
    rewrite take_app_le by lia. done.
  - destruct Hc as [He ->]. replace (Z.to_nat (r + 1)) with (S (Z.to_nat r)) by lia.
    by apply take_S_r.
Qed.

(** Along a quiet schedule the invariant holds and the elements popped are the
    oldest accepted ones, in order. *)
Lemma crun_inv acts st st' vs r els g :
  cinv r els g st -> quiet acts st = true -> crun acts st = Some (st', vs) ->
  exists r' g', cinv r' (foldl accepted_step els vs) g' st' /\
    take (Z.to_nat r') (foldl accepted_step els vs) = take (Z.to_nat r) els ++ popped vs.
Proof.
  revert st vs r els g. induction acts as [|a acts IH]; intros st vs r els g H Hq Hr; simpl in *.
  - simplify_eq. exists r, g. by rewrite app_nil_r.
  - destruct (cstep a st) as [[st1 v]|] eqn:Es; simpl in Hr; [|done].
    apply andb_true_iff in Hq as [Hqa Hq].
    destruct (crun acts st1) as [[st2 vs2]|] eqn:Er; simpl in Hr; simplify_eq.
    destruct (cstep_inv _ _ _ _ _ _ _ H Hqa Es) as (r1 & g1 & H1 & Hc1).
    destruct (IH _ _ _ _ _ H1 Hq Er) as (r2 & g2 & H2 & Ht2).
    exists r2, g2. split; [done|]. simpl. rewrite Ht2.
    rewrite (consumed_take _ _ _ _ _ _ _ _ H H1 Hc1), <- app_assoc. f_equal.
    destruct v; done.
Qed.

Lemma cinit_inv k n junk :
  1 <= k <= 31 -> cap = 2 ^ k -> Z.of_nat n < 2 ^ 31 -> len junk = cap ->
  cinv 0 [] (fun _ => 0) (cinit n junk).
Proof.
  intros Hk Hcap Hn Hj. assert (2 <= cap <= 2 ^ 31).
  { subst cap. split; [change 2 with (2 ^ 1) at 1|]; apply Z.pow_le_mono_r; lia. }
  assert (forall i, (i < Z.to_nat cap)%nat ->
    seq_init (replicate (Z.to_nat cap) 0) cap !! i = Some (Z.of_nat i) /\
    length (seq_init (replicate (Z.to_nat cap) 0) cap) = Z.to_nat cap) as Hseq.
  { intros i Hi. pose proof (seq_init_lookup (replicate (Z.to_nat cap) 0) (Z.to_nat cap) i) as Hl.
    rewrite length_replicate, Z2Nat.id in Hl by lia. apply Hl; lia. }
  assert (forall p pc, replicate n (@PIdle) !! p = Some pc -> pc = PIdle) as Hidle.
  { intros p pc. rewrite lookup_replicate. tauto. }
  assert (forall p, replicate n (@PIdle) !! p <> Some PRollback) as Hnr.
  { intros p Hp%Hidle. done. }
  split; simpl; try done; try lia; try by exists k.
  - by rewrite length_replicate.
  - destruct (Hseq 0%nat) as [_ ->]; lia.
  - by rewrite (pending_none _ Hnr).
  - intros p q Hp. by apply Hnr in Hp.
  - intros p pc w e Hp%Hidle. by subst.
  - intros p q i (pc & t & Hp%Hidle & Ht & _). by subst.
  - intros i Hi. unfold sl. rewrite Z.mod_small by lia.
    destruct (Hseq (Z.to_nat i)) as [-> _]; [lia|]. rewrite u32_small by (unfold is_u32; lia).
    f_equal. lia.
Qed.
End Conc.

(** ** When schedules are quiet *)

Lemma cstep_nprod {A} cap (a : @act A) st st' v :
  cstep cap a st = Some (st', v) -> length (cs_prod st') = length (cs_prod st).
Proof.
  unfold cstep. destruct (act_prod a) as [p|] eqn:Ea.
  - destruct (cs_prod st !! p) as [pc|]; simpl; [|done]. intros Hs.
    destruct a, pc; simpl in *; simplify_eq; simpl; rewrite ?length_insert; try done.
    + case_if_in Hs; simplify_eq; simpl; by rewrite length_insert.
    + destruct (cs_seq st !! slot cap w); simpl in Hs; [|done].
      repeat case_if_in Hs; simplify_eq; simpl; by rewrite ?length_insert.
    + destruct (cs_seq st !! slot cap w); simpl in Hs; [|done].
      case_if_in Hs; simplify_eq; simpl; by rewrite ?length_insert.
  - unfold cons_step. destruct a, (cs_cons st); intros Hs; simplify_eq; simpl; try done.
    + destruct (cs_seq st !! _); simpl in Hs; [|done]. case_if_in Hs; by simplify_eq.
    + destruct (cs_buf st !! _); simpl in Hs; by simplify_eq.
Qed.

(** A lone producer that finds the queue full holds the last ticket. *)
Lemma one_producer_last {A} cap (st : @cstate A) r els g p w e :
  cinv cap r els g st -> length (cs_prod st) = 1%nat -> cs_prod st !! p = Some (PTest w e) ->
  cap <= u32 (w - cs_rpos st) -> cs_wpos st = u32 (w + 1).
Proof.
  intros H Hn Hp Hf. rewrite (test_exact _ _ _ _ _ _ _ _ H Hp) in Hf.
  assert (forall q pc, cs_prod st !! q = Some pc -> q = p) as H0.
  { apply lookup_lt_Some in Hp. intros q pc Hq%lookup_lt_Some. lia. }
  destruct (ci_own _ _ _ _ _ H p _ w e Hp eq_refl) as (Hr & -> & _).
  assert (len els = g p + 1) as Hlast.
  { destruct (decide (g p + 1 = len els)) as [|Hne]; [done|exfalso].
    destruct (ci_pub _ _ _ _ _ H (g p + 1)) as [[q (pc & t & Hq & _ & Hg)]|[Hlt _]]; [lia| |lia].
    rewrite (H0 _ _ Hq) in Hg. lia. }
  rewrite (ci_wpos _ _ _ _ _ H), pending_none, Hlast, Z.add_0_r, u32_add_l; [done|].
  intros q Hq. rewrite (H0 _ _ Hq) in Hq. congruence.
Qed.

Lemma one_producer_act {A} cap (a : @act A) st st' v r els g :
  cinv cap r els g st -> length (cs_prod st) = 1%nat -> cstep cap a st = Some (st', v) ->
  quiet_act cap a st = true.
Proof.
  intros H Hn Hs. destruct a; simpl; auto.
  - unfold cstep in Hs. simpl in Hs.
    destruct (cs_prod st !! p) as [[]|] eqn:Hp; simpl in Hs; simplify_eq.
    destruct (existsb is_rollback (cs_prod st)) eqn:E; [|done].
    apply existsb_lookup in E as [q Hq].
    pose proof (lookup_lt_Some _ _ _ Hp). pose proof (lookup_lt_Some _ _ _ Hq).
    replace q with p in Hq by lia. congruence.
  - destruct (cs_prod st !! p) as [[]|] eqn:Hp; try done. case_if; [|done].
    apply Z.eqb_eq. by eapply one_producer_last.
Qed.

(** With a single producer every schedule is quiet. *)
Lemma one_producer_quiet {A} cap (acts : list (@act A)) st r els g :
  cinv cap r els g st -> length (cs_prod st) = 1%nat -> quiet cap acts st = true.
Proof.
  revert st r els g. induction acts as [|a acts IH]; intros st r els g H Hn; simpl; [done|].
  destruct (cstep cap a st) as [[st1 v]|] eqn:Es; [|done].
  pose proof (one_producer_act _ _ _ _ _ _ _ _ H Hn Es) as Hqa. rewrite Hqa. simpl.
  destruct (cstep_inv _ _ _ _ _ _ _ _ H Hqa Es) as (r1 & g1 & H1 & _).
  eapply IH; [done|]. by rewrite (cstep_nprod _ _ _ _ _ Es).
Qed.

(** Without a rejected push no producer is ever between the two operations. *)
Lemma no_full_step {A} cap (a : @act A) st st' v :
  (forall p, cs_prod st !! p <> Some PRollback) -> cstep cap a st = Some (st', v) ->
  (forall p, v <> EvFull p) ->
  quiet_act cap a st = true /\ forall p, cs_prod st' !! p <> Some PRollback.
Proof.
  intros Hn Hs Hv. assert (forall (p : nat) (pc : ppc) (ps : list (@ppc A)), (forall q : nat, ps !! q <> Some PRollback) ->
    pc <> PRollback -> forall q, <[p := pc]> ps !! q <> Some PRollback) as Hins.
  { intros p pc ps Hps Hpc q Hq. destruct (decide (p = q)) as [<-|].
    - apply list_lookup_insert_Some in Hq. naive_solver.
    - rewrite list_lookup_insert_ne in Hq by done. by apply Hps in Hq. }
  unfold cstep in Hs. destruct (act_prod a) as [p|] eqn:Ea.
  - destruct (cs_prod st !! p) as [pc|] eqn:Hp; simpl in Hs; [|done].
    destruct a, pc; simpl in *; simplify_eq; simpl; try (split; [done|by apply Hins]).
    + split; [|by apply Hins]. destruct (existsb _ _) eqn:E; [|done].
      apply existsb_lookup in E as [q Hq]. by apply Hn in Hq.
    + rewrite Hp. case_if_in Hs; simplify_eq; [by destruct (Hv p)|].
      split; [by ztest|by apply Hins].
    + destruct (cs_seq st !! slot cap w); simpl in Hs; [|done]. split; [done|].
      repeat case_if_in Hs; simplify_eq; simpl; auto.
    + destruct (cs_seq st !! slot cap w); simpl in Hs; [|done]. split; [done|].
      repeat case_if_in Hs; simplify_eq; simpl; auto.
  - unfold cons_step in Hs. destruct a, (cs_cons st); simplify_eq; simpl; try done.
    + destruct (cs_seq st !! _); simpl in Hs; [|done]. case_if_in Hs; by simplify_eq.
    + destruct (cs_buf st !! _); simpl in Hs; by simplify_eq.
Qed.

Lemma no_full_quiet {A} cap (acts : list (@act A)) st st' vs :
  (forall p, cs_prod st !! p <> Some PRollback) -> crun cap acts st = Some (st', vs) ->
  (forall p, EvFull p ∉ vs) -> quiet cap acts st = true.
Proof.
  revert st vs. induction acts as [|a acts IH]; intros st vs Hn Hr Hv; simpl in *; [done|].
  destruct (cstep cap a st) as [[st1 v]|] eqn:Es; simpl in Hr; [|done].
  destruct (crun cap acts st1) as [[st2 vs2]|] eqn:Er; simpl in Hr; simplify_eq.
  destruct (no_full_step _ _ _ _ _ Hn Es) as [Hqa Hn1]; [set_solver|].
  rewrite Hqa. simpl. eapply IH; eauto. set_solver.
Qed.

(** ** Properties *)

Section Reach.
Context {A : Type} (cap k : Z) (n : nat) (junk : list A).
Context (Hk : 1 <= k <= 31) (Hcap : cap = 2 ^ k) (Hn : Z.of_nat n < 2 ^ 31) (Hj : len junk = cap).

Lemma quiet_reach acts st vs :
  quiet cap acts (cinit cap n junk) = true -> crun cap acts (cinit cap n junk) = Some (st, vs) ->
  exists r g, cinv cap r (accepted vs) g st /\ take (Z.to_nat r) (accepted vs) = popped vs.
Proof.
  intros Hq Hr. destruct (crun_inv cap acts (cinit cap n junk) st vs 0 [] (fun _ => 0))
    as (r & g & Hi & Ht); [by apply (cinit_inv cap k)|done..|]. by exists r, g.
Qed.
End Reach.

(** C6: under every quiet interleaving of any number of producers with the
    consumer, the elements popped are a prefix of the elements accepted, in
    ticket order: nothing is lost, duplicated, invented or reordered. *)
Theorem conc_fifo {A} cap k n (junk : list A) acts st vs :
  1 <= k <= 31 -> cap = 2 ^ k -> Z.of_nat n < 2 ^ 31 -> len junk = cap ->
  quiet cap acts (cinit cap n junk) = true -> crun cap acts (cinit cap n junk) = Some (st, vs) ->
  popped vs `prefix_of` accepted vs.
Proof.
  intros Hk Hcap Hn Hj Hq Hr.
  destruct (quiet_reach cap k n junk Hk Hcap Hn Hj acts st vs Hq Hr) as (r & g & _ & <-).
  apply prefix_take.
Qed.

Definition two_producers : list (@act Z) :=
  [ATake 0 10; ATake 1 20; ATest 1; ACas 1; ATest 0; ACopy 1; ACasSpurious 0; ACas 0; APublish 1;
   AConsLoad; ACopy 0; APublish 0; AConsLoad; AConsCopy; ATake 0 30; AConsRelease; ATest 0;
   ARollback 0; AConsAdvance].

Lemma conc_fifo_witness :
  exists st vs, crun 2 two_producers (cinit 2 2 [0; 0]) = Some (st, vs) /\
    popped vs = [10] /\ accepted vs = [10; 20] /\ popped vs `prefix_of` accepted vs.
Proof.
  eexists _, _. split; [vm_compute; reflexivity|].
  split; [reflexivity|]. split; [reflexivity|].
  eapply (conc_fifo 2 1 2 [0; 0] two_producers); try reflexivity; lia.
Defined.

(** C21: no data race. In every state of a quiet schedule two producers copying
    at the same time copy to different slots, and no producer copies to the
    slot the consumer is copying from. *)
Theorem conc_no_race {A} cap k n (junk : list A) acts st vs p w e :
  1 <= k <= 31 -> cap = 2 ^ k -> Z.of_nat n < 2 ^ 31 -> len junk = cap ->
  quiet cap acts (cinit cap n junk) = true -> crun cap acts (cinit cap n junk) = Some (st, vs) ->
  cs_prod st !! p = Some (PCopy w e) ->
  (forall q w' e', q <> p -> cs_prod st !! q = Some (PCopy w' e') -> slot cap w' <> slot cap w) /\
  (forall r, cs_cons st = CCopy r -> slot cap r <> slot cap w).
Proof.
  intros Hk Hcap Hn Hj Hq Hr Hp.
  destruct (quiet_reach cap k n junk Hk Hcap Hn Hj acts st vs Hq Hr) as (r & g & Hi & _).
  pose proof (cinv_cap _ _ _ _ _ Hi) as Hc2.
  destruct (ci_own _ _ _ _ _ Hi p _ w e Hp eq_refl) as (Hrp & -> & _ & Hlt & _).
  split.
  - intros q w' e' Hne Hq'.
    destruct (ci_own _ _ _ _ _ Hi q _ w' e' Hq' eq_refl) as (Hrq & -> & _ & Hltq & _).
    rewrite !(slot_sl _ _ _ _ _ _ Hi). apply (sl_ne cap r); [lia..|]. intros Hg. apply Hne.
    apply (ci_inj _ _ _ _ _ Hi q p (g p)); [|by eapply owner_of]. by eexists _, _.
  - intros rr Hc. pose proof (ci_cons _ _ _ _ _ Hi) as Hok. rewrite Hc in Hok.
    destruct Hok as (-> & Hrl & Hno). rewrite !(slot_sl _ _ _ _ _ _ Hi).
    apply (sl_ne cap r); [lia..|]. intros Hg. apply (Hno p). rewrite Hg. by eapply owner_of.
Qed.

Lemma conc_no_race_witness :
  exists st vs, crun 4 [ATake 0 10; ATest 0; ACas 0; ACopy 0; APublish 0; AConsLoad;
                        ATake 0 20; ATest 0; ACas 0; ATake 1 30; ATest 1; ACas 1]
                  (cinit 4 2 [0; 0; 0; 0]) = Some (st, vs) /\
    cs_prod st !! 0%nat = Some (PCopy 1 20) /\ cs_prod st !! 1%nat = Some (PCopy 2 30) /\
    cs_cons st = CCopy 0 /\
    ((forall q w' e', q <> 0%nat -> cs_prod st !! q = Some (PCopy w' e') -> slot 4 w' <> slot 4 1) /\
     (forall r, cs_cons st = CCopy r -> slot 4 r <> slot 4 1)).
Proof.
  eexists _, _. split; [vm_compute; reflexivity|]. do 3 (split; [reflexivity|]).
  eapply (conc_no_race 4 2 2 [0; 0; 0; 0]
    [ATake 0 10; ATest 0; ACas 0; ACopy 0; APublish 0; AConsLoad;
     ATake 0 20; ATest 0; ACas 0; ATake 1 30; ATest 1; ACas 1]); try reflexivity; lia.
Defined.

(** push never waits. In every state of a quiet schedule a producer in the
    compare-and-swap loop finds the number it expects in its slot, so the loop
    is left at the first attempt that does not fail spuriously. *)
Theorem conc_push_never_waits {A} cap k n (junk : list A) acts st vs p w e :
  1 <= k <= 31 -> cap = 2 ^ k -> Z.of_nat n < 2 ^ 31 -> len junk = cap ->
  quiet cap acts (cinit cap n junk) = true -> crun cap acts (cinit cap n junk) = Some (st, vs) ->
  cs_prod st !! p = Some (PCas w e) ->
  exists st', cstep cap (ACas p) st = Some (st', EvTau) /\ cs_prod st' !! p = Some (PCopy w e).
Proof.
  intros Hk Hcap Hn Hj Hq Hr Hp.
  destruct (quiet_reach cap k n junk Hk Hcap Hn Hj acts st vs Hq Hr) as (r & g & Hi & _).
  destruct (ci_own _ _ _ _ _ Hi p _ w e Hp eq_refl) as (Hrp & -> & _ & Hlt & Hs).
  unfold cstep. simpl. rewrite Hp. simpl. rewrite (slot_sl _ _ _ _ _ _ Hi), Hs. simpl.
  rewrite Z.eqb_refl. eexists. split; [done|]. simpl.
  apply list_lookup_insert_eq. by eapply lookup_lt_Some.
Qed.

Lemma conc_push_never_waits_witness :
  exists st vs, crun 2 [ATake 0 10; ATest 0] (cinit 2 1 [0; 0]) = Some (st, vs) /\
    exists st', cstep 2 (ACas 0) st = Some (st', EvTau) /\ cs_prod st' !! 0%nat = Some (PCopy 0 10).
Proof.
  eexists _, _. split; [vm_compute; reflexivity|].
  eapply (conc_push_never_waits 2 1 1 [0; 0] [ATake 0 10; ATest 0]); try reflexivity; lia.
Defined.

(** C20: when a quiet schedule has come to rest (no push or pop under way) the
    next pop reports empty exactly when everything accepted was popped, and
    otherwise returns the oldest accepted element that was not. *)
Theorem conc_quiescent_pop {A} cap k n (junk : list A) acts st vs :
  1 <= k <= 31 -> cap = 2 ^ k -> Z.of_nat n < 2 ^ 31 -> len junk = cap ->
  quiet cap acts (cinit cap n junk) = true -> crun cap acts (cinit cap n junk) = Some (st, vs) ->
  cs_prod st = replicate n PIdle -> cs_cons st = CIdle ->
  (popped vs = accepted vs /\ cstep cap AConsLoad st = Some (st, EvEmpty)) \/
  exists e rest st', accepted vs = popped vs ++ e :: rest /\
    crun cap [AConsLoad; AConsCopy; AConsRelease; AConsAdvance] st
    = Some (st', [EvTau; EvTau; EvTau; EvPop e]).
Proof.
  intros Hk Hcap Hn Hj Hq Hr Hidle Hc.
  destruct (quiet_reach cap k n junk Hk Hcap Hn Hj acts st vs Hq Hr) as (r & g & Hi & Ht).
  pose proof (cinv_cap _ _ _ _ _ Hi) as Hc2. pose proof (ci_pos _ _ _ _ _ Hi) as Hpos.
  assert (forall p i, ~ owns g (cs_prod st) p i) as Hno.
  { intros p i (pc & t & Hp & Htk & _). rewrite Hidle, lookup_replicate in Hp.
    destruct Hp as [-> _]. done. }
  destruct (Z.lt_ge_cases r (len (accepted vs))) as [Hlt|Hge]; [right|left].
  - destruct (ci_pub _ _ _ _ _ Hi r) as [[p Hp]|[_ Hpub]]; [lia|by apply Hno in Hp|].
    rewrite Hc in Hpub. destruct Hpub as [Hs Hb].
    destruct (lookup_lt_is_Some_2 (accepted vs) (Z.to_nat r)) as [e He]; [lia|].
    rewrite He in Hb. exists e, (drop (S (Z.to_nat r)) (accepted vs)). eexists. split.
    { rewrite <- Ht. symmetry. by apply take_drop_middle. }
    unfold crun, cstep, cons_step. simpl. rewrite Hc, (ci_rpos _ _ _ _ _ Hi), (slot_sl _ _ _ _ _ _ Hi), Hs.
    simpl. rewrite u32_add_l, Z.eqb_refl. simpl. rewrite (slot_sl _ _ _ _ _ _ Hi), Hb. simpl. done.
  - split; [rewrite <- Ht; apply take_ge; lia|].
    unfold cstep, cons_step. simpl. rewrite Hc, (ci_rpos _ _ _ _ _ Hi), (slot_sl _ _ _ _ _ _ Hi).
    rewrite (ci_free _ _ _ _ _ Hi) by lia. simpl. rewrite u32_add_l.
    destruct (u32 r =? u32 (r + 1)) eqn:E; [|done]. reflectZ. apply u32_inj_near in E; lia.
Qed.

Definition push_twice : list (@act Z) :=
  [ATake 0 10; ATest 0; ACas 0; ACopy 0; APublish 0; ATake 1 20; ATest 1; ACas 1; ACopy 1;
   APublish 1; AConsLoad; AConsCopy; AConsRelease; AConsAdvance].

Lemma conc_quiescent_pop_witness :
  exists st vs, crun 2 push_twice (cinit 2 2 [0; 0]) = Some (st, vs) /\ accepted vs = [10; 20] /\
    ((popped vs = accepted vs /\ cstep 2 AConsLoad st = Some (st, EvEmpty)) \/
     exists e rest st', accepted vs = popped vs ++ e :: rest /\
       crun 2 [AConsLoad; AConsCopy; AConsRelease; AConsAdvance] st
       = Some (st', [EvTau; EvTau; EvTau; EvPop e])).
Proof.
  eexists _, _. split; [vm_compute; reflexivity|]. split; [reflexivity|].
  eapply (conc_quiescent_pop 2 1 2 [0; 0] push_twice); try reflexivity; lia.
Defined.

(** every schedule of a single producer and the consumer is quiet, and so
    is every schedule of any number of producers in which no push is rejected:
    these are the uses of the log queue of the daemon (one receiving thread),
    of the compression queue (producers under the lock of the file manager) and
    of a logger queue that never fills up. *)
Theorem conc_quiet_uses {A} cap k n (junk : list A) acts :
  1 <= k <= 31 -> cap = 2 ^ k -> Z.of_nat n < 2 ^ 31 -> len junk = cap ->
  (n = 1%nat \/ exists st vs, crun cap acts (cinit cap n junk) = Some (st, vs) /\
                              forall p, EvFull p ∉ vs) ->
  quiet cap acts (cinit cap n junk) = true.
Proof.
  intros Hk Hcap Hn Hj [->|(st & vs & Hr & Hv)].
  - eapply one_producer_quiet; [by apply (cinit_inv cap k)|]. done.
  - eapply no_full_quiet; [|done|done]. intros p. simpl. rewrite lookup_replicate. intros [? _]. done.
Qed.

Lemma conc_quiet_uses_witness :
  quiet 2 [ATake 0 1; ATest 0; ACas 0; ACopy 0; APublish 0; ATake 0 2; ATest 0; ACas 0; ACopy 0;
           APublish 0; ATake 0 3; ATest 0; AConsLoad; ARollback 0; ATake 0 3] (cinit 2 1 [0; 0])
  = true.
Proof. apply (conc_quiet_uses 2 1 1 [0; 0]); try lia. reflexivity. Defined.

(** The schedule of the next theorem: the queue of two slots is full; producers
    0 and 1 both take a ticket; 0 finds the queue full; the consumer drains it; 1
    now finds room, pushes and returns; 0 gives back the ticket of 1. *)
Definition wedge : list (@act Z) :=
  [ATake 0 1; ATest 0; ACas 0; ACopy 0; APublish 0; ATake 0 2; ATest 0; ACas 0; ACopy 0; APublish 0;
   ATake 0 3; ATake 1 4; ATest 0;
   AConsLoad; AConsCopy; AConsRelease; AConsAdvance; AConsLoad; AConsCopy; AConsRelease; AConsAdvance;
   ATest 1; ACas 1; ACopy 1; APublish 1; ARollback 0].

(** with two producers a rejected push can break the queue for good. After
    the schedule [wedge] no call is under way and the push of 4 has returned
    [SILOG_OK], yet pop reports empty, and the next push spins in its
    compare-and-swap loop: neither step changes the state again. *)
Theorem conc_rollback_wedges :
  exists st vs, crun 2 wedge (cinit 2 2 [0; 0]) = Some (st, vs) /\
    EvOk 1 ∈ vs /\ popped vs = [1; 2] /\ cs_prod st = [PIdle; PIdle] /\ cs_cons st = CIdle /\
    cstep 2 AConsLoad st = Some (st, EvEmpty) /\
    forall e, exists st', crun 2 [ATake 0 e; ATest 0] st = Some (st', [EvTake 0 e; EvTau]) /\
      cs_prod st' !! 0%nat = Some (PCas 3 e) /\
      cstep 2 (ACas 0) st' = Some (st', EvTau) /\
      cstep 2 (ACasSpurious 0) st' = Some (st', EvTau) /\
      cstep 2 AConsLoad st' = Some (st', EvEmpty).
Proof.
  eexists _, _. split; [vm_compute; reflexivity|].
  split; [apply list_elem_of_In; simpl; tauto|]. do 4 (split; [reflexivity|]).
  intros e. eexists. split; [vm_compute; reflexivity|]. do 3 (split; [reflexivity|]). reflexivity.
Qed.

(** a queue of capacity 1 hands out a slot before it is written: the number
    that claims the slot ([write + capacity]) is the number that publishes it
    ([write + 1]), so the consumer returns the previous content of the slot. *)
Theorem conc_capacity_one_race (x e : Z) :
  exists st vs, crun 1 [ATake 0 e; ATest 0; ACas 0; AConsLoad; AConsCopy; AConsRelease; AConsAdvance]
                  (cinit 1 1 [x]) = Some (st, vs) /\ popped vs = [x].
Proof. eexists _, _. split; vm_compute; reflexivity. Qed.
