(* ===== verification/MpscLink.v ===== *)
(** * The ring run by one thread and by many

    Mpsc.v gives the functions of the ring on bytes, as one thread runs them;
    MpscConc.v gives their atomic accesses as steps, on abstract elements. A call
    that no other thread interrupts does the same in both. *)

From S2P Require Import Prelude Errors CObj Mpsc MpscConc.
#[local] Open Scope Z_scope.

(** What a push answers, by the events of its steps. *)
Definition answers {A} (vs : list (@ev A)) : list ErrorCode :=
  omap (fun v => match v with EvOk _ => Some SILOG_OK | EvFull _ => Some SILOG_TRANS_QUEUE_FULL | _ => None end) vs.
(** A step of producer [p] inside the call that it is making. *)
Definition continues {A} (p : nat) (a : @act A) : Prop :=
  match a with ATake _ _ => False | _ => act_prod a = Some p end.

(** ** A push without interruption *)

Section push.
Context {A : Type} (cap : Z).
Implicit Types (st : @cstate A).

(** The last steps of a push, in one. *)
Definition fill (p : nat) (w : Z) (e : A) st : cstate :=
  MkC (cs_wpos st) (cs_rpos st) (<[slot cap w := u32 (w + 1)]> (cs_seq st)) (<[slot cap w := e]> (cs_buf st))
    (<[p := PIdle]> (cs_prod st)) (cs_cons st).
Definition push_alone (p : nat) (e : A) st : option (ErrorCode * cstate) :=
  let w := cs_wpos st in
  if cap <=? u32 (w - cs_rpos st)
  then Some (SILOG_TRANS_QUEUE_FULL, set_prod p PIdle (set_wpos (u32 (u32 (w + 1) - 1)) st))
  else
    x ← cs_seq st !! slot cap w;
    if (x =? w) || (x =? u32 (w + cap)) then Some (SILOG_OK, fill p w e (set_wpos (u32 (w + 1)) st)) else None.

(** The first step of a push. *)
Definition ticket (p : nat) (e : A) st : cstate := set_prod p (PTest (cs_wpos st) e) (set_wpos (u32 (cs_wpos st + 1)) st).

(** [p] alone goes on from [st] to the end of its call. *)
Definition finishes p st acts st' vs : Prop :=
  Forall (continues p) acts /\ crun cap acts st = Some (st', vs) /\ cs_prod st' !! p = Some PIdle.

Lemma finishes_inv p pc st acts st' vs :
  finishes p st acts st' vs -> cs_prod st !! p = Some pc -> pc <> PIdle ->
  exists a acts' st1 v vs', acts = a :: acts' /\ vs = v :: vs' /\ continues p a /\
    prod_step cap a pc st = Some (st1, v) /\ finishes p st1 acts' st' vs'.
Proof.
  intros (Hf & Hr & Hp) Hpc Hne. destruct acts as [|a acts]; cbn in Hr; [congruence|].
  apply Forall_cons_1 in Hf as [Ha Hf]. destruct (cstep cap a st) as [[st1 v]|] eqn:Hs; [|done]. cbn in Hr.
  destruct (crun cap acts st1) as [[st2 vs']|] eqn:Hr'; [|done]. injection Hr as -> <-.
  assert (act_prod a = Some p) as Hap by (by destruct a). unfold cstep in Hs. rewrite Hap, Hpc in Hs.
  by exists a, acts, st1, v, vs'.
Qed.
Lemma finishes_idle p st acts st' vs :
  finishes p st acts st' vs -> cs_prod st !! p = Some PIdle -> st' = st /\ vs = [].
Proof.
  intros (Hf & Hr & Hp) Hpc. destruct acts as [|a acts]; cbn in Hr; [by injection Hr as -> <-|].
  apply Forall_cons_1 in Hf as [Ha _]. exfalso. unfold cstep in Hr.
  assert (act_prod a = Some p) as Hap by (by destruct a). rewrite Hap, Hpc in Hr. by destruct a.
Qed.
Lemma set_prod_at p pc pc' st : cs_prod st !! p = Some pc -> cs_prod (set_prod p pc' st) !! p = Some pc'.
Proof. intros H. apply list_lookup_insert_eq. by eapply lookup_lt_Some. Qed.

(** One step of [p] alone that ends the call or leads to the program point [pc']. *)
Ltac alone H Hp :=
  destruct (finishes_inv _ _ _ _ _ _ H Hp) as (a & acts' & st1 & v & vs' & -> & -> & Ha & Hs & H'); [done|];
  destruct a; cbn in Ha; try done; injection Ha as ->; cbn in Hs; try done.

Lemma from_publish p w e st acts st' vs :
  finishes p st acts st' vs -> cs_prod st !! p = Some (PPublish w e) ->
  st' = set_prod p PIdle (upd_seq (slot cap w) (u32 (w + 1)) st) /\ answers vs = [SILOG_OK].
Proof.
  intros H Hp. alone H Hp. injection Hs as <- <-. apply finishes_idle in H' as [-> ->]; [done|by eapply set_prod_at].
Qed.
Lemma from_copy p w e st acts st' vs :
  finishes p st acts st' vs -> cs_prod st !! p = Some (PCopy w e) -> st' = fill p w e st /\ answers vs = [SILOG_OK].
Proof.
  intros H Hp. alone H Hp. injection Hs as <- <-. apply from_publish with (w:=w) (e:=e) in H' as [-> Hv]; [|by eapply set_prod_at].
  split; [|done]. unfold fill, set_prod, upd_seq, upd_buf. cbn. by rewrite list_insert_insert_eq.
Qed.
(** The loop of [atomic_compare_exchange_weak] is left with the slot claimed. *)
Lemma from_cas p w e st acts st' vs :
  finishes p st acts st' vs -> cs_prod st !! p = Some (PCas w e) ->
  exists x, cs_seq st !! slot cap w = Some x /\ (x =? w) || (x =? u32 (w + cap)) = true /\
    st' = fill p w e st /\ answers vs = [SILOG_OK].
Proof.
  revert st vs. induction acts as [|a0 acts IH]; intros st vs H Hp.
  { destruct H as (_ & [= -> _] & H). congruence. }
  assert (forall st1 vs1, finishes p st1 acts st' vs1 -> cs_prod st1 !! p = Some (PCopy w e) ->
    fill p w e st1 = fill p w e st -> st' = fill p w e st /\ answers vs1 = [SILOG_OK]) as Hcopy.
  { intros st1 vs1 H1 Hp1 He. apply from_copy with (w:=w) (e:=e) in H1 as [-> ?]; [|done]. done. }
  destruct (finishes_inv _ _ _ _ _ _ H Hp) as (a & acts' & st1 & v & vs' & He & -> & Ha & Hs & H'); [done|].
  injection He as -> <-. destruct a; cbn in Ha; try done; injection Ha as ->; cbn in Hs; try done;
    destruct (cs_seq st !! slot cap w) as [x|] eqn:Hx; try done; cbn in Hs; exists x; (split; [done|]).
  - destruct (x =? w) eqn:E1; [|destruct (x =? u32 (w + cap)) eqn:E2]; injection Hs as <- <-.
    + split; [done|]. apply (Hcopy _ _ H'); [by eapply set_prod_at|]. unfold fill, set_prod, upd_seq. cbn.
      by rewrite !list_insert_insert_eq.
    + split; [done|]. apply (Hcopy _ _ H'); [by eapply set_prod_at|]. unfold fill, set_prod. cbn. by rewrite list_insert_insert_eq.
    + apply IH in H' as (x' & Hx' & Ho & ?); [|done]. rewrite Hx in Hx'. injection Hx' as <-. by rewrite E1, E2 in Ho.
  - destruct (x =? u32 (w + cap)) eqn:E2; injection Hs as <- <-.
    + rewrite orb_true_r. split; [done|]. apply (Hcopy _ _ H'); [by eapply set_prod_at|].
      unfold fill, set_prod. cbn. by rewrite list_insert_insert_eq.
    + apply IH in H' as (x' & Hx' & Ho & ?); [|done]. rewrite Hx in Hx'. injection Hx' as <-. by rewrite E2 in Ho.
Qed.
Lemma from_rollback p st acts st' vs :
  finishes p st acts st' vs -> cs_prod st !! p = Some PRollback ->
  st' = set_prod p PIdle (set_wpos (u32 (cs_wpos st - 1)) st) /\ answers vs = [].
Proof.
  intros H Hp. alone H Hp. injection Hs as <- <-. apply finishes_idle in H' as [-> ->]; [done|by eapply set_prod_at].
Qed.

(** However the loop goes, a push that is not interrupted ends in one state only. *)
Lemma push_alone_sound p e st acts st' vs :
  finishes p (ticket p e st) acts st' vs -> cs_prod st !! p = Some PIdle ->
  exists code, push_alone p e st = Some (code, st') /\ answers vs = [code].
Proof.
  intros H Hidle. assert (cs_prod (ticket p e st) !! p = Some (PTest (cs_wpos st) e)) as Hp by by apply (set_prod_at p PIdle).
  alone H Hp. unfold push_alone. destruct (cap <=? u32 (cs_wpos st - cs_rpos st)); injection Hs as <- <-.
  - apply from_rollback in H' as [-> Hv]; [|by eapply set_prod_at]. eexists.
    split; [|change (answers (EvFull p :: vs')) with (SILOG_TRANS_QUEUE_FULL :: answers vs'); by rewrite Hv].
    unfold ticket, set_prod, set_wpos. cbn. by rewrite !list_insert_insert_eq.
  - apply from_cas with (w:=cs_wpos st) (e:=e) in H' as (x & Hx & Ho & -> & Hv); [|by eapply set_prod_at].
    cbn in Hx. rewrite Hx. cbn. rewrite Ho.
    eexists. split; [|exact Hv]. unfold fill, ticket, set_prod, set_wpos. cbn. by rewrite !list_insert_insert_eq.
Qed.

Lemma finishes_step p a pc st st1 v acts st' vs :
  cs_prod st !! p = Some pc -> continues p a -> prod_step cap a pc st = Some (st1, v) ->
  finishes p st1 acts st' vs -> finishes p st (a :: acts) st' (v :: vs).
Proof.
  intros Hpc Ha Hs (Hf & Hr & Hp). split; [by constructor|]. split; [|done]. cbn. unfold cstep.
  assert (act_prod a = Some p) as -> by (by destruct a). by rewrite Hpc; cbn; rewrite Hs; cbn; rewrite Hr.
Qed.
Lemma finishes_end p st : cs_prod st !! p = Some PIdle -> finishes p st [] st [].
Proof. intros H. by split. Qed.

(** It can end there. *)
Lemma push_alone_complete p e st code st' :
  push_alone p e st = Some (code, st') -> cs_prod st !! p = Some PIdle ->
  exists acts vs, finishes p (ticket p e st) acts st' vs /\ answers vs = [code].
Proof.
  intros H Hidle. assert (cs_prod (ticket p e st) !! p = Some (PTest (cs_wpos st) e)) as Hp by by apply (set_prod_at p PIdle).
  unfold push_alone in H. destruct (cap <=? u32 (cs_wpos st - cs_rpos st)) eqn:Hfull.
  - injection H as <- <-. exists [ATest p; ARollback p], [EvFull p; EvTau]. split; [|done].
    eapply finishes_step; [exact Hp|done|cbn; by rewrite Hfull|].
    eapply finishes_step; [by eapply set_prod_at|done|done|].
    unfold ticket, set_prod, set_wpos. cbn. rewrite !list_insert_insert_eq. apply finishes_end. by apply (set_prod_at p PIdle).
  - destruct (cs_seq st !! slot cap (cs_wpos st)) as [x|] eqn:Hx; [|done]. cbn in H. destruct (_ || _) eqn:Ho; [|done].
    injection H as <- <-. exists [ATest p; ACas p; ACopy p; APublish p], [EvTau; EvTau; EvTau; EvOk p]. split; [|done].
    eapply finishes_step; [exact Hp|done|cbn; by rewrite Hfull|].
    set (st1 := set_prod p (PCas _ _) _). assert (cs_prod st1 !! p = Some (PCas (cs_wpos st) e)) as Hp1 by by eapply set_prod_at.
    assert (exists st2, prod_step cap (ACas p) (PCas (cs_wpos st) e) st1 = Some (st2, EvTau) /\
      cs_prod st2 !! p = Some (PCopy (cs_wpos st) e) /\ fill p (cs_wpos st) e st2 = fill p (cs_wpos st) e st1) as (st2 & Hs & Hp2 & Hfl).
    { cbn. rewrite Hx. cbn. destruct (x =? cs_wpos st); cbn in Ho; [|rewrite Ho];
        (eexists; split; [reflexivity|]; split; [by eapply set_prod_at|]); unfold fill, set_prod, upd_seq; cbn; by rewrite !list_insert_insert_eq. }
    eapply finishes_step; [exact Hp1|done|exact Hs|]. eapply finishes_step; [exact Hp2|done|done|].
    eapply finishes_step; [by eapply set_prod_at|done|done|].
    assert (fill p (cs_wpos st) e (set_wpos (u32 (cs_wpos st + 1)) st) = fill p (cs_wpos st) e st2) as ->.
    { rewrite Hfl. unfold fill, st1, ticket, set_prod, set_wpos. cbn. by rewrite !list_insert_insert_eq. }
    unfold fill, set_prod, upd_seq, upd_buf. cbn. rewrite !list_insert_insert_eq. apply finishes_end. cbn.
    apply list_lookup_insert_eq. by eapply lookup_lt_Some.
Qed.
End push.

(** ** The ring of bytes as a ring of elements *)

Section bytes.
Context (es cap : Z).

(** A ring in memory, in any state; nothing is said of the numbers in it. *)
Record ring (q : SiLogMpscQueue) (b s : list Z) : Prop := {
  rg_es : 0 < es;
  rg_cap : exists k, 0 <= k <= 31 /\ cap = 2 ^ k;
  rg_fit : es * cap < 2 ^ 32;
  rg_size : mq_elementSize q = es;
  rg_capacity : mq_capacity q = cap;
  rg_mask : mq_capacityMask q = cap - 1;
  rg_w : is_u32 (mq_writePos q);
  rg_r : is_u32 (mq_readPos q);
  rg_b : mq_buffer q = Some b;
  rg_s : mq_seq q = Some s;
  rg_blen : len b = es * cap;
  rg_slen : len s = cap
}.

(** The elements in the slots of the buffer. *)
Definition cells (b : list Z) : list (list Z) :=
  map (fun i => take (Z.to_nat es) (drop (Z.to_nat (Z.of_nat i * es)) b)) (seq 0 (Z.to_nat cap)).
(** The ring among the producers [ps] and the consumer [c]. *)
Definition conc_of (q : SiLogMpscQueue) (ps : list ppc) (c : cpc) : cstate :=
  MkC (mq_writePos q) (mq_readPos q) (default [] (mq_seq q)) (cells (default [] (mq_buffer q))) ps c.

Lemma ring_cap q b s : ring q b s -> 0 < cap <= 2 ^ 31.
Proof. intros [_ (k & Hk & ->) _ _ _ _ _ _ _ _ _ _]. split; [lia|]. apply Z.pow_le_mono_r; lia. Qed.
Lemma ring_slot q b s x :
  ring q b s -> is_u32 x -> Z.land x (mq_capacityMask q) = x mod cap /\ slot cap x = Z.to_nat (x mod cap) /\ 0 <= x mod cap < cap.
Proof.
  intros H Hx. destruct (rg_cap _ _ _ H) as (k & Hk & Hc). pose proof (ring_cap _ _ _ H).
  assert (Z.land x (cap - 1) = x mod cap) as Hl.
  { rewrite <- (u32_small x Hx) at 1. rewrite Hc. by apply ring_index. }
  unfold slot. rewrite (rg_mask _ _ _ H), Hl. split; [done|]. split; [done|]. apply Z.mod_pos_bound. lia.
Qed.

Lemma cells_lookup b i :
  0 < es -> len b = es * cap -> 0 <= i < cap -> cells b !! Z.to_nat i = rd b (i * es) es.
Proof.
  intros He Hb Hi. unfold cells. rewrite list_lookup_fmap, lookup_seq_lt by lia. cbn. rewrite Z2Nat.id by lia.
  symmetry. apply rd_Some; nia.
Qed.
Lemma cells_write b i e b' :
  0 < es -> len b = es * cap -> 0 <= i < cap -> len e = es -> wr b (i * es) e = Some b' -> cells b' = <[Z.to_nat i := e]> (cells b).
Proof.
  intros He Hb Hi Hl Hw. pose proof (wr_length _ _ _ _ Hw) as Hb'. apply list_eq. intros j.
  assert (forall x, length (cells x) = Z.to_nat cap) as Hlen by (intros; unfold cells; by rewrite length_map, length_seq).
  destruct (decide (Z.of_nat j < cap)) as [Hj|Hj]; cycle 1.
  { rewrite !lookup_ge_None_2; [done| |]; rewrite ?length_insert, Hlen; lia. }
  replace j with (Z.to_nat (Z.of_nat j)) by lia. set (z := Z.of_nat j) in *. rewrite cells_lookup by lia.
  destruct (decide (z = i)) as [->|Hne].
  - rewrite list_lookup_insert_eq by (rewrite Hlen; lia). rewrite <- Hl at 2. by eapply rd_wr_same.
  - rewrite list_lookup_insert_ne by lia. rewrite cells_lookup by lia. eapply rd_wr_other; [exact Hw|]. nia.
Qed.

(** A push on bytes is a push on elements. *)
Lemma push_bytes q b s ps c p e :
  ring q b s -> len e = es -> ps !! p = Some PIdle ->
  push_alone cap p e (conc_of q ps c) = r ← mpsc_push e q; Some (r.1, conc_of r.2 ps c).
Proof.
  intros H Hl Hp. pose proof (ring_cap _ _ _ H) as Hc. destruct (ring_slot _ _ _ _ H (rg_w _ _ _ H)) as (Hi & Hsl & Hb).
  pose proof (rg_es _ _ _ H) as He. pose proof (rg_fit _ _ _ H) as Hf. pose proof (rg_slen _ _ _ H) as Hsn.
  pose proof (rg_blen _ _ _ H) as Hbn. destruct H as [_ _ _ H1 H2 _ _ _ H3 H4 _ _].
  destruct q as [qb qe qc qw qr qs qm]. cbn in *. subst qb qe qc qs.
  unfold push_alone, mpsc_push. cbn. ztest. destruct (cap <=? _).
  { unfold conc_of, set_prod, set_wpos. cbn. by rewrite (list_insert_id ps p PIdle Hp). }
  rewrite Hi, Hsl. assert (u32 (qw mod cap * es) = qw mod cap * es) as -> by (apply slot_offset; lia).
  unfold cas_seq. destruct (s !! _) as [x|] eqn:Hx; [|done]. cbn.
  assert (wr b (qw mod cap * es) e = Some (take (Z.to_nat (qw mod cap * es)) b ++ e ++ drop (Z.to_nat (qw mod cap * es) + length e) b)) as Hw
    by (apply wr_Some; nia).
  pose proof (cells_write _ _ _ _ He Hbn Hb Hl Hw) as Hcl.
  destruct (x =? qw) eqn:E1; [|destruct (x =? u32 (qw + cap)) eqn:E2; [|done]]; cbn [orb mbind option_bind];
    rewrite obj_memcpy_s_full, Hw by done; cbn; unfold fill, conc_of; cbn;
    rewrite Hcl, Hsl, (list_insert_id ps p PIdle Hp), ?list_insert_insert_eq; done.
Qed.

Lemma insert_len {B} i (x : B) l : len (<[i := x]> l) = len l.
Proof. by rewrite length_insert. Qed.

(** A push and a pop leave a ring. *)
Lemma push_ring q b s e code q' :
  ring q b s -> len e = es -> mpsc_push e q = Some (code, q') -> exists b' s', ring q' b' s'.
Proof.
  intros H Hl. pose proof (ring_cap _ _ _ H) as Hc. destruct H as [H1 H2 H3 H4 H5 H6 H7 H8 H9 H10 H11 H12].
  destruct q as [qb qe qc qw qr qs qm]. cbn in *. subst qb qe qc qs. unfold mpsc_push. cbn. ztest.
  match goal with |- context [if ?c then _ else _] => destruct c end.
  { intros [= _ <-]. exists b, s. split; cbn; try done. apply u32_range. }
  match goal with |- context [cas_seq s ?i ?w ?d] => destruct (cas_seq s i w d) as [s1|] eqn:Hs1; [|done] end.
  cbn. rewrite obj_memcpy_s_full by (done || lia).
  match goal with |- context [wr b ?o e] => destruct (wr b o e) as [b1|] eqn:Hb1; [|done] end.
  intros [= _ <-]. apply wr_length in Hb1. eexists b1, _.
  split; cbn; try done; [apply u32_range|congruence|rewrite insert_len].
  unfold cas_seq in Hs1. destruct (s !! _) as [x|]; [|done]. cbn in Hs1.
  destruct (x =? _); [injection Hs1 as <-; by rewrite insert_len|]. destruct (x =? _); [by injection Hs1 as <-|done].
Qed.

(** What the consumer does in one call of pop. *)
Lemma pop_bytes q b s ps :
  ring q b s ->
  (mpsc_pop q = Some (SILOG_TRANS_QUEUE_EMPTY, q, None) /\
   cstep cap AConsLoad (conc_of q ps CIdle) = Some (conc_of q ps CIdle, EvEmpty)) \/
  exists q' e b' s', mpsc_pop q = Some (SILOG_OK, q', Some e) /\ ring q' b' s' /\
    exists st1 st2 st3, cstep cap AConsLoad (conc_of q ps CIdle) = Some (st1, EvTau) /\ cs_cons st1 = CCopy (mq_readPos q) /\
      cstep cap AConsCopy st1 = Some (st2, EvTau) /\ cs_cons st2 = CRelease (mq_readPos q) e /\
      cstep cap AConsRelease st2 = Some (st3, EvTau) /\ cs_cons st3 = CAdvance (mq_readPos q) e /\
      cstep cap AConsAdvance st3 = Some (conc_of q' ps CIdle, EvPop e).
Proof.
  intros H. pose proof (ring_cap _ _ _ H) as Hc. destruct (ring_slot _ _ _ _ H (rg_r _ _ _ H)) as (Hi & Hsl & Hb).
  pose proof H as [H1 H2 H3 H4 H5 H6 H7 H8 H9 H10 H11 H12]. destruct q as [qb qe qc qw qr qs qm]. cbn in *. subst qb qe qc qs.
  unfold mpsc_pop. cbn. rewrite Hi. unfold cstep, cons_step. cbn. rewrite Hsl.
  destruct (lookup_lt_is_Some_2 s (Z.to_nat (qr mod cap))) as [x Hx]; [lia|]. rewrite Hx. cbn.
  destruct (x =? u32 (qr + 1)); cbn; [right|by left].
  assert (u32 (qr mod cap * es) = qr mod cap * es) as -> by (apply slot_offset; lia).
  pose proof (cells_lookup b (qr mod cap) H1 H11 Hb) as Hcl. rewrite rd_Some in * by nia.
  eexists _, _, _, _. split; [reflexivity|]. split; [split; cbn; try done; [apply u32_range|by rewrite insert_len]|].
  eexists _, _, _. split; [reflexivity|]. split; [done|]. cbn. rewrite Hsl, Hcl. split; [reflexivity|]. split; [done|].
  cbn. rewrite Hsl. by repeat split.
Qed.

(** The steps of one call: a push by [p], or a pop. *)
Definition by_call (p : nat) (op : queue_op) (acts : list (@act (list Z))) : Prop :=
  match op, acts with
  | OpPush e, a :: acts => a = ATake p e /\ Forall (continues p) acts
  | OpPop, a :: acts => a = AConsLoad /\ Forall (fun a => act_prod a = None /\ a <> AConsLoad) acts
  | _, [] => False
  end.
(** What the calls return, by the events of their steps. *)
Definition result (v : @ev (list Z)) : option queue_res :=
  match v with
  | EvOk _ => Some (ResPush SILOG_OK)
  | EvFull _ => Some (ResPush SILOG_TRANS_QUEUE_FULL)
  | EvPop e => Some (ResPop SILOG_OK (Some e))
  | EvEmpty => Some (ResPop SILOG_TRANS_QUEUE_EMPTY None)
  | EvTake _ _ | EvTau => None
  end.

Lemma producer_results p acts st st' vs :
  Forall (continues p) acts -> crun cap acts st = Some (st', vs) -> omap result vs = map ResPush (answers vs).
Proof.
  revert st vs. induction acts as [|a acts IH]; intros st vs Hf Hr; cbn in Hr; [by injection Hr as _ <-|].
  apply Forall_cons_1 in Hf as [Ha Hf]. destruct (cstep cap a st) as [[st1 v]|] eqn:Hs; [|done]. cbn in Hr.
  destruct (crun cap acts st1) as [[st2 vs']|] eqn:Hr'; [|done]. injection Hr as -> <-. specialize (IH _ _ Hf Hr').
  assert (act_prod a = Some p) as Hap by (by destruct a). unfold cstep in Hs. rewrite Hap in Hs.
  destruct (cs_prod st !! p) as [pc|]; [|done]. unfold answers in *.
  destruct a, pc; cbn in Ha, Hs; try done; try (destruct (cs_seq st !! slot cap w); [|done]; cbn in Hs);
    repeat case_match; simplify_eq; cbn; by rewrite ?IH.
Qed.

Lemma take_step p e q ps :
  ps !! p = Some PIdle -> cstep cap (ATake p e) (conc_of q ps CIdle) = Some (ticket p e (conc_of q ps CIdle), EvTake p e).
Proof. intros Hp. unfold cstep. cbn. by rewrite Hp. Qed.

(** The only step that the consumer can make next. *)
Ltac next_pop Hc1 Hs :=
  match goal with Hf : Forall _ ?acts, Hr : context [crun _ ?acts _], Hc : cs_cons _ = CIdle |- _ =>
    destruct acts as [|a acts]; [by injection Hr as <- _; rewrite Hc1 in Hc|];
    let Ha := fresh in let Hl := fresh in apply Forall_cons_1 in Hf as [[Ha Hl] Hf];
    destruct a; try done; cbn [crun] in Hr; try (unfold cstep, cons_step in Hr; cbn in Hr; by rewrite Hc1 in Hr);
    rewrite Hs in Hr; cbn in Hr
  end.

Lemma pop_only q b s ps acts st vs :
  ring q b s -> by_call 0 OpPop acts -> crun cap acts (conc_of q ps CIdle) = Some (st, vs) -> cs_cons st = CIdle ->
  exists r q', mpsc_run [OpPop] q = Some ([r], q') /\ st = conc_of q' ps CIdle /\ omap result vs = [r].
Proof.
  intros H Hb Hr Hc. destruct acts as [|a acts]; [done|]. destruct Hb as [-> Hf].
  destruct (pop_bytes q b s ps H) as [[Hpop Hs]|(q' & e & _ & _ & Hpop & _ & st1 & st2 & st3 & Hs1 & Hc1 & Hs2 & Hc2 & Hs3 & Hc3 & Hs4)];
    cbn [crun] in Hr; unfold mpsc_run; cbn; rewrite Hpop; cbn.
  - rewrite Hs in Hr. cbn in Hr. destruct acts as [|a acts].
    { injection Hr as <- <-. by eexists _, _. }
    apply Forall_cons_1 in Hf as [[Ha Hl] _]. by destruct a.
  - rewrite Hs1 in Hr. cbn in Hr. eexists _, _. split; [reflexivity|].
    next_pop Hc1 Hs2. next_pop Hc2 Hs3. next_pop Hc3 Hs4.
    destruct acts as [|a acts]; [by injection Hr as <- <-|].
    apply Forall_cons_1 in Hf as [[Ha Hl] _]. by destruct a.
Qed.
End bytes.

(** ** Property *)

(** C22: The queue that one thread uses and the queue that many use are one. A call
    that no other thread interrupts does the same in both models, in any state of
    the ring: what the function on bytes returns and leaves, some sequence of its
    atomic steps returns and leaves; and whatever sequence the steps of a call take,
    however often its compare-and-swap fails spuriously, if it ends it ends with
    what the function returns and leaves. *)
Theorem call_alone es cap q b s ps p op :
  ring es cap q b s -> op_sized es op -> ps !! p = Some PIdle ->
  (forall r q', mpsc_run [op] q = Some ([r], q') -> (exists b' s', ring es cap q' b' s') /\
     exists acts vs, by_call p op acts /\
       crun cap acts (conc_of es cap q ps CIdle) = Some (conc_of es cap q' ps CIdle, vs) /\ omap result vs = [r]) /\
  (forall acts st vs, by_call p op acts -> crun cap acts (conc_of es cap q ps CIdle) = Some (st, vs) ->
     cs_prod st !! p = Some PIdle -> cs_cons st = CIdle ->
     exists r q', mpsc_run [op] q = Some ([r], q') /\ st = conc_of es cap q' ps CIdle /\ omap result vs = [r]).
Proof.
  intros H Hop Hp. destruct op as [e|]; cbn in Hop.
  - pose proof (push_bytes es cap q b s ps CIdle p e H Hop Hp) as Hpb. split.
    + intros r q' Hr. unfold mpsc_run in Hr. cbn in Hr. destruct (mpsc_push e q) as [[code q1]|] eqn:Hq; [|done].
      injection Hr as <- <-. split; [by eapply push_ring|]. cbn in Hpb.
      destruct (push_alone_complete _ _ _ _ _ _ Hpb Hp) as (acts & vs & (Hf & Hcr & _) & Ha).
      exists (ATake p e :: acts), (EvTake p e :: vs). split; [done|]. cbn [crun]. rewrite take_step by done. cbn. rewrite Hcr.
      split; [done|].
      cbn. by rewrite (producer_results cap p _ _ _ _ Hf Hcr), Ha.
    + intros [|a acts] st vs Hb Hr Hidle _; [done|]. destruct Hb as [-> Hf]. cbn [crun] in Hr. rewrite take_step in Hr by done. cbn in Hr.
      destruct (crun cap acts _) as [[st1 vs1]|] eqn:Hcr; [|done]. injection Hr as -> <-.
      destruct (push_alone_sound cap p e (conc_of es cap q ps CIdle) acts st vs1) as (code & Hpa & Ha); [done|done|].
      rewrite Hpb in Hpa. destruct (mpsc_push e q) as [[code' q1]|] eqn:Hq; [|done]. injection Hpa as -> <-.
      unfold mpsc_run. cbn. rewrite Hq. cbn. eexists _, _. split; [reflexivity|]. split; [done|].
      by rewrite (producer_results cap p _ _ _ _ Hf Hcr), Ha.
  - split; [|intros acts st vs Hb Hr _ Hc; by eapply pop_only].
    intros r q' Hr. unfold mpsc_run in Hr. cbn in Hr.
    destruct (pop_bytes es cap q b s ps H)
      as [[Hpop Hs]|(q1 & e & b1 & s1 & Hpop & Hrg & st1 & st2 & st3 & Hs1 & _ & Hs2 & _ & Hs3 & _ & Hs4)];
      rewrite Hpop in Hr; injection Hr as <- <-.
    + split; [by exists b, s|]. exists [AConsLoad], [EvEmpty]. cbn [crun]. rewrite Hs. split; [by split|done].
    + split; [by exists b1, s1|]. exists [AConsLoad; AConsCopy; AConsRelease; AConsAdvance], [EvTau; EvTau; EvTau; EvPop e].
      cbn [crun]. rewrite Hs1. cbn [mbind option_bind]. rewrite Hs2. cbn [mbind option_bind]. rewrite Hs3. cbn [mbind option_bind].
      rewrite Hs4.
      split; [|done]. split; [done|]. by repeat constructor.
Qed.

(** A ring of two elements of two bytes, about to wrap its positions. *)
Definition demo_ring : SiLogMpscQueue :=
  MkMpsc (Some [1; 2; 3; 4]) 2 2 4294967295 4294967294 (Some [4294967295; 4294967295]) 1.

Lemma call_alone_witness :
  exists q', mpsc_run [OpPush [5; 6]] demo_ring = Some ([ResPush SILOG_OK], q') /\
    exists acts vs, crun 2 acts (conc_of 2 2 demo_ring [PIdle; PCopy 4294967294 [7; 8]] CIdle)
      = Some (conc_of 2 2 q' [PIdle; PCopy 4294967294 [7; 8]] CIdle, vs).
Proof.
  eexists. split; [vm_compute; reflexivity|].
  destruct (call_alone 2 2 demo_ring [1; 2; 3; 4] [4294967295; 4294967295] [PIdle; PCopy 4294967294 [7; 8]] 0 (OpPush [5; 6]))
    as [Hc _]; [split; try reflexivity; try (split; reflexivity || discriminate); try lia|reflexivity|reflexivity|].
  - exists 1. split; [lia|reflexivity].
  - destruct (Hc (ResPush SILOG_OK) _ ltac:(vm_compute; reflexivity)) as (_ & acts & vs & _ & Hr & _). exists acts, vs. exact Hr.
Defined.
