(* ===== verification/MpscLin.v ===== *)
(** * One producer and one consumer: the ring is atomic

    With a single producer every interleaving of the atomic accesses of push and pop
    (MpscConc.v) returns what the functions on bytes (Mpsc.v) return when they are
    called one after the other, in an order in which every call has its place
    between its first and its last step. With two producers it does not. *)

From S2P Require Import Prelude Errors CObj Mpsc MpscConc MpscLink.
#[local] Open Scope Z_scope.

(** ** The elements that a pop can reach *)

Section abstraction.
Context {A : Type} (cap : Z).
Implicit Types (st : @cstate A) (pc : @ppc A).

(** The tickets that the producer holds without having published its element. *)
Definition unpublished pc : Z := if pc_ticket pc then 1 else 0.
(** The published elements that have not been consumed. *)
Definition reachable (r : Z) (els : list A) pc : list A :=
  drop (Z.to_nat r) (take (Z.to_nat (len els - unpublished pc)) els).

(** The invariant of MpscConc.v for a sole producer at [pc], which holds the last
    ticket if any. *)
Definition sole (r : Z) (els : list A) pc st : Prop :=
  (exists g, cinv cap r els g st) /\ cs_prod st = [pc] /\
  forall w e, pc_ticket pc = Some (w, e) -> w = u32 (len els - 1).

Lemma sole_ticket r els pc st w e :
  sole r els pc st -> pc_ticket pc = Some (w, e) ->
  exists els', els = els' ++ [e] /\ reachable r els pc = drop (Z.to_nat r) els' /\ (0 <= r <= len els' /\ len els' <= r + cap) /\
    slot_ok cap (cs_seq st) (cs_buf st) r (len els') pc /\
    forall g, cinv cap r els g st -> g 0%nat = len els'.
Proof.
  intros ([g H] & Hp & Hw) Ht. assert (cs_prod st !! 0%nat = Some pc) as Hp0 by by rewrite Hp.
  pose proof (cinv_cap _ _ _ _ _ H) as Hc. pose proof (tickets_bound _ _ _ _ _ H) as Hb. rewrite Hp in Hb. cbn in Hb.
  assert (forall g', cinv cap r els g' st -> g' 0%nat = len els - 1) as Hg.
  { intros g' H'. destruct (ci_own _ _ _ _ _ H' 0%nat pc w e Hp0 Ht) as (Hr & Hwg & _).
    rewrite (Hw _ _ Ht) in Hwg. symmetry. apply u32_inj_near; [lia|done]. }
  destruct (ci_own _ _ _ _ _ H 0%nat pc w e Hp0 Ht) as (Hr & _ & He & Hs). rewrite (Hg _ H) in He, Hr, Hs.
  pose proof (ci_pos _ _ _ _ _ H) as Hpos. exists (take (Z.to_nat (len els - 1)) els).
  assert (len (take (Z.to_nat (len els - 1)) els) = len els - 1) as Hl by (rewrite length_take; lia). rewrite Hl.
  split; [|split; [by unfold reachable, unpublished; rewrite Ht|]].
  - rewrite <- (take_drop (Z.to_nat (len els - 1)) els) at 1. f_equal. rewrite (drop_S _ e) by done. by rewrite drop_ge by lia.
  - split; [|done]. split; [lia|]. destruct (decide (len els - 1 = r)); [lia|].
    destruct (ci_pub _ _ _ _ _ H (len els - 2)) as [[p (x & t & Hx & _ & Hgp)]|[? _]]; [lia| |lia].
    rewrite Hp in Hx. destruct p as [|p]; [|by apply lookup_lt_Some in Hx; cbn in Hx; lia]. rewrite (Hg _ H) in Hgp. lia.
Qed.
Lemma idle_reachable r els pc : pc_ticket pc = None -> reachable r els pc = drop (Z.to_nat r) els.
Proof. intros Ht. unfold reachable, unpublished. rewrite Ht, take_ge by lia. done. Qed.

(** What a step does to the reachable elements. *)
Definition moves (v : ev) (l l' : list A) : Prop :=
  match v with
  | EvTake _ _ | EvTau => l' = l
  | EvFull _ => l' = l /\ len l = cap
  | EvOk _ => len l < cap /\ exists e, l' = l ++ [e]
  | EvEmpty => l' = l /\ l = []
  | EvPop e => l = e :: l'
  end.
(** The element that the producer is pushing. *)
Definition pushing pc : option A := snd <$> pc_ticket pc.

(** The element that the call of the producer started with is the one it pushes. *)
Definition same_push (v : ev) pc pc' l' : Prop :=
  match v with
  | EvTake _ e => pushing pc' = Some e
  | EvOk _ => pushing pc = last l' /\ pushing pc' = None
  | EvFull _ => is_Some (pushing pc) /\ pushing pc' = None
  | _ => forall e, pushing pc' = Some e -> pushing pc = Some e
  end.
Definition stepped (r : Z) (els : list A) pc v st' : Prop :=
  exists r' pc', sole r' (accepted_step els v) pc' st' /\ consumed r els v r' /\
    moves v (reachable r els pc) (reachable r' (accepted_step els v) pc') /\
    same_push v pc pc' (reachable r' (accepted_step els v) pc').

(** A step of the producer that keeps its ticket, or takes none. *)
Lemma keeps_ticket r els pc pc' st st' g' :
  sole r els pc st -> cinv cap r els g' st' -> cs_prod st' = [pc'] -> pc_ticket pc' = pc_ticket pc -> stepped r els pc EvTau st'.
Proof.
  intros (_ & _ & Hw) H' Hp' Ht. exists r, pc'. cbn. split; [split; [by eexists|]; split; [done|by rewrite Ht]|].
  split; [done|]. unfold reachable, unpublished, pushing. rewrite Ht. by split.
Qed.

Lemma producer_step r els pc st a st' v g' :
  sole r els pc st -> act_prod a = Some 0%nat -> prod_step cap a pc st = Some (st', v) ->
  cinv cap r (accepted_step els v) g' st' -> stepped r els pc v st'.
Proof.
  intros Hs0 Ha Hs H'. pose proof Hs0 as ([g H] & Hp & Hw). pose proof (cinv_cap _ _ _ _ _ H) as Hcap.
  pose proof (ci_pos _ _ _ _ _ H) as Hpos. assert (cs_prod st !! 0%nat = Some pc) as Hp0 by by rewrite Hp.
  destruct a; cbn in Ha; try done; injection Ha as ->; destruct pc; cbn in Hs; try done.
  - injection Hs as <- <-. exists r, (PTest (cs_wpos st) e). cbn in *. split.
    { split; [by eexists|]. split; [cbn; by rewrite Hp|]. intros w e' [= <- <-]. rewrite (ci_wpos _ _ _ _ _ H), Hp, length_app. cbn.
      f_equal. lia. }
    split; [done|]. split; [|done]. unfold reachable, unpublished. cbn. rewrite length_app. cbn.
    rewrite take_app_le, !(take_ge els) by lia. done.
  - destruct (sole_ticket _ _ _ _ _ _ Hs0 eq_refl) as (els' & He & Hre & Hb & Hsl & Hg). subst els.
    assert (u32 (w - cs_rpos st) = len els' - r) as Hx by (rewrite <- (Hg _ H); by eapply test_exact).
    destruct (cap <=? _) eqn:Hf; injection Hs as <- <-; cbn [accepted_step] in *.
    + rewrite removelast_last in *. exists r, PRollback. cbn [accepted_step]. rewrite removelast_last. split.
      { split; [by eexists|]. split; [cbn; by rewrite Hp|]. done. }
      split; [done|]. reflectZ. rewrite Hre, idle_reachable by done. split; [split; [done|]; rewrite length_drop; lia|].
      by split; [eexists|].
    + eapply keeps_ticket; [done|exact H'|cbn; rewrite Hp; reflexivity|done].
  - injection Hs as <- <-. eapply keeps_ticket; [done|exact H'|cbn; rewrite Hp; reflexivity|done].
  - destruct (cs_seq st !! slot cap w) as [x|]; [|done]. cbn in Hs. 
    destruct (x =? w); [|destruct (x =? _)]; injection Hs as <- <-; (eapply keeps_ticket; [done|exact H'|cbn; rewrite Hp; reflexivity|done]).
  - destruct (cs_seq st !! slot cap w) as [x|]; [|done]. cbn in Hs.
    destruct (x =? _); injection Hs as <- <-; (eapply keeps_ticket; [done|exact H'|cbn; rewrite Hp; reflexivity|done]).
  - injection Hs as <- <-. eapply keeps_ticket; [done|exact H'|cbn; rewrite Hp; reflexivity|done].
  - injection Hs as <- <-. destruct (sole_ticket _ _ _ _ _ _ Hs0 eq_refl) as (els' & He & Hre & Hb & (Hlt & _) & Hg).
    exists r, PIdle. cbn [accepted_step] in *. split; [split; [by eexists|]; split; [cbn; by rewrite Hp|done]|].
    split; [done|]. rewrite Hre, idle_reachable by done. cbn [moves same_push]. subst els. rewrite drop_app_le by lia.
    split; [split; [rewrite length_drop; lia|by eexists]|]. by rewrite last_snoc.
Qed.

Lemma consumer_step r els pc st a st' v r' g' :
  sole r els pc st -> act_prod a = None -> cons_step cap a st = Some (st', v) ->
  cinv cap r' (accepted_step els v) g' st' -> consumed r els v r' -> stepped r els pc v st'.
Proof.
  intros Hs0 Ha Hs H' Hc. pose proof Hs0 as ([g H] & Hp & Hw). pose proof (cinv_cap _ _ _ _ _ H) as Hcap.
  pose proof (ci_pos _ _ _ _ _ H) as Hpos.
  assert (r < len els -> (forall p, ~ owns g (cs_prod st) p r) -> r < len els - unpublished pc) as Hno.
  { intros Hr Hn. unfold unpublished. destruct (pc_ticket pc) as [[w e]|] eqn:Ht; [|lia].
    destruct (sole_ticket _ _ _ _ _ _ Hs0 Ht) as (els' & -> & _ & _ & _ & Hg). rewrite length_app in *. cbn in *.
    destruct (decide (r = len els')) as [->|]; [|lia]. exfalso. apply (Hn 0%nat). exists pc, (w, e). rewrite Hp. by rewrite Hg. }
  assert (forall st1, cs_prod st1 = cs_prod st -> cinv cap r els g' st1 -> stepped r els pc EvTau st1) as Htau.
  { intros st1 Hp1 H1. eapply keeps_ticket; [done|exact H1|by rewrite Hp1|done]. }
  unfold cons_step in Hs. destruct a, (cs_cons st) as [|rr|rr x0|rr x0] eqn:Ec; try done.
  - destruct (cs_seq st !! _) as [x|] eqn:Hx; [|done]. cbn in Hs. destruct (x =? _) eqn:E; injection Hs as <- <-; cbn in Hc; subst r'.
    + by apply Htau.
    + exists r, pc. split; [done|]. split; [done|]. split; [|cbn; by intros]. split; [done|]. cbn [accepted_step].
      destruct (reachable r els pc) eqn:Hre; [done|exfalso].
      assert (r < len els - unpublished pc) as Hr.
      { apply (f_equal length) in Hre. unfold reachable in Hre. rewrite length_drop, length_take in Hre. cbn in Hre. lia. }
      rewrite (ci_rpos _ _ _ _ _ H), (slot_sl _ _ _ _ _ _ H) in Hx.
      destruct (ci_pub _ _ _ _ _ H r) as [[p Ho]|[_ Hpub]]; [unfold unpublished in Hr; destruct (pc_ticket pc); lia| |].
      * pose proof Ho as (y & t & Hy & Ht & Hgp). rewrite Hp in Hy.
        destruct p as [|p]; [|by apply lookup_lt_Some in Hy; cbn in Hy; lia]. injection Hy as <-. destruct t as [w e].
        destruct (sole_ticket _ _ _ _ _ _ Hs0 Ht) as (els' & -> & _ & _ & _ & Hg). rewrite (Hg _ H) in Hgp.
        unfold unpublished in Hr. rewrite Ht, length_app in Hr. cbn in Hr. lia.
      * rewrite Ec in Hpub. destruct Hpub as [Hsq _]. rewrite Hsq in Hx. injection Hx as <-.
        rewrite (ci_rpos _ _ _ _ _ H), u32_add_l in E. reflectZ. done.
  - destruct (cs_buf st !! _) as [y|]; [|done]. cbn in Hs. injection Hs as <- <-. cbn in Hc. subst r'. by apply Htau.
  - injection Hs as <- <-. cbn in Hc. subst r'. by apply Htau.
  - injection Hs as <- <-. destruct Hc as [He ->]. cbn [accepted_step] in *. exists (r + 1), pc. split; [by split; [eexists|]|].
    split; [done|]. split; [|cbn; by intros]. cbn. pose proof (ci_cons _ _ _ _ _ H) as Hok. rewrite Ec in Hok.
    destruct Hok as (_ & Hr & Hn & _). specialize (Hno Hr Hn). unfold reachable.
    rewrite (drop_S _ x0) by (by rewrite lookup_take_lt by lia). do 2 f_equal. lia.
Qed.

Lemma sole_step r els pc st a st' v :
  sole r els pc st -> cstep cap a st = Some (st', v) -> stepped r els pc v st'.
Proof.
  intros Hs0 Hs. pose proof Hs0 as ([g H] & Hp & _).
  assert (quiet_act cap a st = true) as Hq by (eapply one_producer_act; [done|by rewrite Hp|done]).
  destruct (cstep_inv _ _ _ _ _ _ _ _ H Hq Hs) as (r' & g' & H' & Hc). unfold cstep in Hs.
  destruct (act_prod a) as [p|] eqn:Ea; [|by eapply consumer_step].
  destruct (cs_prod st !! p) as [pc0|] eqn:Hp0; [|done]. rewrite Hp in Hp0.
  destruct p as [|p]; [|by apply lookup_lt_Some in Hp0; cbn in Hp0; lia]. injection Hp0 as <-. cbn in Hs.
  assert (r' = r) as ->; [|by eapply producer_step].
  destruct v; try done. exfalso. destruct a, pc; cbn in Hs; try done; repeat case_match; try done;
    destruct (cs_seq st !! _); cbn in Hs; repeat case_match; done.
Qed.
End abstraction.

(** ** The order of the calls *)

(** The calls of a run in the order in which they take effect: a push when it
    answers, a pop when it answers; [cur] is the element of the push under way. *)
Fixpoint calls (cur : list Z) (vs : list (@ev (list Z))) : list queue_op :=
  match vs with
  | [] => []
  | EvTake _ e :: vs => calls e vs
  | EvOk _ :: vs | EvFull _ :: vs => OpPush cur :: calls cur vs
  | EvPop _ :: vs | EvEmpty :: vs => OpPop :: calls cur vs
  | EvTau :: vs => calls cur vs
  end.

Section runs.
Context (cap : Z).

Lemma fifo_answers v cur vs l l' (pc pc' : @ppc (list Z)) :
  moves cap v l l' -> same_push v pc pc' l' -> (forall e, pushing pc = Some e -> e = cur) ->
  exists cur', (forall e, pushing pc' = Some e -> e = cur') /\
    forall rs l2, fifo_run cap (calls cur' vs) l' = (rs, l2) ->
      fifo_run cap (calls cur (v :: vs)) l = (omap result [v] ++ rs, l2).
Proof.
  intros Hm Hp Hc. destruct v as [p e|p|p|e| |]; cbn in Hm, Hp.
  - exists e. subst l'. rewrite Hp. split; [by intros ? [= ->]|done].
  - destruct Hm as [-> Hl], Hp as [_ Hp]. exists cur. rewrite Hp. split; [done|]. intros rs l2 Hr. cbn. ztest. by rewrite Hr.
  - destruct Hm as [Hl [e ->]], Hp as [Hp Hn]. rewrite last_snoc in Hp. apply Hc in Hp. subst e.
    exists cur. rewrite Hn. split; [done|]. intros rs l2 Hr. cbn. ztest. by rewrite Hr.
  - exists cur. subst l. split; [naive_solver|]. intros rs l2 Hr. cbn. by rewrite Hr.
  - destruct Hm as [-> ->]. exists cur. split; [naive_solver|]. intros rs l2 Hr. cbn. by rewrite Hr.
  - exists cur. subst l'. split; [naive_solver|done].
Qed.

(** Every run of the sole producer and the consumer is a run of the bounded FIFO. *)
Lemma sole_run acts st st' vs r els pc cur :
  sole cap r els pc st -> crun cap acts st = Some (st', vs) -> (forall e, pushing pc = Some e -> e = cur) ->
  exists r' pc', sole cap r' (foldl accepted_step els vs) pc' st' /\
    take (Z.to_nat r') (foldl accepted_step els vs) = take (Z.to_nat r) els ++ popped vs /\
    fifo_run cap (calls cur vs) (reachable r els pc) = (omap result vs, reachable r' (foldl accepted_step els vs) pc').
Proof.
  revert st vs r els pc cur. induction acts as [|a acts IH]; intros st vs r els pc cur Hs Hr Hc; cbn in Hr.
  { injection Hr as <- <-. exists r, pc. by rewrite app_nil_r. }
  destruct (cstep cap a st) as [[st1 v]|] eqn:Ha; [|done]. cbn in Hr.
  destruct (crun cap acts st1) as [[st2 vs']|] eqn:Hr'; [|done]. injection Hr as -> <-.
  destruct (sole_step _ _ _ _ _ _ _ _ Hs Ha) as (r1 & pc1 & Hs1 & Hcs & Hm & Hp).
  destruct (fifo_answers v cur vs' _ _ _ _ Hm Hp Hc) as (cur' & Hc' & Hf).
  destruct (IH _ _ _ _ _ _ Hs1 Hr' Hc') as (r2 & pc2 & Hs2 & Ht & Hfr). exists r2, pc2. split; [done|]. split.
  - cbn [foldl]. rewrite Ht. destruct Hs as ([g H] & _), Hs1 as ([g1 H1] & _).
    rewrite (consumed_take _ _ _ _ _ _ _ _ _ H H1 Hcs), <- (assoc_L (++)). f_equal. by destruct v.
  - rewrite (Hf _ _ Hfr). f_equal. cbn. by destruct (result v).
Qed.

(** Every element that is pushed has the size of the ring. *)
Definition pushes_sized (es : Z) (a : @act (list Z)) : Prop := match a with ATake _ e => len e = es | _ => True end.
Lemma take_event (a : @act (list Z)) st st' p e : cstep cap a st = Some (st', EvTake p e) -> a = ATake p e.
Proof.
  unfold cstep. destruct (act_prod a) as [q|] eqn:Eq.
  - destruct (cs_prod st !! q) as [pc|]; [|done]. cbn. destruct a, pc; cbn; try done; repeat case_match; try done;
      try (destruct (cs_seq st !! _); cbn; repeat case_match; done). by intros [= _ <- <-].
  - unfold cons_step. destruct a, (cs_cons st); try done; try (destruct (cs_seq st !! _); cbn; repeat case_match; done).
    destruct (cs_buf st !! _); cbn; done.
Qed.
Lemma calls_sized es acts st st' vs r els pc cur :
  sole cap r els pc st -> crun cap acts st = Some (st', vs) -> Forall (pushes_sized es) acts ->
  (forall e, pushing pc = Some e -> e = cur /\ len e = es) -> Forall (op_sized es) (calls cur vs).
Proof.
  revert st vs r els pc cur. induction acts as [|a acts IH]; intros st vs r els pc cur Hs Hr Hf Hc; cbn in Hr.
  { injection Hr as _ <-. constructor. }
  apply Forall_cons_1 in Hf as [Ha Hf]. destruct (cstep cap a st) as [[st1 v]|] eqn:He; [|done]. cbn in Hr.
  destruct (crun cap acts st1) as [[st2 vs']|] eqn:Hr'; [|done]. injection Hr as -> <-.
  destruct (sole_step _ _ _ _ _ _ _ _ Hs He) as (r1 & pc1 & Hs1 & _ & Hm & Hp).
  destruct v as [p e|p|p|e| |]; cbn in Hm, Hp; cbn [calls].
  - apply take_event in He. subst a. eapply IH; [done..|]. rewrite Hp. by intros ? [= <-].
  - destruct Hp as [[e He'] Hn]. destruct (Hc _ He') as [-> ?]. constructor; [done|]. eapply IH; [done..|]. by rewrite Hn.
  - destruct Hp as [Hp Hn], Hm as [_ [e Hl]]. rewrite Hl, last_snoc in Hp. destruct (Hc _ Hp) as [-> ?].
    constructor; [done|]. eapply IH; [done..|]. by rewrite Hn.
  - constructor; [done|]. eapply IH; [done..|]. naive_solver.
  - constructor; [done|]. eapply IH; [done..|]. naive_solver.
  - eapply IH; [done..|]. naive_solver.
Qed.
End runs.

(** ** The ring in memory *)

Lemma seq_init_any s s' cap : len s = cap -> len s' = cap -> seq_init s cap = seq_init s' cap.
Proof.
  intros H H'. apply list_eq. intros i. destruct (decide (Z.of_nat i < cap)) as [Hi|Hi].
  - destruct (seq_init_lookup s (Z.to_nat cap) i) as [H1 _]; [lia..|]. destruct (seq_init_lookup s' (Z.to_nat cap) i) as [H2 _]; [lia..|].
    rewrite Z2Nat.id in H1, H2 by lia. by rewrite H1, H2.
  - destruct (decide (cap = 0)) as [->|]; [destruct s, s'; done|].
    destruct (seq_init_lookup s (Z.to_nat cap) 0) as [_ H1]; [lia..|]. destruct (seq_init_lookup s' (Z.to_nat cap) 0) as [_ H2]; [lia..|].
    rewrite Z2Nat.id in H1, H2 by lia. rewrite !lookup_ge_None_2; [done|rewrite H2; lia|rewrite H1; lia].
Qed.

Lemma init_conc es cap k b s q0 q :
  0 < es -> 1 <= k <= 31 -> cap = 2 ^ k -> es * cap < 2 ^ 32 -> len s = cap ->
  mpsc_init (Some b) (Some s) es cap q0 = (SILOG_OK, q) ->
  conc_of es cap q [PIdle] CIdle = cinit cap 1 (cells es cap b) /\ len (cells es cap b) = cap.
Proof.
  intros Hes Hk Hcap Hfit Hs Hi. assert (0 < cap) by (subst; lia). unfold mpsc_init in Hi.
  destruct (_ || _); [done|]. destruct (negb _); [done|]. injection Hi as <-. unfold conc_of, cinit. cbn. split.
  - f_equal. apply seq_init_any; [done|]. rewrite length_replicate. lia.
  - unfold cells. rewrite length_map, length_seq. lia.
Qed.

(** ** Properties *)

(** C7: With one producer and one consumer the queue is atomic. After the
    initialisation, whatever the interleaving of the atomic accesses of the two
    threads, the calls answer what the functions on bytes answer when they run one
    after the other in the order of the answers; when no push is under way, the
    elements accepted are those popped, followed by those still in the queue. This
    is how the daemon uses its log queue (one receiving and one writing thread), so
    its threads may be taken to make their rounds one after the other. *)
Theorem spsc_atomic es cap k b s q0 :
  0 < es -> 1 <= k <= 31 -> cap = 2 ^ k -> es * cap < 2 ^ 32 -> len b = u32 (es * cap) -> len s = cap ->
  exists q, SilogMpscQueueInit (Some b) (Some s) es cap (Some q0) = (SILOG_OK, Some q) /\
    forall acts st vs, Forall (pushes_sized es) acts ->
      crun cap acts (conc_of es cap q [PIdle] CIdle) = Some (st, vs) ->
      exists q' l, mpsc_run (calls [] vs) q = Some (omap result vs, q') /\ mpsc_repr es cap q' l /\
        (cs_prod st = [PIdle] -> accepted vs = popped vs ++ l).
Proof.
  intros Hes Hk Hcap Hfit Hb Hs. destruct (mpsc_init_repr es cap k b s q0) as (q & Hi & Hr); [done|lia|done..|].
  exists q. split; [cbn; by rewrite Hi|]. intros acts st vs Hf Hrun.
  destruct (init_conc _ _ _ _ _ _ _ Hes Hk Hcap Hfit Hs Hi) as [Hc Hl]. rewrite Hc in Hrun.
  assert (sole cap 0 [] PIdle (cinit cap 1 (cells es cap b))) as Hs0.
  { split; [|by split]. eexists. by apply (cinit_inv cap k); try done; lia. }
  destruct (sole_run cap _ _ _ _ _ _ _ [] Hs0 Hrun) as (r & pc & Hs1 & Ht & Hfr); [done|].
  pose proof (calls_sized cap es _ _ _ _ _ _ _ [] Hs0 Hrun Hf) as Hsz. specialize (Hsz ltac:(done)).
  change (reachable 0 [] PIdle) with (@nil (list Z)) in Hfr.
  destruct (mpsc_run_refines es cap (calls [] vs) q [] Hr Hsz) as (q' & Hq & Hr'). rewrite Hfr in Hq, Hr'. cbn [fst snd] in *.
  exists q', (reachable r (accepted vs) pc). split; [done|]. split; [done|]. intros Hidle. destruct Hs1 as (_ & Hp & _).
  rewrite Hidle in Hp. injection Hp as <-. rewrite idle_reachable by done. unfold accepted in *.
  rewrite <- (take_drop (Z.to_nat r) (foldl _ _ _)) at 1. by rewrite Ht.
Qed.

Definition two_threads : list (@act (list Z)) :=
  [ATake 0 [1; 2]; AConsLoad; ATest 0; ACasSpurious 0; ACas 0; ACopy 0; AConsLoad; APublish 0; AConsLoad; ATake 0 [3; 4];
   AConsCopy; ATest 0; AConsRelease; ACas 0; ACopy 0; AConsAdvance; APublish 0; ATake 0 [5; 6]; ATest 0; ACas 0].
Lemma spsc_atomic_witness :
  exists q st vs, SilogMpscQueueInit (Some [9; 9; 9; 9]) (Some [7; 7]) 2 2 (Some mpsc_nil) = (SILOG_OK, Some q) /\
    crun 2 two_threads (conc_of 2 2 q [PIdle] CIdle) = Some (st, vs) /\
    exists q' l, mpsc_run [OpPop; OpPop; OpPush [1; 2]; OpPop; OpPush [3; 4]] q
      = Some ([ResPop SILOG_TRANS_QUEUE_EMPTY None; ResPop SILOG_TRANS_QUEUE_EMPTY None; ResPush SILOG_OK;
               ResPop SILOG_OK (Some [1; 2]); ResPush SILOG_OK], q') /\ mpsc_repr 2 2 q' l.
Proof.
  destruct (spsc_atomic 2 2 1 [9; 9; 9; 9] [7; 7] mpsc_nil) as (q & Hi & H); [lia|lia|done|lia|done|done|].
  injection Hi as <-. eexists _, _, _. split; [reflexivity|]. split; [vm_compute; reflexivity|].
  destruct (H two_threads _ _ ltac:(repeat constructor) ltac:(vm_compute; reflexivity)) as (q' & l & Hr & Hl & _).
  exists q', l. split; [exact Hr|exact Hl].
Defined.

(** With two producers the queue is not atomic: a push that has answered is not
    found by a pop that starts later, as long as an earlier ticket is under way.
    No order of the calls in which that push comes before the pop gives the answer. *)
Lemma two_producers_hide (a b : list Z) :
  exists st, crun 2 [ATake 0 a; ATake 1 b; ATest 1; ACas 1; ACopy 1; APublish 1; AConsLoad] (cinit 2 2 [[]; []])
    = Some (st, [EvTake 0 a; EvTake 1 b; EvTau; EvTau; EvTau; EvOk 1; EvEmpty]) /\
    Forall (fun ops => last (fifo_run 2 ops []).1 <> Some (ResPop SILOG_TRANS_QUEUE_EMPTY None))
      [[OpPush b; OpPop]; [OpPush a; OpPush b; OpPop]; [OpPush b; OpPush a; OpPop]].
Proof. eexists. split; [reflexivity|]. by repeat constructor. Qed.
