(* ===== verification/PQueue.v ===== *)
(** * The priority queue (silog_comm/src/silog_pqueue.c)

    An array heap over a byte buffer with a comparison callback: [compare a b]
    positive means that [a] has the higher priority. The operations are
    translated at the level of bytes and shown to implement operations on the
    list of elements; heap order and the preservation of the elements are
    proved on the list. *)

From S2P Require Import Prelude Errors CObj.
#[local] Open Scope Z_scope.

(** ** Data *)

(** [SiLogPQueueCompareFunc] on the bytes of two elements. *)
Definition CompareFunc : Type := list Z -> list Z -> Z.

Record SiLogPQueue := MkPQ {
  pq_buffer : option (list Z);
  pq_elementSize : Z;
  pq_capacity : Z;
  pq_size : Z;
  pq_compare : CompareFunc
}.

Definition pq_set_buffer (b : option (list Z)) (q : SiLogPQueue) : SiLogPQueue :=
  MkPQ b (pq_elementSize q) (pq_capacity q) (pq_size q) (pq_compare q).
Definition pq_set_size (n : Z) (q : SiLogPQueue) : SiLogPQueue :=
  MkPQ (pq_buffer q) (pq_elementSize q) (pq_capacity q) n (pq_compare q).

(** ** Operations *)

(** [mem] is the result of allocating [u32 (elementSize * capacity)] bytes;
    [compare] is [None] for a null function pointer. *)
Definition SilogPQueueInit (mem : option (list Z)) (lq : option SiLogPQueue)
    (elementSize capacity : Z) (compare : option CompareFunc) : ErrorCode * option SiLogPQueue :=
  match lq, compare with
  | Some q, Some cmp =>
      if (elementSize =? 0) || (capacity =? 0) then (SILOG_INVALID_ARG, lq)
      else match mem with
           | None => (SILOG_OUT_OF_MEMORY, Some (pq_set_buffer None q))
           | Some b => (SILOG_OK, Some (MkPQ (Some b) elementSize capacity 0 cmp))
           end
  | _, _ => (SILOG_INVALID_ARG, lq)
  end.

Definition SilogPQueueDestroy (lq : option SiLogPQueue) : option SiLogPQueue :=
  (fun q => MkPQ None (pq_elementSize q) 0 0 (pq_compare q)) <$> lq.

Definition SilogPQueueClear (lq : option SiLogPQueue) : option SiLogPQueue :=
  pq_set_size 0 <$> lq.

Definition SilogPQueueIsEmpty (lq : option SiLogPQueue) : bool :=
  match lq with None => true | Some q => pq_size q =? 0 end.
Definition SilogPQueueIsFull (lq : option SiLogPQueue) : bool :=
  match lq with None => true | Some q => pq_capacity q <=? pq_size q end.
Definition SilogPQueueSize (lq : option SiLogPQueue) : Z :=
  match lq with None => 0 | Some q => pq_size q end.
Definition SilogPQueueCapacity (lq : option SiLogPQueue) : Z :=
  match lq with None => 0 | Some q => pq_capacity q end.

(** [buffer + index * elementSize], a 32-bit product. *)
Definition elem_off (es index : Z) : Z := u32 (index * es).

(** [memcpy_s(buffer + index * elementSize, elementSize, e, elementSize)]. *)
Definition put_elem (es : Z) (b : list Z) (index : Z) (e : list Z) : option (list Z) :=
  (obj_memcpy_s b (elem_off es index) es e es).2.

(** The element at [index], as passed to [compare] or copied from. *)
Definition get_elem (es : Z) (b : list Z) (index : Z) : option (list Z) :=
  rd b (elem_off es index) es.

(** The loop of [SiftUp]: the hole at [index] moves up while [temp] beats the
    parent. The index decreases, [fuel] bounds the iterations. *)
Fixpoint sift_up_loop (fuel : nat) (cmp : CompareFunc) (es : Z) (temp b : list Z) (index : Z)
    : option (list Z * Z) :=
  match fuel with
  | O => None
  | S fuel =>
      if 0 <? index then
        let parent := (index - 1) / 2 in
        pe ← get_elem es b parent;
        if cmp temp pe <=? 0 then Some (b, index)
        else b ← put_elem es b index pe; sift_up_loop fuel cmp es temp b parent
      else Some (b, index)
  end.

(** [malloc] tells whether the temporary element could be allocated. *)
Definition SiftUp (malloc : bool) (q : SiLogPQueue) (index : Z) : option SiLogPQueue :=
  if negb malloc then Some q
  else
    b ← pq_buffer q;
    temp ← get_elem (pq_elementSize q) b index;
    '(b, index) ← sift_up_loop (S (Z.to_nat index)) (pq_compare q) (pq_elementSize q) temp b index;
    b ← put_elem (pq_elementSize q) b index temp;
    Some (pq_set_buffer (Some b) q).

(** The child test of [SiftDown]: [child] replaces [largest] when it exists and
    compares greater than the element stored at [largest]. *)
Definition pick_child (cmp : CompareFunc) (es size : Z) (b : list Z) (child largest : Z) : option Z :=
  if child <? size then
    ce ← get_elem es b child; le ← get_elem es b largest;
    Some (if 0 <? cmp ce le then child else largest)
  else Some largest.

(** The loop of [SiftDown]: the index increases while it stays below [size]. *)
Fixpoint sift_down_loop (fuel : nat) (cmp : CompareFunc) (es size : Z) (b : list Z) (index : Z)
    : option (list Z * Z) :=
  match fuel with
  | O => None
  | S fuel =>
      let left := u32 (2 * index + 1) in
      let right := u32 (2 * index + 2) in
      largest ← pick_child cmp es size b left index;
      largest ← pick_child cmp es size b right largest;
      if largest =? index then Some (b, index)
      else
        e ← get_elem es b largest;
        b ← put_elem es b index e;
        sift_down_loop fuel cmp es size b largest
  end.

Definition SiftDown (malloc : bool) (q : SiLogPQueue) (index : Z) : option SiLogPQueue :=
  if negb malloc then Some q
  else
    b ← pq_buffer q;
    temp ← get_elem (pq_elementSize q) b index;
    '(b, index) ← sift_down_loop (S (Z.to_nat (pq_size q))) (pq_compare q) (pq_elementSize q)
                    (pq_size q) b index;
    b ← put_elem (pq_elementSize q) b index temp;
    Some (pq_set_buffer (Some b) q).

Definition pq_push (malloc : bool) (q : SiLogPQueue) (e : list Z) : option (ErrorCode * SiLogPQueue) :=
  if pq_capacity q <=? pq_size q then Some (SILOG_BUSY, q)
  else
    b ← pq_buffer q;
    b ← put_elem (pq_elementSize q) b (pq_size q) e;
    let q := pq_set_size (u32 (pq_size q + 1)) (pq_set_buffer (Some b) q) in
    q ← SiftUp malloc q (u32 (pq_size q - 1));
    Some (SILOG_OK, q).

Definition SilogPQueuePush (malloc : bool) (lq : option SiLogPQueue) (element : option (list Z))
    : option (ErrorCode * option SiLogPQueue) :=
  match lq, element with
  | Some q, Some e => '(ret, q) ← pq_push malloc q e; Some (ret, Some q)
  | _, _ => Some (SILOG_INVALID_ARG, lq)
  end.

(** The last component is what is copied to [outElement], if anything. *)
Definition pq_pop (malloc : bool) (q : SiLogPQueue)
    : option (ErrorCode * SiLogPQueue * option (list Z)) :=
  if pq_size q =? 0 then Some (SILOG_TRANS_QUEUE_EMPTY, q, None)
  else
    b ← pq_buffer q;
    out ← get_elem (pq_elementSize q) b 0;
    let q := pq_set_size (u32 (pq_size q - 1)) q in
    if 0 <? pq_size q then
      e ← get_elem (pq_elementSize q) b (pq_size q);
      b ← put_elem (pq_elementSize q) b 0 e;
      q ← SiftDown malloc (pq_set_buffer (Some b) q) 0;
      Some (SILOG_OK, q, Some out)
    else Some (SILOG_OK, q, Some out).

Definition SilogPQueuePop (malloc : bool) (lq : option SiLogPQueue) (outElement : bool)
    : option (ErrorCode * option SiLogPQueue * option (list Z)) :=
  match lq, outElement with
  | Some q, true => '(ret, q, out) ← pq_pop malloc q; Some (ret, Some q, out)
  | _, _ => Some (SILOG_INVALID_ARG, lq, None)
  end.

Definition SilogPQueuePeek (lq : option SiLogPQueue) (outElement : bool)
    : option (ErrorCode * option (list Z)) :=
  match lq, outElement with
  | Some q, true =>
      if pq_size q =? 0 then Some (SILOG_TRANS_QUEUE_EMPTY, None)
      else b ← pq_buffer q; out ← get_elem (pq_elementSize q) b 0; Some (SILOG_OK, Some out)
  | _, _ => Some (SILOG_INVALID_ARG, None)
  end.

(** [grown] is the result of [realloc]: the old bytes followed by new ones. *)
Definition SilogPQueueReserve (grown : option (list Z)) (lq : option SiLogPQueue) (newCapacity : Z)
    : ErrorCode * option SiLogPQueue :=
  match lq with
  | None => (SILOG_INVALID_ARG, None)
  | Some q =>
      if newCapacity <=? pq_capacity q then (SILOG_INVALID_ARG, lq)
      else match grown with
           | None => (SILOG_OUT_OF_MEMORY, lq)
           | Some b => (SILOG_OK, Some (MkPQ (Some b) (pq_elementSize q) newCapacity (pq_size q)
                                          (pq_compare q)))
           end
  end.

(** ** The operations on lists of elements *)

Definition parent (i : nat) : nat := ((i - 1) / 2)%nat.

(** Sifting up as swaps with the parent. *)
Fixpoint up_l (fuel : nat) (cmp : CompareFunc) (l : list (list Z)) (i : nat) : list (list Z) :=
  match fuel with
  | O => l
  | S fuel =>
      if decide (i = 0%nat) then l else
      match l !! i, l !! parent i with
      | Some x, Some y =>
          if cmp x y <=? 0 then l else up_l fuel cmp (<[parent i := x]> (<[i := y]> l)) (parent i)
      | _, _ => l
      end
  end.

Definition pick_l (cmp : CompareFunc) (l : list (list Z)) (child largest : nat) : nat :=
  match l !! child, l !! largest with
  | Some ce, Some le => if 0 <? cmp ce le then child else largest
  | _, _ => largest
  end.

(** Sifting down as the code does it: the element stored at the hole is the one
    last moved, and it is what the children are compared with. *)
Fixpoint down_l (fuel : nat) (cmp : CompareFunc) (l : list (list Z)) (i : nat)
    : list (list Z) * nat :=
  match fuel with
  | O => (l, i)
  | S fuel =>
      let largest := pick_l cmp l (2 * i + 2) (pick_l cmp l (2 * i + 1) i) in
      if decide (largest = i) then (l, i)
      else down_l fuel cmp (<[i := default [] (l !! largest)]> l) largest
  end.

(** ** The buffer as an array of elements *)

Record slots (es : Z) (b : list Z) (l : list (list Z)) : Prop := {
  sl_fit : len l * es <= len b;
  sl_rd : forall i e, l !! i = Some e -> rd b (Z.of_nat i * es) es = Some e
}.

(** [q] holds the elements [l], in array order. *)
Record pq_repr (q : SiLogPQueue) (l : list (list Z)) : Prop := {
  pr_es : 0 < pq_elementSize q;
  pr_cap : 0 < pq_capacity q < 2 ^ 31;
  pr_fit : pq_elementSize q * pq_capacity q < 2 ^ 32;
  pr_size : pq_size q = len l;
  pr_bound : len l <= pq_capacity q;
  pr_buf : exists b, pq_buffer q = Some b /\ len b = pq_elementSize q * pq_capacity q /\
                     slots (pq_elementSize q) b l
}.

Lemma slots_sized es b l i e : slots es b l -> l !! i = Some e -> len e = es.
Proof. intros H Hi. eapply rd_length. by eapply sl_rd. Qed.

Section Slots.
Context (es : Z) (b : list Z) (l : list (list Z)).
Context (Hes : 0 < es) (Hfit : len b < 2 ^ 32) (Hs : slots es b l).

Lemma elem_off_small i : (i < length l)%nat -> elem_off es (Z.of_nat i) = Z.of_nat i * es.
Proof. intros Hi. apply u32_small. unfold is_u32. pose proof (sl_fit _ _ _ Hs). nia. Qed.

Lemma get_elem_slots i : (i < length l)%nat -> get_elem es b (Z.of_nat i) = l !! i.
Proof.
  intros Hi. unfold get_elem. rewrite elem_off_small by done.
  destruct (lookup_lt_is_Some_2 l i Hi) as [e He]. rewrite He. by apply Hs.
Qed.

Lemma put_elem_slots i e :
  (i < length l)%nat -> len e = es ->
  exists b', put_elem es b (Z.of_nat i) e = Some b' /\ slots es b' (<[i := e]> l) /\
             length b' = length b.
Proof.
  intros Hi He. unfold put_elem. pose proof (sl_fit _ _ _ Hs).
  rewrite obj_memcpy_s_full, elem_off_small by done.
  assert (exists b', wr b (Z.of_nat i * es) e = Some b') as [b' Hw].
  { eexists. apply wr_Some; nia. }
  pose proof (wr_length _ _ _ _ Hw) as Hlen.
  exists b'. split_and!; [done| |done]. split; [rewrite length_insert; lia|].
  intros j x Hj. destruct (decide (i = j)) as [<-|Hne].
  - rewrite list_lookup_insert_eq in Hj by done. injection Hj as <-.
    pose proof (rd_wr_same _ _ _ _ Hw) as Hrd. by rewrite He in Hrd.
  - rewrite list_lookup_insert_ne in Hj by done.
    rewrite (rd_wr_other _ _ _ _ _ _ Hw); [by apply Hs|]. nia.
Qed.
End Slots.

Lemma slots_prefix es b l n : slots es b l -> 0 <= es -> slots es b (take n l).
Proof.
  intros H Hes. split.
  - pose proof (sl_fit _ _ _ H). rewrite length_take. nia.
  - intros i e Hi. apply lookup_take_Some in Hi as [Hi _]. by apply H.
Qed.

(** ** The loops refine the list operations *)

Lemma parent_Z i : (0 < i)%nat -> (Z.of_nat i - 1) / 2 = Z.of_nat (parent i).
Proof.
  intros Hi. unfold parent. rewrite Nat2Z.inj_div, Nat2Z.inj_sub by lia. done.
Qed.

Lemma parent_lt i : (0 < i)%nat -> (parent i < i)%nat.
Proof. intros Hi. unfold parent. apply Nat.div_lt_upper_bound; lia. Qed.

Lemma sift_up_loop_refines es cmp temp fuel b l i :
  0 < es -> len b < 2 ^ 32 -> slots es b l -> len temp = es ->
  (i < length l)%nat -> (i < fuel)%nat ->
  exists b' i' l', sift_up_loop fuel cmp es temp b (Z.of_nat i) = Some (b', Z.of_nat i') /\
    slots es b' l' /\ length b' = length b /\ (i' < length l')%nat /\
    <[i' := temp]> l' = up_l fuel cmp (<[i := temp]> l) i.
Proof.
  intros Hes Hfit. revert b l i Hfit.
  induction fuel as [|fuel IH]; intros b l i Hfit Hs Ht Hi Hf; [lia|]. simpl.
  destruct (decide (i = 0%nat)) as [->|Hi0].
  { exists b, 0%nat, l. done. }
  ztest. rewrite parent_Z by lia. pose proof (parent_lt i ltac:(lia)) as Hp.
  rewrite (get_elem_slots es b l) by (done || lia).
  destruct (lookup_lt_is_Some_2 l (parent i)) as [pe Hpe]; [lia|].
  rewrite Hpe. simpl. rewrite list_lookup_insert_eq, list_lookup_insert_ne, Hpe by lia.
  destruct (cmp temp pe <=? 0); [by exists b, i, l|].
  destruct (put_elem_slots es b l Hes Hfit Hs i pe) as (b2 & Hb2 & Hs2 & Hl2);
    [done|by eapply slots_sized|].
  rewrite Hb2. simpl. destruct (IH b2 (<[i := pe]> l) (parent i)) as (b' & i' & l' & H1 & H2 & H3 & H4 & H5).
  { lia. } { done. } { done. } { rewrite length_insert. lia. } { lia. }
  exists b', i', l'. split_and!; [done..|lia|done|]. by rewrite list_insert_insert_eq.
Qed.

Lemma pick_child_refines es cmp b l child largest size :
  0 < es -> len b < 2 ^ 32 -> slots es b l -> size = len l ->
  (largest < length l)%nat ->
  pick_child cmp es size b (Z.of_nat child) (Z.of_nat largest)
  = Some (Z.of_nat (pick_l cmp l child largest)).
Proof.
  intros Hes Hfit Hs -> Hlg. unfold pick_child, pick_l. case_if.
  - rewrite !(get_elem_slots es b l) by (done || lia).
    destruct (lookup_lt_is_Some_2 l child) as [ce Hce]; [lia|].
    destruct (lookup_lt_is_Some_2 l largest) as [le Hle]; [lia|].
    rewrite Hce, Hle. simpl. by case_if.
  - by rewrite (lookup_ge_None_2 l child) by lia.
Qed.

Lemma pick_l_lt cmp l child largest :
  (largest < length l)%nat -> (pick_l cmp l child largest < length l)%nat.
Proof.
  intros H. unfold pick_l. destruct (l !! child) eqn:E; [|done].
  apply lookup_lt_Some in E. destruct (l !! largest); [|done]. by case_if.
Qed.

Lemma pick_l_cases cmp l child largest :
  pick_l cmp l child largest = child \/ pick_l cmp l child largest = largest.
Proof. unfold pick_l. repeat case_match; auto. Qed.

(** A move of [SiftDown] goes strictly down the array. *)
Lemma down_target cmp l i :
  let largest := pick_l cmp l (2 * i + 2) (pick_l cmp l (2 * i + 1) i) in
  largest <> i -> (i < largest)%nat.
Proof.
  intros largest Hne. subst largest.
  destruct (pick_l_cases cmp l (2 * i + 2) (pick_l cmp l (2 * i + 1) i)) as [E|E]; [lia|].
  destruct (pick_l_cases cmp l (2 * i + 1) i) as [E2|E2]; lia.
Qed.

Lemma sift_down_loop_refines es cmp fuel b l i size :
  0 < es -> len b < 2 ^ 32 -> slots es b l -> size = len l -> len l < 2 ^ 31 ->
  (i < length l)%nat -> (length l - i < fuel)%nat ->
  exists b' i', sift_down_loop fuel cmp es size b (Z.of_nat i) = Some (b', Z.of_nat i') /\
    slots es b' (down_l fuel cmp l i).1 /\ length b' = length b /\
    i' = (down_l fuel cmp l i).2 /\ (i' < length l)%nat /\
    length (down_l fuel cmp l i).1 = length l.
Proof.
  intros Hes Hfit. revert b l i Hfit.
  induction fuel as [|fuel IH]; intros b l i Hfit Hs Hsz Hl31 Hi Hf; [lia|].
  cbn [sift_down_loop down_l].
  rewrite !u32_small by (unfold is_u32; lia).
  replace (2 * Z.of_nat i + 1) with (Z.of_nat (2 * i + 1)) by lia.
  replace (2 * Z.of_nat i + 2) with (Z.of_nat (2 * i + 2)) by lia.
  rewrite (pick_child_refines es cmp b l) by done. bind_some.
  rewrite (pick_child_refines es cmp b l) by (done || by apply pick_l_lt). bind_some.
  pose proof (down_target cmp l i) as Hdt. cbv zeta in Hdt.
  pose proof (pick_l_lt cmp l (2 * i + 2) _ (pick_l_lt cmp l (2 * i + 1) i Hi)) as Hlt.
  set (lg := pick_l cmp l (2 * i + 2) (pick_l cmp l (2 * i + 1) i)) in *. clearbody lg.
  destruct (decide (lg = i)) as [->|Hne].
  { rewrite Z.eqb_refl. exists b, i. simpl. done. }
  ztest. rewrite (get_elem_slots es b l) by done.
  destruct (lookup_lt_is_Some_2 l lg Hlt) as [e He]. rewrite He. simpl.
  destruct (put_elem_slots es b l Hes Hfit Hs i e) as (b2 & Hb2 & Hs2 & Hl2);
    [done|by eapply slots_sized|].
  rewrite Hb2. simpl. specialize (Hdt Hne).
  destruct (IH b2 (<[i := e]> l) lg) as (b' & i' & H1 & H2 & H3 & H4 & H5 & H6);
    rewrite ?length_insert in *; try lia; try done.
  exists b', i'. split_and!; [done..|lia|done|lia|lia].
Qed.

(** ** Heap order *)

(** What a comparison callback must satisfy: a total preorder, [cmp a b <= 0]
    meaning that [a] does not have a higher priority than [b]. *)
Class TotalCmp (cmp : CompareFunc) : Prop := {
  cmp_total : forall a b, cmp a b <= 0 \/ cmp b a <= 0;
  cmp_trans : forall a b c, cmp a b <= 0 -> cmp b c <= 0 -> cmp a c <= 0
}.

Definition ok_at (cmp : CompareFunc) (l : list (list Z)) (j : nat) : Prop :=
  forall x y, l !! j = Some x -> l !! parent j = Some y -> cmp x y <= 0.

Definition heap (cmp : CompareFunc) (l : list (list Z)) : Prop :=
  forall j, (0 < j)%nat -> ok_at cmp l j.

(** A heap but for the element at [i], which may be too high for its place. *)
Record almost (cmp : CompareFunc) (l : list (list Z)) (i : nat) : Prop := {
  al_other : forall j, (0 < j)%nat -> j <> i -> ok_at cmp l j;
  al_child : forall c x y, (0 < i)%nat -> (0 < c)%nat -> parent c = i ->
    l !! c = Some x -> l !! parent i = Some y -> cmp x y <= 0
}.

Section Heap.
Context (cmp : CompareFunc) `{!TotalCmp cmp}.

Lemma cmp_refl a : cmp a a <= 0.
Proof. destruct (cmp_total a a); done. Qed.

Lemma cmp_gt a b : 0 < cmp a b -> cmp b a <= 0.
Proof. intros H. destruct (cmp_total a b); [lia|done]. Qed.

(** The first element of a heap has the highest priority. *)
Lemma heap_root_max l m i x : heap cmp l -> l !! 0%nat = Some m -> l !! i = Some x -> cmp x m <= 0.
Proof.
  intros Hh Hm. revert x. induction (lt_wf i) as [i _ IH]. intros x Hx.
  destruct (decide (i = 0%nat)) as [->|Hi]; [simplify_eq; apply cmp_refl|].
  pose proof (parent_lt i ltac:(lia)) as Hp.
  destruct (lookup_lt_is_Some_2 l (parent i)) as [y Hy].
  { apply lookup_lt_Some in Hx. lia. }
  apply cmp_trans with y; [apply (Hh i); [lia|done..]|by apply (IH (parent i))].
Qed.

Lemma up_l_perm fuel l i : up_l fuel cmp l i ≡ₚ l.
Proof.
  revert l i. induction fuel as [|fuel IH]; intros l i; simpl; [done|].
  case_decide; [done|]. destruct (l !! i) as [x|] eqn:Hx; [|done].
  destruct (l !! parent i) as [y|] eqn:Hy; [|done]. case_if; [done|].
  rewrite IH. by apply Permutation_insert_swap.
Qed.

Lemma almost_swap l i x y :
  almost cmp l i -> (0 < i)%nat -> l !! i = Some x -> l !! parent i = Some y -> 0 < cmp x y ->
  almost cmp (<[parent i := x]> (<[i := y]> l)) (parent i).
Proof.
  intros [Ho Hc] Hi Hx Hy Hgt%cmp_gt. pose proof (parent_lt i Hi) as Hp.
  pose proof (lookup_lt_Some _ _ _ Hx) as Hli.
  assert (forall j, j <> i -> j <> parent i ->
    <[parent i := x]> (<[i := y]> l) !! j = l !! j) as Hother.
  { intros j Hji Hjp. by rewrite !list_lookup_insert_ne. }
  assert (<[parent i := x]> (<[i := y]> l) !! i = Some y) as Hi'.
  { rewrite list_lookup_insert_ne by lia. by apply list_lookup_insert_eq. }
  assert (<[parent i := x]> (<[i := y]> l) !! parent i = Some x) as Hp'.
  { apply list_lookup_insert_eq. rewrite length_insert. lia. }
  split.
  - intros j Hj Hjp u v Hu Hv. destruct (decide (j = i)) as [->|Hji].
    { rewrite Hi' in Hu. rewrite Hp' in Hv. by simplify_eq. }
    rewrite Hother in Hu by done. destruct (decide (parent j = i)) as [Hpi|Hpi].
    { rewrite Hpi, Hi' in Hv. injection Hv as <-. by apply (Hc j u y Hi Hj Hpi). }
    destruct (decide (parent j = parent i)) as [Hpp|Hpp].
    { rewrite Hpp, Hp' in Hv. injection Hv as <-. apply cmp_trans with y; [|done].
      apply (Ho j Hj Hji); [done|]. by rewrite Hpp. }
    rewrite Hother in Hv by done. by apply (Ho j).
  - intros c u v Hpi Hcpos Hpc Hu Hv. pose proof (parent_lt (parent i) Hpi).
    rewrite Hother in Hv by lia.
    assert (cmp y v <= 0) by (apply (Ho (parent i)); [lia|lia|done|done]).
    destruct (decide (c = i)) as [->|Hci]; [rewrite Hi' in Hu; by simplify_eq|].
    pose proof (parent_lt c Hcpos). rewrite Hother in Hu by lia.
    apply cmp_trans with y; [|done]. apply (Ho c Hcpos Hci); [done|]. by rewrite Hpc.
Qed.

Lemma up_l_heap fuel l i :
  almost cmp l i -> (i < length l)%nat -> (i < fuel)%nat -> heap cmp (up_l fuel cmp l i).
Proof.
  revert l i. induction fuel as [|fuel IH]; intros l i Ha Hi Hf; [lia|]. simpl. case_decide.
  { subst i. intros j Hj. apply (al_other _ _ _ Ha); lia. }
  pose proof (parent_lt i ltac:(lia)) as Hp.
  destruct (lookup_lt_is_Some_2 l i Hi) as [x Hx]. rewrite Hx.
  destruct (lookup_lt_is_Some_2 l (parent i)) as [y Hy]; [lia|]. rewrite Hy. case_if.
  - intros j Hj. destruct (decide (j = i)) as [->|]; [|by apply (al_other _ _ _ Ha)].
    intros u v Hu Hv. by simplify_eq.
  - apply IH; [by apply almost_swap; try lia|rewrite !length_insert; lia|lia].
Qed.

Lemma almost_snoc l e : heap cmp l -> almost cmp (l ++ [e]) (length l).
Proof.
  intros Hh. split.
  - intros j Hj Hne x y Hx Hy. pose proof (parent_lt j Hj).
    pose proof (lookup_lt_Some _ _ _ Hx) as Hlt. rewrite length_app in Hlt. simpl in Hlt.
    rewrite lookup_app_l in Hx, Hy by lia. by apply (Hh j Hj).
  - intros c x y _ Hc Hpc Hx _. pose proof (parent_lt c Hc).
    apply lookup_lt_Some in Hx. rewrite length_app in Hx. simpl in Hx. lia.
Qed.

Lemma down_l_perm fuel l i t :
  (i < length l)%nat ->
  <[(down_l fuel cmp l i).2 := t]> (down_l fuel cmp l i).1 ≡ₚ <[i := t]> l.
Proof.
  revert l i. induction fuel as [|fuel IH]; intros l i Hi; cbn [down_l fst snd]; [done|].
  pose proof (pick_l_lt cmp l (2 * i + 2) _ (pick_l_lt cmp l (2 * i + 1) i Hi)) as Hlt.
  set (lg := pick_l cmp l (2 * i + 2) (pick_l cmp l (2 * i + 1) i)) in *. clearbody lg.
  case_decide as Hlg; [done|].
  destruct (lookup_lt_is_Some_2 l lg Hlt) as [x Hx]. rewrite Hx. simpl default.
  rewrite IH by (by rewrite length_insert).
  rewrite <- (Permutation_insert_swap (<[i := t]> l) i lg t x).
  - by rewrite list_insert_insert_eq.
  - by apply list_lookup_insert_eq.
  - by rewrite list_lookup_insert_ne.
Qed.

(** The child of the root that the code promotes, or 0. *)
Definition promoted (l : list (list Z)) : nat := pick_l cmp l 2 (pick_l cmp l 1 0).

(** When everything below the root is in heap order the loop of [SiftDown]
    stops after one move, whatever is at the root: from the second iteration
    on, the children are compared with the element that has just moved up. *)
Lemma down_l_one_move fuel l :
  (forall j, (0 < j)%nat -> parent j <> 0%nat -> ok_at cmp l j) ->
  (0 < length l)%nat -> (2 <= fuel)%nat ->
  down_l fuel cmp l 0 =
    if decide (promoted l = 0%nat) then (l, 0%nat)
    else (<[0%nat := default [] (l !! promoted l)]> l, promoted l).
Proof.
  intros Hb Hl Hf. destruct fuel as [|[|fuel]]; [lia..|].
  unfold promoted. cbn [down_l]. change (2 * 0 + 1)%nat with 1%nat. change (2 * 0 + 2)%nat with 2%nat.
  pose proof (pick_l_lt cmp l 2 _ (pick_l_lt cmp l 1 0 Hl)) as Hlt.
  set (c := pick_l cmp l 2 (pick_l cmp l 1 0)) in *. clearbody c.
  destruct (decide (c = 0%nat)) as [|Hc]; [done|].
  destruct (lookup_lt_is_Some_2 l c Hlt) as [x Hx]. rewrite Hx. simpl default.
  assert (forall d, parent d = c -> (c < d)%nat -> pick_l cmp (<[0%nat := x]> l) d c = c) as Hpick.
  { intros d Hd Hcd. unfold pick_l. rewrite !list_lookup_insert_ne, Hx by lia.
    destruct (l !! d) as [z|] eqn:Hz; [|done]. ztest.
    assert (cmp z x <= 0) by (apply (Hb d); [lia|congruence|done|by rewrite Hd]).
    by ztest. }
  rewrite !Hpick by (unfold parent; try lia;
    first [replace (2 * c + 1 - 1)%nat with (c * 2)%nat by lia; apply Nat.div_mul; lia
          |symmetry; apply (Nat.div_unique _ _ c 1); lia]).
  by rewrite decide_True.
Qed.
End Heap.

(** ** The operations refine the list operations *)

Definition same_params (q q' : SiLogPQueue) : Prop :=
  pq_elementSize q' = pq_elementSize q /\ pq_capacity q' = pq_capacity q /\
  pq_compare q' = pq_compare q.

Definition sift_up_l (malloc : bool) (cmp : CompareFunc) (l : list (list Z)) (i : nat)
    : list (list Z) :=
  if malloc then up_l (S i) cmp l i else l.

Definition sift_down_l (malloc : bool) (cmp : CompareFunc) (l : list (list Z)) : list (list Z) :=
  if malloc then
    <[(down_l (S (length l)) cmp l 0).2 := default [] (l !! 0%nat)]> (down_l (S (length l)) cmp l 0).1
  else l.

Lemma repr_buffer q l b b' l' :
  pq_repr q l -> pq_buffer q = Some b -> length b' = length b -> length l' = length l ->
  slots (pq_elementSize q) b' l' -> pq_repr (pq_set_buffer (Some b') q) l'.
Proof.
  intros [] Hb Hlb Hll Hs. destruct pr_buf0 as (b0 & Hb0 & Hbl & _). simplify_eq.
  split; simpl; try done; try lia. exists b'. split_and!; [done|lia|done].
Qed.

Lemma repr_fit q l b : pq_repr q l -> pq_buffer q = Some b -> len b < 2 ^ 32 /\ slots (pq_elementSize q) b l.
Proof.
  intros [] Hb. destruct pr_buf0 as (b0 & Hb0 & Hbl & Hs). simplify_eq. split; [lia|done].
Qed.

Lemma SiftUp_refines malloc q l i :
  pq_repr q l -> (i < length l)%nat ->
  exists q', SiftUp malloc q (Z.of_nat i) = Some q' /\ same_params q q' /\
             pq_repr q' (sift_up_l malloc (pq_compare q) l i).
Proof.
  intros H Hi. unfold SiftUp, sift_up_l. destruct malloc; simpl negb; [|by exists q].
  destruct (pr_buf _ _ H) as (b & Hb & Hbl & Hs). rewrite Hb. bind_some.
  pose proof (pr_es _ _ H) as Hes. destruct (repr_fit _ _ _ H Hb) as [Hfit _].
  rewrite (get_elem_slots _ b l) by done.
  destruct (lookup_lt_is_Some_2 l i Hi) as [t Ht]. rewrite Ht. bind_some. rewrite Nat2Z.id.
  destruct (sift_up_loop_refines (pq_elementSize q) (pq_compare q) t (S i) b l i)
    as (b1 & i1 & l1 & Hl1 & Hs1 & Hb1 & Hi1 & He1); try done.
  { by eapply slots_sized. } { lia. }
  rewrite Hl1. bind_some.
  destruct (put_elem_slots _ b1 l1 Hes ltac:(lia) Hs1 i1 t) as (b2 & Hb2 & Hs2 & Hlb2);
    [done|exact (slots_sized _ _ _ _ _ Hs Ht)|].
  rewrite Hb2. bind_some. eexists. split_and!; [done..|].
  rewrite He1, list_insert_id in Hs2 by done.
  apply (repr_buffer q l b); [done|done|congruence| |done].
  apply Permutation_length, up_l_perm.
Qed.

Lemma SiftDown_refines malloc q l :
  pq_repr q l -> (0 < length l)%nat ->
  exists q', SiftDown malloc q 0 = Some q' /\ same_params q q' /\
             pq_repr q' (sift_down_l malloc (pq_compare q) l).
Proof.
  intros H Hl. unfold SiftDown, sift_down_l. destruct malloc; simpl negb; [|by exists q].
  destruct (pr_buf _ _ H) as (b & Hb & Hbl & Hs). rewrite Hb. bind_some.
  pose proof (pr_es _ _ H) as Hes. destruct (repr_fit _ _ _ H Hb) as [Hfit _].
  pose proof (pr_cap _ _ H). pose proof (pr_bound _ _ H). change 0 with (Z.of_nat 0).
  rewrite (get_elem_slots _ b l) by done.
  destruct (lookup_lt_is_Some_2 l 0 Hl) as [t Ht]. rewrite Ht. bind_some.
  rewrite (pr_size _ _ H), Nat2Z.id.
  destruct (sift_down_loop_refines (pq_elementSize q) (pq_compare q) (S (length l)) b l 0 (len l))
    as (b1 & i1 & Hl1 & Hs1 & Hb1 & Hi1 & Hlt1 & Hlen1); try done; try lia.
  rewrite Hl1. bind_some.
  destruct (put_elem_slots _ b1 _ Hes ltac:(lia) Hs1 i1 t) as (b2 & Hb2 & Hs2 & Hlb2);
    [lia|exact (slots_sized _ _ _ _ _ Hs Ht)|].
  rewrite Hb2. bind_some. eexists. split_and!; [done..|]. subst i1.
  apply (repr_buffer q l b); [done|done|congruence| |done].
  by rewrite length_insert.
Qed.

(** The new element is stored after the others. *)
Lemma put_snoc es b l e :
  0 < es -> len b < 2 ^ 32 -> slots es b l -> (len l + 1) * es <= len b -> len e = es ->
  exists b', put_elem es b (len l) e = Some b' /\ slots es b' (l ++ [e]) /\ length b' = length b.
Proof.
  intros Hes Hfit Hs Hroom He. unfold put_elem, elem_off. rewrite obj_memcpy_s_full by done.
  rewrite u32_small by (unfold is_u32; nia).
  assert (exists b', wr b (len l * es) e = Some b') as [b' Hw].
  { eexists. apply wr_Some; nia. }
  pose proof (wr_length _ _ _ _ Hw). exists b'. split_and!; [done| |done].
  split; [rewrite length_app; simpl; lia|]. intros i x Hi.
  apply lookup_app_Some in Hi as [Hi|[Hge Hi]].
  - pose proof (lookup_lt_Some _ _ _ Hi). rewrite (rd_wr_other _ _ _ _ _ _ Hw); [by apply Hs|]. nia.
  - apply list_lookup_singleton_Some in Hi as [Hi <-]. replace i with (length l) by lia.
    pose proof (rd_wr_same _ _ _ _ Hw) as Hrd. by rewrite He in Hrd.
Qed.

Lemma pq_push_refines malloc q l e :
  pq_repr q l -> len e = pq_elementSize q -> len l < pq_capacity q ->
  exists q', pq_push malloc q e = Some (SILOG_OK, q') /\ same_params q q' /\
             pq_repr q' (sift_up_l malloc (pq_compare q) (l ++ [e]) (length l)).
Proof.
  intros H He Hl. unfold pq_push. rewrite (pr_size _ _ H). ztest.
  destruct (pr_buf _ _ H) as (b & Hb & Hbl & Hs). rewrite Hb. bind_some.
  pose proof (pr_es _ _ H) as Hes. destruct (repr_fit _ _ _ H Hb) as [Hfit _].
  pose proof (pr_cap _ _ H). pose proof (pr_fit _ _ H).
  destruct (put_snoc (pq_elementSize q) b l e) as (b1 & Hb1 & Hs1 & Hl1); try done.
  { nia. }
  rewrite Hb1. bind_some. cbv zeta. cbn [pq_size pq_set_size].
  rewrite u32_sub_l, Z.add_simpl_r, !u32_small by (unfold is_u32; lia).
  destruct (SiftUp_refines malloc (pq_set_size (len l + 1) (pq_set_buffer (Some b1) q)) (l ++ [e])
              (length l)) as (q' & Hq' & Hsame & Hr').
  { split; simpl; try done; try lia; try (rewrite length_app; simpl; lia).
    exists b1. split_and!; [done|lia|done]. }
  { rewrite length_app. simpl. lia. }
  rewrite Hq'. bind_some. by exists q'.
Qed.

Lemma pq_pop_refines malloc q m l :
  pq_repr q (m :: l) ->
  exists q', pq_pop malloc q = Some (SILOG_OK, q', Some m) /\ same_params q q' /\
    pq_repr q' (if decide (l = []) then [] else
                sift_down_l malloc (pq_compare q)
                  (<[0%nat := default [] (last l)]> (take (length l) (m :: l)))).
Proof.
  intros H. pose proof (pr_size _ _ H) as Hsz. pose proof (pr_bound _ _ H). simpl length in *.
  pose proof (pr_es _ _ H) as Hes. pose proof (pr_cap _ _ H).
  destruct (pr_buf _ _ H) as (b & Hb & Hbl & Hs). destruct (repr_fit _ _ _ H Hb) as [Hfit _].
  unfold pq_pop. rewrite Hsz. ztest. rewrite Hb. bind_some.
  change 0 with (Z.of_nat 0). rewrite (get_elem_slots _ b (m :: l)) by (done || simpl; lia).
  simpl lookup. bind_some. cbv zeta. cbn [pq_size pq_set_size pq_elementSize].
  rewrite u32_small by (unfold is_u32; lia). replace (Z.of_nat (S (length l)) - 1) with (len l) by lia.
  assert (pq_repr (pq_set_size (len l) q) (take (length l) (m :: l))) as Hr1.
  { assert (length (take (length l) (m :: l)) = length l) as Htl by (rewrite length_take; simpl; lia).
    split; rewrite ?Htl; cbn [pq_size pq_set_size pq_elementSize pq_capacity pq_buffer];
      [done|done|apply H|done|lia|].
    exists b. split_and!; [done..|]. apply slots_prefix; [done|lia]. }
  case_decide as Hnil.
  { subst l. simpl. eexists. split_and!; done. }
  assert (0 < length l)%nat by (destruct l; [done|simpl; lia]). ztest.
  rewrite (get_elem_slots _ b (m :: l)) by (done || simpl; lia).
  assert ((m :: l) !! length l = last l) as Hlast.
  { rewrite last_lookup. destruct (length l) as [|n] eqn:E; [lia|]. done. }
  destruct (lookup_lt_is_Some_2 (m :: l) (length l)) as [e He]; [simpl; lia|].
  rewrite <- Hlast, He. bind_some. simpl default.
  destruct (repr_fit _ _ b Hr1 Hb) as [_ Hs1].
  destruct (put_elem_slots _ b _ Hes Hfit Hs1 0 e) as (b1 & Hb1 & Hs2 & Hl1).
  { rewrite length_take. simpl. lia. } { exact (slots_sized _ _ _ _ _ Hs He). }
  change 0 with (Z.of_nat 0). cbn [pq_elementSize pq_set_size] in Hb1. rewrite Hb1. bind_some.
  destruct (SiftDown_refines malloc (pq_set_buffer (Some b1) (pq_set_size (len l) q))
              (<[0%nat := e]> (take (length l) (m :: l)))) as (q' & Hq' & Hsame & Hr').
  { apply (repr_buffer _ (take (length l) (m :: l)) b); try done. by rewrite length_insert. }
  { rewrite length_insert, length_take. simpl. lia. }
  change (Z.of_nat 0) with 0. rewrite Hq'. bind_some. by exists q'.
Qed.

(** ** Properties *)

Lemma replace_root_perm (m : list Z) (l : list (list Z)) :
  l <> [] -> <[0%nat := default [] (last l)]> (take (length l) (m :: l)) ≡ₚ l.
Proof.
  intros Hl. destruct (exists_last Hl) as (l0 & e & ->).
  rewrite last_snoc, length_app. simpl. rewrite Nat.add_1_r. simpl.
  rewrite take_app_length. by rewrite Permutation_cons_append.
Qed.

Lemma sift_down_l_perm malloc cmp l : (0 < length l)%nat -> sift_down_l malloc cmp l ≡ₚ l.
Proof.
  intros Hl. unfold sift_down_l. destruct malloc; [|done].
  destruct (lookup_lt_is_Some_2 l 0 Hl) as [t Ht]. rewrite Ht. simpl default.
  rewrite down_l_perm by done. by rewrite list_insert_id.
Qed.

Lemma pq_push_cases q l e :
  TotalCmp (pq_compare q) -> pq_repr q l -> heap (pq_compare q) l -> len e = pq_elementSize q ->
  (len l < pq_capacity q /\ exists q' l', SilogPQueuePush true (Some q) (Some e) = Some (SILOG_OK, Some q') /\
     same_params q q' /\ pq_repr q' l' /\ l' ≡ₚ e :: l /\ heap (pq_compare q') l') \/
  (len l = pq_capacity q /\ SilogPQueuePush true (Some q) (Some e) = Some (SILOG_BUSY, Some q)).
Proof.
  intros Hc Hr Hh He. pose proof (pr_bound _ _ Hr).
  destruct (Z.lt_ge_cases (len l) (pq_capacity q)) as [Hlt|Hge]; [left|right]; (split; [lia|]).
  - destruct (pq_push_refines true q l e Hr He Hlt) as (q' & Hq & Hs & Hr').
    exists q', (sift_up_l true (pq_compare q) (l ++ [e]) (length l)).
    simpl SilogPQueuePush. rewrite Hq. bind_some. split_and!; [done..| |].
    + unfold sift_up_l. rewrite up_l_perm. symmetry. apply Permutation_cons_append.
    + destruct Hs as (_ & _ & ->). apply up_l_heap; [done|by apply almost_snoc|..];
        rewrite ?length_app; simpl; lia.
  - simpl. unfold pq_push. rewrite (pr_size _ _ Hr). ztest. done.
Qed.


(** Integers of one byte with the comparison of the unit tests, [a - b]. *)
Definition byte_cmp : CompareFunc := fun a b => hd 0 a - hd 0 b.
#[global] Instance byte_cmp_total : TotalCmp byte_cmp.
Proof. unfold byte_cmp. split; intros; lia. Qed.

Definition pq_example : SiLogPQueue := MkPQ (Some [9; 5; 7; 0]) 1 4 3 byte_cmp.

Lemma pq_example_repr : pq_repr pq_example [[9]; [5]; [7]].
Proof.
  split; simpl; try lia. exists [9; 5; 7; 0]. split_and!; [done..|]. split; [simpl; lia|].
  intros [|[|[|i]]] e; simpl; intros; by simplify_eq.
Qed.

Lemma pq_example_heap : heap byte_cmp [[9]; [5]; [7]].
Proof.
  intros [|[|[|j]]] Hj x y; [lia|..]; unfold parent; simpl; intros Hx Hy; by simplify_eq.
Qed.


(** peek and pop of a non-empty heap return the same stored element, and no
    stored element has a higher priority. *)
Theorem pq_top_is_max malloc q m l :
  TotalCmp (pq_compare q) -> pq_repr q (m :: l) -> heap (pq_compare q) (m :: l) ->
  SilogPQueuePeek (Some q) true = Some (SILOG_OK, Some m) /\
  (exists q', SilogPQueuePop malloc (Some q) true = Some (SILOG_OK, Some q', Some m)) /\
  forall x, x ∈ m :: l -> pq_compare q x m <= 0.
Proof.
  intros Hc Hr Hh. split_and!.
  - simpl. rewrite (pr_size _ _ Hr). simpl length. ztest.
    destruct (pr_buf _ _ Hr) as (b & Hb & _ & Hs). rewrite Hb. bind_some.
    destruct (repr_fit _ _ _ Hr Hb) as [Hfit _]. change 0 with (Z.of_nat 0).
    rewrite (get_elem_slots _ b (m :: l)) by (done || apply Hr || simpl; lia). done.
  - destruct (pq_pop_refines malloc q m l Hr) as (q' & Hq & _). exists q'. simpl. by rewrite Hq.
  - intros x (i & Hi)%list_elem_of_lookup. by eapply heap_root_max.
Qed.

Lemma pq_top_is_max_witness :
  SilogPQueuePeek (Some pq_example) true = Some (SILOG_OK, Some [9]) /\
  (exists q', SilogPQueuePop true (Some pq_example) true = Some (SILOG_OK, Some q', Some [9])) /\
  forall x, x ∈ [[9]; [5]; [7]] -> byte_cmp x [9] <= 0.
Proof.
  apply (pq_top_is_max true pq_example [9] [[5]; [7]]).
  - apply byte_cmp_total.
  - apply pq_example_repr.
  - apply pq_example_heap.
Defined.

Lemma pq_pop_cases malloc q l :
  pq_repr q l ->
  match l with
  | [] => SilogPQueuePop malloc (Some q) true = Some (SILOG_TRANS_QUEUE_EMPTY, Some q, None)
  | m :: _ => exists q' l', SilogPQueuePop malloc (Some q) true = Some (SILOG_OK, Some q', Some m) /\
                same_params q q' /\ pq_repr q' l' /\ m :: l' ≡ₚ l
  end.
Proof.
  intros Hr. destruct l as [|m l].
  - simpl. unfold pq_pop. by rewrite (pr_size _ _ Hr).
  - destruct (pq_pop_refines malloc q m l Hr) as (q' & Hq & Hs & Hr').
    eexists q', _. simpl SilogPQueuePop. rewrite Hq. bind_some. split_and!; [done..|].
    constructor. case_decide as Hnil; [by subst|]. rewrite sift_down_l_perm.
    + by apply replace_root_perm.
    + rewrite length_insert, length_take. destruct l; [done|simpl; lia].
Qed.

(** C29: pop removes exactly the element it returns, whatever the comparison and
    even when the temporary of [SiftDown] cannot be allocated; on an empty
    queue it returns [SILOG_TRANS_QUEUE_EMPTY] and changes nothing. *)
Theorem pq_pop_elements malloc q l :
  pq_repr q l ->
  match l with
  | [] => SilogPQueuePop malloc (Some q) true = Some (SILOG_TRANS_QUEUE_EMPTY, Some q, None)
  | m :: _ => exists q' l', SilogPQueuePop malloc (Some q) true = Some (SILOG_OK, Some q', Some m) /\
                same_params q q' /\ pq_repr q' l' /\ m :: l' ≡ₚ l
  end.
Proof. apply pq_pop_cases. Qed.

Lemma pq_pop_elements_witness :
  exists q' l', SilogPQueuePop false (Some pq_example) true = Some (SILOG_OK, Some q', Some [9]) /\
    same_params pq_example q' /\ pq_repr q' l' /\ [9] :: l' ≡ₚ [[9]; [5]; [7]].
Proof. apply (pq_pop_elements false pq_example [[9]; [5]; [7]]). apply pq_example_repr. Defined.

(** The list left by a pop of a heap, as computed by the code. *)
Definition popped_heap (cmp : CompareFunc) (m : list Z) (l : list (list Z)) : list (list Z) :=
  if decide (l = []) then [] else
  let e := default [] (last l) in
  let l1 := <[0%nat := e]> (take (length l) (m :: l)) in
  if decide (promoted cmp l1 = 0%nat) then l1
  else <[promoted cmp l1 := e]> (<[0%nat := default [] (l1 !! promoted cmp l1)]> l1).

(** pop of a heap moves the last element to the root and lets it sink by one
    level only: it is exchanged at most once, with the larger child of the root,
    however deep the heap is. *)
Theorem pq_pop_sinks_once q m l :
  TotalCmp (pq_compare q) -> pq_repr q (m :: l) -> heap (pq_compare q) (m :: l) ->
  exists q', SilogPQueuePop true (Some q) true = Some (SILOG_OK, Some q', Some m) /\
             pq_repr q' (popped_heap (pq_compare q) m l).
Proof.
  intros Hc Hr Hh. destruct (pq_pop_refines true q m l Hr) as (q' & Hq & _ & Hr').
  exists q'. simpl SilogPQueuePop. rewrite Hq. bind_some. split; [done|].
  unfold popped_heap. case_decide as Hnil; [done|]. cbv zeta.
  set (l1 := <[0%nat := default [] (last l)]> (take (length l) (m :: l))) in *.
  assert (0 < length l)%nat as Hl by (destruct l; [done|simpl; lia]).
  assert (length l1 = length l) as Hl1.
  { unfold l1. rewrite length_insert, length_take. simpl. lia. }
  unfold sift_down_l in Hr'. rewrite (down_l_one_move (pq_compare q)) in Hr'; [| |lia|lia].
  - assert (l1 !! 0%nat = Some (default [] (last l))) as H0.
    { apply list_lookup_insert_eq. rewrite length_take. simpl. lia. }
    rewrite H0 in Hr'. simpl default in Hr'. case_decide; simpl in Hr'; [|done].
    by rewrite list_insert_id in Hr'.
  - intros j Hj Hp x y Hx Hy. unfold l1 in Hx, Hy.
    rewrite list_lookup_insert_ne in Hx, Hy by lia.
    apply lookup_take_Some in Hx as [Hx _], Hy as [Hy _]. by apply (Hh j).
Qed.

Lemma pq_pop_sinks_once_witness :
  exists q', SilogPQueuePop true (Some pq_example) true = Some (SILOG_OK, Some q', Some [9]) /\
             pq_repr q' [[7]; [5]].
Proof.
  apply (pq_pop_sinks_once pq_example [9] [[5]; [7]]).
  - apply byte_cmp_total.
  - apply pq_example_repr.
  - apply pq_example_heap.
Defined.

(** Push the given one-byte elements, then pop them all. *)
Fixpoint push_all (es : list Z) (q : SiLogPQueue) : option SiLogPQueue :=
  match es with
  | [] => Some q
  | e :: es => '(_, q) ← pq_push true q [e]; push_all es q
  end.
Fixpoint pop_all (n : nat) (q : SiLogPQueue) : option (list (list Z)) :=
  match n with
  | O => Some []
  | S n => '(_, q, out) ← pq_pop true q; rest ← pop_all n q; Some (default [] out :: rest)
  end.

(** as a consequence the order of pops is wrong from six elements on:
    pushing 4, 5, 1, 6, 2, 3 and popping everything returns 3 before 4. *)
Theorem pq_pop_out_of_order :
  (q ← push_all [4; 5; 1; 6; 2; 3] (MkPQ (Some (replicate 8 0)) 1 8 0 byte_cmp); pop_all 6 q)
  = Some [[6]; [5]; [3]; [4]; [2]; [1]].
Proof. vm_compute. reflexivity. Qed.
