(* ===== verification/RemoteCodec.v ===== *)
(** * The wire format of log entries (silog_comm/src/silog_remote.c)

    [SilogRemoteSerializeEntry] and [SilogRemoteDeserializeEntry]: a record of
    377 bytes, the numbers in big-endian order, the arrays copied. *)

From S2P Require Import Prelude Errors CObj LogEntry.
#[local] Open Scope Z_scope.

Definition SILOG_REMOTE_TS_SIZE : Z := 8.
Definition SILOG_REMOTE_PID_SIZE : Z := 8.
Definition SILOG_REMOTE_TID_SIZE : Z := 4.
Definition SILOG_REMOTE_LEVEL_SIZE : Z := 1.
Definition SILOG_REMOTE_LINE_SIZE : Z := 4.
Definition SILOG_REMOTE_ENTRY_SIZE : Z :=
  SILOG_REMOTE_TS_SIZE + SILOG_REMOTE_PID_SIZE + SILOG_REMOTE_TID_SIZE +
  SILOG_REMOTE_LEVEL_SIZE + SILOG_REMOTE_LINE_SIZE +
  SILOG_TAG_MAX_LEN + SILOG_FILE_MAX_LEN + SILOG_MSG_MAX_LEN.

(** [(uint8_t)((x >> k) & 0xFF)]. *)
Definition byte_at (x k : Z) : Z := u8 (Z.land (Z.shiftr x k) 255).

(** The eight and four [buf[offset++] = ...] of a field. *)
Definition be64 (x : Z) : list Z :=
  [byte_at x 56; byte_at x 48; byte_at x 40; byte_at x 32;
   byte_at x 24; byte_at x 16; byte_at x 8; byte_at x 0].
Definition be32 (x : Z) : list Z := [byte_at x 24; byte_at x 16; byte_at x 8; byte_at x 0].

(** [SilogRemoteSerializeEntry]: [buf] is the output buffer ([None] for a null
    pointer), [hasOut] tells whether [outLen] is not null. The result is the
    buffer and what is stored to [outLen], if anything; [None] overall where the
    C code would write outside the buffer. *)
Definition SilogRemoteSerializeEntry (entry : logEntry_t) (buf : option (list Z)) (bufSize : Z)
    (hasOut : bool) : option (option (list Z) * option Z) :=
  match buf with
  | None => Some (None, None)
  | Some b =>
    if negb hasOut || (bufSize <? SILOG_REMOTE_ENTRY_SIZE) then Some (Some b, None)
    else
      let offset := 0 in
      b ← wr b offset (be64 (ts entry));
      let offset := offset + 8 in
      b ← wr b offset (be64 (u64 (pid entry)));
      let offset := offset + 8 in
      b ← wr b offset (be32 (u32 (tid entry)));
      let offset := offset + 4 in
      b ← wr b offset [u8 (level entry)];
      let offset := offset + 1 in
      b ← wr b offset (be32 (line entry));
      let offset := offset + 4 in
      b ← (obj_memcpy_s b offset (bufSize - offset) (tag entry) SILOG_TAG_MAX_LEN).2;
      let offset := offset + SILOG_TAG_MAX_LEN in
      b ← (obj_memcpy_s b offset (bufSize - offset) (file entry) SILOG_FILE_MAX_LEN).2;
      let offset := offset + SILOG_FILE_MAX_LEN in
      b ← (obj_memcpy_s b offset (bufSize - offset) (msg entry) SILOG_MSG_MAX_LEN).2;
      let offset := offset + SILOG_MSG_MAX_LEN in
      Some (Some b, Some offset)
  end.

(** The expression assigned to [entry->ts], as it is written. *)
Definition decode_ts (b0 b1 b2 b3 b4 b5 b6 b7 : Z) : Z :=
  Z.lor (Z.lor (Z.lor (Z.lor (Z.lor (Z.lor (Z.lor
    (u64 (Z.shiftl b0 56)) (Z.shiftr (u64 (Z.shiftl b1 56)) 8))
    (u64 (Z.shiftl b2 48))) (Z.shiftr (u64 (Z.shiftl b3 48)) 8))
    (u64 (Z.shiftl b4 40))) (Z.shiftr (u64 (Z.shiftl b5 40)) 8))
    (u64 (Z.shiftl b6 32))) b7.

Definition decode_u64 (b0 b1 b2 b3 b4 b5 b6 b7 : Z) : Z :=
  Z.lor (Z.lor (Z.lor (Z.lor (Z.lor (Z.lor (Z.lor
    (u64 (Z.shiftl b0 56)) (u64 (Z.shiftl b1 48))) (u64 (Z.shiftl b2 40)))
    (u64 (Z.shiftl b3 32))) (u64 (Z.shiftl b4 24))) (u64 (Z.shiftl b5 16)))
    (u64 (Z.shiftl b6 8))) b7.

Definition decode_u32 (b0 b1 b2 b3 : Z) : Z :=
  Z.lor (Z.lor (Z.lor (u32 (Z.shiftl b0 24)) (u32 (Z.shiftl b1 16))) (u32 (Z.shiftl b2 8))) b3.

(** The shifts of [int32_t] for the line number, with two's complement results. *)
Definition decode_i32 (b0 b1 b2 b3 : Z) : Z :=
  Z.lor (Z.lor (Z.lor (i32 (Z.shiftl b0 24)) (i32 (Z.shiftl b1 16))) (i32 (Z.shiftl b2 8))) b3.

(** [memcpy_s(dst, sizeof(dst), &buf[offset], n)] and [dst[n - 1] = '\0'], for an
    array [dst] of the entry. *)
Definition copy_array (n : Z) (dst b : list Z) (offset : Z) : option (list Z) :=
  src ← rd b offset n;
  d ← (obj_memcpy_s dst 0 n src n).2;
  wr d (n - 1) [0].

(** [SilogRemoteDeserializeEntry] on a buffer object of [bufSize] bytes; the
    entry is [None] when the output pointer is null. *)
Definition SilogRemoteDeserializeEntry (buf : option (list Z)) (bufSize : Z)
    (entry : option logEntry_t) : option (ErrorCode * option logEntry_t) :=
  match buf, entry with
  | Some b, Some e =>
    if bufSize <? SILOG_REMOTE_ENTRY_SIZE then Some (SILOG_INVALID_ARG, entry)
    else
      let offset := 0 in
      tsb ← rd b offset 8;
      let offset := offset + SILOG_REMOTE_TS_SIZE in
      pidb ← rd b offset 8;
      let offset := offset + SILOG_REMOTE_PID_SIZE in
      tidb ← rd b offset 4;
      let offset := offset + SILOG_REMOTE_TID_SIZE in
      lvb ← rd b offset 1;
      let offset := offset + SILOG_REMOTE_LEVEL_SIZE in
      lnb ← rd b offset 4;
      let offset := offset + SILOG_REMOTE_LINE_SIZE in
      t ← copy_array SILOG_TAG_MAX_LEN (tag e) b offset;
      let offset := offset + SILOG_TAG_MAX_LEN in
      f ← copy_array SILOG_FILE_MAX_LEN (file e) b offset;
      let offset := offset + SILOG_FILE_MAX_LEN in
      m ← copy_array SILOG_MSG_MAX_LEN (msg e) b offset;
      match tsb, pidb, tidb, lvb, lnb with
      | [t0; t1; t2; t3; t4; t5; t6; t7], [p0; p1; p2; p3; p4; p5; p6; p7],
        [i0; i1; i2; i3], [lv], [n0; n1; n2; n3] =>
          Some (SILOG_OK, Some (MkEntry
            (decode_ts t0 t1 t2 t3 t4 t5 t6 t7)
            (i32 (decode_u64 p0 p1 p2 p3 p4 p5 p6 p7))
            (i32 (decode_u32 i0 i1 i2 i3))
            lv t f (u32 (decode_i32 n0 n1 n2 n3)) m
            (u16 (len (cstr m))) 1))
      | _, _, _, _, _ => None
      end
  | _, _ => Some (SILOG_NULL_PTR, entry)
  end.

(** ** The bytes of a number *)

Lemma byte_at_val x k : 0 <= k -> byte_at x k = (x / 2 ^ k) mod 256.
Proof.
  intros Hk. unfold byte_at, u8. rewrite Z.shiftr_div_pow2 by done.
  change 255 with (Z.ones 8). rewrite Z.land_ones by lia. apply Z.mod_mod; lia.
Qed.

Lemma byte_at_range x k : is_u8 (byte_at x k).
Proof. apply u8_range. Qed.

(** Joining a byte to the right of a number already shifted. *)
Lemma lor_shift_byte a b m n :
  m = n + 8 -> 0 <= b < 256 -> 0 <= n ->
  Z.lor (Z.shiftl a m) (Z.shiftl b n) = Z.shiftl (a * 256 + b) n.
Proof.
  intros -> Hb Hn. rewrite Z.add_comm, <- (Z.shiftl_shiftl a 8 n), <- Z.shiftl_lor by lia. f_equal.
  rewrite Z.shiftl_mul_pow2 by lia. change (2 ^ 8) with 256.
  assert (Z.land (a * 256) b = 0) as Hd.
  { apply Z.bits_inj'. intros i Hi. rewrite Z.land_spec, Z.bits_0. change 256 with (2 ^ 8).
    destruct (Z.lt_ge_cases i 8); [by rewrite Z.mul_pow2_bits_low by lia|].
    rewrite <- (Z.mod_small b (2 ^ 8)) by lia. rewrite Z.mod_pow2_bits_high by lia.
    apply andb_false_r. }
  rewrite Z.add_nocarry_lxor, Z.lxor_lor by done. done.
Qed.

Lemma u64_shift_byte b n : 0 <= b < 256 -> 0 <= n <= 56 -> u64 (Z.shiftl b n) = Z.shiftl b n.
Proof.
  intros Hb Hn. apply u64_small. unfold is_u64. rewrite Z.shiftl_mul_pow2 by lia.
  pose proof (Z.pow_le_mono_r 2 n 56 ltac:(lia) ltac:(lia)).
  pose proof (Z.pow_pos_nonneg 2 n ltac:(lia) ltac:(lia)). nia.
Qed.

Lemma u32_shift_byte b n : 0 <= b < 256 -> 0 <= n <= 24 -> u32 (Z.shiftl b n) = Z.shiftl b n.
Proof.
  intros Hb Hn. apply u32_small. unfold is_u32. rewrite Z.shiftl_mul_pow2 by lia.
  pose proof (Z.pow_le_mono_r 2 n 24 ltac:(lia) ltac:(lia)).
  pose proof (Z.pow_pos_nonneg 2 n ltac:(lia) ltac:(lia)). nia.
Qed.

(** Big-endian value of a list of bytes, most significant first. *)
Definition be_val (l : list Z) : Z := foldl (fun v b => v * 256 + b) 0 l.

Ltac byte_hyps :=
  repeat match goal with
  | H : Forall is_u8 (_ :: _) |- _ => apply Forall_cons in H as [? H]
  end; unfold is_u8 in *; change (2 ^ 8) with 256 in *.

Lemma decode_u64_val b0 b1 b2 b3 b4 b5 b6 b7 :
  Forall is_u8 [b0; b1; b2; b3; b4; b5; b6; b7] ->
  decode_u64 b0 b1 b2 b3 b4 b5 b6 b7 = be_val [b0; b1; b2; b3; b4; b5; b6; b7].
Proof.
  intros H. byte_hyps. unfold decode_u64. rewrite !u64_shift_byte by lia.
  rewrite <- (Z.shiftl_0_r b7).
  rewrite (lor_shift_byte b0 b1 56 48), (lor_shift_byte _ b2 48 40), (lor_shift_byte _ b3 40 32),
    (lor_shift_byte _ b4 32 24), (lor_shift_byte _ b5 24 16), (lor_shift_byte _ b6 16 8),
    (lor_shift_byte _ b7 8 0) by lia.
  rewrite !Z.shiftl_0_r. done.
Qed.

Lemma decode_u32_val b0 b1 b2 b3 :
  Forall is_u8 [b0; b1; b2; b3] -> decode_u32 b0 b1 b2 b3 = be_val [b0; b1; b2; b3].
Proof.
  intros H. byte_hyps. unfold decode_u32. rewrite !u32_shift_byte by lia.
  rewrite <- (Z.shiftl_0_r b3).
  rewrite (lor_shift_byte b0 b1 24 16), (lor_shift_byte _ b2 16 8), (lor_shift_byte _ b3 8 0) by lia.
  rewrite !Z.shiftl_0_r. done.
Qed.

Lemma decode_i32_val b0 b1 b2 b3 :
  Forall is_u8 [b0; b1; b2; b3] -> u32 (decode_i32 b0 b1 b2 b3) = be_val [b0; b1; b2; b3].
Proof.
  intros H. byte_hyps. unfold decode_i32.
  set (s := if b0 <? 128 then b0 else b0 - 256).
  assert (i32 (Z.shiftl b0 24) = Z.shiftl s 24) as ->.
  { rewrite !Z.shiftl_mul_pow2 by lia. unfold i32, s. case_if.
    - rewrite Z.mod_small; lia.
    - rewrite <- (Z.mod_add _ (-1)), Z.mod_small; lia. }
  rewrite (i32_small (Z.shiftl b1 16)), (i32_small (Z.shiftl b2 8))
    by (unfold is_i32; rewrite Z.shiftl_mul_pow2 by lia; lia).
  rewrite <- (Z.shiftl_0_r b3).
  rewrite (lor_shift_byte s b1 24 16), (lor_shift_byte _ b2 16 8), (lor_shift_byte _ b3 8 0) by lia.
  rewrite !Z.shiftl_0_r. unfold be_val, u32, s. cbn [foldl]. case_if.
  - rewrite Z.mod_small; lia.
  - rewrite <- (Z.mod_add _ 1), Z.mod_small; lia.
Qed.

Lemma be_val_snoc l b : be_val (l ++ [b]) = be_val l * 256 + b.
Proof. unfold be_val. by rewrite foldl_app. Qed.

(** The digits of a number recombine to it, modulo the width. *)
Lemma be32_val x : be_val (be32 x) = u32 x.
Proof.
  unfold be32, be_val, u32. simpl foldl. rewrite !byte_at_val by lia.
  change (2 ^ 0) with 1. rewrite Z.div_1_r.
  replace (2 ^ 24) with (2 ^ 8 * 2 ^ 8 * 2 ^ 8) by done. replace (2 ^ 16) with (2 ^ 8 * 2 ^ 8) by done.
  rewrite <- !Z.div_div by lia. change (2 ^ 8) with 256. change (2 ^ 32) with 4294967296.
  Z.to_euclidean_division_equations. lia.
Qed.

Lemma be64_val x : be_val (be64 x) = u64 x.
Proof.
  assert (be_val (be64 x) = be_val (be32 (x / 2 ^ 32)) * 2 ^ 32 + be_val (be32 x)) as ->.
  { unfold be64, be32, be_val. cbn [foldl]. rewrite !byte_at_val by lia.
    rewrite !Z.div_div, <- !Z.pow_add_r by lia. 
    change (32 + 24) with 56. change (32 + 16) with 48. change (32 + 8) with 40.
    change (32 + 0) with 32. ring. }
  rewrite !be32_val. unfold u32, u64.
  replace (2 ^ 64) with (2 ^ 32 * 2 ^ 32) by done. rewrite Z.rem_mul_r by lia. lia.
Qed.

Lemma be32_bytes x : Forall is_u8 (be32 x).
Proof. repeat constructor; apply byte_at_range. Qed.
Lemma be64_bytes x : Forall is_u8 (be64 x).
Proof. repeat constructor; apply byte_at_range. Qed.

Lemma lor_byte x y : 0 <= x < 256 -> 0 <= y < 256 -> 0 <= Z.lor x y < 256.
Proof.
  intros Hx Hy. replace (Z.lor x y) with (Z.lor x y mod 2 ^ 8); [apply Z.mod_pos_bound; lia|].
  rewrite <- Z.land_ones, Z.land_lor_distr_l, !Z.land_ones, !Z.mod_small by lia. done.
Qed.

(** What the decoder makes of the eight bytes of a timestamp. *)
Lemma decode_ts_val b0 b1 b2 b3 b4 b5 b6 b7 :
  Forall is_u8 [b0; b1; b2; b3; b4; b5; b6; b7] ->
  decode_ts b0 b1 b2 b3 b4 b5 b6 b7 =
  be_val [b0; Z.lor b1 b2; Z.lor b3 b4; Z.lor b5 b6; 0; 0; 0; b7].
Proof.
  intros H. byte_hyps. unfold decode_ts. rewrite !u64_shift_byte by lia.
  rewrite !Z.shiftr_shiftl_l by lia. simpl Z.sub.
  rewrite <- !Z.lor_assoc.
  rewrite (Z.lor_assoc (Z.shiftl b1 48)), (Z.lor_assoc (Z.shiftl b3 40)),
    (Z.lor_assoc (Z.shiftl b5 32)), <- !Z.shiftl_lor, !Z.lor_assoc.
  rewrite (lor_shift_byte b0 _ 56 48), (lor_shift_byte _ _ 48 40), (lor_shift_byte _ _ 40 32)
    by (try lia; apply lor_byte; lia).
  pose proof (lor_byte b1 b2 ltac:(lia) ltac:(lia)). pose proof (lor_byte b3 b4 ltac:(lia) ltac:(lia)).
  pose proof (lor_byte b5 b6 ltac:(lia) ltac:(lia)).
  set (v := ((b0 * 256 + Z.lor b1 b2) * 256 + Z.lor b3 b4) * 256 + Z.lor b5 b6).
  replace (Z.shiftl v 32) with (Z.shiftl (v * 2 ^ 24) 8)
    by (rewrite !Z.shiftl_mul_pow2 by lia; lia).
  rewrite <- (Z.shiftl_0_r b7) at 1. rewrite (lor_shift_byte _ _ 8 0) by lia.
  rewrite Z.shiftl_0_r. unfold be_val, v. simpl foldl. lia.
Qed.

(** ** The wire image of an entry *)

Definition wire (e : logEntry_t) : list Z :=
  be64 (ts e) ++ be64 (u64 (pid e)) ++ be32 (u32 (tid e)) ++ [u8 (level e)] ++ be32 (line e) ++
  tag e ++ file e ++ msg e.

(** Successive writes that fill a buffer from its start. *)
Lemma wr_next p q d o :
  o = len p -> (length d <= length q)%nat ->
  wr (p ++ q) o d = Some ((p ++ d) ++ drop (length d) q).
Proof.
  intros -> Hd. rewrite wr_Some by (rewrite ?length_app; lia). f_equal.
  rewrite Nat2Z.id, take_app_length, <- (assoc_L (++)). do 2 f_equal.
  rewrite drop_app_ge by lia. f_equal. lia.
Qed.

Lemma rd_field b p d q o n : b = p ++ d ++ q -> o = len p -> n = len d -> rd b o n = Some d.
Proof.
  intros -> -> ->. rewrite rd_Some by (rewrite ?length_app; lia).
  by rewrite !Nat2Z.id, drop_app_length, take_app_length.
Qed.

Lemma entry_lengths e :
  entry_typed e ->
  length (tag e) = 32%nat /\ length (file e) = 64%nat /\ length (msg e) = 256%nat.
Proof.
  intros []. unfold bytes_of, SILOG_TAG_MAX_LEN, SILOG_FILE_MAX_LEN, SILOG_MSG_MAX_LEN in *. lia.
Qed.

Lemma wire_length e : entry_typed e -> len (wire e) = SILOG_REMOTE_ENTRY_SIZE.
Proof.
  intros (?&?&?)%entry_lengths. unfold wire. rewrite !length_app.
  change SILOG_REMOTE_ENTRY_SIZE with 377. simpl length. lia.
Qed.

Lemma wire_bytes e : entry_typed e -> Forall is_u8 (wire e).
Proof.
  intros [_ _ _ _ [_ Ht] [_ Hf] _ [_ Hm] _ _]. unfold wire.
  do 2 (apply Forall_app; split; [apply be64_bytes|]). apply Forall_app; split; [apply be32_bytes|].
  apply Forall_app; split; [apply Forall_singleton, u8_range|].
  apply Forall_app; split; [apply be32_bytes|]. do 2 (apply Forall_app; split; [done|]). done.
Qed.

(** [memcpy_s(&buf[offset], bufSize - offset, src, n)] in the middle of a buffer. *)
Lemma obj_memcpy_next p q src n o m :
  o = len p -> 0 < n -> n = len src -> n <= m -> n <= len q ->
  (obj_memcpy_s (p ++ q) o m src n).2 = Some ((p ++ src) ++ drop (length src) q).
Proof.
  intros Ho Hn Hs Hm Hq. unfold obj_memcpy_s. ztest. cbn [snd].
  rewrite Hs, rd_all. cbn. apply wr_next; [done|lia].
Qed.

Lemma serialize_spec e b :
  entry_typed e -> SILOG_REMOTE_ENTRY_SIZE <= len b ->
  SilogRemoteSerializeEntry e (Some b) (len b) true =
  Some (Some (wire e ++ drop (Z.to_nat SILOG_REMOTE_ENTRY_SIZE) b), Some SILOG_REMOTE_ENTRY_SIZE).
Proof.
  intros He Hb. destruct (entry_lengths e He) as (Ht & Hf & Hm).
  change SILOG_REMOTE_ENTRY_SIZE with 377 in *. unfold SilogRemoteSerializeEntry.
  change SILOG_REMOTE_ENTRY_SIZE with 377.
  change SILOG_TAG_MAX_LEN with 32. change SILOG_FILE_MAX_LEN with 64.
  change SILOG_MSG_MAX_LEN with 256. cbn [negb orb]. ztest. cbn zeta.
  change (wr b 0) with (wr ([] ++ b) 0).
  do 5 (rewrite wr_next; [bind_some|rewrite ?length_app; simpl length; lia
                         |rewrite ?length_drop; simpl length; lia]).
  do 3 (rewrite obj_memcpy_next;
        [bind_some|rewrite ?length_app; simpl length; lia|lia|lia|lia
        |rewrite ?length_drop; simpl length; lia]).
  rewrite !drop_drop, Ht, Hf, Hm. unfold wire. rewrite app_nil_l, <- !(assoc_L (++)). done.
Qed.

(** ** Decoding *)

(** What the receiver sees as the time stamp. *)
Definition ts_received (t : Z) : Z :=
  let b k := byte_at t k in
  be_val [b 56; Z.lor (b 48) (b 40); Z.lor (b 32) (b 24); Z.lor (b 16) (b 8); 0; 0; 0; b 0].

(** An array with its last byte set to NUL. *)
Definition terminated (l : list Z) : list Z := take (length l - 1) l ++ [0].

(** The entry that arrives when [e] is sent. *)
Definition received (e : logEntry_t) : logEntry_t :=
  MkEntry (ts_received (ts e)) (pid e) (tid e) (level e mod 256)
    (terminated (tag e)) (terminated (file e)) (line e) (terminated (msg e))
    (len (cstr (terminated (msg e)))) 1.

Lemma copy_array_field b p d q n o dst :
  b = p ++ d ++ q -> o = len p -> 0 < n -> n = len d -> n = len dst ->
  copy_array n dst b o = Some (terminated d).
Proof.
  intros Hb Ho Hn Hd Hdst. unfold copy_array. rewrite (rd_field b p d q) by done. bind_some.
  rewrite obj_memcpy_s_full by done. rewrite wr_Some by lia. bind_some.
  rewrite (drop_ge dst), app_nil_r, take_0 by (simpl; lia). simpl app.
  rewrite wr_Some by (simpl length; lia). f_equal. unfold terminated.
  rewrite (drop_ge d) by (simpl; lia). replace (Z.to_nat (n - 1)) with (length d - 1)%nat by lia.
  done.
Qed.

Lemma terminated_length l : (0 < length l)%nat -> length (terminated l) = length l.
Proof. intros. unfold terminated. rewrite length_app, length_take. simpl. lia. Qed.

Lemma terminated_nul l : has_nul (terminated l) = true.
Proof. apply has_nul_spec. unfold terminated. set_solver. Qed.

Lemma terminated_bytes l : Forall is_u8 l -> Forall is_u8 (terminated l).
Proof.
  intros. apply Forall_app. split; [by apply Forall_take|]. repeat constructor; unfold is_u8; lia.
Qed.

Lemma terminated_id l : last l = Some 0 -> terminated l = l.
Proof.
  intros H. apply last_Some in H as [l' ->]. unfold terminated.
  rewrite length_app. simpl. by rewrite Nat.add_sub, take_app_length.
Qed.

(** Decoding any buffer that starts with the given fields. *)
Lemma deserialize_fields t0 t1 t2 t3 t4 t5 t6 t7 p0 p1 p2 p3 p4 p5 p6 p7 i0 i1 i2 i3 lv
    n0 n1 n2 n3 T F M q size e0 :
  entry_typed e0 -> length T = 32%nat -> length F = 64%nat -> length M = 256%nat ->
  SILOG_REMOTE_ENTRY_SIZE <= size ->
  SilogRemoteDeserializeEntry
    (Some ([t0; t1; t2; t3; t4; t5; t6; t7] ++ [p0; p1; p2; p3; p4; p5; p6; p7] ++ [i0; i1; i2; i3]
           ++ [lv] ++ [n0; n1; n2; n3] ++ T ++ F ++ M ++ q)) size (Some e0) =
  Some (SILOG_OK, Some (MkEntry (decode_ts t0 t1 t2 t3 t4 t5 t6 t7)
    (i32 (decode_u64 p0 p1 p2 p3 p4 p5 p6 p7)) (i32 (decode_u32 i0 i1 i2 i3)) lv
    (terminated T) (terminated F) (u32 (decode_i32 n0 n1 n2 n3)) (terminated M)
    (u16 (len (cstr (terminated M)))) 1)).
Proof.
  intros He HT HF HM Hs. destruct (entry_lengths e0 He) as (Ht & Hf & Hm).
  unfold SilogRemoteDeserializeEntry. change SILOG_REMOTE_ENTRY_SIZE with 377 in *. ztest. cbn zeta.
  change SILOG_REMOTE_TS_SIZE with 8. change SILOG_REMOTE_PID_SIZE with 8.
  change SILOG_REMOTE_TID_SIZE with 4. change SILOG_REMOTE_LEVEL_SIZE with 1.
  change SILOG_REMOTE_LINE_SIZE with 4. change SILOG_TAG_MAX_LEN with 32.
  change SILOG_FILE_MAX_LEN with 64. change SILOG_MSG_MAX_LEN with 256.
  set (B := _ ++ _).
  rewrite (rd_field B [] [t0; t1; t2; t3; t4; t5; t6; t7] _ 0 8 eq_refl) by done. bind_some.
  rewrite (rd_field B [_; _; _; _; _; _; _; _] [p0; p1; p2; p3; p4; p5; p6; p7] _ _ 8 eq_refl)
    by done. bind_some.
  rewrite (rd_field B [_; _; _; _; _; _; _; _; _; _; _; _; _; _; _; _] [i0; i1; i2; i3] _
    (0 + 8 + 8) 4 eq_refl)
    by done. bind_some.
  rewrite (rd_field B [_; _; _; _; _; _; _; _; _; _; _; _; _; _; _; _; _; _; _; _] [lv] _ _ 1 eq_refl)
    by done. bind_some.
  set (H20 := [t0; t1; t2; t3; t4; t5; t6; t7; p0; p1; p2; p3; p4; p5; p6; p7; i0; i1; i2; i3; lv]).
  rewrite (rd_field B H20 [n0; n1; n2; n3] _ _ 4 eq_refl) by done. bind_some.
  set (H25 := H20 ++ [n0; n1; n2; n3]). assert (length H25 = 25%nat) by done.
  rewrite (copy_array_field B H25 T (F ++ M ++ q) 32 (0 + 8 + 8 + 4 + 1 + 4)) by (done || lia).
  bind_some.
  rewrite (copy_array_field B (H25 ++ T) F (M ++ q) 64 (0 + 8 + 8 + 4 + 1 + 4 + 32))
    by (rewrite ?length_app; first [lia | by rewrite <- (assoc_L (++))]). bind_some.
  rewrite (copy_array_field B (H25 ++ T ++ F) M q 256 (0 + 8 + 8 + 4 + 1 + 4 + 32 + 64))
    by (rewrite ?length_app; first [lia | by rewrite <- !(assoc_L (++))]). bind_some.
  done.
Qed.

Lemma decode_wire e q size e0 :
  entry_typed e -> entry_typed e0 -> SILOG_REMOTE_ENTRY_SIZE <= size ->
  SilogRemoteDeserializeEntry (Some (wire e ++ q)) size (Some e0) =
  Some (SILOG_OK, Some (received e)).
Proof.
  intros He He0 Hs. destruct (entry_lengths e He) as (Ht & Hf & Hm).
  unfold wire, be64, be32. rewrite <- !(assoc_L (++)).
  rewrite deserialize_fields by done. unfold received. do 2 f_equal. f_equal.
  rewrite decode_ts_val by apply (be64_bytes (ts e)).
  rewrite decode_u64_val by apply (be64_bytes (u64 (pid e))).
  rewrite decode_u32_val by apply (be32_bytes (u32 (tid e))).
  rewrite decode_i32_val by apply (be32_bytes (line e)).
  change (be_val _) with (be_val (be64 (u64 (pid e)))) at 2.
  change (be_val _) with (be_val (be32 (u32 (tid e)))) at 3.
  change (be_val _) with (be_val (be32 (line e))) at 4.
  rewrite be64_val, !be32_val.
  pose proof (cstr_length _ (terminated_nul (msg e))) as Hc.
  rewrite terminated_length in Hc by lia.
  f_equal.
  - rewrite !u64_small by apply u64_range. unfold i32, u64.
    rewrite Zplus_mod, Z.mod_mod_divide by (exists (2 ^ 32); done). rewrite <- Zplus_mod.
    apply i32_small, He.
  - unfold i32, u32. rewrite !Zmod_mod, Zplus_mod_idemp_l. apply i32_small, He.
  - apply u32_small, He.
  - apply u16_small. unfold is_u16. lia.
Qed.

(** Every buffer that is long enough has the layout of the format. *)
Lemma layout_exists b :
  SILOG_REMOTE_ENTRY_SIZE <= len b -> Forall is_u8 b ->
  exists hd T F M q, b = hd ++ T ++ F ++ M ++ q /\ length hd = 25%nat /\ length T = 32%nat /\
    length F = 64%nat /\ length M = 256%nat /\
    Forall is_u8 hd /\ Forall is_u8 T /\ Forall is_u8 F /\ Forall is_u8 M.
Proof.
  change SILOG_REMOTE_ENTRY_SIZE with 377. intros Hl Hb.
  exists (take 25 b), (take 32 (drop 25 b)), (take 64 (drop 57 b)), (take 256 (drop 121 b)), (drop 377 b).
  rewrite !length_take, !length_drop.
  repeat split; try lia; try (by repeat first [apply Forall_take | apply Forall_drop]).
  replace (drop 377 b) with (drop 256 (drop 121 b)) by (rewrite drop_drop; f_equal; lia).
  rewrite take_drop.
  replace (drop 121 b) with (drop 64 (drop 57 b)) by (rewrite drop_drop; f_equal; lia).
  rewrite take_drop.
  replace (drop 57 b) with (drop 32 (drop 25 b)) by (rewrite drop_drop; f_equal; lia).
  by rewrite !take_drop.
Qed.

(** A list of 25 elements, as the five number fields of the format. *)
Lemma header_fields (hd : list Z) :
  length hd = 25%nat ->
  exists t0 t1 t2 t3 t4 t5 t6 t7 p0 p1 p2 p3 p4 p5 p6 p7 i0 i1 i2 i3 lv n0 n1 n2 n3,
    hd = [t0; t1; t2; t3; t4; t5; t6; t7] ++ [p0; p1; p2; p3; p4; p5; p6; p7] ++ [i0; i1; i2; i3]
         ++ [lv] ++ [n0; n1; n2; n3].
Proof.
  intros H. do 25 (destruct hd as [|? hd]; [discriminate H|]).
  destruct hd; [|discriminate H]. repeat eexists.
Qed.

Lemma be_val_range l : Forall is_u8 l -> 0 <= be_val l < 256 ^ len l.
Proof.
  induction l as [|b l IH] using rev_ind; [done|]. rewrite Forall_app, Forall_singleton.
  intros [Hl Hb]. specialize (IH Hl). rewrite be_val_snoc, length_app. unfold is_u8 in Hb.
  replace (len l + 1) with (len l + 1) by done. rewrite Nat2Z.inj_add, Z.pow_add_r by lia.
  simpl (len [_]). lia.
Qed.

(** The bytes of a time stamp that survive. *)
Lemma ts_received_fix t :
  is_u64 t -> ts_received t = t <-> (t / 2 ^ 8) mod 2 ^ 40 = 0.
Proof.
  intros Ht. unfold ts_received. set (b := byte_at t).
  assert (forall k, 0 <= b k < 256) as Hr by (intros; apply byte_at_range).
  pose proof (lor_byte _ _ (Hr 48) (Hr 40)). pose proof (lor_byte _ _ (Hr 32) (Hr 24)).
  pose proof (lor_byte _ _ (Hr 16) (Hr 8)).
  pose proof (be64_val t) as Hv. rewrite (u64_small t Ht) in Hv. unfold be64 in Hv. fold b in Hv.
  assert ((t / 2 ^ 8) mod 2 ^ 40 =
          (((b 40 * 256 + b 32) * 256 + b 24) * 256 + b 16) * 256 + b 8) as ->.
  { rewrite <- Hv. unfold be_val. cbn [foldl]. pose proof Hr.
    pose proof (Hr 56). pose proof (Hr 48). pose proof (Hr 40). pose proof (Hr 32).
    pose proof (Hr 24). pose proof (Hr 16). pose proof (Hr 8). pose proof (Hr 0).
    change (2 ^ 8) with 256. change (2 ^ 40) with 1099511627776.
    rewrite Z.div_add_l, (Z.div_small (b 0)) by lia.
    symmetry. apply (Z.mod_unique_pos _ _ (b 56 * 256 + b 48)); lia. }
  rewrite <- Hv. unfold be_val. cbn [foldl].
  pose proof (Hr 56). pose proof (Hr 48). pose proof (Hr 40). pose proof (Hr 32).
  pose proof (Hr 24). pose proof (Hr 16). pose proof (Hr 8). pose proof (Hr 0).
  split.
  - intros He. assert (b 24 = 0 /\ b 16 = 0 /\ b 8 = 0) as (Z24 & Z16 & Z8) by lia.
    rewrite Z24, Z16, Z8, !Z.lor_0_r in He. lia.
  - intros He. assert (b 40 = 0) as -> by lia. assert (b 32 = 0) as -> by lia.
    assert (b 24 = 0) as -> by lia. assert (b 16 = 0) as -> by lia. assert (b 8 = 0) as -> by lia.
    rewrite !Z.lor_0_r. lia.
Qed.

Lemma be_val_u64 a b c d e f g h :
  Forall is_u8 [a; b; c; d; e; f; g; h] -> is_u64 (be_val [a; b; c; d; e; f; g; h]).
Proof. intros H. apply be_val_range in H. exact H. Qed.

Lemma decode_ts_u64 b0 b1 b2 b3 b4 b5 b6 b7 :
  Forall is_u8 [b0; b1; b2; b3; b4; b5; b6; b7] -> is_u64 (decode_ts b0 b1 b2 b3 b4 b5 b6 b7).
Proof.
  intros H. rewrite decode_ts_val by done. byte_hyps. apply be_val_u64.
  repeat constructor; try apply lor_byte; unfold is_u8; lia.
Qed.

Lemma terminated_array n l : 0 < n -> len l = n -> Forall is_u8 l -> bytes_of n (terminated l).
Proof.
  intros ???. split; [rewrite terminated_length by lia; done | by apply terminated_bytes].
Qed.

(** Every decoded entry is a well-typed object. *)
Lemma decoded_typed t0 t1 t2 t3 t4 t5 t6 t7 r p i lv n T F M :
  length T = 32%nat -> length F = 64%nat -> length M = 256%nat ->
  Forall is_u8 ([t0; t1; t2; t3; t4; t5; t6; t7] ++ r) -> lv ∈ r ->
  Forall is_u8 T -> Forall is_u8 F -> Forall is_u8 M ->
  entry_typed (MkEntry (decode_ts t0 t1 t2 t3 t4 t5 t6 t7) (i32 p) (i32 i) lv (terminated T)
    (terminated F) (u32 n) (terminated M) (u16 (len (cstr (terminated M)))) 1).
Proof.
  intros HT HF HM [Bt Br]%Forall_app Hlv BT BF BM.
  pose proof (proj1 (Forall_forall _ _) Br _ Hlv) as Bl. unfold is_u8 in Bl.
  split; cbn [ts pid tid level tag file line msg msgLen enabled].
  - by apply decode_ts_u64.
  - apply i32_range.
  - apply i32_range.
  - unfold is_u32; lia.
  - apply terminated_array; unfold SILOG_TAG_MAX_LEN; [lia|lia|done].
  - apply terminated_array; unfold SILOG_FILE_MAX_LEN; [lia|lia|done].
  - apply u32_range.
  - apply terminated_array; unfold SILOG_MSG_MAX_LEN; [lia|lia|done].
  - apply u16_range.
  - unfold is_u8; lia.
Qed.

(** What a decoded entry satisfies, wherever its bytes come from. *)
Definition entry_sane (e : logEntry_t) : Prop :=
  entry_typed e /\ has_nul (tag e) = true /\ has_nul (file e) = true /\ has_nul (msg e) = true /\
  msgLen e = len (cstr (msg e)) /\ msgLen e < SILOG_MSG_MAX_LEN.

Lemma deserialize_ok b size e0 :
  SILOG_REMOTE_ENTRY_SIZE <= size <= len b -> Forall is_u8 b -> entry_typed e0 ->
  exists e, SilogRemoteDeserializeEntry (Some b) size (Some e0) = Some (SILOG_OK, Some e) /\
    entry_sane e.
Proof.
  intros Hs Hb He0. destruct (layout_exists b) as (hd & T & F & M & q & -> & Hhd & HT & HF & HM & Bh & BT & BF & BM);
    [lia|done|].
  destruct (header_fields hd Hhd)
    as (t0&t1&t2&t3&t4&t5&t6&t7&p0&p1&p2&p3&p4&p5&p6&p7&i0&i1&i2&i3&lv&n0&n1&n2&n3&->).
  rewrite <- !(assoc_L (++)), deserialize_fields by (done || lia). eexists. split; [done|].
  unfold entry_sane. cbn [tag file msg msgLen]. rewrite !terminated_nul.
  pose proof (cstr_length _ (terminated_nul M)) as Hc. rewrite terminated_length in Hc by lia.
  split; [eapply (decoded_typed _ _ _ _ _ _ _ _ _ _ _ _ _ _ _ _ HT HF HM Bh); [set_solver|done..]|].
  rewrite u16_small by (unfold is_u16; lia). change SILOG_MSG_MAX_LEN with 256. lia.
Qed.

(** ** Properties *)

(** C13: An entry written by the sender and read by the receiver arrives with its
    process and thread numbers and its line unchanged, its level modulo 256, its
    three strings with the last byte of their arrays set to NUL, and [msgLen] the
    length of the message; the sender reports 377 bytes and writes no byte
    beyond them. *)
Theorem codec_roundtrip e e0 b :
  entry_typed e -> entry_typed e0 -> SILOG_REMOTE_ENTRY_SIZE <= len b ->
  exists b',
    SilogRemoteSerializeEntry e (Some b) (len b) true = Some (Some b', Some SILOG_REMOTE_ENTRY_SIZE) /\
    drop (Z.to_nat SILOG_REMOTE_ENTRY_SIZE) b' = drop (Z.to_nat SILOG_REMOTE_ENTRY_SIZE) b /\
    exists e', SilogRemoteDeserializeEntry (Some b') (len b) (Some e0) = Some (SILOG_OK, Some e') /\
      pid e' = pid e /\ tid e' = tid e /\ line e' = line e /\ level e' = level e mod 256 /\
      tag e' = terminated (tag e) /\ file e' = terminated (file e) /\ msg e' = terminated (msg e) /\
      msgLen e' = len (cstr (msg e')) /\ enabled e' = 1.
Proof.
  intros He He0 Hb. rewrite serialize_spec by done. eexists. split; [done|]. split.
  - apply drop_app_length'. pose proof (wire_length e He). lia.
  - exists (received e). split; [by apply decode_wire|]. done.
Qed.

(** The time stamp of an entry survives the trip exactly when its bits 8 to
    47 are all zero: the decoder joins the bytes with the wrong shifts. *)
Theorem codec_ts_survives_iff e e0 b b' n e' :
  entry_typed e -> entry_typed e0 -> SILOG_REMOTE_ENTRY_SIZE <= len b ->
  SilogRemoteSerializeEntry e (Some b) (len b) true = Some (Some b', n) ->
  SilogRemoteDeserializeEntry (Some b') (len b) (Some e0) = Some (SILOG_OK, Some e') ->
  ts e' = ts e <-> (ts e / 2 ^ 8) mod 2 ^ 40 = 0.
Proof.
  intros He He0 Hb Hs Hd. rewrite serialize_spec in Hs by done. 
  assert (b' = wire e ++ drop (Z.to_nat SILOG_REMOTE_ENTRY_SIZE) b) as -> by congruence.
  rewrite decode_wire in Hd by done. assert (e' = received e) as -> by congruence. apply ts_received_fix, He.
Qed.

(** Decoding is total on everything a peer may send: null pointers and short
    buffers are refused with the entry unchanged, and every buffer of at least
    377 bytes yields a well-typed entry whose three strings are terminated
    inside their arrays and whose [msgLen] is the length of the message. *)
Theorem deserialize_total b size e0 :
  len b = size -> Forall is_u8 b -> entry_typed e0 ->
  SilogRemoteDeserializeEntry None size (Some e0) = Some (SILOG_NULL_PTR, Some e0) /\
  SilogRemoteDeserializeEntry (Some b) size None = Some (SILOG_NULL_PTR, None) /\
  (size < SILOG_REMOTE_ENTRY_SIZE ->
   SilogRemoteDeserializeEntry (Some b) size (Some e0) = Some (SILOG_INVALID_ARG, Some e0)) /\
  (SILOG_REMOTE_ENTRY_SIZE <= size ->
   exists e, SilogRemoteDeserializeEntry (Some b) size (Some e0) = Some (SILOG_OK, Some e) /\
     entry_sane e).
Proof.
  intros Hl Hb He0. repeat split; [|].
  - intros Hs. unfold SilogRemoteDeserializeEntry. apply Z.ltb_lt in Hs. by rewrite Hs.
  - intros Hs. apply deserialize_ok; [lia|done|done].
Qed.


(** An entry with plain strings, for the examples. *)
Definition str_array (n : nat) (s : list Z) : list Z := take n (s ++ replicate n 0).
Definition demo_entry (t : Z) : logEntry_t :=
  MkEntry t 4242 (-1) (level_val SILOG_WARN) (str_array 32 [110; 101; 116]) (str_array 64 [97; 46; 99])
    77 (str_array 256 [104; 105]) 2 1.

Lemma demo_entry_typed t : is_u64 t -> entry_typed (demo_entry t).
Proof.
  intros Ht. assert (forall n s, Forall is_u8 s -> Forall is_u8 (str_array n s)) as Hb.
  { intros n s Hs. apply Forall_take, Forall_app. split; [done|]. apply Forall_replicate.
    unfold is_u8; lia. }
  split; cbn [demo_entry ts pid tid level tag file line msg msgLen enabled level_val];
    lazymatch goal with
    | |- bytes_of _ _ => split; [done|apply Hb; repeat constructor; unfold is_u8; lia]
    | |- is_u64 _ => exact Ht
    | _ => split; lia
    end.
Defined.

Lemma codec_roundtrip_witness :
  exists b', SilogRemoteSerializeEntry (demo_entry 5) (Some (replicate 377 0)) 377 true
    = Some (Some b', Some 377).
Proof.
  destruct (codec_roundtrip (demo_entry 5) (demo_entry 0) (replicate 377 0)) as (b' & H & _);
    [apply demo_entry_typed; split; lia | apply demo_entry_typed; split; lia | done |].
  exists b'. exact H.
Defined.

Lemma codec_ts_survives_iff_witness :
  exists e', ts e' <> 1700000000 /\
    SilogRemoteDeserializeEntry (Some (wire (demo_entry 1700000000))) 377 (Some (demo_entry 0))
    = Some (SILOG_OK, Some e').
Proof.
  eexists (received (demo_entry 1700000000)). split; [|vm_compute; reflexivity].
  intros H. assert ((1700000000 / 2 ^ 8) mod 2 ^ 40 = 0) as H2; [|vm_compute in H2; discriminate H2].
  apply (codec_ts_survives_iff (demo_entry 1700000000) (demo_entry 0) (replicate 377 0)
    (wire (demo_entry 1700000000)) (Some 377) (received (demo_entry 1700000000)));
    [apply demo_entry_typed; split; lia | apply demo_entry_typed; split; lia | done
    | vm_compute; reflexivity | vm_compute; reflexivity | exact H].
Defined.

Lemma deserialize_total_witness :
  exists e, SilogRemoteDeserializeEntry (Some (replicate 377 255)) 377 (Some (demo_entry 0))
    = Some (SILOG_OK, Some e) /\ msgLen e < 256.
Proof.
  destruct (deserialize_total (replicate 377 255) 377 (demo_entry 0)) as (_ & _ & _ & H);
    [done | apply Forall_replicate; unfold is_u8; lia | apply demo_entry_typed; split; lia |].
  destruct H as (e & H & _ & _ & _ & _ & _ & Hm); [done|]. exists e. split; [exact H|exact Hm].
Defined.
