(* ===== verification/Os.v ===== *)
(** * The operating system interface and the effects of the stateful components

    The system calls and C library calls that SiLog makes are not code of the
    repository: they are the parameter [os] of every definition that uses them,
    a function from a call and a state of the world to an answer and the next
    state of the world. The trace records the calls with their answers.

    A component is a program in the monad [M] over its static variables: it may
    read and write them, make calls, take and release its mutex. [None] is an
    access outside an object, a null dereference, a lock taken twice, a lock
    released without being held, or a loop that exceeds its fuel: the theorems
    that a program returns exclude all of them. *)

From S2P Require Import Prelude Errors LogEntry.
From stdpp Require Export gmultiset.
#[local] Open Scope Z_scope.

(** The level of a diagnostic, and the arguments of its format: a string, a
    number, an error number or [errno], which [%s] shows as [strerror] does
    and [%d] as a number. *)
Definition SILOG_PRELOG_LEVEL_DEBUG : Z := 0.
Definition SILOG_PRELOG_LEVEL_INFO : Z := 1.
Definition SILOG_PRELOG_LEVEL_WARNING : Z := 2.
Definition SILOG_PRELOG_LEVEL_ERROR : Z := 3.
Inductive diag_arg := AStr (s : list Z) | AInt (n : Z) | AError (err : Z) | AErrno.

Inductive call :=
  (* sockets *)
  | CSocket
  | CSetsockopt (fd : Z)
  | CBind (fd port : Z)
  | CListen (fd backlog : Z)
  | CGetfl (fd : Z)
  | CSetfl (fd flags : Z)
  | CAccept (fd : Z)
  | CInetPton (addr : list Z)
  | CConnect (fd : Z) (addr : list Z) (port : Z)
  | CSend (fd : Z) (buf : list Z)
  | CRecv (fd n : Z)
  | CSelect (fd : Z) (timeout : option (Z * Z))
  | CClose (fd : Z)
  (* a Unix domain datagram socket and its path *)
  | CBindUnix (fd : Z) (path : list Z)
  | CConnectUnix (fd : Z) (path : list Z)
  (* memory, the mutex of the component, threads, time *)
  | CMalloc (size : Z)
  | CCalloc (count size : Z)
  | CRealloc (size : Z)
  | CFree
  | CLock
  | CUnlock
  | CPthreadCreate
  | CPthreadJoin
  | CPthreadDetach
  | CGetpid
  | CGettid
  | CUsleep (us : Z)
  | CClockGettime (monotonic : bool)
  | CLocaltime (sec : Z)
  (* files *)
  | CStat (path : list Z)
  | CMkdir (path : list Z)
  | CFopen (path : list Z) (mode : Z)
  | CFflush (f : Z)
  | CFclose (f : Z)
  | CFwrite (f : Z) (data : list Z)
  | CFputs (f : Z) (s : list Z)
  | CRename (from to : list Z)
  | CUnlink (path : list Z)
  | CScandir (path : list Z)
  | CSystem (cmd : list Z)
  | CReadText (f : Z)
  (* processes and standard streams *)
  | CFork
  | CSetsid
  | CKill (pid signal : Z)
  | CFreopen (path : list Z) (mode stream : Z)
  | CPerror (s : list Z)
  (* the function pointer given to the receiver *)
  | CCallback (e : logEntry_t)
  (* a diagnostic to the pre-log *)
  | CPrelog (module : string) (level : Z) (fmt : string) (args : list diag_arg).

(** The return value, [errno], and what the call stores through its pointers. *)
Record answer := Ans { ret : Z; errno : Z; out : list Z; names : list (list Z) }.

Definition EAGAIN : Z := 11.
Definition EINTR : Z := 4.
Definition EEXIST : Z := 17.
Definition O_NONBLOCK : Z := 2048.

Definition trace_t := list (call * answer).

Class Os (W : Type) := os : call -> W -> answer * W.

(** What the other threads of the process do to the static variables of a
    component while it does not hold its mutex; it happens when the mutex is
    taken. *)
Class Others (S W : Type) := others : S -> W -> S * trace_t * W.

Record env (S W : Type) := Env { mem : S; world : W; trace : trace_t; held : bool }.
Arguments Env {S W}.
Arguments mem {S W}.
Arguments world {S W}.
Arguments trace {S W}.
Arguments held {S W}.

Definition M (S W A : Type) : Type := env S W -> option (A * env S W).

#[global] Instance M_ret S W : MRet (M S W) := fun A a e => Some (a, e).
#[global] Instance M_bind S W : MBind (M S W) := fun A B f m e =>
  match m e with Some (a, e') => f a e' | None => None end.

Section ops.
Context {S W : Type} `{!Os W}.

Definition get : M S W S := fun e => Some (mem e, e).
Definition put (s : S) : M S W unit := fun e => Some (tt, Env s (world e) (trace e) (held e)).
Definition modify (f : S -> S) : M S W unit := fun e =>
  Some (tt, Env (f (mem e)) (world e) (trace e) (held e)).
Definition undefined {A} : M S W A := fun _ => None.
Definition lift {A} (o : option A) : M S W A := fun e =>
  match o with Some a => Some (a, e) | None => None end.

Definition sys (c : call) : M S W answer := fun e =>
  let '(a, w) := os c (world e) in
  Some (a, Env (mem e) w (trace e ++ [(c, a)]) (held e)).

(** The platform layer: silog_adapter.h and [SilogUtilsGetTid]. *)
Definition SiMalloc (size : Z) : M S W answer := sys (CMalloc size).
Definition SiFree : M S W answer := sys CFree.
Definition SiCalloc (size : Z) : M S W answer := sys (CCalloc 1 size).
Definition SilogUtilsGetTid : M S W Z := a ← sys CGettid; mret (i32 (ret a)).

(** A diagnostic acts on the pre-log, which to the other components is a part of
    the world (Prelog.v gives it to them as the component that it is); its
    result is never used, and the trace records the calls of the kernel only. *)
Definition diag (module : string) (level : Z) (fmt : string) (args : list diag_arg) : M S W unit := fun e =>
  Some (tt, Env (mem e) (os (CPrelog module level fmt args) (world e)).2 (trace e) (held e)).
Definition SILOG_PRELOG_I module fmt args := diag module SILOG_PRELOG_LEVEL_INFO fmt args.
Definition SILOG_PRELOG_W module fmt args := diag module SILOG_PRELOG_LEVEL_WARNING fmt args.
Definition SILOG_PRELOG_E module fmt args := diag module SILOG_PRELOG_LEVEL_ERROR fmt args.

Context `{!Others S W}.

(** [pthread_mutex_lock] on a default mutex: it deadlocks on the owner's second
    call; otherwise the other threads run until it is free. *)
Definition lock : M S W unit := fun e =>
  if held e then None
  else let '(s, t, w) := others (mem e) (world e) in
       Some (tt, Env s w (trace e ++ t) true).
Definition unlock : M S W unit := fun e =>
  if held e then Some (tt, Env (mem e) (world e) (trace e) false) else None.

(** [for (uint32_t i = ..; i < bound; i++) body]; the bound is evaluated before
    each iteration. *)
Fixpoint for_lt (fuel : nat) (i : Z) (bound : M S W Z) (body : Z -> M S W unit) : M S W unit :=
  match fuel with
  | O => undefined
  | Datatypes.S fuel =>
      n ← bound;
      if i <? n then body i ;; for_lt fuel (u32 (i + 1)) bound body else mret tt
  end.
End ops.

(** The names of the modules in the diagnostics. *)
Definition SILOG_PRELOG_LOGGER : string := "logger".
Definition SILOG_PRELOG_DAEMON : string := "daemon".
Definition SILOG_PRELOG_CAT : string := "cat".
Definition SILOG_PRELOG_EXE : string := "exe".
Definition SILOG_PRELOG_COMM : string := "comm".

(** A part of a program that wrote diagnostics and did nothing else. *)
Definition same_state {S W} (e e' : env S W) : Prop :=
  mem e' = mem e /\ trace e' = trace e /\ held e' = held e.

(** ** Weakest preconditions *)

(** The program returns, and its result satisfies [Q]. *)
Definition wp {S W A} (m : M S W A) (Q : A -> env S W -> Prop) (e : env S W) : Prop :=
  exists a e', m e = Some (a, e') /\ Q a e'.

Section wp.
Context {S W : Type} `{!Os W, !Others S W}.
Implicit Types (e : env S W).

Lemma wp_ret {A} (a : A) Q e : Q a e -> wp (mret a) Q e.
Proof. by exists a, e. Qed.

Lemma wp_bind {A B} (m : M S W A) (f : A -> M S W B) Q e :
  wp m (fun a e' => wp (f a) Q e') e -> wp (m ≫= f) Q e.
Proof.
  intros (a & e' & Hm & b & e'' & Hf & HQ). exists b, e''. split; [|done].
  unfold mbind, M_bind. by rewrite Hm.
Qed.

Lemma wp_mono {A} (m : M S W A) (P Q : A -> env S W -> Prop) e :
  wp m P e -> (forall a e', P a e' -> Q a e') -> wp m Q e.
Proof. intros (a & e' & Hm & HP) HPQ. exists a, e'. auto. Qed.

Lemma wp_and {A} (m : M S W A) (P Q : A -> env S W -> Prop) e :
  wp m P e -> wp m Q e -> wp m (fun a e' => P a e' /\ Q a e') e.
Proof.
  intros (a & e1 & H1 & HP) (b & e2 & H2 & HQ). rewrite H1 in H2. injection H2 as <- <-. by exists a, e1.
Qed.

Lemma wp_get (Q : S -> env S W -> Prop) e : Q (mem e) e -> wp get Q e.
Proof. by exists (mem e), e. Qed.

Lemma wp_put s (Q : unit -> env S W -> Prop) e :
  Q tt (Env s (world e) (trace e) (held e)) -> wp (put s) Q e.
Proof. intros. eexists _, _. done. Qed.

Lemma wp_modify f (Q : unit -> env S W -> Prop) e :
  Q tt (Env (f (mem e)) (world e) (trace e) (held e)) -> wp (modify f) Q e.
Proof. intros. eexists _, _. done. Qed.

Lemma wp_lift {A} (o : option A) a (Q : A -> env S W -> Prop) e :
  o = Some a -> Q a e -> wp (lift o) Q e.
Proof. intros -> ?. by exists a, e. Qed.

Lemma wp_sys c (Q : answer -> env S W -> Prop) e :
  (forall a w, os c (world e) = (a, w) -> Q a (Env (mem e) w (trace e ++ [(c, a)]) (held e))) ->
  wp (sys c) Q e.
Proof.
  intros H. destruct (os c (world e)) as [a w] eqn:E. exists a. eexists.
  split; [unfold sys; by rewrite E|]. by apply H.
Qed.

Lemma wp_diag m l f a (Q : unit -> env S W -> Prop) e :
  (forall w, Q tt (Env (mem e) w (trace e) (held e))) -> wp (diag m l f a) Q e.
Proof. intros H. eexists _, _. split; [reflexivity|]. apply H. Qed.
Lemma wp_diag_bind {B} m l f a (k : unit -> M S W B) Q e :
  (forall w, wp (k tt) Q (Env (mem e) w (trace e) (held e))) -> wp (diag m l f a ≫= k) Q e.
Proof. intros H. apply wp_bind. by apply wp_diag. Qed.

Lemma wp_lock (Q : unit -> env S W -> Prop) e :
  held e = false ->
  (forall s t w, others (mem e) (world e) = (s, t, w) -> Q tt (Env s w (trace e ++ t) true)) ->
  wp lock Q e.
Proof.
  intros Hh H. destruct (others (mem e) (world e)) as [[s t] w] eqn:E. eexists _, _.
  split; [unfold lock; by rewrite Hh, E|]. by apply H.
Qed.

Lemma wp_unlock (Q : unit -> env S W -> Prop) e :
  held e = true -> Q tt (Env (mem e) (world e) (trace e) false) -> wp unlock Q e.
Proof. intros Hh ?. eexists _, _. split; [unfold unlock; by rewrite Hh|done]. Qed.

(** A loop invariant for [for_lt]; the fuel covers the iterations left. *)
Lemma wp_for_lt (I : Z -> env S W -> Prop) (N : Z) fuel i bound body (Q : unit -> env S W -> Prop) e :
  0 <= i <= N -> N < 2 ^ 32 -> (Z.to_nat (N - i) < fuel)%nat ->
  I i e ->
  (forall j e', I j e' -> wp bound (fun n e'' => n = N /\ e'' = e') e') ->
  (forall j e', i <= j < N -> I j e' -> wp (body j) (fun _ e'' => I (j + 1) e'') e') ->
  (forall e', I N e' -> Q tt e') ->
  wp (for_lt fuel i bound body) Q e.
Proof.
  intros Hi HN. revert i e Hi. cbn beta. induction fuel as [|fuel IH]; intros i e Hi Hf HI Hb Hbody HQ; [lia|].
  cbn [for_lt]. apply wp_bind. eapply wp_mono; [by apply (Hb i)|]. intros n e' [-> ->].
  destruct (i <? N) eqn:E; reflectZ.
  - apply wp_bind. eapply wp_mono; [apply Hbody; [lia|done]|]. intros [] e1 H1.
    rewrite u32_small by (unfold is_u32; lia). apply IH; [lia|lia|done|done| |done].
    intros j e2 Hj. apply Hbody. lia.
  - assert (i = N) as -> by lia. apply wp_ret. by apply HQ.
Qed.
End wp.

(** Diagnostics do not concern the components that write them: [wp_diags] goes
    over those at the head of a program. *)
Ltac wp_diag1 :=
  let wd := fresh "wd" in
  lazymatch goal with
  | |- wp (SILOG_PRELOG_E _ _ _ ≫= _) _ _ => apply (wp_diag_bind _ SILOG_PRELOG_LEVEL_ERROR); intros wd
  | |- wp (SILOG_PRELOG_W _ _ _ ≫= _) _ _ => apply (wp_diag_bind _ SILOG_PRELOG_LEVEL_WARNING); intros wd
  | |- wp (SILOG_PRELOG_I _ _ _ ≫= _) _ _ => apply (wp_diag_bind _ SILOG_PRELOG_LEVEL_INFO); intros wd
  | |- wp (SILOG_PRELOG_E _ _ _) _ _ => apply (wp_diag _ SILOG_PRELOG_LEVEL_ERROR); intros wd
  | |- wp (SILOG_PRELOG_W _ _ _) _ _ => apply (wp_diag _ SILOG_PRELOG_LEVEL_WARNING); intros wd
  | |- wp (SILOG_PRELOG_I _ _ _) _ _ => apply (wp_diag _ SILOG_PRELOG_LEVEL_INFO); intros wd
  end; cbn beta; cbn [mem world trace held].
Ltac wp_diags := repeat wp_diag1.

(** Symbolic execution: one step of a program under [wp]. *)
Ltac wp_step1 :=
  lazymatch goal with
  | |- wp (_ ≫= _) _ _ => apply wp_bind
  | |- wp (mret _) _ _ => apply wp_ret
  | |- wp get _ _ => apply wp_get
  | |- wp (put _) _ _ => apply wp_put
  | |- wp (modify _) _ _ => apply wp_modify
  | |- wp (sys _) _ _ => apply wp_sys; intros ? ? ?
  | |- wp (SiMalloc _) _ _ => apply wp_sys; intros ? ? ?
  | |- wp SiFree _ _ => apply wp_sys; intros ? ? ?
  | |- wp (lift _) _ _ => eapply wp_lift
  | |- wp unlock _ _ => apply wp_unlock; [done|]
  | |- wp (if ?b then _ else _) _ _ => destruct b eqn:?; reflectZ
  end; cbn beta; cbn [mem world trace held].
Ltac wp_step := first [wp_diag1; wp_diags; try wp_step1 | wp_step1]; wp_diags.
Ltac wp_steps := repeat wp_step.

(** ** Programs do not depend on the past

    A run from a longer trace does the same and extends that trace. *)
Section framed.
Context {S W : Type} `{!Os W, !Others S W}.

Definition extend {A} (tr : trace_t) (r : option (A * env S W)) : option (A * env S W) :=
  match r with
  | Some (a, e) => Some (a, Env (mem e) (world e) (tr ++ trace e) (held e))
  | None => None
  end.

Definition framed {A} (m : M S W A) : Prop :=
  forall s w tr tr' h, m (Env s w (tr ++ tr') h) = extend tr (m (Env s w tr' h)).

Lemma framed_ret {A} (a : A) : framed (mret a).
Proof. done. Qed.
Lemma framed_bind {A B} (m : M S W A) (f : A -> M S W B) :
  framed m -> (forall a, framed (f a)) -> framed (m ≫= f).
Proof.
  intros Hm Hf s w tr tr' h. unfold mbind, M_bind. rewrite Hm.
  destruct (m (Env s w tr' h)) as [[a [s1 w1 t1 h1]]|]; [|done]. simpl. apply Hf.
Qed.
Lemma framed_get : framed get.
Proof. done. Qed.
Lemma framed_modify f : framed (modify f).
Proof. done. Qed.
Lemma framed_lift {A} (o : option A) : framed (lift o).
Proof. by destruct o. Qed.
Lemma framed_undefined {A} : framed (undefined (A:=A)).
Proof. done. Qed.
Lemma framed_sys c : framed (sys c).
Proof.
  intros s w tr tr' h. unfold sys. simpl. destruct (os c w). simpl. by rewrite (assoc_L (++)).
Qed.
Lemma framed_malloc n : framed (SiMalloc n).
Proof. apply framed_sys. Qed.
Lemma framed_free : framed SiFree.
Proof. apply framed_sys. Qed.
Lemma framed_diag m l f a : framed (diag m l f a).
Proof. done. Qed.
Lemma framed_diag_e m f a : framed (SILOG_PRELOG_E m f a).
Proof. done. Qed.
Lemma framed_diag_w m f a : framed (SILOG_PRELOG_W m f a).
Proof. done. Qed.
Lemma framed_diag_i m f a : framed (SILOG_PRELOG_I m f a).
Proof. done. Qed.
Lemma framed_lock : framed lock.
Proof.
  intros s w tr tr' h. unfold lock. simpl. destruct h; [done|]. destruct (others s w) as [[s' t] w'].
  simpl. by rewrite (assoc_L (++)).
Qed.
Lemma framed_unlock : framed unlock.
Proof. intros s w tr tr' h. unfold unlock. simpl. by destruct h. Qed.

(** A framed program extends the trace. *)
Lemma framed_wp {A} (m : M S W A) Q e :
  framed m -> wp m Q e -> wp m (fun a e' => Q a e' /\ exists t, trace e' = trace e ++ t) e.
Proof.
  intros Hf (a & e' & He & HQ). exists a, e'. split; [done|]. split; [done|]. destruct e as [s w tr h].
  pose proof (Hf s w tr [] h) as Hx. rewrite app_nil_r, He in Hx.
  destruct (m (Env s w [] h)) as [[b e1]|]; [|done]. injection Hx as _ ->. by exists (trace e1).
Qed.
End framed.

Create HintDb framed.
#[export] Hint Resolve framed_ret framed_get framed_modify framed_lift framed_undefined framed_sys
  framed_malloc framed_free
  framed_lock framed_unlock framed_diag framed_diag_e framed_diag_w framed_diag_i : framed.

Ltac solve_framed :=
  repeat first
    [ progress intros
    | progress cbv zeta
    | solve [eauto with framed]
    | apply framed_bind
    | match goal with |- framed (if ?b then _ else _) => destruct b end
    | match goal with |- framed (match ?b with _ => _ end) => destruct b end ].

(** ** Components inside a program

    A program made of components keeps the variables of each of them and the part
    of the trace that it made. [zoom] runs a program of one component; its calls
    are also appended to the trace of the whole. The flag of the environment is
    the mutex of the component that runs. *)
Record comp (S : Type) := MkComp { c_mem : S; c_trace : trace_t }.
Arguments MkComp {S}.
Arguments c_mem {S}.
Arguments c_trace {S}.

Section zoom.
Context {S S1 W : Type} (proj : S -> comp S1) (upd : comp S1 -> S -> S).

Definition zoom {A} (p : M S1 W A) : M S W A := fun e =>
  let c := proj (mem e) in
  match p (Env (c_mem c) (world e) (c_trace c) (held e)) with
  | Some (a, e1) =>
      Some (a, Env (upd (MkComp (mem e1) (trace e1)) (mem e)) (world e1)
                 (trace e ++ drop (length (c_trace c)) (trace e1)) (held e1))
  | None => None
  end.

Lemma wp_zoom {A} (p : M S1 W A) Q (e : env S W) :
  wp p (fun a e1 => Q a (Env (upd (MkComp (mem e1) (trace e1)) (mem e)) (world e1)
                 (trace e ++ drop (length (c_trace (proj (mem e)))) (trace e1)) (held e1)))
    (Env (c_mem (proj (mem e))) (world e) (c_trace (proj (mem e))) (held e)) ->
  wp (zoom p) Q e.
Proof.
  intros (a & e1 & Hp & HQ). eexists a, _. split; [unfold zoom; by rewrite Hp|exact HQ].
Qed.
End zoom.

(** ** A scripted kernel

    The calls are answered from a list, and by a failure with [EAGAIN] when it is
    exhausted; a send accepts, and a receive delivers, at most what was asked. *)
Definition script : Type := list answer.
Definition ok (n : Z) : answer := Ans n 0 [] [].
Definition fails (err : Z) : answer := Ans (-1) err [] [].

#[export] Instance script_os : Os script := fun c w =>
  let '(a, w') := match c, w with CPrelog _ _ _ _, _ => (ok 0, w) | _, a :: w' => (a, w') | _, [] => (fails EAGAIN, []) end in
  (match c with
   | CSend _ buf => Ans (Z.min (ret a) (len buf)) (errno a) [] []
   | CRecv _ n => if ret a <? 0 then a
                  else let d := map u8 (take (Z.to_nat n) (out a)) in Ans (len d) (errno a) d []
   | _ => a
   end, w').

(** ** File descriptors

    The multiset of the descriptors that a trace has opened and not closed yet;
    [None] if it closes one that is not open. *)
Definition ledger_step (X : option (gmultiset Z)) (ev : call * answer) : option (gmultiset Z) :=
  X ← X;
  match ev.1 with
  | CSocket | CAccept _ => if 0 <=? ret ev.2 then Some (X ⊎ {[+ ret ev.2 +]}) else Some X
  | CClose fd => if decide (fd ∈ X) then Some (X ∖ {[+ fd +]}) else None
  | _ => Some X
  end.
Definition ledger (t : trace_t) : option (gmultiset Z) := foldl ledger_step (Some ∅) t.

Lemma ledger_snoc t ev : ledger (t ++ [ev]) = ledger_step (ledger t) ev.
Proof. unfold ledger. by rewrite foldl_app. Qed.

(** A piece of a trace without effect on the ledger. *)
Definition neutral (t : trace_t) : Prop := forall tr, ledger (tr ++ t) = ledger tr.

Lemma neutral_nil : neutral [].
Proof. intros tr. by rewrite app_nil_r. Qed.
Lemma neutral_app t1 t2 : neutral t1 -> neutral t2 -> neutral (t1 ++ t2).
Proof. intros H1 H2 tr. by rewrite (assoc_L (++)), H2, H1. Qed.
Lemma neutral_one c a :
  match c with CSocket | CAccept _ | CClose _ => False | _ => True end -> neutral [(c, a)].
Proof.
  intros H tr. rewrite ledger_snoc. unfold ledger_step. destruct (ledger tr); [|done].
  by destruct c.
Qed.

(** The calls of [send] in a trace. *)
Definition is_send (ev : call * answer) : bool :=
  match ev.1 with CSend _ _ => true | _ => false end.
Definition sends (t : trace_t) : trace_t := filter (fun ev => is_send ev = true) t.

Lemma sends_cons ev t : sends (ev :: t) = if is_send ev then ev :: sends t else sends t.
Proof.
  unfold sends. etransitivity; [apply list.filter_cons|]. destruct (is_send ev) eqn:E; case_decide; done || congruence.
Qed.

Ltac solve_neutral :=
  repeat first [assumption | apply neutral_nil | apply neutral_one; done | apply neutral_app].

Lemma sends_app t1 t2 : sends (t1 ++ t2) = sends t1 ++ sends t2.
Proof. apply list.filter_app. Qed.

(** A close of a held descriptor takes it off the ledger. *)
Lemma ledger_close t fd a X :
  ledger t = Some (X ⊎ {[+ fd +]}) -> ledger (t ++ [(CClose fd, a)]) = Some X.
Proof.
  intros H. rewrite ledger_snoc, H. cbn. rewrite decide_True by multiset_solver.
  f_equal. multiset_solver.
Qed.

Lemma ledger_open t c a X :
  match c with CSocket | CAccept _ => True | _ => False end ->
  0 <= ret a -> ledger t = Some X -> ledger (t ++ [(c, a)]) = Some (X ⊎ {[+ ret a +]}).
Proof.
  intros Hc Ha H. rewrite ledger_snoc, H. cbn. apply Z.leb_le in Ha.
  destruct c; try done; cbn; by rewrite Ha.
Qed.

Lemma ledger_open_fail t c a :
  match c with CSocket | CAccept _ => True | _ => False end ->
  ret a < 0 -> ledger (t ++ [(c, a)]) = ledger t.
Proof.
  intros Hc Ha. rewrite ledger_snoc. unfold ledger_step. destruct (ledger t); [|done].
  cbn. apply Z.leb_gt in Ha. destruct c; try done; cbn; by rewrite Ha.
Qed.

(** The bytes that the kernel accepted for a socket. *)
Definition sent_on (fd : Z) (t : trace_t) : list Z :=
  concat (map (fun ev => match ev.1 with
                         | CSend fd' buf => if fd' =? fd then take (Z.to_nat (ret ev.2)) buf else []
                         | _ => []
                         end) t).

Lemma sent_on_app fd t1 t2 : sent_on fd (t1 ++ t2) = sent_on fd t1 ++ sent_on fd t2.
Proof. unfold sent_on. by rewrite map_app, concat_app. Qed.

(** ** Files *)

(** The file handles that a trace has opened and not closed; [None] if it closes
    one that is not open. *)
Definition files_step (X : option (gmultiset Z)) (ev : call * answer) : option (gmultiset Z) :=
  X ← X;
  match ev.1 with
  | CFopen _ _ => if ret ev.2 =? 0 then Some X else Some (X ⊎ {[+ ret ev.2 +]})
  | CFclose f => if decide (f ∈ X) then Some (X ∖ {[+ f +]}) else None
  | _ => Some X
  end.
Definition files (t : trace_t) : option (gmultiset Z) := foldl files_step (Some ∅) t.

Lemma files_snoc t ev : files (t ++ [ev]) = files_step (files t) ev.
Proof. unfold files. by rewrite foldl_app. Qed.

(** A piece of a trace that opens and closes nothing. *)
Definition fneutral (t : trace_t) : Prop := forall tr, files (tr ++ t) = files tr.
Lemma fneutral_nil : fneutral [].
Proof. intros tr. by rewrite app_nil_r. Qed.
Lemma fneutral_app t1 t2 : fneutral t1 -> fneutral t2 -> fneutral (t1 ++ t2).
Proof. intros H1 H2 tr. by rewrite (assoc_L (++)), H2, H1. Qed.
Lemma fneutral_one c a :
  match c with CFopen _ _ | CFclose _ => False | _ => True end -> fneutral [(c, a)].
Proof.
  intros H tr. rewrite files_snoc. unfold files_step. destruct (files tr); [|done]. by destruct c.
Qed.
Ltac solve_fneutral :=
  repeat first [assumption | apply fneutral_nil | apply fneutral_one; done | apply fneutral_app].

Lemma files_close t f a X :
  files t = Some (X ⊎ {[+ f +]}) -> files (t ++ [(CFclose f, a)]) = Some X.
Proof.
  intros H. rewrite files_snoc, H. cbn. rewrite decide_True by multiset_solver. f_equal. multiset_solver.
Qed.

(** The handle of an open file, or nothing for a null pointer. *)
Definition handle_set (f : Z) : gmultiset Z := if f =? 0 then ∅ else {[+ f +]}.
Lemma files_fopen t p md a :
  files t = Some ∅ -> files (t ++ [(CFopen p md, a)]) = Some (handle_set (ret a)).
Proof.
  intros Ht. rewrite files_snoc, Ht. unfold handle_set, files_step. cbn [fst snd].
  destruct (ret a =? 0); [done|]. change (Some (∅ ⊎ {[+ ret a +]} : gmultiset Z) = Some {[+ ret a +]}).
  by rewrite (left_id_L ∅ (⊎)).
Qed.
Lemma files_fclose t f a : f <> 0 -> files t = Some (handle_set f) -> files (t ++ [(CFclose f, a)]) = Some ∅.
Proof.
  intros Hf Ht. apply files_close. rewrite Ht. unfold handle_set. ztest. f_equal. multiset_solver.
Qed.
