(* ===== verification/Queues.v ===== *)
(** * The queues as their callers run them

    The functions of silog_mpsc.c and silog_pqueue.c with their allocations and
    their diagnostics. Mpsc.v and PQueue.v say what they do to the queue; these
    definitions call [SiMalloc], [SiFree] and the pre-log where the functions do. *)

From S2P Require Import Prelude Errors LogEntry CObj Mpsc PQueue Os.
#[local] Open Scope Z_scope.

Section queues.
Context {S W : Type} `{!Os W, !Others S W}.
Implicit Types (e : env S W).
#[local] Abbreviation E := (SILOG_PRELOG_E SILOG_PRELOG_COMM).

(** ** The ring *)

(** [SilogMpscQueueInit] for a queue [q] that exists. *)
Definition queue_init (elementSize capacity : Z) (q : SiLogMpscQueue) : M S W (ErrorCode * SiLogMpscQueue) :=
  if (elementSize =? 0) || (capacity =? 0) || negb (Z.land capacity (u32 (capacity - 1)) =? 0)
  then mret (mpsc_init None None elementSize capacity q)
  else
    b ← SiMalloc (u32 (elementSize * capacity));
    if ret b =? 0 then
      E "MPSC queue memory allocation failed" [] ;; mret (mpsc_init None None elementSize capacity q)
    else
      let buffer := replicate (Z.to_nat (u32 (elementSize * capacity))) 0 in
      s ← SiMalloc (4 * capacity);
      if ret s =? 0 then
        _ ← SiFree;
        E "MPSC queue seq allocation failed" [] ;; mret (mpsc_init (Some buffer) None elementSize capacity q)
      else mret (mpsc_init (Some buffer) (Some (replicate (Z.to_nat capacity) 0)) elementSize capacity q).

(** [SilogMpscQueuePush] writes one diagnostic. *)
Definition queue_push (lq : option SiLogMpscQueue) (element : option (list Z)) : M S W (ErrorCode * option SiLogMpscQueue) :=
  (match lq, element with
   | Some q, Some _ =>
       if bool_decide (mq_buffer q = None) || (mq_capacity q =? 0) || bool_decide (mq_seq q = None)
       then E "MPSC queue not initialized" [] else mret tt
   | _, _ => mret tt
   end) ;;
  lift (SilogMpscQueuePush lq element).

Definition queue_destroy (q : SiLogMpscQueue) : M S W SiLogMpscQueue :=
  (if bool_decide (mq_buffer q = None) then mret tt else _ ← SiFree; mret tt) ;;
  (if bool_decide (mq_seq q = None) then mret tt else _ ← SiFree; mret tt) ;;
  mret (mpsc_destroy q).

(** ** The priority queue *)

Definition pqueue_init (lq : option SiLogPQueue) (elementSize capacity : Z) (compare : option CompareFunc)
    : M S W (ErrorCode * option SiLogPQueue) :=
  if bool_decide (lq = None) || (elementSize =? 0) || (capacity =? 0) || bool_decide (compare = None) then
    E "PQueueInit failed: invalid argument" [] ;; mret (SilogPQueueInit None lq elementSize capacity compare)
  else
    b ← SiMalloc (u32 (elementSize * capacity));
    if ret b =? 0 then
      E "PQueueInit failed: out of memory" [] ;; mret (SilogPQueueInit None lq elementSize capacity compare)
    else mret (SilogPQueueInit (Some (replicate (Z.to_nat (u32 (elementSize * capacity))) 0)) lq elementSize capacity compare).

(** [SiftUp] and [SiftDown] allocate and free a temporary element. *)
Definition with_temp {A} (name : string) (elementSize : Z) (k : bool -> option A) : M S W A :=
  t ← SiMalloc elementSize;
  if ret t =? 0 then E name [] ;; lift (k false)
  else r ← lift (k true); _ ← SiFree; mret r.

Definition pqueue_push (lq : option SiLogPQueue) (element : option (list Z)) : M S W (ErrorCode * option SiLogPQueue) :=
  match lq, element with
  | Some q, Some _ =>
      if SilogPQueueIsFull lq then
        E "PQueuePush failed: queue is full" [] ;; lift (SilogPQueuePush false lq element)
      else with_temp "SiftUp failed: out of memory" (pq_elementSize q) (fun malloc => SilogPQueuePush malloc lq element)
  | _, _ => E "PQueuePush failed: invalid argument" [] ;; lift (SilogPQueuePush false lq element)
  end.

Definition pqueue_pop (lq : option SiLogPQueue) (outElement : bool)
    : M S W (ErrorCode * option SiLogPQueue * option (list Z)) :=
  match lq, outElement with
  | Some q, true =>
      if pq_size q =? 0 then
        E "PQueuePop failed: queue is empty" [] ;; lift (SilogPQueuePop false lq outElement)
      else if 1 <? pq_size q then
        with_temp "SiftDown failed: out of memory" (pq_elementSize q) (fun malloc => SilogPQueuePop malloc lq outElement)
      else lift (SilogPQueuePop true lq outElement)
  | _, _ => E "PQueuePop failed: invalid argument" [] ;; lift (SilogPQueuePop false lq outElement)
  end.

Definition pqueue_peek (lq : option SiLogPQueue) (outElement : bool) : M S W (ErrorCode * option (list Z)) :=
  (match lq, outElement with
   | Some q, true => if pq_size q =? 0 then E "PQueuePeek failed: queue is empty" [] else mret tt
   | _, _ => E "PQueuePeek failed: invalid argument" []
   end) ;;
  lift (SilogPQueuePeek lq outElement).

(** [grown] is the object that [realloc] returns when it succeeds. *)
Definition pqueue_reserve (grown : list Z) (lq : option SiLogPQueue) (newCapacity : Z) : M S W (ErrorCode * option SiLogPQueue) :=
  match lq with
  | Some q =>
      if newCapacity <=? pq_capacity q then
        E "PQueueReserve failed: invalid argument" [] ;; mret (SilogPQueueReserve None lq newCapacity)
      else
        b ← sys (CRealloc (u32 (pq_elementSize q * newCapacity)));
        if ret b =? 0 then
          E "PQueueReserve failed: out of memory" [] ;; mret (SilogPQueueReserve None lq newCapacity)
        else mret (SilogPQueueReserve (Some grown) lq newCapacity)
  | None => E "PQueueReserve failed: invalid argument" [] ;; mret (SilogPQueueReserve None lq newCapacity)
  end.

Definition pqueue_destroy (lq : option SiLogPQueue) : M S W (option SiLogPQueue) :=
  match lq with
  | Some _ => _ ← SiFree; mret (SilogPQueueDestroy lq)
  | None => mret (SilogPQueueDestroy lq)
  end.

(** ** What they do to the caller: allocations and diagnostics only *)

Definition alloc_only (t : trace_t) : Prop :=
  Forall (fun ev => match ev.1 with CMalloc _ | CFree | CRealloc _ => True | _ => False end) t.

Lemma env_nil e : Env (mem e) (world e) (trace e ++ []) (held e) = e.
Proof. destruct e. cbn. by rewrite app_nil_r. Qed.

Lemma wp_queue_init es cap k q (Q : ErrorCode * SiLogMpscQueue -> env S W -> Prop) e :
  0 < es -> 0 <= k <= 31 -> cap = 2 ^ k -> es * cap < 2 ^ 32 ->
  (forall c q' w t, alloc_only t -> (c = SILOG_OK -> mpsc_repr es cap q' []) ->
     Q (c, q') (Env (mem e) w (trace e ++ t) (held e))) ->
  wp (queue_init es cap q) Q e.
Proof.
  intros Hes Hk Hcap Hfit HQ. assert (0 < cap) by (subst; lia). unfold queue_init.
  assert (forall mm sm, mm = None \/ sm = None -> (mpsc_init mm sm es cap q).1 <> SILOG_OK) as Hno.
  { intros mm sm Hn. unfold mpsc_init. repeat case_match; try done; by destruct Hn. }
  assert (forall mm sm w t, alloc_only t -> mm = None \/ sm = None ->
    Q (mpsc_init mm sm es cap q) (Env (mem e) w (trace e ++ t) (held e))) as Hfail.
  { intros mm sm w t Ht Hn. specialize (Hno mm sm Hn). destruct (mpsc_init mm sm es cap q) as [c q']. by apply HQ. }
  wp_step.
  { wp_step. rewrite <- (env_nil e). apply Hfail; [constructor|by left]. }
  wp_step. wp_step. wp_step. { wp_step. apply Hfail; [by repeat constructor|by left]. }
  wp_step. wp_step. wp_step.
  { wp_step. wp_step. wp_step. rewrite <- !(assoc_L (++)). apply Hfail; [by repeat constructor|by right]. }
  wp_step. rewrite <- (assoc_L (++)).
  destruct (mpsc_init_repr es cap k (replicate (Z.to_nat (u32 (es * cap))) 0) (replicate (Z.to_nat cap) 0) q) as (q' & -> & Hq); try done.
  - rewrite length_replicate. pose proof (u32_range (es * cap)) as []. lia.
  - rewrite length_replicate. lia.
  - by apply HQ; [repeat constructor|].
Qed.

Lemma wp_queue_push lq el r (Q : ErrorCode * option SiLogMpscQueue -> env S W -> Prop) e :
  SilogMpscQueuePush lq el = Some r -> (forall w, Q r (Env (mem e) w (trace e) (held e))) -> wp (queue_push lq el) Q e.
Proof.
  intros Hr HQ. unfold queue_push. wp_step.
  assert (forall w, wp (lift (SilogMpscQueuePush lq el)) Q (Env (mem e) w (trace e) (held e))) as H
    by (intros w; by eapply wp_lift).
  destruct e. destruct lq, el; repeat first [apply H | wp_step].
Qed.

Lemma wp_queue_destroy q (Q : SiLogMpscQueue -> env S W -> Prop) e :
  (forall w t, alloc_only t -> Q (mpsc_destroy q) (Env (mem e) w (trace e ++ t) (held e))) -> wp (queue_destroy q) Q e.
Proof.
  intros HQ. unfold queue_destroy.
  assert (forall b (P : unit -> env S W -> Prop) e0, (forall w t, alloc_only t -> P tt (Env (mem e0) w (trace e0 ++ t) (held e0))) ->
    wp (if b : bool then mret tt else _ ← SiFree; mret tt) P e0) as Hfree.
  { intros [] P e0 HP; [wp_step; rewrite <- (env_nil e0); apply HP; constructor|].
    wp_step. wp_step. wp_step. apply HP. by repeat constructor. }
  wp_step. apply Hfree. intros w1 t1 H1. wp_step. apply Hfree. intros w2 t2 H2. wp_step. cbn [mem trace held].
  rewrite <- (assoc_L (++)). apply HQ. by apply Forall_app.
Qed.

(** The priority queue where [malloc] succeeds. *)
Definition memory (w : W) (n : Z) : Prop := forall a w', os (CMalloc n) w = (a, w') -> ret a <> 0.

Lemma wp_with_temp {A} name es (k : bool -> option A) r (Q : A -> env S W -> Prop) e :
  memory (world e) es -> k true = Some r ->
  (forall w t, alloc_only t -> Q r (Env (mem e) w (trace e ++ t) (held e))) -> wp (with_temp name es k) Q e.
Proof.
  intros Hm Hk HQ. unfold with_temp. wp_step. wp_step. pose proof (Hm _ _ H). ztest.
  wp_step. eapply wp_lift; [exact Hk|]. wp_step. wp_step. wp_step. rewrite <- (assoc_L (++)). apply HQ. by repeat constructor.
Qed.

Lemma wp_pqueue_push q x r (Q : ErrorCode * option SiLogPQueue -> env S W -> Prop) e :
  memory (world e) (pq_elementSize q) -> SilogPQueuePush true (Some q) (Some x) = Some r ->
  (forall w t, alloc_only t -> Q r (Env (mem e) w (trace e ++ t) (held e))) ->
  wp (pqueue_push (Some q) (Some x)) Q e.
Proof.
  intros Hm Hr HQ. unfold pqueue_push. destruct (SilogPQueueIsFull (Some q)) eqn:Hf; [|by eapply wp_with_temp].
  wp_diags. eapply (wp_lift _ r); [|rewrite <- (app_nil_r (trace e)); apply HQ; constructor].
  cbn in *. unfold pq_push in *. by rewrite Hf in *.
Qed.

Lemma wp_pqueue_pop q r (Q : ErrorCode * option SiLogPQueue * option (list Z) -> env S W -> Prop) e :
  memory (world e) (pq_elementSize q) -> 0 <= pq_size q < 2 ^ 32 -> SilogPQueuePop true (Some q) true = Some r ->
  (forall w t, alloc_only t -> Q r (Env (mem e) w (trace e ++ t) (held e))) -> wp (pqueue_pop (Some q) true) Q e.
Proof.
  intros Hm Hs Hr HQ. unfold pqueue_pop. destruct (pq_size q =? 0) eqn:Hz.
  { wp_diags. eapply (wp_lift _ r); [|rewrite <- (app_nil_r (trace e)); apply HQ; constructor].
    cbn in *. unfold pq_pop in *. by rewrite Hz in *. }
  destruct (1 <? pq_size q); [by eapply wp_with_temp|]. eapply wp_lift; [exact Hr|]. rewrite <- (env_nil e). apply HQ. constructor.
Qed.

Lemma wp_pqueue_init lq es cap cmp (Q : ErrorCode * option SiLogPQueue -> env S W -> Prop) e :
  memory (world e) (u32 (es * cap)) -> es <> 0 -> cap <> 0 ->
  (forall w t, alloc_only t ->
     Q (SILOG_OK, Some (MkPQ (Some (replicate (Z.to_nat (u32 (es * cap))) 0)) es cap 0 cmp)) (Env (mem e) w (trace e ++ t) (held e))) ->
  is_Some lq -> wp (pqueue_init lq es cap (Some cmp)) Q e.
Proof.
  intros Hm Hes Hcap HQ [q ->]. unfold pqueue_init. rewrite bool_decide_false by done. ztest. rewrite bool_decide_false by done. cbn [orb].
  wp_step. wp_step. pose proof (Hm _ _ H). ztest. wp_step. cbn. ztest. cbn. apply HQ. by repeat constructor.
Qed.

Lemma wp_pqueue_destroy q (Q : option SiLogPQueue -> env S W -> Prop) e :
  (forall w t r, alloc_only t -> Q r (Env (mem e) w (trace e ++ t) (held e))) -> wp (pqueue_destroy (Some q)) Q e.
Proof. intros HQ. unfold pqueue_destroy. wp_step. wp_step. wp_step. apply HQ. by repeat constructor. Qed.
End queues.
