(* ===== verification/Format.v ===== *)
(** * Formatted output and time (silog_comm/src/silog_time.c)

    The conversions of [printf] that SiLog uses, the strings that [snprintf_s]
    leaves in a local array, and the time functions. *)

From S2P Require Import Prelude Errors CObj LogEntry Os.
#[local] Open Scope Z_scope.

(** ** Conversions *)

Definition digit (n : Z) : Z := 48 + n mod 10.

(** The decimal digits of [n >= 0], most significant first; [fuel] bounds their
    number (20 digits are enough for 64 bits). *)
Fixpoint digits (fuel : nat) (n : Z) : list Z :=
  match fuel with
  | O => []
  | S fuel => if n <? 10 then [digit n] else digits fuel (n / 10) ++ [digit n]
  end.

(** [%u] and [%d]. *)
Definition fmt_u (n : Z) : list Z := digits 20 n.
Definition fmt_d (n : Z) : list Z := if n <? 0 then 45 :: fmt_u (- n) else fmt_u n.

(** A minimum width filled with zeros, as in [%04u] and [%02d]; the sign comes
    first. *)
Definition fmt_0u (w : nat) (n : Z) : list Z := replicate (w - length (fmt_u n)) 48 ++ fmt_u n.
Definition fmt_0d (w : nat) (n : Z) : list Z :=
  if n <? 0 then 45 :: fmt_0u (w - 1) (- n) else fmt_0u w n.

(** The string left in an array of [n] bytes by [snprintf_s(a, n, n - 1, ...)]
    when the expansion is [s]. *)
Definition sprint (n : Z) (s : list Z) : list Z := take (Z.to_nat (n - 1)) s.

(** The characters of a string constant. *)
Definition chars (s : string) : list Z :=
  map (fun c => Z.of_N (Ascii.N_of_ascii c)) (String.list_ascii_of_string s).

(** A formatted print into an array does not fail. *)
Lemma snprintf_ret a n c s : n <> 0 -> ((obj_snprintf_s a n c s).1 <? 0) = false.
Proof. intros Hn. unfold obj_snprintf_s. ztest. cbn [fst]. apply Z.ltb_ge. lia. Qed.

(** [sprint] is what [snprintf_s] stores. *)
Lemma snprintf_sprint a n s :
  0 < n -> len a = n -> Forall (fun c => c <> 0) s ->
  exists a', (obj_snprintf_s a n (n - 1) s).2 = Some a' /\ len a' = n /\ cstr a' = sprint n s.
Proof.
  intros Hn Ha Hs. unfold obj_snprintf_s, sprint. ztest. cbn [snd].
  set (p := take (Z.to_nat (n - 1)) s).
  assert (len p <= n - 1) as Hp by (unfold p; rewrite length_take; lia).
  rewrite wr_Some by (rewrite ?length_app; simpl; lia). bind_some.
  set (a1 := take _ _ ++ _). assert (len a1 = n) as Ha1.
  { unfold a1. rewrite !length_app, length_take, length_drop, ?length_app. simpl. lia. }
  rewrite wr_Some by (simpl; lia). eexists. split; [done|]. split.
  { rewrite !length_app, length_take, length_drop. simpl. lia. }
  unfold a1. rewrite take_0. cbn [app]. rewrite <- !(assoc_L (++)).
  destruct (decide (len p = n - 1)) as [He|He].
  - rewrite take_app_length' by lia. rewrite cstr_app_nul; [done|by apply Forall_take].
  - rewrite take_app_ge by lia. rewrite <- (assoc_L (++)).
    destruct (Z.to_nat (n - 1) - length p)%nat as [|k] eqn:Hk; [lia|]. cbn [app take].
    rewrite cstr_app_nul; [done|by apply Forall_take].
Qed.

Lemma digits_length fuel n k : (1 <= k)%nat -> 0 <= n < 10 ^ Z.of_nat k -> (length (digits fuel n) <= k)%nat.
Proof.
  revert n k. induction fuel as [|fuel IH]; intros n k Hk Hn; cbn [digits]; [simpl; lia|].
  case_if; [simpl; lia|]. rewrite length_app. simpl.
  destruct k as [|[|k]]; [lia|simpl in Hn; lia|].
  assert (0 <= n / 10 < 10 ^ Z.of_nat (S k)) as Hd.
  { split; [apply Z.div_pos; lia|]. apply Z.div_lt_upper_bound; [lia|].
    rewrite <- Z.pow_succ_r by lia. replace (Z.succ (Z.of_nat (S k))) with (Z.of_nat (S (S k))) by lia. lia. }
  specialize (IH (n / 10) (S k) ltac:(lia) Hd). lia.
Qed.

Lemma fmt_0d_length w n k :
  (1 <= k)%nat -> (w <= k)%nat -> 0 <= n < 10 ^ Z.of_nat k -> (length (fmt_0d w n) <= k)%nat.
Proof.
  intros Hk Hw Hn. unfold fmt_0d, fmt_0u. ztest. rewrite length_app, length_replicate.
  pose proof (digits_length 20 n k Hk Hn). unfold fmt_u. lia.
Qed.

Lemma fmt_d_i32_length n : is_i32 n -> (length (fmt_d n) <= 11)%nat.
Proof.
  unfold is_i32, fmt_d, fmt_u. intros H. change (2 ^ 31) with 2147483648 in H.
  case_if; cbn [length].
  - pose proof (digits_length 20 (- n) 10 ltac:(lia)) as Hd. change (10 ^ Z.of_nat 10) with 10000000000 in Hd. lia.
  - pose proof (digits_length 20 n 10 ltac:(lia)) as Hd. change (10 ^ Z.of_nat 10) with 10000000000 in Hd. lia.
Qed.

(** ** Time *)

Section time.
Context {S W : Type} `{!Os W}.

(** The value of [clock_gettime]: seconds and nanoseconds. *)
Definition clock_ms (a : answer) : Z :=
  if negb (ret a =? 0) then 0
  else u64 (u64 (u64 (nth 0 (out a) 0) * 1000) + u64 (nth 1 (out a) 0) / (1000 * 1000000)).

Definition SilogGetNowMs : M S W Z :=
  a ← sys (CClockGettime false);
  (if negb (ret a =? 0)
   then SILOG_PRELOG_E SILOG_PRELOG_COMM "clock_gettime(CLOCK_REALTIME) failed: %s" [AErrno] else mret tt) ;;
  mret (clock_ms a).
Definition SilogGetMonoMs : M S W Z :=
  a ← sys (CClockGettime true);
  (if negb (ret a =? 0)
   then SILOG_PRELOG_E SILOG_PRELOG_COMM "clock_gettime(CLOCK_MONOTONIC) failed: %s" [AErrno] else mret tt) ;;
  mret (clock_ms a).

(** [SilogFormatWallClockMs] on a buffer of [bufferLen] bytes ([None] for a null
    pointer); [localtime_r] answers with the six fields of the broken-down time. *)
Definition SilogFormatWallClockMs (inputMs : Z) (buffer : option (list Z)) (bufferLen : Z)
    : M S W (option (list Z)) :=
  match buffer with
  | None => SILOG_PRELOG_E SILOG_PRELOG_COMM "FormatWallClockMs failed: invalid argument" [] ;; mret None
  | Some b =>
      if bufferLen =? 0 then
        SILOG_PRELOG_E SILOG_PRELOG_COMM "FormatWallClockMs failed: invalid argument" [] ;;
        mret (Some b)
      else
        b ← lift (wr b 0 [0]);
        let sec64 := inputMs / 1000 in
        let msec := u32 (inputMs mod 1000) in
        if 2 ^ 63 - 1 <? sec64 then
          SILOG_PRELOG_E SILOG_PRELOG_COMM "FormatWallClockMs failed: timestamp overflow" [] ;;
          mret (Some b)
        else
          t ← sys (CLocaltime sec64);
          if ret t =? 0 then
            SILOG_PRELOG_E SILOG_PRELOG_COMM "FormatWallClockMs failed: localtime_r error: %s" [AErrno] ;;
            mret (Some b)
          else
            let f i := nth i (out t) 0 in
            let s := fmt_0d 4 (f 0%nat + 1900) ++ chars "-" ++ fmt_0d 2 (f 1%nat + 1) ++ chars "-" ++
                     fmt_0d 2 (f 2%nat) ++ chars " " ++ fmt_0d 2 (f 3%nat) ++ chars ":" ++
                     fmt_0d 2 (f 4%nat) ++ chars ":" ++ fmt_0d 2 (f 5%nat) ++ chars "." ++ fmt_0u 4 msec in
            let p := obj_snprintf_s b bufferLen (bufferLen - 1) s in
            b ← lift p.2;
            if p.1 <? 0 then b ← lift (wr b (bufferLen - 1) [0]); mret (Some b) else mret (Some b)
  end.
End time.

Section clocks.
Context {S W : Type} `{!Os W}.
Lemma wp_now (Q : Z -> env S W -> Prop) e :
  (forall a w w', os (CClockGettime false) (world e) = (a, w) ->
     Q (clock_ms a) (Env (mem e) w' (trace e ++ [(CClockGettime false, a)]) (held e))) ->
  wp SilogGetNowMs Q e.
Proof. intros H. unfold SilogGetNowMs. wp_step. wp_step. wp_step. wp_step; wp_steps; by eapply H. Qed.
Lemma wp_mono_now (Q : Z -> env S W -> Prop) e :
  (forall a w w', os (CClockGettime true) (world e) = (a, w) ->
     Q (clock_ms a) (Env (mem e) w' (trace e ++ [(CClockGettime true, a)]) (held e))) ->
  wp SilogGetMonoMs Q e.
Proof. intros H. unfold SilogGetMonoMs. wp_step. wp_step. wp_step. wp_step; wp_steps; by eapply H. Qed.
End clocks.

(** A timespec whose nanoseconds are in range counts whole seconds only: the
    divisor is a billion. *)
Lemma clock_whole_seconds s ns err nm :
  0 <= s -> s * 1000 < 2 ^ 64 -> 0 <= ns < 10 ^ 9 ->
  clock_ms (Ans 0 err [s; ns] nm) = s * 1000.
Proof.
  intros Hs Hm Hn. change (10 ^ 9) with 1000000000 in Hn. unfold clock_ms. cbn [ret out nth Z.eqb negb].
  rewrite (Z.div_small (u64 ns)) by (rewrite u64_small by (unfold is_u64; lia); lia).
  rewrite Z.add_0_r, (u64_small s) by (unfold is_u64; lia).
  by rewrite !(u64_small (s * 1000)) by (unfold is_u64; lia).
Qed.

(** Both clocks return whole seconds: for every valid time of the kernel the
    value is the seconds times 1000, and the milliseconds are always lost. *)
Theorem clocks_lose_milliseconds {S W} `{!Os W} (mono : bool) s ns err nm w' (e : env S W) :
  0 <= s -> s * 1000 < 2 ^ 64 -> 0 <= ns < 10 ^ 9 ->
  os (CClockGettime mono) (world e) = (Ans 0 err [s; ns] nm, w') ->
  wp (if mono then SilogGetMonoMs else SilogGetNowMs)
    (fun ms e' => ms = s * 1000 /\ ms mod 1000 = 0 /\ mem e' = mem e /\ held e' = held e) e.
Proof.
  intros Hs Hm Hn Ho.
  destruct mono; [apply wp_mono_now|apply wp_now]; intros a w w1 H; rewrite Ho in H; injection H as <- <-;
    rewrite clock_whole_seconds by done; by rewrite Z.mod_mul.
Qed.

(** The text of a broken-down time with its milliseconds. *)
Definition wall_clock_text (t : answer) (msec : Z) : list Z :=
  let f i := nth i (out t) 0 in
  fmt_0d 4 (f 0%nat + 1900) ++ chars "-" ++ fmt_0d 2 (f 1%nat + 1) ++ chars "-" ++
  fmt_0d 2 (f 2%nat) ++ chars " " ++ fmt_0d 2 (f 3%nat) ++ chars ":" ++
  fmt_0d 2 (f 4%nat) ++ chars ":" ++ fmt_0d 2 (f 5%nat) ++ chars "." ++ fmt_0u 4 msec.

Lemma digits_nonzero fuel n : Forall (fun c => c <> 0) (digits fuel n).
Proof.
  revert n. induction fuel as [|fuel IH]; intros n; cbn [digits]; [constructor|].
  assert (digit n <> 0) by (unfold digit; pose proof (Z.mod_pos_bound n 10); lia).
  case_if; [by repeat constructor|]. apply Forall_app. split; [apply IH|by repeat constructor].
Qed.
Lemma fmt_0u_nonzero w n : Forall (fun c => c <> 0) (fmt_0u w n).
Proof.
  apply Forall_app. split; [|apply digits_nonzero]. by apply Forall_replicate.
Qed.
Lemma fmt_0d_nonzero w n : Forall (fun c => c <> 0) (fmt_0d w n).
Proof. unfold fmt_0d. case_if; [constructor; [lia|]|]; apply fmt_0u_nonzero. Qed.
#[export] Hint Resolve digits_nonzero fmt_0u_nonzero fmt_0d_nonzero : silog.

Lemma wall_clock_nonzero t ms : Forall (fun c => c <> 0) (wall_clock_text t ms).
Proof.
  unfold wall_clock_text. rewrite !Forall_app. split_and!; auto with silog; cbn; repeat constructor; lia.
Qed.

(** The wall clock is formatted without leaving the buffer: for every time and
    every buffer the call returns, the buffer keeps its size, and it holds a
    terminated string, empty if the time is not representable, else the longest
    prefix of the text that fits. *)
Theorem format_wall_clock_fits {S W} `{!Os W} ms b (e : env S W) :
  is_u64 ms -> 0 < len b ->
  wp (SilogFormatWallClockMs ms (Some b) (len b))
    (fun r e' => mem e' = mem e /\ held e' = held e /\ exists b' t, r = Some b' /\ length b' = length b /\
       cstr b' = if ret t =? 0 then [] else sprint (len b) (wall_clock_text t (ms mod 1000))) e.
Proof.
  intros Hms Hb. unfold SilogFormatWallClockMs. ztest. wp_step.
  destruct b as [|c b]; [simpl in Hb; lia|]. eapply wp_lift; [apply wr_Some; simpl; lia|].
  set (b0 := _ ++ _). assert (b0 = 0 :: b) as Hb0 by done. rewrite Hb0. clearbody b0. subst b0.
  wp_step.
  { wp_step. split; [done|]. split; [done|]. exists (0 :: b), (fails 0). split; [done|]. split; [done|].
    unfold is_u64 in Hms. pose proof (Z.div_le_upper_bound ms 1000 (2 ^ 63 - 1)). lia. }
  wp_step. wp_step. wp_step.
  { wp_step. split; [done|]. split; [done|]. exists (0 :: b), a. split; [done|]. split; [done|].
    by ztest. }
  fold (wall_clock_text a (u32 (ms mod 1000))).
  rewrite (u32_small (ms mod 1000)) by (unfold is_u32; pose proof (Z.mod_pos_bound ms 1000); lia).
  destruct (snprintf_sprint (0 :: b) (len (c :: b)) (wall_clock_text a (ms mod 1000)))
    as (a' & Ha & Hl & Hc); [done|done|apply wall_clock_nonzero|].
  wp_step. eapply wp_lift; [exact Ha|]. rewrite snprintf_ret by (cbn; lia). wp_step.
  split; [done|]. split; [done|]. exists a', a.
  split; [done|]. split; [simpl in *; lia|]. ztest. exact Hc.
Qed.

(** ** The properties at concrete inputs *)

Lemma clocks_lose_milliseconds_witness :
  wp (S:=unit) SilogGetNowMs (fun ms _ => ms = 1700000000000)
    (Env tt [Ans 0 0 [1700000000; 999999999] []] [] false).
Proof.
  eapply wp_mono;
    [apply (clocks_lose_milliseconds false 1700000000 999999999 0 [] []); [lia|lia|lia|reflexivity]|].
  intros ms e' (Hm & _). rewrite Hm. reflexivity.
Defined.

Lemma format_wall_clock_fits_witness :
  wp (S:=unit) (SilogFormatWallClockMs 1750000000123 (Some (replicate 12 7)) 12)
    (fun r e' => exists b', r = Some b' /\ length b' = 12%nat)
    (Env tt [Ans 1 0 [125; 5; 15; 23; 6; 40] []] [] false).
Proof.
  eapply wp_mono; [apply (format_wall_clock_fits 1750000000123 (replicate 12 7)); [split; lia|cbn; lia]|].
  intros r e' (_ & _ & b' & t & Hr & Hl & _). exists b'. split; [exact Hr|exact Hl].
Defined.
