(* ===== verification/Text.v ===== *)
(** * Text functions of the C library, as the programs use them

    Strings in character arrays, [strncpy], and the conversion of decimal numbers
    to and from text. *)

From S2P Require Import Prelude Errors CObj LogEntry Os Format.
#[local] Open Scope Z_scope.

(** The standard error stream. *)
Definition STDERR : Z := -2.

(** A line of text. *)
Definition nl (s : string) : list Z := chars s ++ [10].

(** The argument is one of the two forms of an option. *)
Definition is_opt (a : list Z) (short long : string) : bool :=
  bool_decide (a = chars short) || bool_decide (a = chars long).

(** ** Strings in arrays *)

(** A character array of [n] bytes that holds a string, cut to fit. *)
Definition string_array (n : Z) (s : list Z) : list Z :=
  let p := sprint n s in p ++ replicate (Z.to_nat n - length p) 0.

Lemma string_array_length n s : 0 < n -> len (string_array n s) = n.
Proof.
  intros Hn. unfold string_array, sprint. rewrite length_app, length_replicate, length_take. lia.
Qed.

(** [strncpy] of [count] characters to the start of an array. *)
Definition strncpy (dst src : list Z) (count : Z) : option (list Z) :=
  wr dst 0 (take (Z.to_nat count) (src ++ replicate (Z.to_nat count) 0)).

Lemma strncpy_string dst v n :
  0 < n -> len dst = n ->
  exists b, strncpy dst v (n - 1) = Some b /\ <[Z.to_nat (n - 1) := 0]> b = string_array n v.
Proof.
  intros Hn Hd. unfold strncpy. set (p := take (Z.to_nat (n - 1)) _).
  assert (length p = Z.to_nat (n - 1)) as Hp by (unfold p; rewrite length_take, length_app, length_replicate; lia).
  rewrite wr_Some by lia. eexists. split; [done|].
  change (take (Z.to_nat 0) dst) with (@nil Z). rewrite app_nil_l, Hp.
  change (Z.to_nat 0 + Z.to_nat (n - 1))%nat with (Z.to_nat (n - 1)).
  rewrite insert_app_r_alt, Hp, Nat.sub_diag by lia.
  destruct (drop (Z.to_nat (n - 1)) dst) as [|x r] eqn:Hr.
  { apply (f_equal length) in Hr. rewrite length_drop in Hr. cbn in Hr. lia. }
  assert (r = []) as ->.
  { apply (f_equal length) in Hr. rewrite length_drop in Hr. destruct r; [done|cbn in Hr; lia]. }
  cbn [insert list_insert]. unfold p, string_array, sprint. rewrite take_app, take_replicate, <- (assoc_L (++)). f_equal.
  rewrite length_take. change [0] with (replicate 1 0). rewrite <- replicate_add. f_equal. lia.
Qed.

(** ** Decimal numbers *)

Definition isspace (c : Z) : bool := (c =? 32) || (9 <=? c) && (c <=? 13).
Definition isdigit (c : Z) : bool := (48 <=? c) && (c <=? 57).
Fixpoint skip_space (s : list Z) : list Z :=
  match s with c :: r => if isspace c then skip_space r else s | [] => [] end.
Fixpoint atoi_digits (acc : Z) (s : list Z) : Z :=
  match s with c :: r => if isdigit c then atoi_digits (acc * 10 + (c - 48)) r else acc | [] => acc end.
(** The integer at the start of a text: blanks, a sign, at least one digit. *)
Definition int_text (s : list Z) : option Z :=
  let s := skip_space s in
  let '(neg, r) := match s with
                   | c :: r => if c =? 45 then (true, r) else if c =? 43 then (false, r) else (false, s)
                   | [] => (false, [])
                   end in
  match r with
  | c :: _ => if isdigit c then Some (if neg then - atoi_digits 0 r else atoi_digits 0 r) else None
  | [] => None
  end.
(** [atoi], and [fscanf] of one [%d] from the characters of a file ([Some None]:
    no conversion): both undefined if the number is not an [int]. *)
Definition int_range (v : Z) : bool := (- 2 ^ 31 <=? v) && (v <? 2 ^ 31).
Definition atoi (s : list Z) : option Z :=
  let v := default 0 (int_text s) in if int_range v then Some v else None.
Definition scan_d (s : list Z) : option (option Z) :=
  match int_text s with
  | Some v => if int_range v then Some (Some v) else None
  | None => Some None
  end.

Lemma digits_isdigit fuel n : Forall (fun c => isdigit c = true) (digits fuel n).
Proof.
  revert n. induction fuel as [|fuel IH]; intros n; cbn [digits]; [constructor|].
  assert (isdigit (digit n) = true) as Hd.
  { unfold isdigit, digit. pose proof (Z.mod_pos_bound n 10). apply andb_true_iff. split; apply Z.leb_le; lia. }
  case_if; [by constructor|]. apply Forall_app. split; [apply IH|by constructor].
Qed.
Lemma atoi_digits_fold acc s :
  Forall (fun c => isdigit c = true) s -> atoi_digits acc s = foldl (fun a c => a * 10 + (c - 48)) acc s.
Proof. intros Hs. revert acc. induction Hs as [|c s Hc _ IH]; intros acc; cbn; [done|]. by rewrite Hc, IH. Qed.
Lemma digits_value fuel n :
  0 <= n < 10 ^ Z.of_nat fuel -> foldl (fun a c => a * 10 + (c - 48)) 0 (digits fuel n) = n.
Proof.
  revert n. induction fuel as [|fuel IH]; intros n Hn; cbn [digits]; [cbn in *; lia|].
  case_if; [cbn; unfold digit; rewrite Z.mod_small by lia; lia|].
  rewrite foldl_app, IH.
  - cbn [foldl]. unfold digit. pose proof (Z.div_mod n 10). lia.
  - split; [apply Z.div_pos; lia|]. apply Z.div_lt_upper_bound; [lia|]. rewrite <- Z.pow_succ_r by lia.
    rewrite Nat2Z.inj_succ in Hn. lia.
Qed.
(** Reading back a printed number, whatever follows it. *)
Lemma atoi_digits_app acc s c r :
  Forall (fun c => isdigit c = true) s -> isdigit c = false ->
  atoi_digits acc (s ++ c :: r) = atoi_digits acc s.
Proof.
  intros Hs Hc. revert acc. induction Hs as [|x s Hx _ IH]; intros acc; cbn; [by rewrite Hc|]. by rewrite Hx, IH.
Qed.
Lemma isdigit_not_sign c : isdigit c = true -> isspace c = false /\ (c =? 45) = false /\ (c =? 43) = false.
Proof.
  unfold isdigit, isspace. intros [H1 H2]%andb_true_iff. reflectZ.
  split; [|split; apply Z.eqb_neq; lia]. apply orb_false_iff. split; [apply Z.eqb_neq; lia|].
  apply andb_false_iff. right. apply Z.leb_gt. lia.
Qed.
Lemma int_text_u n r :
  0 <= n < 10 ^ 20 -> match r with c :: _ => isdigit c = false | [] => True end -> int_text (fmt_u n ++ r) = Some n.
Proof.
  intros Hn Hr. pose proof (digits_isdigit 20 n) as Hd.
  assert (atoi_digits 0 (fmt_u n ++ r) = n) as Hv.
  { transitivity (atoi_digits 0 (fmt_u n)); [destruct r; [by rewrite app_nil_r|by apply atoi_digits_app]|].
    rewrite atoi_digits_fold by done. by apply (digits_value 20). }
  unfold int_text, fmt_u in *. destruct (digits 20 n) as [|c s] eqn:Hdig.
  { exfalso. change 20%nat with (S 19) in Hdig. cbn [digits] in Hdig. revert Hdig. case_if; [done|].
    by intros [_ ?]%app_eq_nil. }
  apply Forall_cons_1 in Hd as [Hc _]. destruct (isdigit_not_sign c Hc) as (H1 & H2 & H3).
  cbn [skip_space app] in *. by rewrite H1, H2, H3, Hc, Hv.
Qed.
Lemma int_text_d n r :
  is_i32 n -> match r with c :: _ => isdigit c = false | [] => True end -> int_text (fmt_d n ++ r) = Some n.
Proof.
  unfold is_i32. intros Hn Hr. assert (2 ^ 31 < 10 ^ 20) as Hp by done. unfold fmt_d. destruct (n <? 0) eqn:E; reflectZ.
  - pose proof (int_text_u (- n) r ltac:(lia) Hr) as H. unfold int_text, fmt_u in H |- *.
    pose proof (digits_isdigit 20 (- n)) as Hd. destruct (digits 20 (- n)) as [|c s] eqn:Hdig.
    { exfalso. change 20%nat with (S 19) in Hdig. cbn [digits] in Hdig. revert Hdig. case_if; [done|].
      by intros [_ ?]%app_eq_nil. }
    apply Forall_cons_1 in Hd as [Hc _]. destruct (isdigit_not_sign c Hc) as (H1 & H2 & H3).
    cbn [skip_space app] in *. rewrite H1, H2, H3, Hc in H. injection H as H.
    change (isspace 45) with false. cbn - [atoi_digits isdigit]. rewrite Hc.
    cbn [atoi_digits] in H |- *. rewrite ?Hc in *. f_equal. lia.
  - apply int_text_u; [lia|done].
Qed.
Lemma int_range_i32 n : is_i32 n -> int_range n = true.
Proof. unfold is_i32, int_range. intros. apply andb_true_iff. split; [apply Z.leb_le|apply Z.ltb_lt]; lia. Qed.
Lemma atoi_decimal n : 0 <= n < 2 ^ 31 -> atoi (fmt_u n) = Some n.
Proof.
  intros Hn. assert (2 ^ 31 < 10 ^ 20) by done. unfold atoi. rewrite <- (app_nil_r (fmt_u n)), int_text_u by first [exact I | lia].
  change (default 0 (Some n)) with n. by rewrite int_range_i32 by (unfold is_i32; lia).
Qed.
Lemma scan_decimal n r :
  is_i32 n -> match r with c :: _ => isdigit c = false | [] => True end -> scan_d (fmt_d n ++ r) = Some (Some n).
Proof. intros Hn Hr. unfold scan_d. by rewrite int_text_d, int_range_i32. Qed.
