(* ===== verification/RemoteServer.v ===== *)
(** * The remote log server (silog_comm/src/silog_remote.c, first half)

    The table of TCP clients of the daemon: accepting connections, broadcasting
    entries to every client, closing clients that fail. The accepting thread and
    the broadcasting thread share the table under a mutex; the broadcast
    releases it around each [send]. *)

From Stdlib Require Import Sorted.
From S2P Require Import Prelude Errors CObj LogEntry RemoteCodec Os Format.
#[local] Open Scope Z_scope.

(** ** Data *)

Record SilogRemoteClient := MkClient { c_fd : Z; c_addr : list Z; c_active : bool }.

Record SilogRemoteManager := MkMgr {
  m_isInit : bool;
  m_listenFd : Z;
  m_listenPort : Z;
  m_maxClients : Z;
  m_clients : option (list SilogRemoteClient);   (* None: the null pointer *)
  m_clientCount : Z
}.

Record SilogRemoteConfig_t := MkRemoteConfig {
  cfg_listenPort : Z;
  cfg_maxClients : Z;
  cfg_enableAuth : bool
}.

Definition SILOG_REMOTE_DEFAULT_PORT : Z := 9090.
Definition SILOG_REMOTE_DEFAULT_MAX_CLIENTS : Z := 10.
Definition SILOG_REMOTE_BACKLOG : Z := 10.
Definition sizeof_SilogRemoteClient : Z := 24.

(** [struct sockaddr_in] is 16 bytes; [memset_s] clears it. *)
Definition zero_addr : list Z := replicate 16 0.

(** The address and port of a [struct sockaddr_in] as the diagnostics show them:
    [inet_ntop(AF_INET, &addr.sin_addr, ..)] and [ntohs(addr.sin_port)]. *)
Definition inet_ntop (addr : list Z) : list Z :=
  let b i := fmt_u (nth i addr 0) in b 4%nat ++ [46] ++ b 5%nat ++ [46] ++ b 6%nat ++ [46] ++ b 7%nat.
Definition ntohs_port (addr : list Z) : Z := Z.lor (Z.shiftl (nth 2 addr 0) 8) (nth 3 addr 0).
Example inet_ntop_loopback : inet_ntop [2; 0; 35; 130; 127; 0; 0; 1] = chars "127.0.0.1".
Proof. reflexivity. Qed.

Definition g_silogRemoteMgr : SilogRemoteManager :=
  MkMgr false (-1) SILOG_REMOTE_DEFAULT_PORT SILOG_REMOTE_DEFAULT_MAX_CLIENTS None 0.

Definition set_isInit b m :=
  MkMgr b (m_listenFd m) (m_listenPort m) (m_maxClients m) (m_clients m) (m_clientCount m).
Definition set_listenFd f m :=
  MkMgr (m_isInit m) f (m_listenPort m) (m_maxClients m) (m_clients m) (m_clientCount m).
Definition set_config p n m :=
  MkMgr (m_isInit m) (m_listenFd m) p n (m_clients m) (m_clientCount m).
Definition set_clients c m :=
  MkMgr (m_isInit m) (m_listenFd m) (m_listenPort m) (m_maxClients m) c (m_clientCount m).
Definition set_count n m :=
  MkMgr (m_isInit m) (m_listenFd m) (m_listenPort m) (m_maxClients m) (m_clients m) n.

(** ** Operations *)

Section server.
Context {W : Type} `{!Os W, !Others SilogRemoteManager W}.
#[local] Abbreviation RM := (M SilogRemoteManager W).

(** [g_silogRemoteMgr.clients[i]], read and written. *)
Definition client_at (i : Z) : RM SilogRemoteClient :=
  m ← get; lift (l ← m_clients m; l !! Z.to_nat i).
Definition client_put (i : Z) (c : SilogRemoteClient) : RM unit :=
  _ ← client_at i;
  modify (fun m => set_clients (l ← m_clients m; Some (<[Z.to_nat i := c]> l)) m).

Definition SilogRemoteSetNonblock (fd : Z) : RM ErrorCode :=
  flags ← sys (CGetfl fd);
  if ret flags <? 0 then mret SILOG_NET_FILE_ERROR
  else
    r ← sys (CSetfl fd (Z.lor (ret flags) O_NONBLOCK));
    if ret r <? 0 then mret SILOG_NET_FILE_ERROR else mret SILOG_OK.

Fixpoint find_free_loop (fuel : nat) (i : Z) : RM Z :=
  match fuel with
  | O => undefined
  | S fuel =>
      m ← get;
      if i <? m_maxClients m then
        c ← client_at i;
        if negb (c_active c) then mret (i32 i) else find_free_loop fuel (u32 (i + 1))
      else mret (-1)
  end.

Definition SilogRemoteFindFreeSlot : RM Z :=
  m ← get; find_free_loop (S (Z.to_nat (m_maxClients m))) 0.

Definition SilogRemoteCloseClientInternal (idx : Z) : RM unit :=
  m ← get;
  if m_maxClients m <=? idx then mret tt
  else
    client ← client_at idx;
    (if c_active client && (0 <=? c_fd client) then
       _ ← sys (CClose (c_fd client));
       SILOG_PRELOG_I SILOG_PRELOG_DAEMON "Remote client disconnected: %s:%d"
         [AStr (inet_ntop (c_addr client)); AInt (ntohs_port (c_addr client))]
     else mret tt) ;;
    (if c_active client then
       client_put idx (MkClient (c_fd client) (c_addr client) false) ;;
       modify (fun m => if 0 <? m_clientCount m then set_count (u32 (m_clientCount m - 1)) m else m)
     else mret tt) ;;
    client_put idx (MkClient (-1) zero_addr false).

Definition SilogRemoteCloseClientLocked (idx : Z) : RM unit :=
  lock ;; SilogRemoteCloseClientInternal idx ;; unlock.

(** [close(listenFd); listenFd = -1; SiFree(clients); clients = NULL], the
    clean-up of a failed initialisation. *)
Definition init_cleanup : RM unit :=
  m ← get;
  _ ← sys (CClose (m_listenFd m));
  modify (set_listenFd (-1)) ;;
  _ ← SiFree;
  modify (set_clients None).

Definition SilogRemoteInit (config : option SilogRemoteConfig_t) : RM ErrorCode :=
  m ← get;
  if m_isInit m then
    SILOG_PRELOG_W SILOG_PRELOG_DAEMON "Remote service already initialized" [] ;; mret SILOG_OK
  else
    (match config with
     | Some c =>
         modify (set_config
           (if cfg_listenPort c =? 0 then SILOG_REMOTE_DEFAULT_PORT else cfg_listenPort c)
           (if cfg_maxClients c =? 0 then SILOG_REMOTE_DEFAULT_MAX_CLIENTS else cfg_maxClients c))
     | None => modify (set_config SILOG_REMOTE_DEFAULT_PORT SILOG_REMOTE_DEFAULT_MAX_CLIENTS)
     end) ;;
    m ← get;
    p ← SiMalloc (u64 (sizeof_SilogRemoteClient * m_maxClients m));
    if ret p =? 0 then
      modify (set_clients None) ;;
      SILOG_PRELOG_E SILOG_PRELOG_DAEMON "Failed to allocate client array" [] ;;
      mret SILOG_OUT_OF_MEMORY
    else
      (* the memory is not initialised: each cell is written by the loop *)
      modify (set_clients (Some (replicate (Z.to_nat (m_maxClients m)) (MkClient 0 [] true)))) ;;
      for_lt (S (Z.to_nat (m_maxClients m))) 0 (m ← get; mret (m_maxClients m))
        (fun i => client_put i (MkClient (-1) zero_addr false)) ;;
      modify (set_count 0) ;;
      s ← sys CSocket;
      modify (set_listenFd (ret s)) ;;
      if ret s <? 0 then
        SILOG_PRELOG_E SILOG_PRELOG_DAEMON "Failed to create listen socket: %s" [AErrno] ;;
        _ ← SiFree; modify (set_clients None) ;; mret SILOG_NET_FILE_CREATE
      else
        o ← sys (CSetsockopt (ret s));
        (if ret o <? 0 then SILOG_PRELOG_W SILOG_PRELOG_DAEMON "Failed to set SO_REUSEADDR: %s" [AErrno]
         else mret tt) ;;
        m ← get;
        b ← sys (CBind (m_listenFd m) (m_listenPort m));
        if ret b <? 0 then
          SILOG_PRELOG_E SILOG_PRELOG_DAEMON "Failed to bind port %d: %s" [AInt (m_listenPort m); AErrno] ;;
          init_cleanup ;; mret SILOG_NET_FILE_OPEN
        else
          l ← sys (CListen (m_listenFd m) SILOG_REMOTE_BACKLOG);
          if ret l <? 0 then
            SILOG_PRELOG_E SILOG_PRELOG_DAEMON "Failed to listen: %s" [AErrno] ;;
            init_cleanup ;; mret SILOG_NET_FILE_ERROR
          else
            r ← SilogRemoteSetNonblock (m_listenFd m);
            if decide (r <> SILOG_OK) then init_cleanup ;; mret r
            else
              modify (set_isInit true) ;;
              SILOG_PRELOG_I SILOG_PRELOG_DAEMON "Remote log service initialized on port %d" [AInt (m_listenPort m)] ;;
              mret SILOG_OK.

Definition SilogRemoteDeinit : RM unit :=
  lock ;;
  m ← get;
  if negb (m_isInit m) then unlock
  else
    for_lt (S (Z.to_nat (m_maxClients m))) 0 (m ← get; mret (m_maxClients m))
      SilogRemoteCloseClientInternal ;;
    m ← get;
    (if 0 <=? m_listenFd m then _ ← sys (CClose (m_listenFd m)); modify (set_listenFd (-1))
     else mret tt) ;;
    (match m_clients m with
     | Some _ => _ ← SiFree; modify (set_clients None)
     | None => mret tt
     end) ;;
    modify (set_count 0) ;;
    modify (set_isInit false) ;;
    unlock ;;
    SILOG_PRELOG_I SILOG_PRELOG_DAEMON "Remote log service deinitialized" [].

Definition SilogRemoteAccept : RM ErrorCode :=
  m ← get;
  if negb (m_isInit m) then mret SILOG_NET_FILE_ERROR
  else
    a ← sys (CAccept (m_listenFd m));
    let clientFd := ret a in
    if clientFd <? 0 then
      if errno a =? EAGAIN then mret SILOG_NET_TIMEOUT
      else
        SILOG_PRELOG_E SILOG_PRELOG_DAEMON "Failed to accept: %s" [AErrno] ;; mret SILOG_NET_FILE_ERROR
    else
      let peer := [AStr (inet_ntop (out a)); AInt (ntohs_port (out a))] in
      lock ;;
      m ← get;
      if m_maxClients m <=? m_clientCount m then
        unlock ;;
        SILOG_PRELOG_W SILOG_PRELOG_DAEMON "Max clients reached, rejecting connection from %s:%d" peer ;;
        _ ← sys (CClose clientFd); mret SILOG_NET_FILE_ERROR
      else
        slot ← SilogRemoteFindFreeSlot;
        if slot <? 0 then
          unlock ;;
          SILOG_PRELOG_W SILOG_PRELOG_DAEMON "No free slot for connection from %s:%d" peer ;;
          _ ← sys (CClose clientFd); mret SILOG_NET_FILE_ERROR
        else
          r ← SilogRemoteSetNonblock clientFd;
          if decide (r <> SILOG_OK) then unlock ;; _ ← sys (CClose clientFd); mret r
          else
            client_put slot (MkClient clientFd (out a) true) ;;
            modify (fun m => set_count (u32 (m_clientCount m + 1)) m) ;;
            unlock ;;
            SILOG_PRELOG_I SILOG_PRELOG_DAEMON "Remote client connected: %s:%d (slot %d)" (peer ++ [AInt slot]) ;;
            mret SILOG_OK.

(** The loop of [SilogRemoteSendFull]: every iteration that continues has sent
    at least one byte. *)
Fixpoint send_loop (fuel : nat) (fd : Z) (buf : list Z) (sent : Z) : RM ErrorCode :=
  match fuel with
  | O => undefined
  | S fuel =>
      if sent <? len buf then
        d ← lift (rd buf sent (len buf - sent));
        n ← sys (CSend fd d);
        if ret n <? 0 then
          if errno n =? EAGAIN then mret SILOG_NET_TIMEOUT else mret SILOG_NET_FILE_ERROR
        else if ret n =? 0 then mret SILOG_NET_FILE_ERROR
        else send_loop fuel fd buf (u64 (sent + ret n))
      else mret SILOG_OK
  end.

Definition SilogRemoteSendFull (fd : Z) (buf : list Z) : RM ErrorCode :=
  send_loop (S (length buf)) fd buf 0.

(** One iteration of the loop of [SilogRemoteBroadcast]; [count] is
    [actualSentCount], threaded through the loop. *)
Definition broadcast_one (buf : list Z) (i count : Z) : RM Z :=
  client ← client_at i;
  if negb (c_active client) || (c_fd client <? 0) then mret count
  else
    let fd := c_fd client in
    unlock ;;
    r ← SilogRemoteSendFull fd buf;
    lock ;;
    if decide (r <> SILOG_OK) then
      if decide (r = SILOG_NET_TIMEOUT) then mret count
      else
        SILOG_PRELOG_W SILOG_PRELOG_DAEMON "Failed to send to client %u: %s" [AInt i; AErrno] ;;
        SilogRemoteCloseClientInternal i ;; mret count
    else mret (i32 (count + 1)).

Fixpoint broadcast_loop (fuel : nat) (buf : list Z) (i count : Z) : RM Z :=
  match fuel with
  | O => undefined
  | S fuel =>
      m ← get;
      if i <? m_maxClients m then
        count ← broadcast_one buf i count;
        broadcast_loop fuel buf (u32 (i + 1)) count
      else mret count
  end.

(** The second component is what is stored to [*sentCount], when the pointer is
    not null ([hasCount]). *)
Definition SilogRemoteBroadcast (entry : option logEntry_t) (hasCount : bool)
    : RM (ErrorCode * option Z) :=
  let stored n := if hasCount then Some n else None in
  m ← get;
  if negb (m_isInit m) then mret (SILOG_TRANS_NOT_INIT, stored 0)
  else
    match entry with
    | None => mret (SILOG_NULL_PTR, stored 0)
    | Some entry =>
        lock ;;
        m ← get;
        if m_clientCount m =? 0 then unlock ;; mret (SILOG_OK, stored 0)
        else
          let buf := replicate (Z.to_nat SILOG_REMOTE_ENTRY_SIZE) 0 in
          b ← lift (SilogRemoteSerializeEntry entry (Some buf) SILOG_REMOTE_ENTRY_SIZE true);
          let bufLen := default 0 b.2 in
          if bufLen =? 0 then unlock ;; mret (SILOG_INVALID_ARG, stored 0)
          else
            d ← lift (b ← b.1; rd b 0 bufLen);
            count ← broadcast_loop (S (Z.to_nat (m_maxClients m))) d 0 0;
            unlock ;;
            mret (SILOG_OK, stored count)
    end.

Definition SilogRemoteGetClientCount : RM Z :=
  lock ;;
  m ← get;
  let count := if m_isInit m then m_clientCount m else 0 in
  unlock ;;
  mret count.

Definition SilogRemoteIsInit : RM bool := m ← get; mret (m_isInit m).
End server.

(** ** The client table *)

Definition active_fds (l : list SilogRemoteClient) : list Z :=
  omap (fun c => if c_active c then Some (c_fd c) else None) l.

(** The descriptors that the manager holds. *)
Definition fds (m : SilogRemoteManager) : gmultiset Z :=
  (if 0 <=? m_listenFd m then {[+ m_listenFd m +]} else ∅) ⊎
  list_to_set_disj (active_fds (default [] (m_clients m))).

Definition client_ok (c : SilogRemoteClient) : Prop :=
  if c_active c then 0 <= c_fd c else c_fd c = -1.

Definition table_ok (m : SilogRemoteManager) (l : list SilogRemoteClient) : Prop :=
  m_clients m = Some l /\ len l = m_maxClients m /\ 0 < m_maxClients m < 2 ^ 32 /\
  m_clientCount m = len (active_fds l) /\ Forall client_ok l.

(** The invariant of the static variable: an initialised manager has a listening
    socket and a consistent table, an uninitialised one holds nothing. *)
Definition mgr_inv (m : SilogRemoteManager) : Prop :=
  if m_isInit m then 0 <= m_listenFd m /\ exists l, table_ok m l
  else m_listenFd m < 0 /\ m_clients m = None /\ m_clientCount m = 0.

Lemma active_fds_app l1 l2 : active_fds (l1 ++ l2) = active_fds l1 ++ active_fds l2.
Proof. apply omap_app. Qed.

Lemma active_fds_cons c l :
  active_fds (c :: l) = (if c_active c then [c_fd c] else []) ++ active_fds l.
Proof. unfold active_fds. cbn [omap list_omap]. by destruct (c_active c). Qed.

Lemma active_fds_le l : (length (active_fds l) <= length l)%nat.
Proof. induction l as [|c l IH]; [done|]. rewrite active_fds_cons. destruct (c_active c); simpl; lia. Qed.

Lemma active_fds_full l : length (active_fds l) = length l -> Forall (fun c => c_active c = true) l.
Proof.
  induction l as [|c l IH]; [constructor|]. rewrite active_fds_cons. destruct (c_active c) eqn:E; simpl.
  - intros H. constructor; [done|]. apply IH. lia.
  - pose proof (active_fds_le l). lia.
Qed.

Lemma list_split_at {A} (l : list A) i c :
  l !! i = Some c ->
  exists l1 l2, l = l1 ++ c :: l2 /\ i = length l1 /\ forall c', <[i := c']> l = l1 ++ c' :: l2.
Proof.
  intros H. pose proof (lookup_lt_Some _ _ _ H). exists (take i l), (drop (S i) l).
  split; [by rewrite take_drop_middle|]. split; [rewrite length_take; lia|].
  intros c'. by apply insert_take_drop.
Qed.

Lemma active_fds_pos l i c :
  l !! i = Some c -> c_active c = true -> (0 < length (active_fds l))%nat.
Proof.
  intros (l1 & l2 & -> & _ & _)%list_split_at Ha.
  rewrite active_fds_app, active_fds_cons, Ha, length_app. simpl. lia.
Qed.


(** What closing slot [i] does to the table. *)
Definition close_slot (i : Z) (m : SilogRemoteManager) : SilogRemoteManager :=
  match m_clients m with
  | Some l =>
      match l !! Z.to_nat i with
      | Some c =>
          MkMgr (m_isInit m) (m_listenFd m) (m_listenPort m) (m_maxClients m)
            (Some (<[Z.to_nat i := MkClient (-1) zero_addr false]> l))
            (if c_active c then m_clientCount m - 1 else m_clientCount m)
      | None => m
      end
  | None => m
  end.

(** What accepting a client into slot [i] does. *)
Definition fill_slot (i : Z) (c : SilogRemoteClient) (m : SilogRemoteManager) : SilogRemoteManager :=
  match m_clients m with
  | Some l =>
      MkMgr (m_isInit m) (m_listenFd m) (m_listenPort m) (m_maxClients m)
        (Some (<[Z.to_nat i := c]> l)) (m_clientCount m + 1)
  | None => m
  end.

Lemma close_slot_table m l i c :
  table_ok m l -> l !! Z.to_nat i = Some c ->
  table_ok (close_slot i m) (<[Z.to_nat i := MkClient (-1) zero_addr false]> l) /\
  fds m = fds (close_slot i m) ⊎ (if c_active c then {[+ c_fd c +]} else ∅).
Proof.
  intros (Hc & Hl & Hm & Hn & Hok) Hi. unfold close_slot. rewrite Hc, Hi.
  destruct (list_split_at _ _ _ Hi) as (l1 & l2 & -> & _ & ->).
  unfold table_ok, fds. cbn [m_clients m_maxClients m_clientCount m_listenFd default from_option id].
  rewrite Hc. cbn [default from_option id].
  rewrite active_fds_app, active_fds_cons, !length_app in Hn. rewrite length_app in Hl.
  rewrite !active_fds_app, !active_fds_cons, !length_app. cbn [c_active c_fd length] in *.
  apply Forall_app in Hok as [H1 H2]. apply Forall_cons_1 in H2 as [H2 H3].
  split.
  - split_and!; try done; try lia.
    + destruct (c_active c); cbn [length] in *; lia.
    + apply Forall_app. split; [done|]. by constructor.
  - rewrite !list_to_set_disj_app. destruct (c_active c); cbn [list_to_set_disj]; multiset_solver.
Qed.

Lemma fill_slot_table m l i c c0 :
  table_ok m l -> l !! Z.to_nat i = Some c0 -> c_active c0 = false ->
  c_active c = true -> 0 <= c_fd c ->
  table_ok (fill_slot i c m) (<[Z.to_nat i := c]> l) /\
  fds (fill_slot i c m) = fds m ⊎ {[+ c_fd c +]}.
Proof.
  intros (Hc & Hl & Hm & Hn & Hok) Hi H0 Ha Hfd. unfold fill_slot. rewrite Hc.
  destruct (list_split_at _ _ _ Hi) as (l1 & l2 & -> & _ & ->).
  unfold table_ok, fds. cbn [m_clients m_maxClients m_clientCount m_listenFd default from_option id].
  rewrite Hc. cbn [default from_option id].
  rewrite active_fds_app, active_fds_cons, !length_app in Hn. rewrite length_app in Hl.
  rewrite !active_fds_app, !active_fds_cons, !length_app. cbn [c_active c_fd length] in *.
  apply Forall_app in Hok as [H1 H2]. apply Forall_cons_1 in H2 as [H2 H3].
  rewrite H0 in Hn |- *. rewrite Ha. cbn [length] in *.
  split.
  - split_and!; try done; try lia.
    apply Forall_app. split; [done|]. constructor; [|done]. unfold client_ok. by rewrite Ha.
  - rewrite !list_to_set_disj_app; cbn [list_to_set_disj]; multiset_solver.
Qed.

(** ** Interference

    The other threads keep the invariant, neither start nor stop the service,
    and account for the descriptors they open and close. *)

Definition same_service (m m' : SilogRemoteManager) : Prop :=
  m_isInit m' = m_isInit m /\ m_listenFd m' = m_listenFd m /\ m_maxClients m' = m_maxClients m.

Class OthersOk (W : Type) `{!Others SilogRemoteManager W} : Prop :=
  others_ok m w m' t w' :
    others m w = (m', t, w') -> mgr_inv m ->
    mgr_inv m' /\ same_service m m' /\
    forall tr X, ledger tr = Some (fds m ⊎ X) -> ledger (tr ++ t) = Some (fds m' ⊎ X).

(** No client is removed or replaced. *)
Definition keeps_clients (m m' : SilogRemoteManager) : Prop :=
  forall l, m_clients m = Some l ->
  exists l', m_clients m' = Some l' /\
    forall i c, l !! i = Some c -> c_active c = true -> l' !! i = Some c.

(** The other threads only accept: the daemon broadcasts from one thread. *)
Class AcceptorsOnly (W : Type) `{!Others SilogRemoteManager W} : Prop := {
  acceptors_ok :: OthersOk W;
  acceptors_keep m w m' t w' :
    others m w = (m', t, w') -> mgr_inv m -> keeps_clients m m' /\ sends t = []
}.

(** [send] accepts at most what it is given. *)
Class SendLaw (W : Type) `{!Os W} : Prop :=
  send_le fd buf w a w' : os (CSend fd buf) w = (a, w') -> ret a <= len buf.

(** ** Traces *)

(** Every multiset of descriptors is the ledger of some trace. *)
Lemma ledger_exists (X : gmultiset Z) :
  (forall fd, fd ∈ X -> 0 <= fd) -> exists t, ledger t = Some X.
Proof.
  induction X as [|fd X IH] using gmultiset_ind; intros Hpos; [by exists []|].
  destruct IH as [t Ht]; [intros; apply Hpos; multiset_solver|].
  exists (t ++ [(CSocket, Ans fd 0 [] [])]).
  rewrite (ledger_open t CSocket (Ans fd 0 [] []) X); [|done|apply Hpos; multiset_solver|done].
  f_equal. apply (comm_L (⊎)).
Qed.

(** ** Specifications of the internal operations *)

Section specs.
Context {W : Type} `{!Os W, !Others SilogRemoteManager W}.
Implicit Types (e : env SilogRemoteManager W).

Definition led e := ledger (trace e).

Lemma wp_client_at i l c Q e :
  m_clients (mem e) = Some l -> l !! Z.to_nat i = Some c -> Q c e -> wp (client_at i) Q e.
Proof. intros Hl Hi HQ. unfold client_at. wp_steps; [|done]. by rewrite Hl. Qed.

Lemma wp_client_put i c l (Q : unit -> env SilogRemoteManager W -> Prop) e :
  m_clients (mem e) = Some l -> (Z.to_nat i < length l)%nat ->
  Q tt (Env (set_clients (Some (<[Z.to_nat i := c]> l)) (mem e)) (world e) (trace e) (held e)) ->
  wp (client_put i c) Q e.
Proof.
  intros Hl Hi HQ. destruct (lookup_lt_is_Some_2 l (Z.to_nat i) Hi) as [c0 Hc0].
  unfold client_put. wp_step. eapply wp_client_at; [done..|]. wp_step. by rewrite Hl.
Qed.

Lemma wp_close i l c (Q : unit -> env SilogRemoteManager W -> Prop) e :
  table_ok (mem e) l -> 0 <= i < m_maxClients (mem e) -> l !! Z.to_nat i = Some c ->
  (forall w t, (if c_active c then exists a, t = [(CClose (c_fd c), a)] else t = []) ->
     Q tt (Env (close_slot i (mem e)) w (trace e ++ t) (held e))) ->
  wp (SilogRemoteCloseClientInternal i) Q e.
Proof.
  intros (Hc & Hl & Hm & Hn & Hok) Hi Hci HQ.
  pose proof (lookup_lt_Some _ _ _ Hci) as Hlt.
  pose proof (Forall_lookup_1 _ _ _ _ Hok Hci) as Hcok. unfold client_ok in Hcok.
  unfold SilogRemoteCloseClientInternal. wp_step. wp_step. wp_step; [lia|].
  wp_step. eapply wp_client_at; [done..|].
  destruct (c_active c) eqn:Hact; cbn [andb].
  - pose proof (active_fds_pos l _ c Hci Hact). pose proof (active_fds_le l).
    rewrite (proj2 (Z.leb_le 0 (c_fd c))) by done. cbn [andb]. wp_steps.
    eapply wp_client_put; [done..|]. cbn [mem world trace held]. wp_step.
    cbn [set_clients m_clientCount]. rewrite (proj2 (Z.ltb_lt 0 _)) by lia.
    eapply wp_client_put; [done|by rewrite length_insert|]. cbn [mem world trace held].
    replace (set_clients _ _) with (close_slot i (mem e)).
    { apply HQ. by exists a. }
    unfold close_slot, set_clients, set_count. rewrite Hc, Hci, Hact, list_insert_insert_eq.
    cbn. f_equal. rewrite u32_small; [done|]. unfold is_u32; lia.
  - wp_steps. eapply wp_client_put; [done..|].
    replace (set_clients _ _) with (close_slot i (mem e))
      by (unfold close_slot, set_clients; by rewrite Hc, Hci, Hact).
    rewrite <- (app_nil_r (trace e)). by apply HQ.
Qed.

Lemma wp_nonblock fd (Q : ErrorCode -> env SilogRemoteManager W -> Prop) e :
  (forall r w t, r = SILOG_OK \/ r = SILOG_NET_FILE_ERROR -> neutral t -> sends t = [] ->
     Q r (Env (mem e) w (trace e ++ t) (held e))) ->
  wp (SilogRemoteSetNonblock fd) Q e.
Proof.
  intros HQ. unfold SilogRemoteSetNonblock. wp_steps; rewrite <- ?(assoc_L (++));
    apply HQ; auto using neutral_app, neutral_one.
Qed.

Lemma wp_find_free_loop l Q e fuel i :
  table_ok (mem e) l -> 0 <= i <= m_maxClients (mem e) ->
  (Z.to_nat (m_maxClients (mem e) - i) < fuel)%nat ->
  (forall j c, 0 <= j < i -> l !! Z.to_nat j = Some c -> c_active c = true) ->
  (forall j c, i <= j < m_maxClients (mem e) -> l !! Z.to_nat j = Some c -> c_active c = false ->
     Q (i32 j) e) ->
  (Forall (fun c => c_active c = true) l -> Q (-1) e) ->
  wp (find_free_loop fuel i) Q e.
Proof.
  intros Ht. assert (len l = m_maxClients (mem e) /\ m_maxClients (mem e) < 2 ^ 32) as [Hl Hm]
    by (destruct Ht as (_ & ? & ? & _); lia).
  revert i. induction fuel as [|fuel IH]; intros i Hi Hf Hlow Hfree Hnone; [lia|].
  cbn [find_free_loop]. wp_step. wp_step. wp_step.
  - destruct (lookup_lt_is_Some_2 l (Z.to_nat i)) as [c Hc]; [lia|].
    wp_step. eapply wp_client_at; [apply Ht|done|]. destruct (c_active c) eqn:Ha; cbn [negb].
    + rewrite u32_small by (unfold is_u32; lia). apply IH; [lia|lia| | |done].
      * intros j c' Hj Hc'. destruct (decide (j = i)) as [->|]; [congruence|]. apply (Hlow j); [lia|done].
      * intros j c' Hj. apply Hfree. lia.
    + wp_step. apply (Hfree i c); [lia|done|done].
  - wp_step. apply Hnone. apply Forall_lookup. intros j c Hj.
    pose proof (lookup_lt_Some _ _ _ Hj). apply (Hlow (Z.of_nat j)); [lia|by rewrite Nat2Z.id].
Qed.

Lemma wp_find_free l (Q : Z -> env SilogRemoteManager W -> Prop) e :
  table_ok (mem e) l ->
  (forall j c, 0 <= j < m_maxClients (mem e) -> l !! Z.to_nat j = Some c -> c_active c = false ->
     Q (i32 j) e) ->
  (Forall (fun c => c_active c = true) l -> Q (-1) e) ->
  wp SilogRemoteFindFreeSlot Q e.
Proof.
  intros Ht H1 H2. unfold SilogRemoteFindFreeSlot. wp_step. wp_step.
  pose proof Ht as (_ & _ & Hm & _).
  eapply (wp_find_free_loop l); [done|lia|lia| |done|done]. lia.
Qed.

(** The calls of an attempt to send a buffer: each offers what is left of it; it
    goes on after a partial send and stops at the first failure. *)
Inductive chunks (fd : Z) : list Z -> ErrorCode -> trace_t -> Prop :=
  | chunks_done : chunks fd [] SILOG_OK []
  | chunks_full buf a : buf <> [] -> ret a < 0 -> errno a = EAGAIN -> chunks fd buf SILOG_NET_TIMEOUT [(CSend fd buf, a)]
  | chunks_fail buf a :
      buf <> [] -> ret a = 0 \/ ret a < 0 /\ errno a <> EAGAIN -> chunks fd buf SILOG_NET_FILE_ERROR [(CSend fd buf, a)]
  | chunks_part buf a r t :
      0 < ret a <= len buf -> chunks fd (drop (Z.to_nat (ret a)) buf) r t -> chunks fd buf r ((CSend fd buf, a) :: t).

(** What one attempt to send a buffer did: the result and the bytes accepted. *)
Definition attempt (fd : Z) (buf : list Z) (r : ErrorCode) (t : trace_t) : Prop :=
  Forall (fun ev => exists d, ev.1 = CSend fd d) t /\
  sent_on fd t `prefix_of` buf /\
  (r = SILOG_OK /\ sent_on fd t = buf \/
   (r = SILOG_NET_TIMEOUT \/ r = SILOG_NET_FILE_ERROR) /\ sent_on fd t <> buf) /\
  chunks fd buf r t.

Lemma sent_on_one fd d a : sent_on fd [(CSend fd d, a)] = take (Z.to_nat (ret a)) d.
Proof. unfold sent_on. cbn. by rewrite Z.eqb_refl, app_nil_r. Qed.

Lemma wp_send_loop `{!SendLaw W} fuel fd buf sent (Q : ErrorCode -> env SilogRemoteManager W -> Prop) e :
  0 <= sent <= len buf -> len buf < 2 ^ 64 -> (Z.to_nat (len buf - sent) < fuel)%nat ->
  (forall r w t, attempt fd (drop (Z.to_nat sent) buf) r t -> neutral t ->
     Q r (Env (mem e) w (trace e ++ t) (held e))) ->
  wp (send_loop fuel fd buf sent) Q e.
Proof.
  revert sent e. induction fuel as [|fuel IH]; intros sent e Hs Hb Hf HQ; [lia|].
  cbn [send_loop]. wp_step; cycle 1.
  { wp_step. assert (sent = len buf) as -> by lia. rewrite Nat2Z.id, drop_all in HQ.
    destruct e as [m w t h]. cbn [mem world trace held] in *. rewrite <- (app_nil_r t).
    apply HQ; [|apply neutral_nil]. split; [constructor|]. split; [done|]. split; [by left|constructor]. }
  wp_step. wp_step; [by apply rd_Some; lia|]. cbn beta.
  rewrite take_ge by (rewrite length_drop; lia). set (d := drop (Z.to_nat sent) buf) in *.
  assert (len d = len buf - sent) as Hd by (unfold d; rewrite length_drop; lia).
  wp_step. wp_step. pose proof (send_le _ _ _ _ _ H) as Hle.
  assert (d <> []) as Hnil by (intros E; rewrite E in Hd; cbn in Hd; lia).
  assert (forall r, (r = SILOG_NET_TIMEOUT \/ r = SILOG_NET_FILE_ERROR) -> ret a <= 0 ->
    chunks fd d r [(CSend fd d, a)] -> attempt fd d r [(CSend fd d, a)]) as Hfail.
  { intros r Hr Ha Hc. split; [repeat constructor; by eexists|]. rewrite sent_on_one.
    replace (Z.to_nat (ret a)) with 0%nat by lia. rewrite take_0. split; [apply prefix_nil|].
    split; [|done]. right. split; [done|]. by intros <-. }
  wp_step; [wp_step; wp_step; (apply HQ; [apply Hfail; [auto|lia|constructor; auto]|by apply neutral_one])|].
  wp_step; [wp_step; (apply HQ; [apply Hfail; [auto|lia|constructor; auto]|by apply neutral_one])|].
  rewrite u64_small by (unfold is_u64; lia). apply IH; [lia|lia|lia|].
  intros r w' t Hatt Hn. cbn [mem world trace held]. rewrite <- (assoc_L (++)).
  apply HQ; [|by apply (neutral_app [_]); [apply neutral_one|]].
  replace (drop (Z.to_nat (sent + ret a)) buf) with (drop (Z.to_nat (ret a)) d) in Hatt
    by (unfold d; rewrite drop_drop; f_equal; lia).
  destruct Hatt as (Hall & [k Hk] & Hr & Hch). split; [constructor; [by eexists|done]|].
  rewrite (sent_on_app fd [_]), sent_on_one. split; [|split; [|apply chunks_part; [lia|done]]].
  - exists k. rewrite <- (assoc_L (++)), <- Hk. by rewrite take_drop.
  - destruct Hr as [[-> Hr]|[Hr Hne]]; [left|right]; (split; [done|]).
    + by rewrite Hr, take_drop.
    + intros He. apply Hne. rewrite <- (take_drop (Z.to_nat (ret a)) d) in He at 2.
      by apply app_inv_head in He.
Qed.
End specs.

(** ** Accept *)

Section accept.
Context {W : Type} `{!Os W, !Others SilogRemoteManager W}.
Implicit Types (e : env SilogRemoteManager W).

(** The manager is consistent and the trace leaves open exactly its descriptors
    and those of [X], which the running operation holds. *)
Definition ginv (X : gmultiset Z) e : Prop :=
  mgr_inv (mem e) /\ led e = Some (fds (mem e) ⊎ X).

(** What the other threads did during a lock. *)
Definition interfered (m : SilogRemoteManager) (t : trace_t) (m' : SilogRemoteManager) : Prop :=
  exists w w', others m w = (m', t, w').

Lemma wp_lock_inv `{!OthersOk W} X (Q : unit -> env SilogRemoteManager W -> Prop) e :
  ginv X e -> held e = false ->
  (forall m w t, interfered (mem e) t m -> same_service (mem e) m ->
     ginv X (Env m w (trace e ++ t) true) -> Q tt (Env m w (trace e ++ t) true)) ->
  wp lock Q e.
Proof.
  intros [Hi Hl] Hh HQ. apply wp_lock; [done|]. intros s t w Ho.
  destruct (others_ok _ _ _ _ _ Ho Hi) as (Hi' & Hs & Hled).
  apply HQ; [by eexists _, _|done|]. split; [done|]. by apply Hled.
Qed.

Lemma ginv_same X e e' : ginv X e -> same_state e e' -> ginv X e' /\ held e' = held e.
Proof. intros [Hi Hl] (Hm & Ht & Hh). split; [|done]. unfold ginv, led. by rewrite Hm, Ht. Qed.

Lemma ginv_neutral X m w t h t' :
  ginv X (Env m w t h) -> neutral t' -> forall w' h', ginv X (Env m w' (t ++ t') h').
Proof. intros [Hi Hl] Hn w' h'. split; [done|]. unfold led. cbn. by rewrite Hn. Qed.

Lemma ginv_close X m w t h fd a :
  ginv (X ⊎ {[+ fd +]}) (Env m w t h) -> forall w' h', ginv X (Env m w' (t ++ [(CClose fd, a)]) h').
Proof.
  intros [Hi Hl] w' h'. split; [done|]. unfold led in *. cbn [trace mem] in *.
  apply ledger_close. rewrite Hl. f_equal. multiset_solver.
Qed.

Lemma inv_table m : mgr_inv m -> m_isInit m = true -> 0 <= m_listenFd m /\ exists l, table_ok m l.
Proof. unfold mgr_inv. intros H Hi. by rewrite Hi in H. Qed.

Lemma table_inv m l : m_isInit m = true -> 0 <= m_listenFd m -> table_ok m l -> mgr_inv m.
Proof. unfold mgr_inv. intros -> ??. split; [done|by exists l]. Qed.

(** The change of the table by an accept that returned [r]. *)
Definition accept_step (r : ErrorCode) (m m' : SilogRemoteManager) : Prop :=
  r <> SILOG_OK /\ m' = m \/
  r = SILOG_OK /\ exists l i c0 c, m_clients m = Some l /\ l !! Z.to_nat i = Some c0 /\
    c_active c0 = false /\ c_active c = true /\ 0 <= c_fd c /\ m' = fill_slot i c m.

Definition accept_post (X : gmultiset Z) (e : env SilogRemoteManager W) (r : ErrorCode) (e' : env SilogRemoteManager W) : Prop :=
  held e' = false /\ ginv X e' /\ same_service (mem e) (mem e') /\
  exists m1 t1, (m1 = mem e /\ t1 = [] \/ interfered (mem e) t1 m1) /\
    accept_step r m1 (mem e') /\ sends (trace e') = sends (trace e) ++ sends t1.

(** From the point where the mutex is held and [fd] is the new connection. *)
Lemma accept_locked X m w t fd data peer :
  m_isInit m = true -> 0 <= fd -> ginv (X ⊎ {[+ fd +]}) (Env m w t true) ->
  wp (m ← get;
      if m_maxClients m <=? m_clientCount m then
        unlock ;;
        SILOG_PRELOG_W SILOG_PRELOG_DAEMON "Max clients reached, rejecting connection from %s:%d" peer ;;
        _ ← sys (CClose fd); mret SILOG_NET_FILE_ERROR
      else
        slot ← SilogRemoteFindFreeSlot;
        if slot <? 0 then
          unlock ;;
          SILOG_PRELOG_W SILOG_PRELOG_DAEMON "No free slot for connection from %s:%d" peer ;;
          _ ← sys (CClose fd); mret SILOG_NET_FILE_ERROR
        else
          r ← SilogRemoteSetNonblock fd;
          if decide (r <> SILOG_OK) then unlock ;; _ ← sys (CClose fd); mret r
          else
            client_put slot (MkClient fd data true) ;;
            modify (fun m => set_count (u32 (m_clientCount m + 1)) m) ;;
            unlock ;;
            SILOG_PRELOG_I SILOG_PRELOG_DAEMON "Remote client connected: %s:%d (slot %d)" (peer ++ [AInt slot]) ;;
            mret SILOG_OK)
    (fun r e' => held e' = false /\ ginv X e' /\ accept_step r m (mem e') /\ sends (trace e') = sends t)
    (Env m w t true).
Proof.
  intros Hm Hfd Hg.
  assert (forall r w' t', r <> SILOG_OK -> neutral t' -> sends t' = [] ->
    wp (unlock ;; _ ← sys (CClose fd); mret r)
      (fun r e' => held e' = false /\ ginv X e' /\ accept_step r m (mem e') /\ sends (trace e') = sends t)
      (Env m w' (t ++ t') true)) as Hfail.
  { intros r w' t' Hr Hn Hs. wp_steps. split; [done|]. split.
    - eapply (ginv_close _ _ w' _ true). by eapply (ginv_neutral _ _ _ t).
    - split; [left; done|]. rewrite !sends_app, Hs. cbn. by rewrite !app_nil_r. }
  pose proof (fun r w' Hr => Hfail r w' [] Hr neutral_nil eq_refl) as Hfail0.
  rewrite app_nil_r in Hfail0.
  destruct Hg as [Hi Hl]. cbn [mem] in Hi. destruct (inv_table _ Hi Hm) as [HL [l Ht]].
  wp_step. wp_step. wp_step.
  { by apply Hfail0. }
  wp_step. eapply (wp_find_free l); [done| |].
  2:{ intros _. ztest. by apply Hfail0. }
  cbn [mem]. intros j c Hj Hc Hact. wp_step.
  { by apply Hfail0. }
  assert (i32 j = j) as ->.
  { unfold i32 in *. destruct (decide (j < 2 ^ 31)); [rewrite Z.mod_small; lia|].
    pose proof (proj1 (proj2 (proj2 Ht))). rewrite <- (Z.mod_add _ (-1)) in Heqb0 by lia.
    rewrite Z.mod_small in Heqb0 by lia. lia. }
  wp_step. apply wp_nonblock. intros r w1 t1 Hr Hn Hs. cbn [mem world trace held].
  destruct (decide (r <> SILOG_OK)); [by apply Hfail|].
  pose proof (lookup_lt_Some _ _ _ Hc). pose proof (active_fds_le l).
  pose proof Ht as (Hcl & Hlen & Hmax & Hcnt & _).
  wp_step. eapply wp_client_put; [done|done|]. cbn [mem world trace held]. wp_steps.
  assert (set_count (u32 (m_clientCount (set_clients (Some (<[Z.to_nat j := MkClient fd data true]> l)) m) + 1))
    (set_clients (Some (<[Z.to_nat j := MkClient fd data true]> l)) m)
    = fill_slot j (MkClient fd data true) m) as ->.
  { unfold fill_slot, set_count, set_clients. rewrite Hcl. cbn. rewrite u32_small; [done|].
    unfold is_u32. lia. }
  destruct (fill_slot_table m l j (MkClient fd data true) c) as [Ht' Hf']; [done..|].
  split; [done|]. split; [|split].
  - split; cbn [mem].
    + eapply table_inv; [..|exact Ht']; unfold fill_slot; by rewrite Hcl.
    + unfold led. cbn [trace]. rewrite Hn, Hf'. unfold led in Hl. cbn [trace mem] in Hl. rewrite Hl.
      f_equal. cbn [c_fd]. multiset_solver.
  - right. split; [done|]. exists l, j, c, (MkClient fd data true). done.
  - by rewrite sends_app, Hs, app_nil_r.
Qed.

Lemma same_service_refl m : same_service m m.
Proof. done. Qed.
Lemma same_service_trans m1 m2 m3 : same_service m1 m2 -> same_service m2 m3 -> same_service m1 m3.
Proof. unfold same_service. intros (?&?&?) (?&?&?). split_and!; congruence. Qed.

Lemma accept_step_service r m m' : accept_step r m m' -> same_service m m'.
Proof.
  intros [[_ ->]|(_ & l & i & c0 & c & Hl & _ & _ & _ & _ & ->)]; [done|].
  unfold fill_slot. by rewrite Hl.
Qed.

Lemma accept_spec `{!OthersOk W} X e :
  ginv X e -> held e = false -> wp SilogRemoteAccept (accept_post X e) e.
Proof.
  intros Hg Hh. destruct e as [m w t h]. cbn in Hh. subst h. unfold SilogRemoteAccept. wp_step. wp_step.
  assert (forall r w' t', r <> SILOG_OK -> neutral t' -> sends t' = [] ->
    accept_post X (Env m w t false) r (Env m w' (t ++ t') false)) as Hsame.
  { intros r w' t' Hr Hn Hs. split; [done|]. split; [by eapply ginv_neutral|].
    split; [done|]. exists m, []. split; [by left|]. split; [by left|].
    cbn [trace]. by rewrite sends_app, Hs. }
  destruct (m_isInit m) eqn:Hm; cbn [negb]; cycle 1.
  { wp_step. specialize (Hsame SILOG_NET_FILE_ERROR w []). rewrite app_nil_r in Hsame.
    apply Hsame; [done|apply neutral_nil|done]. }
  wp_step. wp_step. wp_step.
  { assert (neutral [(CAccept (m_listenFd m), a)]) by (intros tr; by apply ledger_open_fail).
    wp_step; wp_step; by apply Hsame. }
  assert (ginv (X ⊎ {[+ ret a +]}) (Env m w0 (t ++ [(CAccept (m_listenFd m), a)]) false)) as Hg1.
  { destruct Hg as [Hi Hl]. split; [done|]. unfold led in *. cbn [trace mem] in *.
    rewrite (assoc_L (⊎)). by apply ledger_open. }
  wp_step. eapply wp_lock_inv; [done|done|]. cbn [mem trace world]. intros m1 w1 t1 Hint Hsv Hg2.
  eapply wp_mono; [apply accept_locked; [|done|done]|].
  { destruct Hsv as [-> _]. done. }
  intros r e' (Hh & Hg' & Hst & Hse). split; [done|]. split; [done|]. split.
  { eapply same_service_trans; [done|]. by eapply accept_step_service. }
  exists m1, t1. split; [by right|]. split; [done|].
  rewrite Hse, !sends_app. cbn [trace]. by rewrite app_nil_r.
Qed.
(** Accepting does not depend on the past. *)
Lemma framed_client_at i : framed (S:=SilogRemoteManager) (W:=W) (client_at i).
Proof. unfold client_at. solve_framed. Qed.
Lemma framed_nonblock fd : framed (W:=W) (SilogRemoteSetNonblock fd).
Proof. unfold SilogRemoteSetNonblock. solve_framed. Qed.
#[local] Hint Resolve framed_client_at framed_nonblock : framed.
Lemma framed_find_free : framed (W:=W) SilogRemoteFindFreeSlot.
Proof.
  assert (forall fuel i, framed (W:=W) (find_free_loop fuel i)).
  { induction fuel; intros i; cbn [find_free_loop]; solve_framed. }
  unfold SilogRemoteFindFreeSlot. solve_framed.
Qed.
#[local] Hint Resolve framed_find_free : framed.
Lemma framed_accept : framed (W:=W) SilogRemoteAccept.
Proof. unfold SilogRemoteAccept, client_put. solve_framed. Qed.
End accept.

(** ** Broadcast *)

Section broadcast.
Context {W : Type} `{!Os W, !Others SilogRemoteManager W}.
Implicit Types (e : env SilogRemoteManager W).

Definition slot_of (m : SilogRemoteManager) (i : Z) : option SilogRemoteClient :=
  l ← m_clients m; l !! Z.to_nat i.

(** One iteration of the loop: what it did to the manager and to the trace, and
    whether the client counts as served. *)
Inductive visit (buf : list Z) (i : Z) (m : SilogRemoteManager)
    : SilogRemoteManager -> trace_t -> bool -> Prop :=
  | visit_skip c : slot_of m i = Some c -> c_active c = false -> visit buf i m m [] false
  | visit_sent c ts m1 t1 :
      slot_of m i = Some c -> c_active c = true -> attempt (c_fd c) buf SILOG_OK ts ->
      interfered m t1 m1 -> visit buf i m m1 (ts ++ t1) true
  | visit_full c ts m1 t1 :
      slot_of m i = Some c -> c_active c = true -> attempt (c_fd c) buf SILOG_NET_TIMEOUT ts ->
      interfered m t1 m1 -> visit buf i m m1 (ts ++ t1) false
  | visit_drop c ts m1 t1 c1 tc :
      slot_of m i = Some c -> c_active c = true -> attempt (c_fd c) buf SILOG_NET_FILE_ERROR ts ->
      interfered m t1 m1 -> slot_of m1 i = Some c1 ->
      (if c_active c1 then exists a, tc = [(CClose (c_fd c1), a)] else tc = []) ->
      visit buf i m (close_slot i m1) (ts ++ t1 ++ tc) false.

Inductive visits (buf : list Z) (N : Z)
    : Z -> SilogRemoteManager -> SilogRemoteManager -> trace_t -> Z -> Prop :=
  | visits_end m : visits buf N N m m [] 0
  | visits_step i m m1 m2 t1 t2 (ok : bool) n :
      i < N -> visit buf i m m1 t1 ok -> visits buf N (i + 1) m1 m2 t2 n ->
      visits buf N i m m2 (t1 ++ t2) ((if ok then 1 else 0) + n).

Lemma close_slot_ginv X m (w : W) t h i l c tc :
  ginv X (Env m w t h) -> m_isInit m = true -> table_ok m l -> l !! Z.to_nat i = Some c ->
  (if c_active c then exists a, tc = [(CClose (c_fd c), a)] else tc = []) ->
  forall (w' : W) h', ginv X (Env (close_slot i m) w' (t ++ tc) h') /\ same_service m (close_slot i m).
Proof.
  intros [Hi Hl] Hm Ht Hc Htc w' h'. destruct (close_slot_table m l i c Ht Hc) as [Ht' Hf].
  assert (same_service m (close_slot i m)) as Hs
    by (unfold close_slot; destruct Ht as [-> _]; by rewrite Hc).
  split; [|done]. split.
  - destruct (inv_table _ Hi Hm) as [HL _]. destruct Hs as (H1 & H2 & _).
    cbn [mem]. eapply table_inv; [..|exact Ht']; [by rewrite H1|by rewrite H2].
  - unfold led in *. cbn [trace mem] in *. rewrite Hf in Hl. destruct (c_active c).
    + destruct Htc as [a ->]. apply ledger_close. rewrite Hl. f_equal. multiset_solver.
    + subst tc. rewrite app_nil_r, Hl. f_equal. multiset_solver.
Qed.

Lemma table_slot m l i : table_ok m l -> 0 <= i < m_maxClients m -> exists c, l !! Z.to_nat i = Some c.
Proof. intros (_ & Hl & _) Hi. apply lookup_lt_is_Some_2. lia. Qed.

(** The loop keeps the service and its accounts, whatever the other threads do. *)
Definition running e : Prop := ginv ∅ e /\ held e = true /\ m_isInit (mem e) = true.

Lemma broadcast_one_spec `{!OthersOk W, !SendLaw W} buf i count e :
  running e -> 0 <= i < m_maxClients (mem e) -> len buf < 2 ^ 64 ->
  wp (broadcast_one buf i count)
    (fun n e' => running e' /\ same_service (mem e) (mem e') /\
       exists t ok, trace e' = trace e ++ t /\ visit buf i (mem e) (mem e') t ok /\
         n = (if ok then i32 (count + 1) else count)) e.
Proof.
  intros (Hg & Hh & Hm) Hi Hb. pose proof Hg as [Hinv _].
  destruct (inv_table _ Hinv Hm) as [HL [l Ht]]. destruct (table_slot _ _ _ Ht Hi) as [c Hc].
  pose proof Ht as (Hcl & _ & _ & _ & Hok). pose proof (Forall_lookup_1 _ _ _ _ Hok Hc) as Hcok.
  assert (slot_of (mem e) i = Some c) as Hslot by (unfold slot_of; by rewrite Hcl).
  unfold broadcast_one. wp_step. eapply wp_client_at; [done..|].
  unfold client_ok in Hcok. destruct (c_active c) eqn:Hact; cbn [negb orb]; cycle 1.
  { wp_step. split; [done|]. split; [done|]. exists [], false. rewrite app_nil_r.
    split; [done|]. split; [by eapply visit_skip|done]. }
  ztest. destruct e as [m w t h]. cbn [mem world trace held] in *. subst h. wp_step. wp_step.
  wp_step. unfold SilogRemoteSendFull. apply wp_send_loop; [lia|lia|lia|].
  intros r w1 ts Hatt Hn. rewrite drop_0 in Hatt. cbn [mem world trace held].
  assert (ginv ∅ (Env m w1 (t ++ ts) false)) as Hg1 by by eapply ginv_neutral.
  wp_step. eapply wp_lock_inv; [done|done|]. cbn [mem world trace held].
  intros m1 w2 t1 Hint Hss Hg2. pose proof Hss as (Hs1 & Hs2 & Hs3). rewrite Hm in Hs1.
  assert (running (Env m1 w2 ((t ++ ts) ++ t1) true)) as Hrun by done.
  destruct (decide (r <> SILOG_OK)) as [Hr|Hr].
  - destruct (decide (r = SILOG_NET_TIMEOUT)) as [->|Hr'].
    + wp_step. split; [done|]. split; [done|]. exists (ts ++ t1), false.
      rewrite (assoc_L (++)). split; [done|]. split; [by eapply visit_full|done].
    + assert (r = SILOG_NET_FILE_ERROR) as -> by (destruct Hatt as (_ & _ & [[? _]|[[?|?] _]] & _); done).
      destruct Hg2 as [Hinv1 Hl1]. destruct (inv_table _ Hinv1 Hs1) as [_ [l1 Ht1]].
      cbn [mem] in *. rewrite <- Hs3 in Hi. destruct (table_slot _ _ _ Ht1 Hi) as [c1 Hc1].
      wp_step. eapply wp_close; [done|done|done|]. cbn [mem world trace held]. intros w3 tc Htc.
      wp_step.
      destruct (close_slot_ginv ∅ m1 w2 ((t ++ ts) ++ t1) true i l1 c1 tc) with w3 true as [Hg3 Hs]; [done..|].
      split; [split; [done|split; [done|]]; cbn [mem]; destruct Hs as [-> _]; done|].
      split; [by eapply same_service_trans|].
      exists (ts ++ t1 ++ tc), false. cbn [trace mem]. rewrite !(assoc_L (++)).
      split; [done|]. split; [|done]. rewrite <- !(assoc_L (++)).
      eapply visit_drop; [done..| |done]. unfold slot_of. destruct Ht1 as [-> _]. done.
  - assert (r = SILOG_OK) as -> by (by apply dec_stable). wp_step. split; [done|]. split; [done|].
    exists (ts ++ t1), true. rewrite (assoc_L (++)). split; [done|]. split; [by eapply visit_sent|done].
Qed.

Lemma broadcast_loop_spec `{!OthersOk W, !SendLaw W} buf fuel i count e :
  running e -> 0 <= i <= m_maxClients (mem e) -> len buf < 2 ^ 64 ->
  (Z.to_nat (m_maxClients (mem e) - i) < fuel)%nat ->
  wp (broadcast_loop fuel buf i (i32 count))
    (fun n e' => running e' /\ same_service (mem e) (mem e') /\
       exists t k, trace e' = trace e ++ t /\
         visits buf (m_maxClients (mem e)) i (mem e) (mem e') t k /\ n = i32 (count + k)) e.
Proof.
  revert i count e. induction fuel as [|fuel IH]; intros i count e Hr Hi Hb Hf; [lia|].
  assert (m_maxClients (mem e) < 2 ^ 32) as Hmax.
  { destruct Hr as ([Hinv _] & _ & Hm). destruct (inv_table _ Hinv Hm) as [_ [l (_&_&?&_)]]. lia. }
  cbn [broadcast_loop]. wp_step. wp_step. wp_step.
  - wp_step. eapply wp_mono; [apply broadcast_one_spec; [done|lia|done]|].
    intros n e1 (Hr1 & Hss1 & t1 & ok & Ht1 & Hv & ->). pose proof Hss1 as (_ & _ & Hm1). rewrite u32_small by (unfold is_u32; lia).
    assert ((if ok then i32 (i32 count + 1) else i32 count) = i32 (count + if ok then 1 else 0)) as ->.
    { destruct ok; [|by rewrite Z.add_0_r]. unfold i32. f_equal.
      replace ((count + 2 ^ 31) mod 2 ^ 32 - 2 ^ 31 + 1 + 2 ^ 31) with ((count + 2 ^ 31) mod 2 ^ 32 + 1) by lia.
      rewrite Zplus_mod_idemp_l. f_equal. lia. }
    eapply wp_mono; [apply IH; [done|lia|done|lia]|].
    intros n e2 (Hr2 & Hss2 & t2 & k & Ht2 & Hvs & ->). split; [done|].
    split; [by eapply same_service_trans|].
    exists (t1 ++ t2), ((if ok then 1 else 0) + k). rewrite Ht2, Ht1, (assoc_L (++)).
    split; [done|]. rewrite Hm1 in Hvs. split; [by eapply visits_step|]. f_equal. lia.
  - wp_step. split; [done|]. split; [done|]. exists [], 0. rewrite app_nil_r, Z.add_0_r.
    split; [done|]. split; [|done]. assert (i = m_maxClients (mem e)) as -> by lia. constructor.
Qed.

Lemma no_active l : length (active_fds l) = 0%nat -> Forall (fun c => c_active c = false) l.
Proof.
  induction l as [|c l IH]; [constructor|]. rewrite active_fds_cons.
  destruct (c_active c) eqn:E; simpl; [done|]. intros H. constructor; [done|by apply IH].
Qed.

Lemma visits_none buf m l i :
  table_ok m l -> m_clientCount m = 0 -> 0 <= i <= m_maxClients m ->
  visits buf (m_maxClients m) i m m [] 0.
Proof.
  intros Ht H0 Hi. pose proof Ht as (Hcl & _ & _ & Hn & _).
  pose proof (no_active l ltac:(lia)) as Hall.
  remember (Z.to_nat (m_maxClients m - i)) as k eqn:Hk. revert i Hi Hk.
  induction k as [|k IH]; intros i Hi Hk.
  { assert (i = m_maxClients m) as -> by lia. constructor. }
  destruct (table_slot m l i Ht) as [c Hc]; [lia|].
  apply (visits_step _ _ _ _ m _ [] [] false 0); [lia| |apply IH; lia].
  apply (visit_skip _ _ _ c); [unfold slot_of; by rewrite Hcl|].
  apply (Forall_lookup_1 _ _ _ _ Hall Hc).
Qed.

Lemma serialize_wire en :
  entry_typed en ->
  SilogRemoteSerializeEntry en (Some (replicate (Z.to_nat SILOG_REMOTE_ENTRY_SIZE) 0))
    SILOG_REMOTE_ENTRY_SIZE true = Some (Some (wire en), Some SILOG_REMOTE_ENTRY_SIZE).
Proof.
  intros He. pose proof (serialize_spec en (replicate (Z.to_nat SILOG_REMOTE_ENTRY_SIZE) 0) He) as H.
  rewrite length_replicate in H. specialize (H ltac:(done)).
  rewrite drop_ge, app_nil_r in H by (by rewrite length_replicate). exact H.
Qed.

(** The result of a broadcast of [en] that found the service running. *)
Definition broadcast_done (en : logEntry_t) (hasCount : bool) e (r : ErrorCode * option Z) e' : Prop :=
  r.1 = SILOG_OK /\
  exists m0 t0 t k, interfered (mem e) t0 m0 /\ mgr_inv m0 /\ trace e' = trace e ++ t0 ++ t /\
    visits (wire en) (m_maxClients (mem e)) 0 m0 (mem e') t k /\
    r.2 = (if hasCount then Some (i32 k) else None).

Lemma broadcast_spec `{!OthersOk W, !SendLaw W} en hasCount e :
  ginv ∅ e -> held e = false -> entry_typed en ->
  wp (SilogRemoteBroadcast (Some en) hasCount)
    (fun r e' => ginv ∅ e' /\ held e' = false /\ same_service (mem e) (mem e') /\
       if m_isInit (mem e) then broadcast_done en hasCount e r e'
       else e' = e /\ r = (SILOG_TRANS_NOT_INIT, if hasCount then Some 0 else None)) e.
Proof.
  intros Hg Hh Hen. unfold SilogRemoteBroadcast. wp_step. wp_step.
  destruct (m_isInit (mem e)) eqn:Hm; cbn [negb]; [|by wp_step].
  wp_step. eapply wp_lock_inv; [done|done|]. intros m1 w1 t1 Hint Hs Hg1.
  pose proof Hs as (Hs1 & Hs2 & Hs3). rewrite Hm in Hs1.
  destruct Hg1 as [Hi1 Hl1]. destruct (inv_table _ Hi1 Hs1) as [HL [l Ht]]. cbn [mem] in *.
  wp_step. wp_step. wp_step.
  { wp_step. wp_step. wp_step. split; [done|]. split; [done|]. split; [done|].
    split; [done|]. exists m1, t1, [], 0. cbn [mem trace]. rewrite app_nil_r, <- Hs3.
    split; [done|]. split; [done|]. split; [done|]. split; [|done].
    eapply visits_none; [done|done|]. destruct Ht as (_ & _ & ? & _). lia. }
  wp_step. wp_step; [by apply serialize_wire|]. cbn [default from_option id fst snd].
  pose proof (wire_length en Hen) as Hw.
  wp_step; [done|]. wp_step. wp_step; [rewrite <- Hw; apply rd_all|]. wp_step.
  change (broadcast_loop _ (wire en) 0 0) with
    (broadcast_loop (W:=W) (S (Z.to_nat (m_maxClients m1))) (wire en) 0 (i32 0)).
  eapply wp_mono; [apply broadcast_loop_spec; [done| | |]|]; cbn [mem].
  - destruct Ht as (_ & _ & ? & _). lia.
  - rewrite Hw. done.
  - lia.
  - intros n e2 (((Hi2 & Hl2) & Hh2 & Hm2) & Hmx & t & k & Htr & Hv & ->).
    wp_step. apply wp_unlock; [done|]. wp_step.
    split; [done|]. split; [done|]. split; [by eapply same_service_trans|]. split; [done|].
    exists m1, t1, t, k. cbn [mem trace]. rewrite Htr, <- Hs3. cbn [trace].
    rewrite (assoc_L (++)). done.
Qed.
End broadcast.

(** ** Starting and stopping *)

Section lifecycle.
Context {W : Type} `{!Os W, !Others SilogRemoteManager W}.
Implicit Types (e : env SilogRemoteManager W).

Definition cleared : SilogRemoteClient := MkClient (-1) zero_addr false.

Lemma active_fds_inactive l : Forall (fun c => c_active c = false) l -> active_fds l = [].
Proof. induction 1 as [|c l Hc _ IH]; [done|]. by rewrite active_fds_cons, Hc, IH. Qed.

Lemma fds_uninit m : mgr_inv m -> m_isInit m = false -> fds m = ∅.
Proof.
  unfold mgr_inv, fds. intros H Hm. rewrite Hm in H. destruct H as (Hl & -> & _).
  apply Z.leb_gt in Hl. rewrite Hl. cbn. multiset_solver.
Qed.

Lemma close_slot_lookup i m k :
  slot_of (close_slot i m) k =
  if decide (Z.to_nat k = Z.to_nat i) then (fun _ => cleared) <$> slot_of m i else slot_of m k.
Proof.
  unfold slot_of, close_slot. destruct (m_clients m) as [l|] eqn:Hl; simpl.
  - destruct (l !! Z.to_nat i) as [c|] eqn:Hc; simpl.
    + rewrite list_lookup_insert. pose proof (lookup_lt_Some _ _ _ Hc).
      destruct (decide (Z.to_nat k = Z.to_nat i)) as [->|]; cbn.
      * by rewrite decide_True by done.
      * by rewrite decide_False by naive_solver.
    + rewrite Hl. cbn. destruct (decide (Z.to_nat k = Z.to_nat i)) as [->|]; [by rewrite Hc|done].
  - rewrite Hl. by destruct (decide (Z.to_nat k = Z.to_nat i)).
Qed.

Lemma deinit_spec `{!OthersOk W} e :
  ginv ∅ e -> held e = false ->
  wp SilogRemoteDeinit
    (fun _ e' => held e' = false /\ mgr_inv (mem e') /\ m_isInit (mem e') = false /\ led e' = Some ∅) e.
Proof.
  intros Hg Hh. unfold SilogRemoteDeinit. wp_step. eapply wp_lock_inv; [done|done|].
  intros m w t _ _ Hg1. wp_step. wp_step. destruct (m_isInit m) eqn:Hm; cbn [negb]; cycle 1.
  { wp_step. destruct Hg1 as [Hi Hl]. cbn [mem] in *. split; [done|]. split; [done|]. split; [done|].
    unfold led in *. cbn [trace mem] in *. rewrite Hl, fds_uninit by done. done. }
  wp_step. destruct (inv_table _ (proj1 Hg1) Hm) as [_ [l0 (_ & _ & Hmax & _)]].  cbn [mem] in Hmax.
  apply (wp_for_lt (fun j e' => ginv ∅ e' /\ held e' = true /\ same_service m (mem e') /\
    forall k c, 0 <= k < j -> slot_of (mem e') k = Some c -> c_active c = false) (m_maxClients m));
    [lia|lia|lia| | | |].
  - split; [done|]. split; [done|]. split; [done|]. lia.
  - intros j e' (_ & _ & (_ & _ & Hs) & _). wp_steps. done.
  - intros j e' Hj (Hg' & Hh' & Hs & Hlow). pose proof Hs as (Hs1 & _ & Hs3). rewrite Hm in Hs1.
    destruct e' as [m' w' t' h']. cbn [mem held] in *. subst h'.
    destruct (inv_table _ (proj1 Hg') Hs1) as [_ [l Ht]]. cbn [mem] in *. rewrite <- Hs3 in Hj.
    destruct (table_slot m' l j Ht) as [c Hc]; [lia|].
    eapply wp_close; [done|cbn [mem]; lia|done|]. cbn [mem trace held]. intros w1 tc Htc.
    destruct (close_slot_ginv ∅ m' w' t' true j l c tc) with w1 true as [Hg3 Hs']; [done..|].
    split; [done|]. split; [done|]. split; [by eapply same_service_trans|].
    intros k c' Hk. cbn [mem]. rewrite close_slot_lookup.
    destruct (decide (Z.to_nat k = Z.to_nat j)).
    + destruct (slot_of m' j); [|done]. by intros [= <-].
    + apply Hlow. lia.
  - intros e' ([Hi Hl] & Hh' & (Hs1 & Hs2 & Hs3) & Hlow). rewrite Hm in Hs1.
    destruct e' as [m' w' t' h']. unfold led in Hl. cbn [mem held trace] in *. subst h'.
    destruct (inv_table _ Hi Hs1) as [HL [l Ht]]. pose proof Ht as (Hcl & Hlen & _).
    assert (fds m' = {[+ m_listenFd m' +]}) as Hf.
    { unfold fds. rewrite Hcl. apply Z.leb_le in HL. rewrite HL. cbn [default from_option id].
      rewrite active_fds_inactive; [apply (right_id_L ∅ (⊎))|]. apply Forall_lookup.
      intros k c Hk. pose proof (lookup_lt_Some _ _ _ Hk). apply (Hlow (Z.of_nat k)); [lia|].
      unfold slot_of. rewrite Hcl. cbn. by rewrite Nat2Z.id. }
    wp_step. wp_step. ztest. rewrite Hcl. wp_steps. split; [done|]. split; [done|]. split; [done|].
    unfold led. cbn [trace]. rewrite (neutral_one CFree) by done.
    apply ledger_close. by rewrite Hl, Hf, (comm_L (⊎) ∅).
Qed.

Lemma wp_init_clients N k e l0 (Q : unit -> env SilogRemoteManager W -> Prop) :
  m_clients (mem e) = Some l0 -> len l0 = N -> m_maxClients (mem e) = N -> 0 <= N < 2 ^ 32 ->
  (Z.to_nat N < k)%nat ->
  Q tt (Env (set_clients (Some (replicate (Z.to_nat N) cleared)) (mem e)) (world e) (trace e) (held e)) ->
  wp (for_lt k 0 (m ← get; mret (m_maxClients m)) (fun i => client_put i cleared)) Q e.
Proof.
  intros Hc Hl HN Hr Hk HQ.
  apply (wp_for_lt (fun j e' => exists l,
    e' = Env (set_clients (Some l) (mem e)) (world e) (trace e) (held e) /\ len l = N /\
    forall i, 0 <= i < j -> l !! Z.to_nat i = Some cleared) N); [lia|lia|lia| | | |].
  - exists l0. split; [|split; [done|lia]]. destruct e as [m w t h]. cbn in *. f_equal.
    destruct m. cbn in *. unfold set_clients. cbn. by rewrite Hc.
  - intros j e' (l & -> & _). wp_steps. done.
  - intros j e' Hj (l & -> & Hlen & Hlow). eapply wp_client_put; [done|lia|]. cbn [mem world trace held].
    exists (<[Z.to_nat j := cleared]> l). split; [done|]. split; [by rewrite length_insert|].
    intros i Hi. rewrite list_lookup_insert. destruct (decide (i = j)) as [->|].
    + rewrite decide_True by (split; [done|lia]). done.
    + rewrite decide_False by lia. apply Hlow. lia.
  - intros e' (l & -> & Hlen & Hlow). replace (replicate _ _) with l in HQ; [done|].
    apply list_eq. intros i. destruct (decide (i < Z.to_nat N)%nat).
    + rewrite lookup_replicate_2 by done. rewrite <- (Nat2Z.id i). apply Hlow. lia.
    + rewrite !lookup_ge_None_2; [done|rewrite length_replicate; lia|lia].
Qed.

Definition config_typed (c : SilogRemoteConfig_t) : Prop :=
  is_u16 (cfg_listenPort c) /\ is_u32 (cfg_maxClients c).

Definition config_port (config : option SilogRemoteConfig_t) : Z :=
  match config with
  | Some c => if cfg_listenPort c =? 0 then SILOG_REMOTE_DEFAULT_PORT else cfg_listenPort c
  | None => SILOG_REMOTE_DEFAULT_PORT
  end.
Definition config_max (config : option SilogRemoteConfig_t) : Z :=
  match config with
  | Some c => if cfg_maxClients c =? 0 then SILOG_REMOTE_DEFAULT_MAX_CLIENTS else cfg_maxClients c
  | None => SILOG_REMOTE_DEFAULT_MAX_CLIENTS
  end.

Lemma config_max_range config :
  from_option config_typed True config -> 0 < config_max config < 2 ^ 32.
Proof.
  destruct config as [c|]; cbn; [|unfold SILOG_REMOTE_DEFAULT_MAX_CLIENTS; lia].
  intros [_ H]. unfold is_u32 in H. case_if; unfold SILOG_REMOTE_DEFAULT_MAX_CLIENTS; lia.
Qed.

(** After initialisation: the outcome is an error and nothing is held, or the
    service runs with an empty table of the configured size. *)
Definition init_post (config : option SilogRemoteConfig_t) (h : bool) (r : ErrorCode) e' : Prop :=
  ginv ∅ e' /\ held e' = h /\ m_clientCount (mem e') = 0 /\
  m_listenPort (mem e') = config_port config /\ m_maxClients (mem e') = config_max config /\
  if m_isInit (mem e') then r = SILOG_OK else r <> SILOG_OK /\ led e' = Some ∅.

Lemma init_cleanup_spec config m w t h r :
  m_isInit m = false -> m_clientCount m = 0 -> m_listenPort m = config_port config ->
  m_maxClients m = config_max config -> r <> SILOG_OK ->
  ledger t = Some {[+ m_listenFd m +]} ->
  wp (init_cleanup ;; mret r) (init_post config h) (Env m w t h).
Proof.
  intros Hi Hc Hp Hm Hr Ht. unfold init_cleanup. wp_steps.
  assert (ledger ((t ++ [(CClose (m_listenFd m), a)]) ++ [(CFree, a0)]) = Some ∅) as Hl.
  { rewrite (neutral_one CFree) by done. apply ledger_close. rewrite Ht.
    by rewrite (left_id_L ∅ (⊎)). }
  split; [|split_and!; cbn; try done; by rewrite Hi].
  split.
  - unfold mgr_inv. cbn. rewrite Hi. done.
  - unfold led. cbn [trace mem]. rewrite Hl, fds_uninit; [done| |done].
    unfold mgr_inv. cbn. by rewrite Hi.
Qed.

(** From the creation of the socket on. *)
Lemma init_listen_spec config m l w t h :
  m_isInit m = false -> m_listenPort m = config_port config -> m_maxClients m = config_max config ->
  0 < config_max config < 2 ^ 32 ->
  m_clients m = Some l -> active_fds l = [] -> len l = m_maxClients m -> Forall client_ok l ->
  m_clientCount m = 0 -> 0 <= m_listenFd m -> ledger t = Some {[+ m_listenFd m +]} ->
  wp (o ← sys (CSetsockopt (m_listenFd m));
      (if ret o <? 0 then SILOG_PRELOG_W SILOG_PRELOG_DAEMON "Failed to set SO_REUSEADDR: %s" [AErrno]
       else mret tt) ;;
      m ← get;
      b ← sys (CBind (m_listenFd m) (m_listenPort m));
      if ret b <? 0 then
        SILOG_PRELOG_E SILOG_PRELOG_DAEMON "Failed to bind port %d: %s" [AInt (m_listenPort m); AErrno] ;;
        init_cleanup ;; mret SILOG_NET_FILE_OPEN
      else
        l ← sys (CListen (m_listenFd m) SILOG_REMOTE_BACKLOG);
        if ret l <? 0 then
          SILOG_PRELOG_E SILOG_PRELOG_DAEMON "Failed to listen: %s" [AErrno] ;;
          init_cleanup ;; mret SILOG_NET_FILE_ERROR
        else
          r ← SilogRemoteSetNonblock (m_listenFd m);
          if decide (r <> SILOG_OK) then init_cleanup ;; mret r
          else
            modify (set_isInit true) ;;
            SILOG_PRELOG_I SILOG_PRELOG_DAEMON "Remote log service initialized on port %d" [AInt (m_listenPort m)] ;;
            mret SILOG_OK)
    (init_post config h) (Env m w t h).
Proof.
  intros Hi Hp Hmx Hr Hcl Hal Hlen Hok Hc HL Hl.
  assert (forall t' w' r, neutral t' -> r <> SILOG_OK ->
    wp (init_cleanup ;; mret r) (init_post config h) (Env m w' (t ++ t') h)) as Hfail.
  { intros t' w' r Hn Hne. apply init_cleanup_spec; try done. by rewrite Hn. }
  wp_step. wp_step. wp_step.
  apply wp_mono with (fun _ e' => mem e' = m /\ trace e' = t ++ [(CSetsockopt (m_listenFd m), a)] /\ held e' = h);
    [by destruct (ret a <? 0); wp_steps|]. intros [] [m1 w1 t1 h1] (Hm1 & Ht1 & Hh1).
  cbn in Hm1, Ht1, Hh1. subst m1 t1 h1.
  wp_step. wp_step. wp_step. wp_step. rewrite <- !(assoc_L (++)). wp_step.
  { wp_diags. apply Hfail; [|done]. solve_neutral. }
  wp_step. wp_step. rewrite <- !(assoc_L (++)). wp_step.
  { wp_diags. apply Hfail; [|done]. solve_neutral. }
  wp_step. apply wp_nonblock. intros r w' t' Hr' Hn _. cbn [mem world trace held].
  rewrite <- !(assoc_L (++)).
  match goal with |- context [t ++ ?x] => assert (neutral x) as Hn1 by solve_neutral end.
  destruct (decide (r <> SILOG_OK)); [by apply Hfail|]. wp_steps.
  split; [|split_and!; done]. split; [cbn; split; [done|]; exists l; split_and!; try done; cbn; try lia|].
  - rewrite Hal. cbn. lia.
  - unfold led. cbn [trace mem]. rewrite Hn1, Hl. unfold fds. cbn [set_isInit m_listenFd m_clients].
    rewrite Hcl. cbn [default from_option id]. rewrite Hal. apply Z.leb_le in HL. rewrite HL.
    change (list_to_set_disj []) with (∅ : gmultiset Z). by rewrite !(right_id_L ∅ (⊎)).
Qed.

Lemma init_spec config e :
  ginv ∅ e -> from_option config_typed True config ->
  wp (SilogRemoteInit config)
    (fun r e' => if m_isInit (mem e) then r = SILOG_OK /\ same_state e e' else init_post config (held e) r e') e.
Proof.
  intros Hg Hcfg. pose proof (config_max_range _ Hcfg) as Hmax. unfold SilogRemoteInit.
  destruct e as [m w t h]. wp_step. wp_step. destruct (m_isInit m) eqn:Hm; [by wp_step|].
  destruct Hg as [Hi Hl]. unfold led in Hl. cbn [mem trace] in *.
  rewrite fds_uninit, (left_id_L ∅ (⊎)) in Hl by done.
  pose proof Hi as Hi'. unfold mgr_inv in Hi'. rewrite Hm in Hi'. destruct Hi' as (HL & Hcl & Hcnt).
  wp_step. apply wp_mono with (fun _ e' => e' = Env (set_config (config_port config) (config_max config) m) w t h);
    [destruct config; by wp_step|]. intros [] e' ->.
  wp_step. wp_step. cbn [set_config m_maxClients]. wp_step. wp_step.
  assert (forall t', neutral t' -> ledger (t ++ t') = Some ∅) as Hn by (intros t' Ht'; by rewrite Ht').
  wp_step.
  { wp_steps. split; [|split_and!; cbn; try done; rewrite Hm; split; [done|]; apply Hn; by apply neutral_one].
    split; [unfold mgr_inv; cbn; rewrite Hm; done|]. unfold led. cbn [trace]. rewrite Hn by by apply neutral_one.
    f_equal. unfold fds. cbn. apply Z.leb_gt in HL. rewrite HL. multiset_solver. }
  wp_step. wp_step. wp_step.
  eapply (wp_init_clients (config_max config)); [done| |done|lia|lia|];
    [rewrite length_replicate; lia|]. cbn [mem world trace held].
  wp_step. wp_step. wp_step. wp_step. wp_step. wp_step.
  set (l := replicate (Z.to_nat (config_max config)) cleared).
  assert (active_fds l = []) as Hal by (by apply active_fds_inactive, Forall_replicate).
  set (m2 := set_listenFd _ _).
  assert (neutral [(CMalloc (u64 (sizeof_SilogRemoteClient * config_max config)), a)]) as Hn0
    by by apply neutral_one.
  wp_step.
  { wp_steps.
    assert (ledger (((t ++ [(CMalloc (u64 (sizeof_SilogRemoteClient * config_max config)), a)]) ++
      [(CSocket, a0)]) ++ [(CFree, a1)]) = Some ∅) as Hl'.
    { rewrite (neutral_one CFree), ledger_open_fail by done. by apply Hn. }
    split; [|split_and!; cbn; try done; rewrite Hm; done].
    split; [unfold mgr_inv; cbn; rewrite Hm; done|]. unfold led. cbn [trace mem]. rewrite Hl'.
    f_equal. unfold fds. cbn. rewrite (proj2 (Z.leb_gt _ _)) by done. multiset_solver. }
  assert (ledger ((t ++ [(CMalloc (u64 (sizeof_SilogRemoteClient * config_max config)), a)]) ++
    [(CSocket, a0)]) = Some {[+ ret a0 +]}) as Hs.
  { rewrite <- (left_id_L ∅ (⊎) {[+ ret a0 +]}). apply ledger_open; [done|done|]. by apply Hn. }
  assert (m_listenFd m2 = ret a0) as Hfd by done.
  apply (init_listen_spec config m2 l); try done; unfold l.
  - rewrite length_replicate. cbn. lia.
  - by apply Forall_replicate.
Qed.
End lifecycle.

(** ** What a broadcast delivers when the other threads only accept *)

(** The attempt made for one client. *)
Record report := Report { rp_slot : Z; rp_fd : Z; rp_code : ErrorCode; rp_sends : trace_t }.

Definition served (rs : list report) : list report :=
  filter (fun rp => rp_code rp = SILOG_OK) rs.

Section delivery.
Context {W : Type} `{!Os W, !Others SilogRemoteManager W, !AcceptorsOnly W}.

Lemma keep_slot m t m1 j c :
  interfered (W:=W) m t m1 -> mgr_inv m -> slot_of m j = Some c -> c_active c = true ->
  slot_of m1 j = Some c.
Proof.
  intros (w & w' & Ho) Hi Hc Ha. destruct (acceptors_keep _ _ _ _ _ Ho Hi) as [Hk _].
  unfold slot_of in *. destruct (m_clients m) as [l|] eqn:Hl; [|done]. simpl in Hc.
  destruct (Hk l Hl) as (l' & -> & Hl'). simpl. by apply Hl'.
Qed.

Lemma interfered_ok m t m1 :
  interfered (W:=W) m t m1 -> mgr_inv m -> mgr_inv m1 /\ same_service m m1 /\ sends t = [].
Proof.
  intros (w & w' & Ho) Hi. destruct (acceptors_keep _ _ _ _ _ Ho Hi) as [_ Hs].
  destruct (others_ok _ _ _ _ _ Ho Hi) as (? & ? & _). done.
Qed.

Lemma close_slot_inv m l i c :
  mgr_inv m -> m_isInit m = true -> table_ok m l -> l !! Z.to_nat i = Some c ->
  mgr_inv (close_slot i m) /\ same_service m (close_slot i m).
Proof.
  intros Hi Hm Ht Hc.
  assert (same_service m (close_slot i m)) as Hs
    by (unfold close_slot; destruct Ht as [-> _]; by rewrite Hc).
  split; [|done]. destruct (inv_table _ Hi Hm) as [HL _]. pose proof Hs as (H1 & H2 & _).
  eapply table_inv; [by rewrite H1|by rewrite H2|]. by apply (close_slot_table m l i c).
Qed.

(** What one iteration keeps, and the attempt it made. *)
Lemma visit_facts buf i m m1 t ok :
  visit (W:=W) buf i m m1 t ok -> mgr_inv m -> m_isInit m = true ->
  mgr_inv m1 /\ same_service m m1 /\
  (forall j c, Z.to_nat j <> Z.to_nat i -> slot_of m j = Some c -> c_active c = true ->
     slot_of m1 j = Some c) /\
  exists rs, sends t = concat (map rp_sends rs) /\
    Forall (fun rp => rp_slot rp = i /\ attempt (rp_fd rp) buf (rp_code rp) (rp_sends rp)) rs /\
    (length rs <= 1)%nat /\ len (served rs) = (if ok then 1 else 0) /\
    forall c, slot_of m i = Some c -> c_active c = true ->
      exists rp, rp ∈ rs /\ rp_fd rp = c_fd c /\
        if decide (rp_code rp = SILOG_NET_FILE_ERROR) then exists a, (CClose (c_fd c), a) ∈ t
        else slot_of m1 i = Some c.
Proof.
  intros Hv Hi Hm.
  assert (forall fd ts r, attempt fd buf r ts -> sends ts = ts) as Hsend.
  { intros fd ts r (Hall & _). clear -Hall. induction Hall as [|[c a] ts [d Hd] _ IH]; [done|].
    cbn in Hd. subst c. rewrite sends_cons. cbn. by rewrite IH. }
  assert (forall c ts t1 r, slot_of m i = Some c -> sends t1 = [] -> attempt (c_fd c) buf r ts ->
    sends (ts ++ t1) = concat (map rp_sends [Report i (c_fd c) r ts])) as Hcat.
  { intros c ts t1 r Hc Ht Ha. cbn. by rewrite sends_app, (Hsend _ _ _ Ha), Ht. }
  destruct Hv as [c Hc Ha|c ts m1 t1 Hc Ha Hatt Hint|c ts m1 t1 Hc Ha Hatt Hint
                 |c ts m1 t1 c1 tc Hc Ha Hatt Hint Hc1 Htc].
  - split; [done|]. split; [done|]. split; [done|]. exists [].
    split; [done|]. split; [constructor|]. split; [simpl; lia|]. split; [done|].
    intros c' Hc' Ha'. congruence.
  - destruct (interfered_ok _ _ _ Hint Hi) as (Hi1 & Hs1 & Hse).
    split; [done|]. split; [done|]. split; [intros; by eapply keep_slot|].
    exists [Report i (c_fd c) SILOG_OK ts]. split; [by apply Hcat|]. split; [by apply Forall_singleton|].
    split; [done|]. split; [done|]. intros c' Hc' Ha'. simplify_eq. eexists. split; [by left|].
    split; [done|]. cbn. by eapply keep_slot.
  - destruct (interfered_ok _ _ _ Hint Hi) as (Hi1 & Hs1 & Hse).
    split; [done|]. split; [done|]. split; [intros; by eapply keep_slot|].
    exists [Report i (c_fd c) SILOG_NET_TIMEOUT ts]. split; [by apply Hcat|]. split; [by apply Forall_singleton|].
    split; [done|]. split; [done|]. intros c' Hc' Ha'. simplify_eq. eexists. split; [by left|].
    split; [done|]. cbn. by eapply keep_slot.
  - destruct (interfered_ok _ _ _ Hint Hi) as (Hi1 & Hs1 & Hse).
    assert (c1 = c) as -> by (pose proof (keep_slot _ _ _ _ _ Hint Hi Hc Ha); congruence).
    rewrite Ha in Htc. destruct Htc as [a ->]. pose proof Hs1 as (Hm1 & _). rewrite Hm in Hm1.
    destruct (inv_table _ Hi1 Hm1) as [_ [l Ht]].
    destruct (close_slot_inv m1 l i c Hi1 Hm1 Ht) as [Hi2 Hs2].
    { unfold slot_of in Hc1. by rewrite (proj1 Ht) in Hc1. }
    split; [done|]. split; [by eapply same_service_trans|].
    split; [intros j c' Hj Hc' Ha'; rewrite close_slot_lookup, decide_False by done; by eapply keep_slot|].
    exists [Report i (c_fd c) SILOG_NET_FILE_ERROR ts].
    split; [apply Hcat; [done| |done]; by rewrite sends_app, Hse|]. split; [by apply Forall_singleton|].
    split; [done|]. split; [done|]. intros c' Hc' Ha'. simplify_eq. eexists. split; [by left|].
    split; [done|]. cbn. exists a. rewrite !elem_of_app. right. right. by left.
Qed.

Lemma served_app rs1 rs2 : served (rs1 ++ rs2) = served rs1 ++ served rs2.
Proof. apply list.filter_app. Qed.

Lemma sorted_app_lt i l1 l2 :
  (length l1 <= 1)%nat -> Forall (fun x => x = i) l1 -> Forall (fun x => i < x) l2 ->
  StronglySorted Z.lt l2 -> StronglySorted Z.lt (l1 ++ l2).
Proof.
  destruct l1 as [|x [|y l1]]; simpl; intros Hl H1 H2 Hs; [done| |lia].
  apply Forall_singleton in H1 as ->. by constructor.
Qed.

(** The reports of a whole broadcast that starts at slot [i] of the table [m] and
    leaves the table [m']. *)
Definition reports_ok (buf : list Z) (i N : Z) (m m' : SilogRemoteManager) (t : trace_t)
    (rs : list report) : Prop :=
  sends t = concat (map rp_sends rs) /\
  Forall (fun rp => attempt (rp_fd rp) buf (rp_code rp) (rp_sends rp)) rs /\
  Forall (fun rp => i <= rp_slot rp) rs /\ StronglySorted Z.lt (map rp_slot rs) /\
  forall j c, i <= j < N -> slot_of m j = Some c -> c_active c = true ->
    exists rp, rp ∈ rs /\ rp_slot rp = j /\ rp_fd rp = c_fd c /\
      if decide (rp_code rp = SILOG_NET_FILE_ERROR) then exists a, (CClose (c_fd c), a) ∈ t
      else slot_of m' j = Some c.

Lemma visits_reports buf N i m m' t k :
  visits (W:=W) buf N i m m' t k -> mgr_inv m -> m_isInit m = true -> 0 <= i ->
  exists rs, reports_ok buf i N m m' t rs /\ k = len (served rs) /\
    forall j c, 0 <= j < i -> slot_of m j = Some c -> c_active c = true -> slot_of m' j = Some c.
Proof.
  induction 1 as [m|i m m1 m2 t1 t2 ok n HN Hv Hvs IH]; intros Hi Hm H0.
  { exists []. split; [|done]. split; [done|]. do 2 (split; [constructor|]). split; [constructor|]. lia. }
  destruct (visit_facts _ _ _ _ _ _ Hv Hi Hm) as (Hi1 & Hs1 & Hkeep & rs1 & E1 & F1 & L1 & K1 & C1).
  pose proof Hs1 as (Hm1 & _). rewrite Hm in Hm1.
  destruct IH as (rs2 & (E2 & F2 & G2 & S2 & C2) & K2 & Low2); [done|done|lia|].
  exists (rs1 ++ rs2). split; [split; [|split; [|split; [|split]]]|split].
  - by rewrite sends_app, map_app, concat_app, E1, E2.
  - apply Forall_app. split; [|done]. eapply Forall_impl; [|exact F1]. by intros rp [_ ?].
  - apply Forall_app. split; (eapply Forall_impl; [|eassumption]).
    + intros rp [-> _]. lia.
    + intros rp. simpl. lia.
  - rewrite map_app. eapply (sorted_app_lt i); [by rewrite length_map| | |done];
      apply Forall_fmap; (eapply Forall_impl; [|eassumption]); simpl.
    + by intros rp [-> _].
    + intros rp. lia.
  - intros j c Hj Hc Ha. destruct (decide (j = i)) as [->|Hne].
    + destruct (C1 c Hc Ha) as (rp & Hin & Hfd & Hout). exists rp.
      split; [apply elem_of_app; by left|]. split; [|split; [done|]].
      { pose proof (proj1 (Forall_forall _ _) F1 rp (proj1 (list_elem_of_In _ _) Hin)) as [? _]. done. }
      case_decide; [destruct Hout as [a Ha']; exists a; apply elem_of_app; by left|].
      apply (Low2 i); [lia|done|done].
    + destruct (C2 j c) as (rp & Hin & Hs & Hfd & Hout); [lia|apply Hkeep; [lia|done|done]|done|].
      exists rp. split; [apply elem_of_app; by right|]. split; [done|]. split; [done|].
      case_decide; [destruct Hout as [a Ha']; exists a; apply elem_of_app; by right|done].
  - rewrite served_app, length_app. lia.
  - intros j c Hj Hc Ha. apply Low2; [lia|apply Hkeep; [lia|done|done]|done].
Qed.
End delivery.

(** ** Properties *)

(** The public calls of the server. *)
Inductive server_op :=
  | OpInit (config : option SilogRemoteConfig_t)
  | OpDeinit
  | OpAccept
  | OpBroadcast (en : logEntry_t) (hasCount : bool)
  | OpGetClientCount.

Definition op_typed (o : server_op) : Prop :=
  match o with
  | OpInit (Some c) => config_typed c
  | OpBroadcast en _ => entry_typed en
  | _ => True
  end.

Section properties.
Context {W : Type} `{!Os W, !Others SilogRemoteManager W}.

Definition run_op (o : server_op) : M SilogRemoteManager W unit :=
  match o with
  | OpInit c => _ ← SilogRemoteInit c; mret tt
  | OpDeinit => SilogRemoteDeinit
  | OpAccept => _ ← SilogRemoteAccept; mret tt
  | OpBroadcast en b => _ ← SilogRemoteBroadcast (Some en) b; mret tt
  | OpGetClientCount => _ ← SilogRemoteGetClientCount; mret tt
  end.
Fixpoint run_ops (os : list server_op) : M SilogRemoteManager W unit :=
  match os with
  | [] => mret tt
  | o :: os => run_op o ;; run_ops os
  end.

Lemma count_spec `{!OthersOk W} e :
  ginv ∅ e -> held e = false ->
  wp SilogRemoteGetClientCount
    (fun n e' => ginv ∅ e' /\ held e' = false /\
       n = if m_isInit (mem e') then len (active_fds (default [] (m_clients (mem e')))) else 0) e.
Proof.
  intros Hg Hh. unfold SilogRemoteGetClientCount. wp_step. eapply wp_lock_inv; [done|done|].
  intros m w t _ _ Hg1. wp_steps. split; [done|]. split; [done|]. cbn [mem].
  destruct (m_isInit m) eqn:Hm; [|done]. destruct (inv_table _ (proj1 Hg1) Hm) as [_ [l (Hc&_&_&Hn&_)]].
  cbn [mem] in *. by rewrite Hc.
Qed.

Lemma run_op_spec `{!OthersOk W, !SendLaw W} o e :
  op_typed o -> ginv ∅ e -> held e = false ->
  wp (run_op o) (fun _ e' => ginv ∅ e' /\ held e' = false) e.
Proof.
  intros Ho Hg Hh. destruct o as [c| | |en b|]; cbn [run_op].
  - wp_step. eapply wp_mono; [apply init_spec; [done|by destruct c]|]. intros r e'.
    destruct (m_isInit (mem e)).
    + intros [-> Hs]. wp_step. destruct (ginv_same _ _ _ Hg Hs) as [? ->]. done.
    + intros (Hg' & Hh' & _). wp_step. by rewrite Hh'.
  - eapply wp_mono; [by apply deinit_spec|]. intros _ e' (Hh' & Hi & Hm & Hl). split; [|done].
    split; [done|]. by rewrite fds_uninit.
  - wp_step. eapply wp_mono; [by apply accept_spec|]. intros r e' (Hh' & Hg' & _). by wp_step.
  - wp_step. eapply wp_mono; [by apply broadcast_spec|]. intros r e' (Hg' & Hh' & _). by wp_step.
  - wp_step. eapply wp_mono; [by apply count_spec|]. intros r e' (Hg' & Hh' & _). by wp_step.
Qed.

(** C12: Every sequence of calls of the server returns, whatever the kernel
    answers and whatever the other threads do within the rules of the table: no
    access leaves the client array or follows a null pointer, the mutex is taken
    and released in turn, the number of clients is the number of active slots,
    and the descriptors opened and not yet closed are exactly the listening
    socket and the sockets of the active clients, so that none leaks and none is
    closed twice. *)
Theorem server_ops_safe `{!OthersOk W, !SendLaw W} ops w :
  Forall op_typed ops ->
  wp (run_ops ops)
    (fun _ e => held e = false /\ mgr_inv (mem e) /\ ledger (trace e) = Some (fds (mem e)))
    (Env g_silogRemoteMgr w [] false).
Proof.
  intros Ht.
  assert (forall e, ginv ∅ e -> held e = false ->
    wp (run_ops ops) (fun _ e' => ginv ∅ e' /\ held e' = false) e) as H.
  { induction Ht as [|o ops Ho _ IH]; intros e Hg Hh; cbn [run_ops]; [by wp_step|].
    wp_step. eapply wp_mono; [by apply run_op_spec|]. intros [] e' [? ?]. by apply IH. }
  eapply wp_mono; [apply H; [|done]|].
  - split; [done|]. unfold led. by rewrite (fds_uninit (mem _)).
  - intros _ e [[Hi Hl] Hh]. split; [done|]. split; [done|]. unfold led in Hl.
    by rewrite Hl, (right_id_L ∅ (⊎)).
Qed.

(** C19: A broadcast makes one attempt for every client of the table, in the order
    of the slots, and never stops early; a client counts as served exactly when
    all 377 bytes were accepted; it is dropped, and its own descriptor closed,
    only when its send failed, and every other client stays in its slot. The
    mutex is free during the sends, and the accepting thread may use the table
    then. *)
Theorem broadcast_delivery `{!AcceptorsOnly W, !SendLaw W} en e :
  ginv ∅ e -> held e = false -> m_isInit (mem e) = true -> entry_typed en ->
  wp (SilogRemoteBroadcast (Some en) true)
    (fun r e' => r.1 = SILOG_OK /\ held e' = false /\ ginv ∅ e' /\
       exists m0 t0 t rs, interfered (W:=W) (mem e) t0 m0 /\ trace e' = trace e ++ t0 ++ t /\
         reports_ok (wire en) 0 (m_maxClients (mem e)) m0 (mem e') t rs /\
         r.2 = Some (i32 (len (served rs)))) e.
Proof.
  intros Hg Hh Hm Hen. eapply wp_mono; [by apply broadcast_spec|].
  intros r e' (Hg' & Hh' & _ & Hd). rewrite Hm in Hd.
  destruct Hd as (Hr & m0 & t0 & t & k & Hint & Hi0 & Htr & Hv & Hk).
  split; [done|]. split; [done|]. split; [done|].
  destruct (interfered_ok _ _ _ Hint (proj1 Hg)) as (_ & (Hm0 & _) & _). rewrite Hm in Hm0.
  destruct (visits_reports _ _ _ _ _ _ _ Hv Hi0 Hm0) as (rs & Hrs & -> & _); [done|].
  by exists m0, t0, t, rs.
Qed.

(** C30: An accept that succeeds puts the new connection into one free slot and
    changes nothing else; one that fails, for whatever reason, leaves the table
    as the other threads left it and does not keep the connection. It never
    removes or replaces a client and sends nothing, which is the contract the
    broadcast relies on. *)
Theorem accept_outcome `{!OthersOk W} e :
  ginv ∅ e -> held e = false -> wp SilogRemoteAccept (accept_post ∅ e) e.
Proof. apply accept_spec. Qed.

(** Stopping the service closes every client and the listening socket, each
    once, and leaves a manager that can be started again. *)
Theorem deinit_releases `{!OthersOk W} e :
  ginv ∅ e -> held e = false ->
  wp SilogRemoteDeinit
    (fun _ e' => held e' = false /\ mgr_inv (mem e') /\ m_isInit (mem e') = false /\
       ledger (trace e') = Some ∅) e.
Proof. apply deinit_spec. Qed.

(** Starting the service either fails with an error code, holding no
    descriptor, or succeeds with an empty table of the configured size (the
    defaults for zero); a second start changes nothing. *)
Theorem init_outcome config e :
  ginv ∅ e -> from_option config_typed True config ->
  wp (SilogRemoteInit config)
    (fun r e' => if m_isInit (mem e) then r = SILOG_OK /\ same_state e e' else init_post config (held e) r e') e.
Proof. apply init_spec. Qed.
End properties.

(** ** The accepting thread as the other thread *)

Section acceptor.
Context {W : Type} `{!Os W}.

#[local] Instance idle : Others SilogRemoteManager W := fun m w => (m, [], w).

#[local] Instance idle_ok : OthersOk W.
Proof.
  intros m w m' t w' [= <- <- <-] Hi. split; [done|]. split; [done|]. intros. by rewrite app_nil_r.
Qed.

(** One poll of the accepting thread. *)
Definition accepting : Others SilogRemoteManager W := fun m w =>
  match SilogRemoteAccept (Env m w [] false) with
  | Some (_, e) => (mem e, trace e, world e)
  | None => (m, [], w)
  end.

Lemma fds_pos m : mgr_inv m -> forall fd, fd ∈ fds m -> 0 <= fd.
Proof.
  intros Hi fd Hfd. unfold fds in Hfd. apply gmultiset_elem_of_disj_union in Hfd as [Hfd|Hfd].
  - destruct (0 <=? m_listenFd m) eqn:E; reflectZ; [|multiset_solver].
    apply gmultiset_elem_of_singleton in Hfd. by subst.
  - apply elem_of_list_to_set_disj in Hfd. unfold mgr_inv in Hi. destruct (m_isInit m).
    + destruct Hi as (_ & l & Hc & _ & _ & _ & Hok). rewrite Hc in Hfd. cbn [default from_option id] in Hfd.
      unfold active_fds in Hfd. apply list_elem_of_omap in Hfd as (c & Hin & Hc').
      destruct (c_active c) eqn:Ha; [|done]. injection Hc' as <-.
      pose proof (proj1 (Forall_forall _ _) Hok c (proj1 (list_elem_of_In _ _) Hin)) as Hcok.
      unfold client_ok in Hcok. by rewrite Ha in Hcok.
    + destruct Hi as (_ & Hc & _). rewrite Hc in Hfd. cbn in Hfd. set_solver.
Qed.

Lemma accept_step_keeps r m m' : accept_step r m m' -> keeps_clients m m'.
Proof.
  intros [[_ ->]|(_ & l & i & c0 & c & Hl & Hi & Hc0 & _ & _ & ->)] l' Hl'; [by exists l'|].
  rewrite Hl in Hl'. injection Hl' as <-. unfold fill_slot. rewrite Hl. eexists. split; [done|].
  intros j d Hj Hd. rewrite list_lookup_insert_ne; [done|]. congruence.
Qed.

Lemma accepting_ok : @AcceptorsOnly W accepting.
Proof.
  assert (forall m w m' t w', @others _ _ accepting m w = (m', t, w') -> mgr_inv m ->
    keeps_clients m m' /\ sends t = [] /\ mgr_inv m' /\ same_service m m' /\
    forall tr X, ledger tr = Some (fds m ⊎ X) -> ledger (tr ++ t) = Some (fds m' ⊎ X)) as H.
  { intros m w m' t w' Ho Hi.
    assert (forall tr X, ledger tr = Some (fds m ⊎ X) ->
      wp SilogRemoteAccept (accept_post X (Env m w tr false)) (Env m w tr false)) as Hwp.
    { intros tr X Hl. by apply accept_spec. }
    pose proof (fun tr => framed_accept m w tr [] false) as Hfr.
    unfold others, accepting in Ho. destruct (SilogRemoteAccept (Env m w [] false)) as [[r e']|].
    - injection Ho as <- <- <-. destruct e' as [m1 w1 t1 h1]. cbn [mem trace world] in *.
      (* any trace with the right ledger will do for the facts about the table *)
      destruct (ledger_exists (fds m) (fds_pos m Hi)) as [tr0 Htr0].
      destruct (Hwp tr0 ∅) as (r0 & e0 & Hrun & Hpost); [by rewrite Htr0, (right_id_L ∅ (⊎))|].
      rewrite <- (app_nil_r tr0), Hfr in Hrun at 1. cbn in Hrun. injection Hrun as <- <-.
      destruct Hpost as (_ & [Hi' _] & Hs & m2 & t2 & Hm2 & Hst & Hse). cbn [mem trace] in *.
      assert (m2 = m /\ t2 = []) as [-> ->].
      { destruct Hm2 as [[-> ->]|(? & ? & Hid)]; [done|]. by injection Hid as <- <- _. }
      split; [by eapply accept_step_keeps|]. split.
      { rewrite sends_app in Hse. by apply app_inv_head in Hse. }
      split; [done|]. split; [done|]. intros tr X Hl.
      destruct (Hwp tr X Hl) as (r1 & e1 & Hrun & Hpost).
      rewrite <- (app_nil_r tr), Hfr in Hrun at 1. cbn in Hrun. injection Hrun as <- <-.
      destruct Hpost as (_ & [_ Hl'] & _). exact Hl'.
    - destruct (ledger_exists (fds m) (fds_pos m Hi)) as [tr0 Htr0].
      destruct (Hwp tr0 ∅) as (r0 & e0 & Hrun & _); [by rewrite Htr0, (right_id_L ∅ (⊎))|].
      rewrite <- (app_nil_r tr0), Hfr in Hrun at 1. done. }
  split.
  - intros m w m' t w' Ho Hi. apply H in Ho as (_ & _ & ? & ? & ?); done.
  - intros m w m' t w' Ho Hi. apply H in Ho as (? & ? & _); done.
Qed.

(** The thread that polls [SilogRemoteAccept] meets the contract under which
    a broadcast delivers: it keeps the invariant, accounts for the descriptors
    it opens and closes, keeps every client in place and sends nothing. *)
Theorem accepting_thread_ok : @AcceptorsOnly W accepting.
Proof. apply accepting_ok. Qed.
End acceptor.

(** ** Concrete runs *)

#[export] Instance script_send_law : SendLaw script.
Proof.
  intros fd buf w a w' H. unfold os, script_os in H. destruct w; injection H as <- <-; cbn; lia.
Qed.

#[local] Existing Instance idle.
#[local] Existing Instance idle_ok.

Lemma server_ops_safe_witness :
  wp (run_ops [OpInit None; OpAccept; OpBroadcast (demo_entry 7) true; OpDeinit])
    (fun _ e => held e = false /\ mgr_inv (mem e) /\ ledger (trace e) = Some (fds (mem e)))
    (Env g_silogRemoteMgr [ok 1; ok 3; ok 0; ok 0; ok 0; ok 2; ok 0; ok 4; ok 2; ok 0; ok 100] [] false).
Proof.
  apply server_ops_safe. do 2 (constructor; [done|]).
  constructor; [apply (demo_entry_typed 7); split; lia|]. by repeat constructor.
Defined.

(** A running server with one client on descriptor 4. *)
Definition demo_mgr : SilogRemoteManager :=
  MkMgr true 3 9090 2 (Some [MkClient 4 zero_addr true; MkClient (-1) zero_addr false]) 1.
Definition demo_env (w : script) : env SilogRemoteManager script :=
  Env demo_mgr w [(CSocket, ok 3); (CAccept 3, ok 4)] false.

Lemma demo_ginv w : ginv ∅ (demo_env w) /\ held (demo_env w) = false /\ m_isInit (mem (demo_env w)) = true.
Proof.
  split; [|done]. split.
  - cbn. split; [lia|]. eexists. split; [done|]. cbn. split_and!; try lia.
    repeat constructor; unfold client_ok; cbn; lia.
  - by vm_compute.
Defined.

Lemma broadcast_delivery_witness :
  wp (@SilogRemoteBroadcast script _ accepting (Some (demo_entry 7)) true)
    (fun r _ => r.1 = SILOG_OK) (demo_env [ok 200; ok 300]).
Proof.
  destruct (demo_ginv [ok 200; ok 300]) as (Hg & Hh & Hm).
  pose proof (accepting_ok (W:=script)) as Hacc.
  assert (entry_typed (demo_entry 7)) as Hen by (apply demo_entry_typed; split; lia).
  eapply wp_mono; [exact (@broadcast_delivery script _ accepting Hacc _ (demo_entry 7) _ Hg Hh Hm Hen)|].
  by intros r e' [? _].
Defined.

Lemma accept_outcome_witness :
  wp SilogRemoteAccept (accept_post ∅ (demo_env [ok 5; ok 2; ok 0])) (demo_env [ok 5; ok 2; ok 0]).
Proof. apply accept_outcome; apply demo_ginv. Defined.

Lemma deinit_releases_witness :
  wp SilogRemoteDeinit (fun _ e' => ledger (trace e') = Some ∅) (demo_env []).
Proof.
  eapply wp_mono; [apply deinit_releases; apply demo_ginv|]. by intros ? ? (_ & _ & _ & ?).
Defined.

Lemma init_outcome_witness :
  wp (SilogRemoteInit None) (init_post None false) (Env g_silogRemoteMgr [ok 1; ok 3] [] false).
Proof.
  apply (init_outcome None (Env g_silogRemoteMgr [ok 1; ok 3] [] false)); [|done].
  split; [done|]. by vm_compute.
Defined.
