(* ===== verification/RemoteClient.v ===== *)
(** * The remote log client (silog_comm/src/silog_remote.c, second half)

    The connection of silogcat to the daemon: one buffer of the size of an entry
    collects what the socket delivers, and every full buffer is decoded and given
    to the callback. *)

From S2P Require Import Prelude Errors CObj LogEntry RemoteCodec Os RemoteServer.
#[local] Open Scope Z_scope.

(** ** Data *)

Record SilogRemoteClientConfig := MkClientConfig {
  cc_serverAddr : list Z;
  cc_serverPort : Z;
  cc_useReconnect : bool;
  cc_reconnectMs : Z
}.

Record SilogRemoteClientCtx := MkCtx {
  x_isInit : bool;
  x_isConnected : bool;
  x_socketFd : Z;
  x_config : SilogRemoteClientConfig;
  x_recvBuf : list Z;
  x_recvOffset : Z
}.

Definition SILOG_REMOTE_DEFAULT_RECONNECT_MS : Z := 5000.
(** The characters of ["127.0.0.1"]. *)
Definition SILOG_REMOTE_DEFAULT_SERVER_ADDR : list Z := [49; 50; 55; 46; 48; 46; 48; 46; 49].
Definition SERVER_ADDR_LEN : Z := 64.

Definition zero_config : SilogRemoteClientConfig :=
  MkClientConfig (replicate (Z.to_nat SERVER_ADDR_LEN) 0) 0 false 0.
Definition g_silogRemoteClient : SilogRemoteClientCtx :=
  MkCtx false false (-1) zero_config (replicate (Z.to_nat SILOG_REMOTE_ENTRY_SIZE) 0) 0.

Definition set_socketFd f x :=
  MkCtx (x_isInit x) (x_isConnected x) f (x_config x) (x_recvBuf x) (x_recvOffset x).
Definition set_cconfig c x :=
  MkCtx (x_isInit x) (x_isConnected x) (x_socketFd x) c (x_recvBuf x) (x_recvOffset x).
Definition set_recvBuf b x :=
  MkCtx (x_isInit x) (x_isConnected x) (x_socketFd x) (x_config x) b (x_recvOffset x).
Definition set_recvOffset o x :=
  MkCtx (x_isInit x) (x_isConnected x) (x_socketFd x) (x_config x) (x_recvBuf x) o.
Definition set_connected b o x :=
  MkCtx (x_isInit x) b (x_socketFd x) (x_config x) (x_recvBuf x) o.

(** An entry cleared by [memset_s]. *)
Definition zero_entry : logEntry_t :=
  MkEntry 0 0 0 0 (replicate 32 0) (replicate 64 0) 0 (replicate 256 0) 0 0.

(** ** Operations *)

Section client.
Context {W : Type} `{!Os W}.
#[local] Abbreviation CM := (M SilogRemoteClientCtx W).

Definition SilogRemoteClientSetNonblock (fd : Z) : CM ErrorCode :=
  flags ← sys (CGetfl fd);
  if ret flags <? 0 then mret SILOG_NET_FILE_ERROR
  else
    r ← sys (CSetfl fd (Z.lor (ret flags) O_NONBLOCK));
    if ret r <? 0 then mret SILOG_NET_FILE_ERROR else mret SILOG_OK.

(** [strncpy_s] of the default address into the configuration. *)
Definition default_addr (c : SilogRemoteClientConfig) : option (list Z) :=
  (obj_strncpy_s (cc_serverAddr c) SERVER_ADDR_LEN SILOG_REMOTE_DEFAULT_SERVER_ADDR
     (len SILOG_REMOTE_DEFAULT_SERVER_ADDR)).2.

Definition SilogRemoteClientInit (config : option SilogRemoteClientConfig) : CM ErrorCode :=
  x ← get;
  if x_isInit x then
    SILOG_PRELOG_W SILOG_PRELOG_CAT "Remote client already initialized" [] ;; mret SILOG_OK
  else
    c ← (match config with
         | Some c =>
             first ← lift (cc_serverAddr c !! 0%nat);
             addr ← (if first =? 0 then lift (default_addr c) else mret (cc_serverAddr c));
             mret (MkClientConfig addr
               (if cc_serverPort c =? 0 then SILOG_REMOTE_DEFAULT_PORT else cc_serverPort c)
               (cc_useReconnect c)
               (if cc_reconnectMs c =? 0 then SILOG_REMOTE_DEFAULT_RECONNECT_MS else cc_reconnectMs c))
         | None =>
             addr ← lift (default_addr (x_config x));
             mret (MkClientConfig addr SILOG_REMOTE_DEFAULT_PORT true SILOG_REMOTE_DEFAULT_RECONNECT_MS)
         end);
    put (MkCtx true false (-1) c (x_recvBuf x) 0) ;;
    SILOG_PRELOG_I SILOG_PRELOG_CAT "Remote client initialized, server=%s:%d"
      [AStr (cstr (cc_serverAddr c)); AInt (cc_serverPort c)] ;;
    mret SILOG_OK.

Definition SilogRemoteClientDisconnect : CM unit :=
  x ← get;
  if negb (x_isInit x) then mret tt
  else
    (if 0 <=? x_socketFd x then _ ← sys (CClose (x_socketFd x)); modify (set_socketFd (-1))
     else mret tt) ;;
    modify (set_connected false 0) ;;
    SILOG_PRELOG_I SILOG_PRELOG_CAT "Disconnected from remote server" [].

Definition SilogRemoteClientDeinit : CM unit :=
  x ← get;
  if negb (x_isInit x) then mret tt
  else
    SilogRemoteClientDisconnect ;;
    modify (fun x => MkCtx false (x_isConnected x) (x_socketFd x) (x_config x) (x_recvBuf x) 0) ;;
    SILOG_PRELOG_I SILOG_PRELOG_CAT "Remote client deinitialized" [].

Definition SilogRemoteClientConnect : CM ErrorCode :=
  x ← get;
  if negb (x_isInit x) then
    SILOG_PRELOG_E SILOG_PRELOG_CAT "Remote client not initialized" [] ;; mret SILOG_TRANS_NOT_INIT
  else if x_isConnected x then mret SILOG_OK
  else
    s ← sys CSocket;
    modify (set_socketFd (ret s)) ;;
    if ret s <? 0 then
      SILOG_PRELOG_E SILOG_PRELOG_CAT "Failed to create socket: %s" [AErrno] ;; mret SILOG_NET_FILE_CREATE
    else
      let addr := cstr (cc_serverAddr (x_config x)) in
      p ← sys (CInetPton addr);
      if ret p <=? 0 then
        SILOG_PRELOG_E SILOG_PRELOG_CAT "Invalid server address: %s" [AStr addr] ;;
        _ ← sys (CClose (ret s)); modify (set_socketFd (-1)) ;; mret SILOG_INVALID_ARG
      else
        c ← sys (CConnect (ret s) (out p) (cc_serverPort (x_config x)));
        if ret c <? 0 then
          SILOG_PRELOG_E SILOG_PRELOG_CAT "Failed to connect to %s:%d: %s"
            [AStr addr; AInt (cc_serverPort (x_config x)); AErrno] ;;
          _ ← sys (CClose (ret s)); modify (set_socketFd (-1)) ;; mret SILOG_NET_CONNECT
        else
          _ ← SilogRemoteClientSetNonblock (ret s);
          modify (set_connected true 0) ;;
          SILOG_PRELOG_I SILOG_PRELOG_CAT "Connected to remote server %s:%d"
            [AStr addr; AInt (cc_serverPort (x_config x))] ;;
          mret SILOG_OK.

Definition SilogRemoteClientIsConnected : CM bool :=
  x ← get; mret (x_isInit x && x_isConnected x).
Definition SilogRemoteClientIsInit : CM bool := x ← get; mret (x_isInit x).

(** The loop over complete packets; [sizeof(recvBuf)] is the size of an entry,
    so that the bytes moved to the front would come from beyond the buffer. *)
Fixpoint packet_loop (fuel : nat) : CM unit :=
  match fuel with
  | O => undefined
  | S fuel =>
      x ← get;
      if SILOG_REMOTE_ENTRY_SIZE <=? x_recvOffset x then
        d ← lift (SilogRemoteDeserializeEntry (Some (x_recvBuf x)) SILOG_REMOTE_ENTRY_SIZE (Some zero_entry));
        (match d with
         | (SILOG_OK, Some e) => _ ← sys (CCallback e); mret tt
         | _ => mret tt
         end) ;;
        let remaining := x_recvOffset x - SILOG_REMOTE_ENTRY_SIZE in
        (if 0 <? remaining then
           b ← lift (obj_memmove_s (x_recvBuf x) 0 SILOG_REMOTE_ENTRY_SIZE SILOG_REMOTE_ENTRY_SIZE remaining).2;
           modify (set_recvBuf b)
         else mret tt) ;;
        modify (set_recvOffset remaining) ;;
        packet_loop fuel
      else mret tt
  end.

Definition SilogRemoteClientReceive (hasCallback : bool) (timeoutMs : Z) : CM ErrorCode :=
  x ← get;
  if negb (x_isInit x) then mret SILOG_TRANS_NOT_INIT
  else if negb (x_isConnected x) then mret SILOG_NET_CLOSED
  else if negb hasCallback then mret SILOG_NULL_PTR
  else
    let tv := if 0 <? timeoutMs then Some (timeoutMs / 1000, (timeoutMs mod 1000) * 1000) else None in
    r ← sys (CSelect (x_socketFd x) tv);
    if ret r <? 0 then
      if errno r =? EINTR then mret SILOG_NET_TIMEOUT
      else
        SILOG_PRELOG_E SILOG_PRELOG_CAT "select failed: %s" [AErrno] ;;
        SilogRemoteClientDisconnect ;; mret SILOG_NET_FILE_ERROR
    else if ret r =? 0 then mret SILOG_NET_TIMEOUT
    else
      let needed := u64 (SILOG_REMOTE_ENTRY_SIZE - x_recvOffset x) in
      n ← sys (CRecv (x_socketFd x) needed);
      if ret n <? 0 then
        if errno n =? EAGAIN then mret SILOG_NET_TIMEOUT
        else
          SILOG_PRELOG_E SILOG_PRELOG_CAT "recv failed: %s" [AErrno] ;;
          SilogRemoteClientDisconnect ;; mret SILOG_NET_RECV
      else if ret n =? 0 then
        SILOG_PRELOG_I SILOG_PRELOG_CAT "Server closed connection" [] ;;
        SilogRemoteClientDisconnect ;; mret SILOG_NET_CLOSED
      else
        (* the kernel stores the bytes at recvBuf + recvOffset *)
        b ← lift (wr (x_recvBuf x) (x_recvOffset x) (out n));
        modify (set_recvBuf b) ;;
        modify (set_recvOffset (u64 (x_recvOffset x + ret n))) ;;
        x ← get;
        packet_loop (S (Z.to_nat (x_recvOffset x))) ;;
        mret SILOG_OK.
End client.

(** ** Streams *)

(** [recv] delivers what it says, and at most what was asked. *)
Class RecvLaw (W : Type) `{!Os W} : Prop :=
  recv_data fd n w a w' :
    os (CRecv fd n) w = (a, w') -> 0 < ret a ->
    ret a = len (out a) /\ ret a <= n /\ Forall is_u8 (out a).

(** The bytes received and the entries given to the callback in a trace. *)
Definition stream (t : trace_t) : list Z :=
  concat (map (fun ev => match ev.1 with
                         | CRecv _ _ => if 0 <? ret ev.2 then out ev.2 else []
                         | _ => []
                         end) t).
Definition callbacks (t : trace_t) : list logEntry_t :=
  omap (fun ev => match ev.1 with CCallback e => Some e | _ => None end) t.

Lemma stream_app t1 t2 : stream (t1 ++ t2) = stream t1 ++ stream t2.
Proof. unfold stream. by rewrite map_app, concat_app. Qed.
Lemma callbacks_app t1 t2 : callbacks (t1 ++ t2) = callbacks t1 ++ callbacks t2.
Proof. apply omap_app. Qed.

(** The entry decoded from one block. *)
Definition decode_block (b : list Z) : logEntry_t :=
  match SilogRemoteDeserializeEntry (Some b) SILOG_REMOTE_ENTRY_SIZE (Some zero_entry) with
  | Some (_, Some e) => e
  | _ => zero_entry
  end.

(** A stream is cut into blocks of the size of an entry and an incomplete rest. *)
Definition cut (l : list Z) (bs : list (list Z)) (p : list Z) : Prop :=
  l = concat bs ++ p /\ Forall (fun b => len b = SILOG_REMOTE_ENTRY_SIZE) bs /\
  len p < SILOG_REMOTE_ENTRY_SIZE.

(** ** The invariant *)

Definition ctx_inv (x : SilogRemoteClientCtx) : Prop :=
  bytes_of SILOG_REMOTE_ENTRY_SIZE (x_recvBuf x) /\ 0 <= x_recvOffset x < SILOG_REMOTE_ENTRY_SIZE /\
  len (cc_serverAddr (x_config x)) = SERVER_ADDR_LEN /\
  (if x_isConnected x then x_isInit x = true /\ 0 <= x_socketFd x else x_socketFd x < 0).

Definition ctx_fds (x : SilogRemoteClientCtx) : gmultiset Z :=
  if 0 <=? x_socketFd x then {[+ x_socketFd x +]} else ∅.

Lemma zero_entry_typed : entry_typed zero_entry.
Proof.
  assert (forall n, Forall is_u8 (replicate n 0)) as Hb
    by (intros; apply Forall_replicate; unfold is_u8; lia).
  split; cbn [zero_entry ts pid tid level tag file line msg msgLen enabled];
    lazymatch goal with |- bytes_of _ _ => split; [done|apply Hb] | _ => split; lia end.
Qed.

Lemma decode_spec b :
  bytes_of SILOG_REMOTE_ENTRY_SIZE b ->
  SilogRemoteDeserializeEntry (Some b) SILOG_REMOTE_ENTRY_SIZE (Some zero_entry)
  = Some (SILOG_OK, Some (decode_block b)).
Proof.
  intros [Hl Hb].
  assert (exists e, SilogRemoteDeserializeEntry (Some b) SILOG_REMOTE_ENTRY_SIZE (Some zero_entry)
    = Some (SILOG_OK, Some e)) as [e He].
  { destruct (deserialize_ok b SILOG_REMOTE_ENTRY_SIZE zero_entry) as (e & He & _);
      [lia|done|apply zero_entry_typed|by exists e]. }
  unfold decode_block. by rewrite He.
Qed.

Lemma decode_sane b : bytes_of SILOG_REMOTE_ENTRY_SIZE b -> entry_sane (decode_block b).
Proof.
  intros Hb. pose proof (decode_spec b Hb) as Hd. destruct Hb as [Hl Hb].
  destruct (deserialize_ok b SILOG_REMOTE_ENTRY_SIZE zero_entry) as (e & He & Hs);
    [lia|done|apply zero_entry_typed|]. rewrite He in Hd. by injection Hd as <-.
Qed.

Section specs.
Context {W : Type} `{!Os W}.
Implicit Types (e : env SilogRemoteClientCtx W).

(** The context is consistent and its descriptor is the only one left open. *)
Definition cginv e : Prop := ctx_inv (mem e) /\ ledger (trace e) = Some (ctx_fds (mem e)).

Lemma take_len_wr b o d :
  0 <= o -> o + len d = len b -> wr b o d = Some (take (Z.to_nat o) b ++ d).
Proof. intros. rewrite wr_Some by lia. rewrite drop_ge by lia. by rewrite app_nil_r. Qed.

Lemma disconnect_spec e :
  cginv e -> x_isInit (mem e) = true ->
  wp SilogRemoteClientDisconnect
    (fun _ e' => cginv e' /\ held e' = held e /\ x_isInit (mem e') = true /\
       x_isConnected (mem e') = false /\ x_socketFd (mem e') < 0 /\
       x_config (mem e') = x_config (mem e) /\
       exists t, trace e' = trace e ++ t /\ stream t = [] /\ callbacks t = []) e.
Proof.
  intros [Hx Hl] Hi. destruct e as [x w t h]. unfold SilogRemoteClientDisconnect. cbn [mem trace held] in *.
  destruct Hx as (Hb & Ho & Ha & Hc). wp_step. wp_step. cbn [mem]. rewrite Hi. cbn [negb].
  wp_step. wp_step.
  - wp_steps. split; [split|].
    + split; [done|]. split; [cbn; change SILOG_REMOTE_ENTRY_SIZE with 377; lia|]. split; [done|]. cbn. lia.
    + cbn [trace mem]. unfold ctx_fds in *. cbn [set_connected set_socketFd x_socketFd].
      rewrite (proj2 (Z.leb_le 0 (x_socketFd x))) in Hl by done.
      apply ledger_close. change (0 <=? -1) with false. cbv iota. by rewrite (left_id_L ∅ (⊎)).
    + cbn. split_and!; try done. by exists [(CClose (x_socketFd x), a)].
  - wp_steps. split; [split|].
    + split; [done|]. split; [cbn; change SILOG_REMOTE_ENTRY_SIZE with 377; lia|]. split; [done|]. cbn. lia.
    + done.
    + cbn. split_and!; try done. exists []. by rewrite app_nil_r.
Qed.

Lemma packet_loop_short fuel (Q : unit -> env SilogRemoteClientCtx W -> Prop) e :
  x_recvOffset (mem e) < SILOG_REMOTE_ENTRY_SIZE -> Q tt e -> wp (packet_loop (S fuel)) Q e.
Proof. intros Ho HQ. cbn [packet_loop]. wp_step. wp_step. ztest. by wp_step. Qed.

Lemma packet_loop_full fuel (Q : unit -> env SilogRemoteClientCtx W -> Prop) e :
  x_recvOffset (mem e) = SILOG_REMOTE_ENTRY_SIZE -> bytes_of SILOG_REMOTE_ENTRY_SIZE (x_recvBuf (mem e)) ->
  (forall a w, Q tt (Env (set_recvOffset 0 (mem e)) w
     (trace e ++ [(CCallback (decode_block (x_recvBuf (mem e))), a)]) (held e))) ->
  wp (packet_loop (S (S fuel))) Q e.
Proof.
  intros Ho Hb HQ. remember (S fuel) as k eqn:Hk. cbn [packet_loop]. wp_step. wp_step. rewrite Ho.
  rewrite Z.leb_refl. wp_step. wp_step; [by apply decode_spec|]. wp_step. wp_step. wp_step. wp_step.
  rewrite Z.sub_diag. change (0 <? 0) with false. cbv iota. wp_steps. subst k. apply packet_loop_short; [done|].
  apply HQ.
Qed.

(** What a call of the receiver does to the stream [p] of bytes that wait in the
    buffer. *)
Definition receive_post e (r : ErrorCode) e' : Prop :=
  cginv e' /\ x_isInit (mem e') = true /\ x_config (mem e') = x_config (mem e) /\
  exists t, trace e' = trace e ++ t /\
  if x_isConnected (mem e') then
    exists bs, callbacks t = map decode_block bs /\ Forall (bytes_of SILOG_REMOTE_ENTRY_SIZE) bs /\
      cut (take (Z.to_nat (x_recvOffset (mem e))) (x_recvBuf (mem e)) ++ stream t) bs
        (take (Z.to_nat (x_recvOffset (mem e'))) (x_recvBuf (mem e')))
  else stream t = [] /\ callbacks t = [].

Lemma pending_cut x : ctx_inv x -> cut (take (Z.to_nat (x_recvOffset x)) (x_recvBuf x)) []
  (take (Z.to_nat (x_recvOffset x)) (x_recvBuf x)).
Proof.
  intros ([Hb _] & Ho & _). split; [done|]. split; [constructor|]. rewrite length_take. lia.
Qed.

(** The part of the receiver after [recv] delivered [d]. *)
Lemma receive_data `{!RecvLaw W} x w w' t h t' a :
  ctx_inv x -> x_isInit x = true -> x_isConnected x = true ->
  ledger t = Some (ctx_fds x) -> neutral t' -> stream t' = out a -> callbacks t' = [] ->
  0 < ret a -> ret a = len (out a) -> ret a <= SILOG_REMOTE_ENTRY_SIZE - x_recvOffset x ->
  Forall is_u8 (out a) ->
  wp (b ← lift (wr (x_recvBuf x) (x_recvOffset x) (out a));
      modify (set_recvBuf b) ;;
      modify (set_recvOffset (u64 (x_recvOffset x + ret a))) ;;
      x ← get;
      packet_loop (S (Z.to_nat (x_recvOffset x))) ;;
      mret SILOG_OK) (receive_post (Env x w t h)) (Env x w' (t ++ t') h).
Proof.
  intros Hx Hi Hc Hl Hn Hs Hcb Hpos Hr Hle Hby. pose proof Hx as ([Hb Hbb] & Ho & Ha & Hcon).
  rewrite Hc in Hcon. destruct Hcon as [_ Hfd].
  set (o := x_recvOffset x) in *. set (b := x_recvBuf x) in *.
  assert (wr b o (out a) = Some (take (Z.to_nat o) b ++ out a ++ drop (Z.to_nat o + length (out a)) b)) as Hw
    by (apply wr_Some; lia).
  wp_step. wp_step; [exact Hw|]. set (b' := take _ _ ++ _) in *.
  assert (bytes_of SILOG_REMOTE_ENTRY_SIZE b') as Hb'.
  { split; [rewrite (wr_length _ _ _ _ Hw); done|]. unfold b'. rewrite !Forall_app.
    split; [by apply Forall_take|]. split; [done|by apply Forall_drop]. }
  assert (SILOG_REMOTE_ENTRY_SIZE < 2 ^ 64) by done.
  wp_step. wp_step. wp_step. wp_step. rewrite u64_small by (unfold is_u64; lia).
  wp_step. wp_step. cbn [x_recvOffset set_recvOffset].
  assert (take (Z.to_nat (o + ret a)) b' = take (Z.to_nat o) b ++ out a) as Htk.
  { unfold b'. rewrite (assoc_L (++)). apply take_app_length'. rewrite length_app, length_take. lia. }
  assert (forall o' w2 t1, 0 <= o' < SILOG_REMOTE_ENTRY_SIZE -> neutral t1 ->
    cginv (Env (set_recvOffset o' (set_recvBuf b' x)) w2 (t ++ t1) h)) as Hg.
  { intros o' w2 t1 Ho' Ht1. split; [|cbn [trace]; by rewrite Ht1].
    split; [done|]. split; [done|]. split; [done|]. cbn. by rewrite Hc. }
  destruct (decide (o + ret a < SILOG_REMOTE_ENTRY_SIZE)) as [Hlt|Hge].
  - wp_step. apply packet_loop_short; [done|]. wp_step.
    split; [apply Hg; [lia|done]|]. split; [done|]. split; [done|]. exists t'. split; [done|].
    cbn [mem set_recvOffset set_recvBuf x_isConnected x_recvOffset x_recvBuf]. rewrite Hc.
    exists []. split; [done|]. split; [constructor|]. fold o b. rewrite Htk, Hs. split; [done|]. split; [constructor|].
    rewrite length_app, length_take. lia.
  - assert (o + ret a = SILOG_REMOTE_ENTRY_SIZE) as Heq by lia. rewrite Heq in *. wp_step.
    replace (Z.to_nat SILOG_REMOTE_ENTRY_SIZE) with (S (Z.to_nat (SILOG_REMOTE_ENTRY_SIZE - 1)))
      by (unfold SILOG_REMOTE_ENTRY_SIZE; done).
    apply packet_loop_full; [done|done|]. intros a2 w2. cbn [mem world trace held]. wp_step.
    rewrite <- (assoc_L (++)).
    split; [apply (Hg 0); [done|solve_neutral]|]. split; [done|]. split; [done|].
    eexists. split; [done|].
    cbn [mem set_recvOffset set_recvBuf x_isConnected x_recvOffset x_recvBuf]. rewrite Hc.
    exists [b']. rewrite callbacks_app, Hcb. split; [done|]. split; [by apply Forall_singleton|]. fold o b.
    rewrite stream_app, Hs. cbn [stream map concat]. rewrite take_ge in Htk by (destruct Hb'; lia).
    rewrite Htk. split; [cbn; by rewrite !app_nil_r|]. split; [|done].
    apply Forall_singleton. rewrite <- Htk. apply Hb'.
Qed.

Lemma receive_spec `{!RecvLaw W} e ms :
  cginv e -> x_isInit (mem e) = true -> x_isConnected (mem e) = true ->
  wp (SilogRemoteClientReceive true ms) (receive_post e) e.
Proof.
  intros Hg Hi Hc. destruct e as [x w t h]. cbn [mem] in *.
  assert (forall r w' t', neutral t' -> stream t' = [] -> callbacks t' = [] ->
    receive_post (Env x w t h) r (Env x w' (t ++ t') h)) as Hstay.
  { intros r w' t' Hn Hs Hcb. destruct Hg as [Hx Hl]. split; [split; [done|]; cbn [trace mem]; by rewrite Hn|].
    split; [done|]. split; [done|]. exists t'. split; [done|]. cbn [mem]. rewrite Hc. exists [].
    rewrite Hs, app_nil_r. split; [done|]. split; [constructor|]. by apply pending_cut. }
  assert (forall r w' t', neutral t' -> stream t' = [] -> callbacks t' = [] ->
    wp (SilogRemoteClientDisconnect ;; mret r) (receive_post (Env x w t h)) (Env x w' (t ++ t') h)) as Hdis.
  { intros r w' t' Hn Hs Hcb. wp_step. destruct Hg as [Hx Hl].
    eapply wp_mono; [apply disconnect_spec; [split; [done|]; cbn [trace mem]; by rewrite Hn|done]|].
    intros _ e' (Hg' & _ & Hi' & Hc' & _ & Hcfg & t2 & Ht2 & Hs2 & Hcb2). wp_step.
    split; [done|]. split; [done|]. split; [done|]. exists (t' ++ t2). rewrite Ht2. cbn [trace].
    rewrite (assoc_L (++)). split; [done|]. rewrite Hc', stream_app, callbacks_app, Hs, Hs2, Hcb, Hcb2. done. }
  unfold SilogRemoteClientReceive. wp_step. wp_step. rewrite Hi, Hc. cbn [negb]. cbv zeta.
  set (tv := if 0 <? ms then _ else _). wp_step. wp_step. wp_step.
  { wp_step; [wp_step; apply Hstay|wp_diags; apply Hdis]; done || solve_neutral. }
  wp_step; [wp_step; apply Hstay; done || solve_neutral|].
  set (ev1 := (CSelect (x_socketFd x) tv, a)) in *.
  assert (neutral [ev1]) as Hn1 by by apply neutral_one.
  wp_step. wp_step. rewrite <- (assoc_L (++)).
  match goal with |- context [t ++ ([ev1] ++ [?ev])] => set (ev2 := ev) in * end.
  assert (neutral [ev2]) as Hn2 by by apply neutral_one.
  assert (neutral ([ev1] ++ [ev2])) as Hn12 by by apply neutral_app.
  assert (ret a0 <= 0 -> stream ([ev1] ++ [ev2]) = []) as Hst0
    by (intros Hz; cbn; ztest; done).
  wp_step.
  { wp_step; [wp_step; apply Hstay|wp_diags; apply Hdis]; first [done|apply Hst0; lia]. }
  wp_step; [wp_diags; apply Hdis; first [done|apply Hst0; lia]|].
  destruct Hg as [Hx Hl]. cbn [mem trace] in Hx, Hl. pose proof Hx as (_ & Ho & _).
  assert (ret a0 > 0) by lia. destruct (recv_data _ _ _ _ _ H0) as (Hr & Hle & Hby); [lia|].
  assert (SILOG_REMOTE_ENTRY_SIZE < 2 ^ 64) by done.
  rewrite u64_small in Hle by (unfold is_u64; lia).
  eapply receive_data; try done; [|lia]. cbn. ztest. by rewrite app_nil_r.
Qed.

(** Several calls in a row. *)
Fixpoint receive_all (ms : list Z) : M SilogRemoteClientCtx W unit :=
  match ms with
  | [] => mret tt
  | m :: ms => _ ← SilogRemoteClientReceive true m; receive_all ms
  end.

Lemma cut_app l1 l2 bs1 bs2 p1 p2 :
  cut l1 bs1 p1 -> cut (p1 ++ l2) bs2 p2 -> cut (l1 ++ l2) (bs1 ++ bs2) p2.
Proof.
  intros (-> & H1 & _) (H2 & H3 & H4). split; [|split; [by apply Forall_app|done]].
  by rewrite <- (assoc_L (++)), H2, concat_app, (assoc_L (++)).
Qed.

Lemma receive_disconnected ms e (Q : unit -> env SilogRemoteClientCtx W -> Prop) :
  x_isInit (mem e) = true -> x_isConnected (mem e) = false -> Q tt e -> wp (receive_all ms) Q e.
Proof.
  intros Hi Hc HQ. induction ms as [|m ms IH]; cbn [receive_all]; [by wp_step|].
  wp_step. unfold SilogRemoteClientReceive. wp_step. wp_step. rewrite Hi, Hc. cbn [negb]. by wp_step.
Qed.

Lemma receive_all_spec `{!RecvLaw W} ms e :
  cginv e -> x_isInit (mem e) = true -> x_isConnected (mem e) = true ->
  wp (receive_all ms)
    (fun _ e' => cginv e' /\ exists t bs p, trace e' = trace e ++ t /\ callbacks t = map decode_block bs /\
       cut (take (Z.to_nat (x_recvOffset (mem e))) (x_recvBuf (mem e)) ++ stream t) bs p) e.
Proof.
  revert e. induction ms as [|m ms IH]; intros e Hg Hi Hc; cbn [receive_all].
  { wp_step. split; [done|]. exists [], [], (take (Z.to_nat (x_recvOffset (mem e))) (x_recvBuf (mem e))).
    rewrite !app_nil_r. split; [done|]. split; [done|]. apply pending_cut, Hg. }
  wp_step. eapply wp_mono; [by apply receive_spec|].
  intros r e1 (Hg1 & Hi1 & _ & t1 & Ht1 & Hpost). destruct (x_isConnected (mem e1)) eqn:Hc1.
  - destruct Hpost as (bs1 & Hcb1 & _ & Hcut1). eapply wp_mono; [by apply IH|].
    intros _ e2 (Hg2 & t2 & bs2 & p2 & Ht2 & Hcb2 & Hcut2). split; [done|].
    exists (t1 ++ t2), (bs1 ++ bs2), p2. rewrite Ht2, Ht1, (assoc_L (++)). split; [done|].
    rewrite callbacks_app, Hcb1, Hcb2, map_app. split; [done|].
    rewrite stream_app, (assoc_L (++)). by eapply cut_app.
  - destruct Hpost as [Hs Hcb]. apply receive_disconnected; [done|done|]. split; [done|].
    exists t1, [], (take (Z.to_nat (x_recvOffset (mem e))) (x_recvBuf (mem e))).
    rewrite Hs, Hcb, app_nil_r. split; [done|]. split; [done|]. apply pending_cut, Hg.
Qed.
End specs.

(** ** Life cycle *)

Inductive client_op :=
  | COpInit (config : option SilogRemoteClientConfig)
  | COpConnect
  | COpDisconnect
  | COpReceive (ms : Z)
  | COpDeinit.

Definition cop_typed (o : client_op) : Prop :=
  match o with
  | COpInit (Some c) => len (cc_serverAddr c) = SERVER_ADDR_LEN
  | _ => True
  end.

Section lifecycle.
Context {W : Type} `{!Os W}.
Implicit Types (e : env SilogRemoteClientCtx W).

Definition run_cop (o : client_op) : M SilogRemoteClientCtx W unit :=
  match o with
  | COpInit c => _ ← SilogRemoteClientInit c; mret tt
  | COpConnect => _ ← SilogRemoteClientConnect; mret tt
  | COpDisconnect => SilogRemoteClientDisconnect
  | COpReceive ms => _ ← SilogRemoteClientReceive true ms; mret tt
  | COpDeinit => SilogRemoteClientDeinit
  end.
Fixpoint run_cops (os : list client_op) : M SilogRemoteClientCtx W unit :=
  match os with
  | [] => mret tt
  | o :: os => run_cop o ;; run_cops os
  end.

(** An uninitialised client has no socket. *)
Lemma uninit_disconnected x : ctx_inv x -> x_isInit x = false -> x_isConnected x = false /\ x_socketFd x < 0.
Proof.
  intros (_ & _ & _ & H) Hi. destruct (x_isConnected x); [|done]. destruct H. congruence.
Qed.

Lemma default_addr_ok c :
  len (cc_serverAddr c) = SERVER_ADDR_LEN ->
  exists a, default_addr c = Some a /\ len a = SERVER_ADDR_LEN.
Proof.
  intros H. assert (default_addr c = wr (cc_serverAddr c) 0 (SILOG_REMOTE_DEFAULT_SERVER_ADDR ++ [0])) as ->
    by reflexivity.
  destruct (wr _ _ _) as [a|] eqn:Hw.
  - exists a. split; [done|]. by rewrite (wr_length _ _ _ _ Hw).
  - rewrite wr_Some in Hw; [done|done|]. rewrite H. done.
Qed.

Lemma client_init_spec c e :
  cginv e -> cop_typed (COpInit c) ->
  wp (SilogRemoteClientInit c)
    (fun r e' => r = SILOG_OK /\ cginv e' /\ x_isInit (mem e') = true /\
       (x_isInit (mem e) = false -> x_isConnected (mem e') = false /\ x_recvOffset (mem e') = 0)) e.
Proof.
  intros [Hx Hl] Hc. destruct e as [x w t h]. cbn [mem trace] in *. unfold SilogRemoteClientInit.
  wp_step. wp_step. cbn [mem]. destruct (x_isInit x) eqn:Hi; [by wp_step|].
  destruct (uninit_disconnected x Hx Hi) as [Hcn Hfd]. destruct Hx as (Hb & _ & Ha & _).
  assert (forall c', len (cc_serverAddr c') = SERVER_ADDR_LEN ->
    cginv (Env (MkCtx true false (-1) c' (x_recvBuf x) 0) w t h)) as Hdone.
  { intros c' Hc'. split; [split; [done|]; split; [done|]; split; done|]. cbn [trace mem].
    unfold ctx_fds in *. cbn [x_socketFd]. apply Z.leb_gt in Hfd. by rewrite Hfd in Hl. }
  wp_step. destruct c as [c|]; cbn in Hc.
  - destruct (cc_serverAddr c) as [|z l] eqn:Hz; [done|].
    wp_step. wp_step; [done|]. wp_step.
    apply wp_mono with (fun a e' => e' = Env x w t h /\ len a = SERVER_ADDR_LEN).
    + destruct (z =? 0); [|by wp_step]. destruct (default_addr_ok c) as (a & Hda & Hla); [by rewrite Hz|].
      by eapply wp_lift.
    + intros a e' [-> Hla]. wp_steps. split; [done|]. split; [by apply Hdone|]. done.
  - destruct (default_addr_ok (x_config x)) as (a & Hda & Hla); [done|].
    wp_step. eapply wp_lift; [done|]. wp_steps. split; [done|]. split; [by apply Hdone|]. done.
Qed.

Lemma connect_spec e :
  cginv e ->
  wp SilogRemoteClientConnect
    (fun r e' => cginv e' /\
       if x_isInit (mem e) then
         x_isInit (mem e') = true /\
         (x_isConnected (mem e') = true <-> r = SILOG_OK) /\
         (r = SILOG_OK -> x_isConnected (mem e) = false -> x_recvOffset (mem e') = 0)
       else r = SILOG_TRANS_NOT_INIT /\ same_state e e') e.
Proof.
  intros [Hx Hl]. destruct e as [x w t h]. cbn [mem trace] in *. unfold SilogRemoteClientConnect.
  wp_step. wp_step. destruct (x_isInit x) eqn:Hi; cbn [negb]; [|by wp_step].
  destruct (x_isConnected x) eqn:Hc; [by wp_step|].
  destruct Hx as (Hb & Ho & Ha & Hfd). rewrite Hc in Hfd.
  assert (ctx_fds x = ∅) as H0 by (unfold ctx_fds; apply Z.leb_gt in Hfd; by rewrite Hfd).
  rewrite H0 in Hl.
  assert (forall f t1 (w' : W), f < 0 -> ledger t1 = Some ∅ -> cginv (Env (set_socketFd f x) w' t1 h)) as Hno.
  { intros f t1 w' Hf Ht1. split; [split; [done|]; split; [done|]; split; [done|]; cbn; by rewrite Hc|].
    cbn [trace mem]. unfold ctx_fds. cbn. apply Z.leb_gt in Hf. by rewrite Hf. }
  wp_step. wp_step. wp_step. wp_step. wp_step.
  { wp_step. split; [apply Hno; [done|]; by rewrite ledger_open_fail|]. cbn. rewrite Hc. done. }
  assert (ledger (t ++ [(CSocket, a)]) = Some (∅ ⊎ {[+ ret a +]})) as Hs by by apply ledger_open.
  assert (forall t' a1 (w' : W), neutral t' ->
    cginv (Env (set_socketFd (-1) (set_socketFd (ret a) x)) w'
      (((t ++ [(CSocket, a)]) ++ t') ++ [(CClose (ret a), a1)]) h)) as Hclosed.
  { intros t' a1 w' Hn. apply (Hno (-1)); [done|]. apply ledger_close. by rewrite Hn. }
  wp_step. wp_step. wp_step.
  { wp_steps. split; [apply Hclosed; solve_neutral|]. cbn. rewrite Hc. done. }
  wp_step. wp_step. wp_step.
  { wp_steps. rewrite <- (assoc_L (++) (t ++ _) [_] [_]).
    split; [apply Hclosed; solve_neutral|]. cbn. rewrite Hc. done. }
  unfold SilogRemoteClientSetNonblock. wp_step.
  apply wp_mono with (fun _ e' => exists w' t', neutral t' /\
    e' = Env (set_socketFd (ret a) x) w' ((t ++ [(CSocket, a)]) ++ t') h).
  { wp_steps; (eexists _, _; split; [|by rewrite <- !(assoc_L (++) (t ++ [_]))]); solve_neutral. }
  intros r e' (w' & t' & Hn & ->). wp_steps. split; [split|].
  - split; [done|]. split; [done|]. split; [done|]. done.
  - cbn [trace mem]. rewrite Hn, Hs. unfold ctx_fds. cbn [set_connected set_socketFd x_socketFd].
    rewrite (proj2 (Z.leb_le _ _)) by done.
    by rewrite (left_id_L ∅ (⊎)).
  - cbn. done.
Qed.

Lemma run_cop_spec `{!RecvLaw W} o e :
  cop_typed o -> cginv e -> wp (run_cop o) (fun _ e' => cginv e') e.
Proof.
  intros Ho Hg.
  assert (x_isInit (mem e) = false -> forall (Q : unit -> _ -> Prop), Q tt e ->
    wp SilogRemoteClientDisconnect Q e) as Hdis0.
  { intros Hi Q HQ. unfold SilogRemoteClientDisconnect. wp_step. wp_step. rewrite Hi. cbn [negb]. by wp_step. }
  destruct o as [c| | |ms|]; cbn [run_cop].
  - wp_step. eapply wp_mono; [by apply client_init_spec|]. intros r e' (_ & ? & _). by wp_step.
  - wp_step. eapply wp_mono; [by apply connect_spec|]. intros r e' (? & _). by wp_step.
  - destruct (x_isInit (mem e)) eqn:Hi; [|by apply Hdis0].
    eapply wp_mono; [by apply disconnect_spec|]. by intros _ e' (? & _).
  - wp_step. destruct (x_isInit (mem e)) eqn:Hi; cycle 1.
    { unfold SilogRemoteClientReceive. wp_step. wp_step. rewrite Hi. cbn [negb]. by wp_steps. }
    destruct (x_isConnected (mem e)) eqn:Hc; cycle 1.
    { unfold SilogRemoteClientReceive. wp_step. wp_step. rewrite Hi, Hc. cbn [negb]. by wp_steps. }
    eapply wp_mono; [by apply receive_spec|]. intros r e' (? & _). by wp_step.
  - unfold SilogRemoteClientDeinit. wp_step. wp_step. destruct (x_isInit (mem e)) eqn:Hi; cbn [negb]; [|by wp_step].
    wp_step. eapply wp_mono; [by apply disconnect_spec|].
    intros _ e' ([(Hb & Ho' & Ha & _) Hl] & _ & _ & Hc & Hfd & _). wp_steps.
    split; [|done]. split; [done|]. split; [done|]. split; [done|]. cbn. by rewrite Hc.
Qed.
End lifecycle.

(** ** From the wire to the callback *)

Lemma decode_of_wire e : entry_typed e -> decode_block (wire e) = received e.
Proof.
  intros He. pose proof (decode_wire e [] SILOG_REMOTE_ENTRY_SIZE zero_entry He zero_entry_typed) as H.
  rewrite app_nil_r in H. unfold decode_block. by rewrite H.
Qed.

(** A stream that follows a sequence of wire images is cut into them. *)
Lemma cut_wires bs p es :
  Forall (fun b => len b = SILOG_REMOTE_ENTRY_SIZE) bs -> Forall entry_typed es ->
  concat bs ++ p `prefix_of` concat (map wire es) ->
  bs = map wire (take (length bs) es).
Proof.
  intros Hbs. revert es. induction Hbs as [|b bs Hb _ IH]; intros es Hes Hpre; [done|].
  destruct es as [|e es].
  { simpl in Hpre. apply prefix_nil_inv in Hpre. apply (f_equal length) in Hpre.
    rewrite !length_app in Hpre. change SILOG_REMOTE_ENTRY_SIZE with 377 in Hb. simpl in Hpre. lia. }
  apply Forall_cons_1 in Hes as [He Hes]. pose proof (wire_length e He) as Hw.
  destruct Hpre as [k Hk]. cbn [concat map] in Hk. rewrite <- !(assoc_L (++)) in Hk.
  apply app_inj_1 in Hk as [Hbe Hk]; [|lia]. cbn. rewrite <- Hbe. f_equal. apply IH; [done|].
  exists k. by rewrite <- (assoc_L (++)).
Qed.

Lemma decode_wires es : Forall entry_typed es -> map decode_block (map wire es) = map received es.
Proof. induction 1 as [|e es He _ IH]; cbn [map]; [done|]. by rewrite decode_of_wire, IH. Qed.
Lemma blocks_length (bs : list (list Z)) :
  Forall (fun b => len b = SILOG_REMOTE_ENTRY_SIZE) bs -> len (concat bs) = SILOG_REMOTE_ENTRY_SIZE * len bs.
Proof. induction 1 as [|b bs Hb _ IH]; cbn [concat length]; [lia|]. rewrite length_app. lia. Qed.

Lemma wires_length es :
  Forall entry_typed es -> len (concat (map wire es)) = SILOG_REMOTE_ENTRY_SIZE * len es.
Proof.
  intros Hes. rewrite blocks_length, length_map; [done|]. induction Hes; cbn [map]; constructor; [by apply wire_length|done].
Qed.

Lemma wires_bytes es : Forall entry_typed es -> map u8 (concat (map wire es)) = concat (map wire es).
Proof.
  induction 1 as [|e es He _ IH]; cbn [map concat]; [done|]. rewrite map_app, IH. f_equal.
  pose proof (wire_bytes _ He) as Hb. induction Hb as [|x l Hx _ IH2]; cbn [map]; [done|]. rewrite IH2.
  unfold u8, is_u8 in *. by rewrite Z.mod_small.
Qed.

(** ** Properties *)

Section properties.
Context {W : Type} `{!Os W}.

(** C31: Every sequence of calls of the client returns, whatever the network
    does: the receive buffer is never overrun, fewer than 377 bytes wait in it
    between calls, a connected client has exactly one open descriptor and an
    unconnected one none. *)
Theorem client_ops_safe `{!RecvLaw W} ops w :
  Forall cop_typed ops ->
  wp (run_cops ops) (fun _ e => ctx_inv (mem e) /\ ledger (trace e) = Some (ctx_fds (mem e)))
    (Env g_silogRemoteClient w [] false).
Proof.
  intros Ht.
  assert (forall e, cginv e -> wp (run_cops ops) (fun _ e' => cginv e') e) as H.
  { induction Ht as [|o ops Ho _ IH]; intros e Hg; cbn [run_cops]; [by wp_step|].
    wp_step. eapply wp_mono; [by apply run_cop_spec|]. intros [] e' ?. by apply IH. }
  apply H. split; [|done]. split; [|done]. split; [done|]. apply Forall_replicate. unfold is_u8; lia.
Qed.

(** C8: However the network splits the stream, the callback gets exactly the
    entries decoded from its consecutive blocks of 377 bytes, each once and in
    order; the bytes of an incomplete block wait. *)
Theorem receive_reassembles `{!RecvLaw W} ms e :
  cginv e -> x_isInit (mem e) = true -> x_isConnected (mem e) = true -> x_recvOffset (mem e) = 0 ->
  wp (receive_all ms)
    (fun _ e' => cginv e' /\ exists t bs p, trace e' = trace e ++ t /\
       cut (stream t) bs p /\ callbacks t = map decode_block bs) e.
Proof.
  intros Hg Hi Hc Ho. eapply wp_mono; [by apply receive_all_spec|].
  intros _ e' (Hg' & t & bs & p & Ht & Hcb & Hcut). split; [done|]. exists t, bs, p.
  rewrite Ho in Hcut. done.
Qed.

(** When the server has written the entries [es] one after the other, the
    client hands out a prefix of them, in order, as the codec delivers them. *)
Theorem remote_end_to_end `{!RecvLaw W} ms e es :
  cginv e -> x_isInit (mem e) = true -> x_isConnected (mem e) = true -> x_recvOffset (mem e) = 0 ->
  Forall entry_typed es ->
  wp (receive_all ms)
    (fun _ e' => exists t, trace e' = trace e ++ t /\
       (stream t `prefix_of` concat (map wire es) ->
        exists k, callbacks t = map received (take k es) /\
          SILOG_REMOTE_ENTRY_SIZE * Z.of_nat k <= len (stream t) < SILOG_REMOTE_ENTRY_SIZE * Z.of_nat (S k))) e.
Proof.
  intros Hg Hi Hc Ho Hes. eapply wp_mono; [by apply receive_all_spec|].
  intros _ e' (Hg' & t & bs & p & Ht & Hcb & Hcut). rewrite Ho in Hcut.
  change (take (Z.to_nat 0) (x_recvBuf (mem e)) ++ stream t) with (stream t) in Hcut.
  exists t. split; [done|]. intros Hpre. destruct Hcut as (Hs & Hbs & Hp).
  rewrite Hs in Hpre. pose proof (cut_wires bs p es Hbs Hes Hpre) as Hw.
  exists (length bs). split.
  - rewrite Hcb, Hw at 1. by apply decode_wires, Forall_take.
  - rewrite Hs, length_app, Nat2Z.inj_add, blocks_length by done. lia.
Qed.
End properties.

(** ** Concrete runs *)

#[export] Instance script_recv_law : RecvLaw script.
Proof.
  intros fd n w a w' H Hr. unfold os, script_os in H.
  assert (0 <= n \/ n < 0) as [Hn|Hn] by lia.
  - destruct w as [|a0 w]; injection H as <- <-; [cbn in Hr; lia|]. destruct (ret a0 <? 0) eqn:E; reflectZ.
    + lia.
    + cbn [ret out]. split; [done|]. split; [rewrite length_map, length_take; lia|].
      apply Forall_fmap, Forall_forall. intros x _. apply u8_range.
  - destruct w as [|a0 w]; injection H as <- <-; [cbn in Hr; lia|]. destruct (ret a0 <? 0) eqn:E; reflectZ.
    + lia.
    + cbn in Hr. replace (Z.to_nat n) with 0%nat in Hr by lia. simpl in Hr. lia.
Qed.

(** A connected client with an empty buffer. *)
Definition demo_ctx : SilogRemoteClientCtx :=
  MkCtx true true 6 zero_config (replicate (Z.to_nat SILOG_REMOTE_ENTRY_SIZE) 0) 0.
Definition demo_cenv (w : script) : env SilogRemoteClientCtx script :=
  Env demo_ctx w [(CSocket, ok 6)] false.

Lemma demo_cginv w : cginv (demo_cenv w).
Proof.
  split; [|by vm_compute]. split; [split; [done|]; apply Forall_replicate; unfold is_u8; lia|].
  split; [done|]. split; [done|]. cbn. lia.
Qed.

Definition data (d : list Z) : answer := Ans 1 0 d [].

Lemma client_ops_safe_witness :
  wp (run_cops [COpInit None; COpConnect; COpReceive 100; COpDeinit])
    (fun _ e => ctx_inv (mem e) /\ ledger (trace e) = Some (ctx_fds (mem e)))
    (Env g_silogRemoteClient [ok 6; ok 1; ok 0; ok 2; ok 0; ok 1; data [1; 2; 3]] [] false).
Proof. apply client_ops_safe. by repeat constructor. Defined.

Lemma receive_reassembles_witness :
  wp (receive_all [100; 100])
    (fun _ e' => cginv e')
    (demo_cenv [ok 1; data (take 100 (wire (demo_entry 5))); ok 1; data (drop 100 (wire (demo_entry 5)))]).
Proof.
  eapply wp_mono; [apply receive_reassembles; [apply demo_cginv|done|done|done]|]. by intros _ e' [? _].
Defined.

Lemma remote_end_to_end_witness :
  wp (receive_all [100])
    (fun _ e' => exists t, trace e' = trace (demo_cenv [ok 1; data (wire (demo_entry 5))]) ++ t)
    (demo_cenv [ok 1; data (wire (demo_entry 5))]).
Proof.
  eapply wp_mono; [apply (remote_end_to_end [100] _ [demo_entry 5]); [apply demo_cginv|done|done|done|]|].
  - apply Forall_singleton, demo_entry_typed. split; lia.
  - intros _ e' (t & Ht & _). by exists t.
Defined.

(** A send that stops in the middle of an entry breaks the stream for good:
    when the kernel takes 100 bytes of the first entry and the client's buffer is
    then full, both broadcasts succeed and the client stays connected, but the
    next entry follows the 100 bytes directly and the client decodes neither. *)
Theorem broadcast_desync :
  exists r1 r2 e',
    (r1 ← SilogRemoteBroadcast (Others0 := idle) (Some (demo_entry 5)) true;
     r2 ← SilogRemoteBroadcast (Others0 := idle) (Some (demo_entry 6)) true;
     mret (r1, r2)) (demo_env [ok 100; fails EAGAIN; ok 377]) = Some ((r1, r2), e') /\
    r1 = (SILOG_OK, Some 0) /\ r2 = (SILOG_OK, Some 1) /\
    slot_of (mem e') 0 = slot_of demo_mgr 0 /\
    sent_on 4 (trace e') = take 100 (wire (demo_entry 5)) ++ wire (demo_entry 6) /\
    decode_block (take 377 (sent_on 4 (trace e'))) <> received (demo_entry 5) /\
    decode_block (take 377 (sent_on 4 (trace e'))) <> received (demo_entry 6).
Proof.
  eexists _, _, _. split; [vm_compute; reflexivity|].
  split; [done|]. split; [done|]. split; [done|]. split; [by vm_compute|].
  split; intros H; apply (f_equal msg) in H; vm_compute in H; discriminate H.
Qed.
