(* ===== verification/FileManager.v ===== *)
(** * The log file manager (silog_dae/src/silog_file_manager.c)

    Writing formatted records to the current log file, rotation by size, naming
    of history files, compression jobs, removal of old files, and the flushing
    policy. The C library and the file system are the parameter [os]; a file
    handle is the non-zero result of [fopen], 0 is the null pointer. *)

From S2P Require Import Prelude Errors CObj LogEntry RemoteCodec Mpsc PQueue Os Format Queues.
#[local] Open Scope Z_scope.

(** ** Data *)

Definition SILOG_MAX_PATH_LEN : Z := 256.
Definition SILOG_MAX_NAME_LEN : Z := 64.
Definition PATH_MAX_LEN : Z := 512.
Definition TIME_BUF_SIZE : Z := 32.
Definition PATTERN_BUF_SIZE : Z := 128.
Definition CMD_ARG_BUF_SIZE : Z := 32.
Definition MAX_LOG_FILE_COUNT : Z := 128.
Definition MAX_SEQ_RETRY_COUNT : Z := 10.
Definition COMPRESS_QUEUE_SIZE : Z := 64.
Definition COMPRESS_PATH_MAX_LEN : Z := 512.
Definition COMPRESS_SLEEP_US : Z := 10000.
Definition US_PER_MS : Z := 1000.
Definition MS_PER_SEC : Z := 1000.

Definition SILOG_FLUSH_SYNC : Z := 0.
Definition SILOG_FLUSH_ASYNC : Z := 1.
Definition SILOG_COMPRESS_SYNC : Z := 0.
Definition SILOG_COMPRESS_ASYNC : Z := 1.

Record SilogLogFileConfig := MkFileConfig {
  logDir : list Z;
  logFileBase : list Z;
  maxFileSize : Z;
  maxFileCount : Z;
  enableCompression : bool;
  compressMode : Z;
  flushMode : Z;
  asyncFlushIntervalMs : Z;
  asyncFlushSize : Z;
  rotateRetryCount : Z;
  rotateRetryDelayMs : Z
}.

Definition set_logDir d c :=
  MkFileConfig d (logFileBase c) (maxFileSize c) (maxFileCount c) (enableCompression c) (compressMode c)
    (flushMode c) (asyncFlushIntervalMs c) (asyncFlushSize c) (rotateRetryCount c) (rotateRetryDelayMs c).
Definition set_logFileBase b c :=
  MkFileConfig (logDir c) b (maxFileSize c) (maxFileCount c) (enableCompression c) (compressMode c)
    (flushMode c) (asyncFlushIntervalMs c) (asyncFlushSize c) (rotateRetryCount c) (rotateRetryDelayMs c).

Record SilogFileManager := MkFm {
  fm_config : SilogLogFileConfig;
  fm_currentFd : Z;
  fm_currentSize : Z;
  fm_asyncBufferSize : Z;
  fm_lastFlushTimeMs : Z;
  fm_initialized : bool;
  fm_compressQueue : SiLogMpscQueue;
  fm_compressThreadRunning : bool
}.

Definition set_fmConfig c m :=
  MkFm c (fm_currentFd m) (fm_currentSize m) (fm_asyncBufferSize m) (fm_lastFlushTimeMs m)
    (fm_initialized m) (fm_compressQueue m) (fm_compressThreadRunning m).
Definition set_currentFd f m :=
  MkFm (fm_config m) f (fm_currentSize m) (fm_asyncBufferSize m) (fm_lastFlushTimeMs m)
    (fm_initialized m) (fm_compressQueue m) (fm_compressThreadRunning m).
Definition set_sizes n b m :=
  MkFm (fm_config m) (fm_currentFd m) n b (fm_lastFlushTimeMs m)
    (fm_initialized m) (fm_compressQueue m) (fm_compressThreadRunning m).
Definition set_lastFlush t m :=
  MkFm (fm_config m) (fm_currentFd m) (fm_currentSize m) (fm_asyncBufferSize m) t
    (fm_initialized m) (fm_compressQueue m) (fm_compressThreadRunning m).
Definition set_initialized b m :=
  MkFm (fm_config m) (fm_currentFd m) (fm_currentSize m) (fm_asyncBufferSize m) (fm_lastFlushTimeMs m)
    b (fm_compressQueue m) (fm_compressThreadRunning m).
Definition set_queue q m :=
  MkFm (fm_config m) (fm_currentFd m) (fm_currentSize m) (fm_asyncBufferSize m) (fm_lastFlushTimeMs m)
    (fm_initialized m) q (fm_compressThreadRunning m).
Definition set_running b m :=
  MkFm (fm_config m) (fm_currentFd m) (fm_currentSize m) (fm_asyncBufferSize m) (fm_lastFlushTimeMs m)
    (fm_initialized m) (fm_compressQueue m) b.

(** [FileInfo]: a path of 512 bytes and a modification time of 8 bytes, as the
    elements of the priority queue. *)
Definition sizeof_FileInfo : Z := 520.
Definition le64 (x : Z) : list Z := rev (be64 (u64 x)).
Definition i64 (x : Z) : Z := (x + 2 ^ 63) mod 2 ^ 64 - 2 ^ 63.
Definition file_info (path : list Z) (mtime : Z) : list Z := path ++ le64 mtime.
Definition info_path (i : list Z) : list Z := take (Z.to_nat PATH_MAX_LEN) i.
Definition info_mtime (i : list Z) : Z := i64 (be_val (rev (take 8 (drop (Z.to_nat PATH_MAX_LEN) i)))).

(** ** Helpers on names *)

(** [strncmp(name, p, strlen(p)) == 0]. *)
Fixpoint starts_with (p name : list Z) : bool :=
  match p, name with
  | [], _ => true
  | c :: p, d :: name => (c =? d) && starts_with p name
  | _ :: _, [] => false
  end.

(** [strrchr(name, '.')]: the rest of the name from the last dot on. *)
Fixpoint last_dot (name : list Z) : option (list Z) :=
  match name with
  | [] => None
  | c :: rest => match last_dot rest with
                 | Some e => Some e
                 | None => if c =? 46 then Some (c :: rest) else None
                 end
  end.

(** A history file: the prefix and one of the two extensions. *)
Definition is_history (prefix name : list Z) : bool :=
  starts_with prefix name &&
  match last_dot name with
  | Some ext => bool_decide (ext = chars ".log") || bool_decide (ext = chars ".gz")
  | None => false
  end.

Definition OldestFileCompare (a b : list Z) : Z :=
  if info_mtime a <? info_mtime b then -1
  else if info_mtime b <? info_mtime a then 1
  else 0.

(** ** Operations *)

Section fm.
Context {W : Type} `{!Os W, !Others SilogFileManager W}.
#[local] Abbreviation FM := (M SilogFileManager W).

Definition SilogFileManagerGetCurrentPath (n : Z) : FM (list Z) :=
  m ← get;
  mret (sprint n (cstr (logDir (fm_config m)) ++ chars "/" ++ cstr (logFileBase (fm_config m)) ++ chars ".log")).

(** The fields stored by [stat]: mode, size, modification time. *)
Definition st_isdir (a : answer) : bool := Z.land (nth 0 (out a) 0) 61440 =? 16384.
Definition st_size (a : answer) : Z := nth 1 (out a) 0.
Definition st_mtime (a : answer) : Z := nth 2 (out a) 0.

Definition SilogFileManagerEnsureDir : FM ErrorCode :=
  m ← get;
  let dir := cstr (logDir (fm_config m)) in
  st ← sys (CStat dir);
  if ret st =? 0 then
    if st_isdir st then mret SILOG_OK
    else
      SILOG_PRELOG_E SILOG_PRELOG_DAEMON "Log path exists but is not a directory: %s" [AStr dir] ;;
      mret SILOG_FILE_OPEN
  else
    r ← sys (CMkdir dir);
    if negb (ret r =? 0) && negb (errno r =? EEXIST) then
      SILOG_PRELOG_E SILOG_PRELOG_DAEMON "Failed to create log directory %s: %s" [AStr dir; AErrno] ;;
      mret SILOG_FILE_OPEN
    else mret SILOG_OK.

(** [strftime(buf, len, "%Y%m%d_%H%M%S", &tm)] and the milliseconds appended by
    [snprintf_s] in the rest of the buffer. *)
Definition SilogFileManagerFormatTimestamp (tsMs n : Z) : FM (list Z) :=
  let sec := tsMs / MS_PER_SEC in
  let msec := tsMs mod MS_PER_SEC in
  t ← sys (CLocaltime sec);
  let f i := nth i (out t) 0 in
  let s := fmt_d (f 0%nat + 1900) ++ fmt_0d 2 (f 1%nat + 1) ++ fmt_0d 2 (f 2%nat) ++ chars "_" ++
           fmt_0d 2 (f 3%nat) ++ fmt_0d 2 (f 4%nat) ++ fmt_0d 2 (f 5%nat) in
  (* strftime leaves the buffer indeterminate when the text does not fit *)
  if n <=? len s then undefined
  else mret (s ++ sprint (n - len s) (chars "_" ++ fmt_0u 3 msec)).

(** One directory entry of the scan: push a history file with its time. *)
Definition scan_entry (dir prefix name : list Z) (q : SiLogPQueue) : FM SiLogPQueue :=
  if negb (is_history prefix name) then mret q
  else
    path ← lift (obj_snprintf_s (replicate (Z.to_nat PATH_MAX_LEN) 0) PATH_MAX_LEN (PATH_MAX_LEN - 1)
                   (dir ++ chars "/" ++ name)).2;
    st ← sys (CStat (cstr path));
    if ret st =? 0 then
      r ← pqueue_push (Some q) (Some (file_info path (st_mtime st)));
      mret (default q r.2)
    else mret q.

Fixpoint scan_loop (fuel : nat) (dir prefix : list Z) (ns : list (list Z)) (n i : Z) (q : SiLogPQueue)
    : FM SiLogPQueue :=
  match fuel with
  | O => undefined
  | S fuel =>
      if i <? n then
        name ← lift (ns !! Z.to_nat i);
        q ← scan_entry dir prefix name q;
        scan_loop fuel dir prefix ns n (u32 (i + 1)) q
      else mret q
  end.

(** [while (size > maxFileCount) { pop; unlink; }]; a pop that fails leaves the
    path indeterminate. *)
Fixpoint clean_loop (fuel : nat) (q : SiLogPQueue) : FM SiLogPQueue :=
  match fuel with
  | O => undefined
  | S fuel =>
      m ← get;
      if maxFileCount (fm_config m) <? SilogPQueueSize (Some q) then
        r ← pqueue_pop (Some q) true;
        oldest ← lift r.2;
        _ ← sys (CUnlink (cstr (info_path oldest)));
        clean_loop fuel (default q r.1.2)
      else mret q
  end.

(** The names of [scandir] and their array are freed. *)
Fixpoint free_names (n : nat) : FM unit :=
  match n with
  | O => mret tt
  | S n => _ ← sys CFree; free_names n
  end.

Definition SilogFileManagerCleanOldFiles : FM ErrorCode :=
  m ← get;
  let dir := cstr (logDir (fm_config m)) in
  let prefix := sprint PATTERN_BUF_SIZE (cstr (logFileBase (fm_config m)) ++ chars "_") in
  d ← sys (CScandir dir);
  if ret d <? 0 then
    SILOG_PRELOG_E SILOG_PRELOG_DAEMON "Failed to scan dir %s: %s" [AStr dir; AErrno] ;; mret SILOG_FILE_OPEN
  else
    r ← pqueue_init (Some (MkPQ None 0 0 0 OldestFileCompare)) sizeof_FileInfo MAX_LOG_FILE_COUNT (Some OldestFileCompare);
    (* the structure is uninitialised when its initialisation fails *)
    q ← (if decide (r.1 = SILOG_OK) then lift r.2 else undefined);
    q ← scan_loop (S (Z.to_nat (ret d))) dir prefix (names d) (u32 (ret d)) 0 q;
    free_names (S (Z.to_nat (ret d))) ;;
    q ← clean_loop (S (Z.to_nat (SilogPQueueSize (Some q)))) q;
    _ ← pqueue_destroy (Some q);
    mret SILOG_OK.

Definition SilogFileManagerDoCompress (filePath : list Z) : FM unit :=
  let cmd := sprint (PATH_MAX_LEN + CMD_ARG_BUF_SIZE)
               (chars "gzip " ++ [34] ++ filePath ++ [34] ++ chars " 2>/dev/null") in
  _ ← sys (CSystem cmd);
  mret tt.

(** One round of the loop of [SilogFileManagerCompressThread], the loop, and the
    drain when the thread is told to stop; it runs without the mutex. *)
Definition compress_round : FM unit :=
  m ← get;
  r ← lift (SilogMpscQueuePop (Some (fm_compressQueue m)) true);
  modify (set_queue (default (fm_compressQueue m) r.1.2)) ;;
  if decide (r.1.1 = SILOG_OK) then task ← lift r.2; SilogFileManagerDoCompress (cstr task)
  else _ ← sys (CUsleep COMPRESS_SLEEP_US); mret tt.
Fixpoint compress_loop (n : nat) : FM unit :=
  match n with
  | O => mret tt
  | S n => compress_round ;; compress_loop n
  end.
Fixpoint compress_drain (fuel : nat) : FM unit :=
  match fuel with
  | O => undefined
  | S fuel =>
      m ← get;
      r ← lift (SilogMpscQueuePop (Some (fm_compressQueue m)) true);
      modify (set_queue (default (fm_compressQueue m) r.1.2)) ;;
      if decide (r.1.1 = SILOG_OK) then
        task ← lift r.2; SilogFileManagerDoCompress (cstr task) ;; compress_drain fuel
      else mret tt
  end.

(** The flag is read as true [n] times. *)
Definition SilogFileManagerCompressThread (n : nat) : FM unit :=
  compress_loop n ;; compress_drain (S (Z.to_nat COMPRESS_QUEUE_SIZE)).

Definition SilogFileManagerCompressFile (filePath : list Z) : FM ErrorCode :=
  m ← get;
  if negb (enableCompression (fm_config m)) then mret SILOG_OK
  else if compressMode (fm_config m) =? SILOG_COMPRESS_ASYNC then
    task ← lift (obj_snprintf_s (replicate (Z.to_nat COMPRESS_PATH_MAX_LEN) 0) COMPRESS_PATH_MAX_LEN
                   (COMPRESS_PATH_MAX_LEN - 1) filePath).2;
    r ← queue_push (Some (fm_compressQueue m)) (Some task);
    modify (set_queue (default (fm_compressQueue m) r.2)) ;;
    mret SILOG_OK
  else SilogFileManagerDoCompress filePath ;; mret SILOG_OK.

(** The name of the history file with sequence number [seq]. *)
Definition history_name (c : SilogLogFileConfig) (timestamp : list Z) (seq : Z) : list Z :=
  sprint PATH_MAX_LEN
    (if seq =? 0 then
       cstr (logDir c) ++ chars "/" ++ cstr (logFileBase c) ++ chars "_" ++ timestamp ++ chars ".log"
     else
       cstr (logDir c) ++ chars "/" ++ cstr (logFileBase c) ++ chars "_" ++ timestamp ++
       chars "_" ++ fmt_u seq ++ chars ".log").

(** The search for a free name: the last name tried, when ten exist. *)
Fixpoint name_loop (fuel : nat) (c : SilogLogFileConfig) (timestamp : list Z) (seq : Z) (path : list Z)
    : FM (list Z) :=
  match fuel with
  | O => undefined
  | S fuel =>
      if seq <? MAX_SEQ_RETRY_COUNT then
        let path := history_name c timestamp seq in
        st ← sys (CStat path);
        if negb (ret st =? 0) then mret path
        else name_loop fuel c timestamp (u32 (seq + 1)) path
      else mret path
  end.

(** [rename] with retries; the result is the final [retry]. *)
Fixpoint rename_loop (fuel : nat) (from to : list Z) (retry : Z) : FM Z :=
  match fuel with
  | O => undefined
  | S fuel =>
      m ← get;
      if retry <? rotateRetryCount (fm_config m) then
        r ← sys (CRename from to);
        if ret r =? 0 then mret retry
        else
          let retry := u32 (retry + 1) in
          (if retry <? rotateRetryCount (fm_config m)
           then _ ← sys (CUsleep (u32 (rotateRetryDelayMs (fm_config m) * US_PER_MS))); mret tt
           else mret tt) ;;
          rename_loop fuel from to retry
      else mret retry
  end.

Definition close_current : FM unit :=
  m ← get;
  if fm_currentFd m =? 0 then mret tt
  else
    _ ← sys (CFflush (fm_currentFd m));
    _ ← sys (CFclose (fm_currentFd m));
    modify (set_currentFd 0).

Definition SilogFileManagerRotateInternal : FM ErrorCode :=
  currentPath ← SilogFileManagerGetCurrentPath PATH_MAX_LEN;
  now ← SilogGetNowMs;
  timestamp ← SilogFileManagerFormatTimestamp now TIME_BUF_SIZE;
  m ← get;
  historyPath ← name_loop (S (Z.to_nat MAX_SEQ_RETRY_COUNT)) (fm_config m) timestamp 0 [];
  close_current ;;
  retry ← rename_loop (S (Z.to_nat (rotateRetryCount (fm_config m)))) currentPath historyPath 0;
  if rotateRetryCount (fm_config m) <=? retry then
    f ← sys (CFopen currentPath 97);
    modify (set_currentFd (ret f)) ;;
    if ret f =? 0 then
      SILOG_PRELOG_E SILOG_PRELOG_DAEMON "Rotate failed and cannot reopen %s: %s" [AStr currentPath; AErrno] ;;
      mret SILOG_FILE_OPEN
    else
      SILOG_PRELOG_E SILOG_PRELOG_DAEMON "Rotate failed: rename %s -> %s, errno=%d"
        [AStr currentPath; AStr historyPath; AErrno] ;;
      mret SILOG_FILE_WRITE
  else
    f ← sys (CFopen currentPath 119);
    modify (set_currentFd (ret f)) ;;
    if ret f =? 0 then
      SILOG_PRELOG_E SILOG_PRELOG_DAEMON "Failed to open new log file after rotate %s: %s"
        [AStr currentPath; AErrno] ;;
      mret SILOG_FILE_OPEN
    else
      modify (set_sizes 0 0) ;;
      _ ← SilogFileManagerCompressFile historyPath;
      _ ← SilogFileManagerCleanOldFiles;
      mret SILOG_OK.

Definition sizeof_CompressTask : Z := 512.

Definition SilogFileManagerInitWithConfig (config : option SilogLogFileConfig) : FM ErrorCode :=
  match config with
  | None =>
      SILOG_PRELOG_E SILOG_PRELOG_DAEMON "InitWithConfig failed: config is NULL" [] ;; mret SILOG_INVALID_ARG
  | Some c =>
      lock ;;
      m ← get;
      if fm_initialized m then unlock ;; mret SILOG_OK
      else
        modify (set_fmConfig c) ;;
        r ← SilogFileManagerEnsureDir;
        if decide (r <> SILOG_OK) then
          SILOG_PRELOG_E SILOG_PRELOG_DAEMON "Failed to ensure log dir exists: %d" [AInt (err r)] ;;
          unlock ;; mret r
        else
          currentPath ← SilogFileManagerGetCurrentPath PATH_MAX_LEN;
          f ← sys (CFopen currentPath 97);
          modify (set_currentFd (ret f)) ;;
          if ret f =? 0 then
            SILOG_PRELOG_E SILOG_PRELOG_DAEMON "Failed to open log file %s: %s" [AStr currentPath; AErrno] ;;
            unlock ;; mret SILOG_FILE_OPEN
          else
            st ← sys (CStat currentPath);
            modify (fun m => set_sizes (if ret st =? 0 then u32 (st_size st) else 0) (fm_asyncBufferSize m) m) ;;
            m ← get;
            r ← queue_init sizeof_CompressTask COMPRESS_QUEUE_SIZE (fm_compressQueue m);
            modify (set_queue r.2) ;;
            if decide (r.1 <> SILOG_OK) then
              SILOG_PRELOG_E SILOG_PRELOG_DAEMON "Failed to init compress queue: %d" [AInt (err r.1)] ;;
              _ ← sys (CFclose (ret f)); modify (set_currentFd 0) ;; unlock ;; mret r.1
            else
              modify (set_running true) ;;
              p ← sys CPthreadCreate;
              if negb (ret p =? 0) then
                SILOG_PRELOG_E SILOG_PRELOG_DAEMON "Failed to create compress thread: %s" [AError (ret p)] ;;
                m ← get;
                q ← queue_destroy (fm_compressQueue m);
                modify (set_queue q) ;;
                _ ← sys (CFclose (ret f)); modify (set_currentFd 0) ;; unlock ;; mret SILOG_THREAD_CREATE
              else
                now ← SilogGetNowMs;
                modify (fun m => set_sizes (fm_currentSize m) 0 m) ;;
                modify (set_lastFlush now) ;;
                modify (set_initialized true) ;;
                unlock ;;
                mret SILOG_OK
  end.

(** [SilogFileManagerGetDefaultConfig] on an object cleared by [memset_s]. *)
Definition SilogFileManagerGetDefaultConfig : option SilogLogFileConfig :=
  dir ← (obj_snprintf_s (replicate (Z.to_nat SILOG_MAX_PATH_LEN) 0) SILOG_MAX_PATH_LEN
           (SILOG_MAX_PATH_LEN - 1) (chars "/tmp/silog")).2;
  base ← (obj_snprintf_s (replicate (Z.to_nat SILOG_MAX_NAME_LEN) 0) SILOG_MAX_NAME_LEN
            (SILOG_MAX_NAME_LEN - 1) (chars "silog")).2;
  Some (MkFileConfig dir base (10 * 1024 * 1024) 10 true SILOG_COMPRESS_ASYNC SILOG_FLUSH_ASYNC
          1000 (4 * 1024) 3 100).

Definition SilogFileManagerInit (config : option SilogLogFileConfig) : FM ErrorCode :=
  match config with
  | None => d ← lift SilogFileManagerGetDefaultConfig; SilogFileManagerInitWithConfig (Some d)
  | Some _ => SilogFileManagerInitWithConfig config
  end.

Definition SilogFileManagerDeinit : FM unit :=
  lock ;;
  close_current ;;
  modify (set_initialized false) ;;
  m ← get;
  if fm_compressThreadRunning m then
    modify (set_running false) ;;
    unlock ;;
    _ ← sys CPthreadJoin;
    m ← get;
    q ← queue_destroy (fm_compressQueue m);
    modify (set_queue q)
  else unlock.

(** The two setters that refuse an initialised manager; [None] is a null
    pointer. *)
Definition SilogFileManagerSetLogDir (dir : option (list Z)) : FM ErrorCode :=
  match dir with
  | None => SILOG_PRELOG_E SILOG_PRELOG_DAEMON "SetLogDir failed: dir is NULL" [] ;; mret SILOG_INVALID_ARG
  | Some dir =>
      lock ;;
      m ← get;
      if fm_initialized m then
        SILOG_PRELOG_E SILOG_PRELOG_DAEMON "SetLogDir failed: file manager already initialized" [] ;;
        unlock ;; mret SILOG_BUSY
      else
        let c := fm_config m in
        let p := obj_snprintf_s (logDir c) SILOG_MAX_PATH_LEN (SILOG_MAX_PATH_LEN - 1) dir in
        a ← lift p.2;
        if p.1 <? 0 then
          SILOG_PRELOG_E SILOG_PRELOG_DAEMON "SetLogDir failed: snprintf_s error" [] ;;
          a ← lift (wr a 0 [0]);
          modify (set_fmConfig (set_logDir a c)) ;;
          unlock ;; mret SILOG_STR_ERR
        else
          modify (set_fmConfig (set_logDir a c)) ;;
          unlock ;; mret SILOG_OK
  end.
Definition SilogFileManagerSetLogFileBase (base : option (list Z)) : FM ErrorCode :=
  match base with
  | None => SILOG_PRELOG_E SILOG_PRELOG_DAEMON "SetLogFileBase failed: base is NULL" [] ;; mret SILOG_INVALID_ARG
  | Some base =>
      lock ;;
      m ← get;
      if fm_initialized m then
        SILOG_PRELOG_E SILOG_PRELOG_DAEMON "SetLogFileBase failed: file manager already initialized" [] ;;
        unlock ;; mret SILOG_BUSY
      else
        let c := fm_config m in
        let p := obj_snprintf_s (logFileBase c) SILOG_MAX_NAME_LEN (SILOG_MAX_NAME_LEN - 1) base in
        a ← lift p.2;
        if p.1 <? 0 then
          SILOG_PRELOG_E SILOG_PRELOG_DAEMON "SetLogFileBase failed: snprintf_s error" [] ;;
          a ← lift (wr a 0 [0]);
          modify (set_fmConfig (set_logFileBase a c)) ;;
          unlock ;; mret SILOG_STR_ERR
        else
          modify (set_fmConfig (set_logFileBase a c)) ;;
          unlock ;; mret SILOG_OK
  end.

(** The setters of one field, under the mutex. *)
Definition set_field (f : SilogLogFileConfig -> SilogLogFileConfig) : FM unit :=
  lock ;; modify (fun m => set_fmConfig (f (fm_config m)) m) ;; unlock.
Definition SilogFileManagerSetMaxFileSize (size : Z) : FM unit := set_field (fun c =>
  MkFileConfig (logDir c) (logFileBase c) size (maxFileCount c) (enableCompression c) (compressMode c)
    (flushMode c) (asyncFlushIntervalMs c) (asyncFlushSize c) (rotateRetryCount c) (rotateRetryDelayMs c)).
Definition SilogFileManagerSetMaxFileCount (count : Z) : FM unit := set_field (fun c =>
  MkFileConfig (logDir c) (logFileBase c) (maxFileSize c) count (enableCompression c) (compressMode c)
    (flushMode c) (asyncFlushIntervalMs c) (asyncFlushSize c) (rotateRetryCount c) (rotateRetryDelayMs c)).
Definition SilogFileManagerSetCompression (enable : bool) : FM unit := set_field (fun c =>
  MkFileConfig (logDir c) (logFileBase c) (maxFileSize c) (maxFileCount c) enable (compressMode c)
    (flushMode c) (asyncFlushIntervalMs c) (asyncFlushSize c) (rotateRetryCount c) (rotateRetryDelayMs c)).
Definition SilogFileManagerSetCompressMode (mode : Z) : FM unit := set_field (fun c =>
  MkFileConfig (logDir c) (logFileBase c) (maxFileSize c) (maxFileCount c) (enableCompression c) mode
    (flushMode c) (asyncFlushIntervalMs c) (asyncFlushSize c) (rotateRetryCount c) (rotateRetryDelayMs c)).
Definition SilogFileManagerSetFlushMode (mode : Z) : FM unit := set_field (fun c =>
  MkFileConfig (logDir c) (logFileBase c) (maxFileSize c) (maxFileCount c) (enableCompression c)
    (compressMode c) mode (asyncFlushIntervalMs c) (asyncFlushSize c) (rotateRetryCount c) (rotateRetryDelayMs c)).
Definition SilogFileManagerSetAsyncFlushInterval (ms : Z) : FM unit := set_field (fun c =>
  MkFileConfig (logDir c) (logFileBase c) (maxFileSize c) (maxFileCount c) (enableCompression c)
    (compressMode c) (flushMode c) ms (asyncFlushSize c) (rotateRetryCount c) (rotateRetryDelayMs c)).
Definition SilogFileManagerSetAsyncFlushSize (size : Z) : FM unit := set_field (fun c =>
  MkFileConfig (logDir c) (logFileBase c) (maxFileSize c) (maxFileCount c) (enableCompression c)
    (compressMode c) (flushMode c) (asyncFlushIntervalMs c) size (rotateRetryCount c) (rotateRetryDelayMs c)).

(** The part of [SilogFileManagerWriteRaw] after the rotation: write and flush. *)
Definition write_and_flush (data : list Z) : FM ErrorCode :=
  m ← get;
  r ← sys (CFwrite (fm_currentFd m) data);
  if negb (ret r =? len data) then
    SILOG_PRELOG_E SILOG_PRELOG_DAEMON "Failed to write log data: %s" [AErrno] ;;
    unlock ;; mret SILOG_FILE_WRITE
  else
    modify (fun m => set_sizes (u32 (fm_currentSize m + len data)) (fm_asyncBufferSize m) m) ;;
    (if flushMode (fm_config m) =? SILOG_FLUSH_SYNC then
       _ ← sys (CFflush (fm_currentFd m));
       modify (fun m => set_sizes (fm_currentSize m) 0 m)
     else
       modify (fun m => set_sizes (fm_currentSize m) (u64 (fm_asyncBufferSize m + len data)) m) ;;
       now ← SilogGetNowMs;
       m ← get;
       if (asyncFlushSize (fm_config m) <=? fm_asyncBufferSize m) ||
          (asyncFlushIntervalMs (fm_config m) <=? u64 (now - fm_lastFlushTimeMs m)) then
         _ ← sys (CFflush (fm_currentFd m));
         modify (fun m => set_sizes (fm_currentSize m) 0 m) ;;
         modify (set_lastFlush now)
       else mret tt) ;;
    unlock ;;
    mret SILOG_OK.

Definition SilogFileManagerWriteRaw (data : option (list Z)) (n : Z) : FM ErrorCode :=
  match data with
  | None => SILOG_PRELOG_E SILOG_PRELOG_DAEMON "WriteRaw failed: invalid argument" [] ;; mret SILOG_INVALID_ARG
  | Some data =>
      if n =? 0 then
        SILOG_PRELOG_E SILOG_PRELOG_DAEMON "WriteRaw failed: invalid argument" [] ;; mret SILOG_INVALID_ARG
      else
        d ← lift (rd data 0 n);
        lock ;;
        m ← get;
        if negb (fm_initialized m) || (fm_currentFd m =? 0) then
          unlock ;; mret SILOG_FILE_MANAGER_NOT_INIT
        else if maxFileSize (fm_config m) <=? u32 (fm_currentSize m + n) then
          r ← SilogFileManagerRotateInternal;
          if decide (r <> SILOG_OK) then unlock ;; mret r else write_and_flush d
        else write_and_flush d
  end.

Definition SilogFileManagerRotate : FM ErrorCode :=
  lock ;;
  m ← get;
  if negb (fm_initialized m) then unlock ;; mret SILOG_FILE_MANAGER_NOT_INIT
  else
    r ← SilogFileManagerRotateInternal;
    unlock ;;
    mret r.

Definition SilogFileManagerFlush : FM unit :=
  lock ;;
  m ← get;
  (if fm_currentFd m =? 0 then mret tt
   else
     _ ← sys (CFflush (fm_currentFd m));
     modify (fun m => set_sizes (fm_currentSize m) 0 m) ;;
     now ← SilogGetNowMs;
     modify (set_lastFlush now)) ;;
  unlock.

Definition SilogFileManagerGetCurrentSize : FM Z :=
  lock ;; m ← get; unlock ;; mret (fm_currentSize m).

(** The path is stored in the caller's array of [n] bytes. *)
Definition SilogFileManagerGetCurrentFilePath (path : option (list Z)) (n : Z)
    : FM (ErrorCode * option (list Z)) :=
  match path with
  | None =>
      SILOG_PRELOG_E SILOG_PRELOG_DAEMON "GetCurrentFilePath failed: invalid argument" [] ;;
      mret (SILOG_INVALID_ARG, None)
  | Some a =>
      if n =? 0 then
        SILOG_PRELOG_E SILOG_PRELOG_DAEMON "GetCurrentFilePath failed: invalid argument" [] ;;
        mret (SILOG_INVALID_ARG, Some a)
      else
        lock ;;
        m ← get;
        a ← lift (obj_snprintf_s a n (n - 1) (cstr (logDir (fm_config m)) ++ chars "/" ++
                    cstr (logFileBase (fm_config m)) ++ chars ".log")).2;
        unlock ;;
        mret (SILOG_OK, Some a)
  end.
End fm.

(** ** Handles and paths in traces *)

(** The file that the manager has open. *)
Definition handles (m : SilogFileManager) : gmultiset Z :=
  if fm_currentFd m =? 0 then ∅ else {[+ fm_currentFd m +]}.

(** The files removed, and the files found by [stat] with their times. *)
Definition unlinks (t : trace_t) : list (list Z) :=
  omap (fun ev => match ev.1 with CUnlink p => Some p | _ => None end) t.
Definition found (t : trace_t) : list (list Z * Z) :=
  omap (fun ev => match ev.1 with
                  | CStat p => if ret ev.2 =? 0 then Some (p, st_mtime ev.2) else None
                  | _ => None
                  end) t.
(** The renames tried, with their success. *)
Definition renames (t : trace_t) : list (list Z * list Z * bool) :=
  omap (fun ev => match ev.1 with CRename p q => Some (p, q, ret ev.2 =? 0) | _ => None end) t.
Lemma renames_app t1 t2 : renames (t1 ++ t2) = renames t1 ++ renames t2.
Proof. apply omap_app. Qed.
Lemma unlinks_app t1 t2 : unlinks (t1 ++ t2) = unlinks t1 ++ unlinks t2.
Proof. apply omap_app. Qed.
Lemma found_app t1 t2 : found (t1 ++ t2) = found t1 ++ found t2.
Proof. apply omap_app. Qed.

(** ** The operating system as the code relies on it *)

Class FileSys (W : Type) `{!Os W} : Prop := {
  malloc_ok n w a w' : os (CMalloc n) w = (a, w') -> ret a <> 0;
  scandir_ok p w a w' : os (CScandir p) w = (a, w') -> 0 <= ret a ->
    ret a = len (names a) /\ ret a < 2 ^ 31;
  stat_ok p w a w' : os (CStat p) w = (a, w') -> - 2 ^ 63 <= st_mtime a < 2 ^ 63;
  localtime_ok s w a w' : os (CLocaltime s) w = (a, w') ->
    is_i32 (nth 0 (out a) 0 + 1900) /\ forall i, (1 <= i <= 5)%nat -> 0 <= nth i (out a) 0 < 99
}.

(** ** Removal of old files *)

Lemma i64_small x : - 2 ^ 63 <= x < 2 ^ 63 -> i64 x = x.
Proof. intros. unfold i64. rewrite Z.mod_small; lia. Qed.

Lemma file_info_length path mt : len path = PATH_MAX_LEN -> len (file_info path mt) = sizeof_FileInfo.
Proof.
  intros H. unfold file_info, le64. rewrite length_app, length_rev.
  change PATH_MAX_LEN with 512 in H. change sizeof_FileInfo with 520. simpl. lia.
Qed.

Lemma info_path_of path mt : len path = PATH_MAX_LEN -> info_path (file_info path mt) = path.
Proof. intros H. unfold info_path, file_info. apply take_app_length'. lia. Qed.

Lemma info_mtime_of path mt :
  len path = PATH_MAX_LEN -> - 2 ^ 63 <= mt < 2 ^ 63 -> info_mtime (file_info path mt) = mt.
Proof.
  intros H Hm. unfold info_mtime, file_info, le64. rewrite drop_app_length' by lia.
  rewrite take_ge by (rewrite length_rev; done). rewrite rev_involutive, be64_val.
  unfold i64, u64. rewrite Zplus_mod, !Zmod_mod, <- Zplus_mod. fold (i64 mt). by apply i64_small.
Qed.

#[export] Instance oldest_total : TotalCmp OldestFileCompare.
Proof.
  unfold OldestFileCompare. split.
  - intros a b. destruct (info_mtime a <? info_mtime b) eqn:E; reflectZ; [left; lia|].
    right. destruct (info_mtime b <? info_mtime a) eqn:E2; reflectZ; [lia|]. ztest. lia.
  - intros a b c. repeat case_if; lia.
Qed.

(** The string and the time that identify a queued file. *)
Definition key (i : list Z) : list Z * Z := (cstr (info_path i), info_mtime i).

(** The queue of the scan holds the elements [l]. *)
Definition fq (q : SiLogPQueue) (l : list (list Z)) : Prop :=
  pq_repr q l /\ pq_elementSize q = sizeof_FileInfo /\ pq_capacity q = MAX_LOG_FILE_COUNT /\
  pq_compare q = OldestFileCompare.

Lemma fq_params q q' l : fq q l -> same_params q q' -> forall l', pq_repr q' l' -> fq q' l'.
Proof. intros (_ & H1 & H2 & H3) (E1 & E2 & E3) l' Hr. split; [done|]. by rewrite E1, E2, E3. Qed.

Lemma snprintf_some n s :
  0 < n -> exists a, (obj_snprintf_s (replicate (Z.to_nat n) 0) n (n - 1) s).2 = Some a /\ len a = n.
Proof.
  intros Hn. unfold obj_snprintf_s. ztest. cbn [snd].
  destruct (wr (replicate (Z.to_nat n) 0) 0 _) as [a1|] eqn:H1; cycle 1.
  { rewrite wr_Some in H1; [done|lia|]. rewrite length_app, length_take, length_replicate. simpl. lia. }
  pose proof (wr_length _ _ _ _ H1) as Hl1. rewrite length_replicate in Hl1. bind_some.
  rewrite wr_Some by (simpl; lia). eexists. split; [done|].
  rewrite !length_app, length_take, length_drop. simpl. lia.
Qed.

Section clean.
Context {W : Type} `{!Os W, !Others SilogFileManager W, !FileSys W}.
Implicit Types (e : env SilogFileManager W).

(** A part of the program that changes neither the manager nor the mutex and
    opens and closes no file; [P] is what it does to its results and the trace. *)
Definition pure_step {A} (e : env SilogFileManager W) (P : A -> trace_t -> Prop) (a : A)
    (e' : env SilogFileManager W) : Prop :=
  mem e' = mem e /\ held e' = held e /\ exists t, trace e' = trace e ++ t /\ fneutral t /\ P a t.

Lemma fs_memory (w : W) n : memory w n.
Proof. intros a w' H. by eapply malloc_ok. Qed.

(** Allocations touch no file. *)
Lemma alloc_fneutral t : alloc_only t -> fneutral t.
Proof.
  induction 1 as [|[c a] t Hc _ IH]; [apply fneutral_nil|]. apply (fneutral_app [(c, a)]); [apply fneutral_one; by destruct c|done].
Qed.
Lemma alloc_silent t : alloc_only t -> unlinks t = [] /\ renames t = [] /\ found t = [].
Proof.
  induction 1 as [|[c a] t Hc _ (IH1 & IH2 & IH3)]; [done|]. unfold unlinks, renames, found in *.
  destruct c; try done; cbn; by rewrite ?IH1, ?IH2, ?IH3.
Qed.

Lemma wp_free_names n (Q : unit -> env SilogFileManager W -> Prop) e :
  (forall w t, alloc_only t -> Q tt (Env (mem e) w (trace e ++ t) (held e))) -> wp (free_names n) Q e.
Proof.
  revert e. induction n as [|n IH]; intros e HQ; cbn [free_names].
  { wp_step. rewrite <- (env_nil e). apply HQ. constructor. }
  wp_step. wp_step. apply IH. intros w1 t1 H1. cbn [mem trace held]. rewrite <- (assoc_L (++)). apply HQ. by constructor.
Qed.

Lemma push_file q l x :
  fq q l -> heap OldestFileCompare l -> len x = sizeof_FileInfo ->
  exists r q' l', SilogPQueuePush true (Some q) (Some x) = Some (r, Some q') /\ fq q' l' /\
    heap OldestFileCompare l' /\ l' ≡ₚ l ++ take (128 - length l) [x].
Proof.
  intros Hq Hh Hx. pose proof Hq as (Hr & Hes & Hcap & Hcmp).
  destruct (pq_push_cases q l x) as [(Hlt & q' & l' & Hp & Hs & Hr' & Hperm & Hh')|[Hfull Hp]].
  - rewrite Hcmp. apply oldest_total.
  - done.
  - by rewrite Hcmp.
  - by rewrite Hes.
  - exists SILOG_OK, q', l'. split; [done|]. split; [by eapply fq_params|].
    split; [by destruct Hs as (_ & _ & Hc); rewrite Hc, Hcmp in Hh'|].
    rewrite Hcap in Hlt. change MAX_LOG_FILE_COUNT with 128 in Hlt.
    destruct (128 - length l)%nat eqn:E; [lia|]. cbn [take]. rewrite Hperm.
    rewrite take_nil. apply Permutation_cons_append.
  - exists SILOG_BUSY, q, l. split; [done|]. split; [done|]. split; [done|].
    rewrite Hcap in Hfull. change MAX_LOG_FILE_COUNT with 128 in Hfull.
    replace (128 - length l)%nat with 0%nat by lia. by rewrite app_nil_r.
Qed.

Lemma scan_entry_spec dir prefix name q l e :
  fq q l -> heap OldestFileCompare l ->
  wp (scan_entry dir prefix name q)
    (pure_step e (fun q' t => unlinks t = [] /\ renames t = [] /\
       exists l', fq q' l' /\ heap OldestFileCompare l' /\
         map key l' ≡ₚ map key l ++ take (128 - length l) (found t))) e.
Proof.
  intros Hq Hh. unfold scan_entry.
  assert (forall P : SiLogPQueue -> trace_t -> Prop, P q [] -> pure_step e P q e) as Hskip.
  { intros P HP. split; [done|]. split; [done|]. exists []. rewrite app_nil_r. split; [done|].
    split; [apply fneutral_nil|done]. }
  wp_step.
  { wp_step. apply Hskip. split; [done|]. split; [done|]. exists l. cbn. by rewrite take_nil, app_nil_r. }
  wp_step. destruct (snprintf_some PATH_MAX_LEN (dir ++ chars "/" ++ name)) as (path & Hpath & Hlen); [done|].
  eapply wp_lift; [exact Hpath|]. wp_step. wp_step. pose proof (stat_ok _ _ _ _ H) as Hmt.
  assert (found [(CStat (cstr path), a)] = if ret a =? 0 then [(cstr path, st_mtime a)] else []) as Hf
    by (unfold found; cbn; by destruct (ret a =? 0)).
  wp_step; cycle 1.
  { wp_step. split; [done|]. split; [done|]. eexists. split; [done|]. split; [solve_fneutral|].
    split; [done|]. split; [done|]. exists l. rewrite Hf. ztest. rewrite take_nil, app_nil_r. done. }
  destruct (push_file q l (file_info path (st_mtime a)) Hq Hh) as (r & q' & l' & Hp & Hq' & Hh' & Hperm);
    [by apply file_info_length|].
  assert (map key l' ≡ₚ map key l ++ take (128 - length l) [(cstr path, st_mtime a)]) as Hkeys.
  { rewrite Hperm, map_app. f_equiv. destruct (128 - length l)%nat; cbn [take map]; [done|].
    rewrite !take_nil. unfold key. cbn [map]. by rewrite info_path_of, info_mtime_of. }
  wp_step. apply (wp_pqueue_push _ _ _ _ _ (fs_memory _ _) Hp). intros w1 t1 Ht1. cbn [mem trace held]. wp_step.
  destruct (alloc_silent _ Ht1) as (Hu & Hre & Hfo). apply alloc_fneutral in Ht1.
  split; [done|]. split; [done|]. exists ([(CStat (cstr path), a)] ++ t1).
  split; [cbn [trace]; by rewrite (assoc_L (++))|]. split; [solve_fneutral|]. split; [by rewrite unlinks_app, Hu|].
  split; [by rewrite renames_app, Hre|]. exists l'. rewrite found_app, Hf, Hfo, app_nil_r. done.
Qed.

Lemma scan_loop_spec fuel dir prefix ns n i q l fs e :
  fq q l -> heap OldestFileCompare l -> map key l ≡ₚ take 128 fs ->
  n = len ns -> n < 2 ^ 31 -> 0 <= i <= n -> (Z.to_nat (n - i) < fuel)%nat ->
  wp (scan_loop fuel dir prefix ns n i q)
    (pure_step e (fun q' t => unlinks t = [] /\ renames t = [] /\
       exists l', fq q' l' /\ heap OldestFileCompare l' /\ map key l' ≡ₚ take 128 (fs ++ found t))) e.
Proof.
  intros Hq Hh Hk Hn Hn31. revert i q l fs e Hq Hh Hk.
  induction fuel as [|fuel IH]; intros i q l fs e Hq Hh Hk Hi Hf; [lia|]. cbn [scan_loop]. wp_step.
  - destruct (lookup_lt_is_Some_2 ns (Z.to_nat i)) as [name Hname]; [lia|].
    wp_step. eapply wp_lift; [done|]. wp_step.
    eapply wp_mono; [by apply scan_entry_spec|].
    intros q1 e1 (Hm1 & Hh1 & t1 & Ht1 & Hn1 & Hu1 & Hre1 & l1 & Hq1 & Hp1 & Hk1).
    rewrite u32_small by (unfold is_u32; lia).
    assert (map key l1 ≡ₚ take 128 (fs ++ found t1)) as Hk1'.
    { rewrite Hk1, Hk, take_app. apply Permutation_app_head.
      assert (length l = length (take 128 fs)) as Hl
        by (rewrite <- (length_map key), Hk; done).
      rewrite Hl, length_take. replace (128 - Nat.min 128 (length fs))%nat with (128 - length fs)%nat by lia.
      done. }
    eapply wp_mono; [apply (IH (i + 1) q1 l1 (fs ++ found t1)); [done|done|done|lia|lia]|].
    intros q2 e2 (Hm2 & Hh2 & t2 & Ht2 & Hn2 & Hu2 & Hre2 & l2 & Hq2 & Hp2 & Hk2).
    split; [congruence|]. split; [congruence|]. exists (t1 ++ t2).
    split; [by rewrite Ht2, Ht1, (assoc_L (++))|]. split; [solve_fneutral|].
    split; [by rewrite unlinks_app, Hu1, Hu2|]. split; [by rewrite renames_app, Hre1, Hre2|]. exists l2. split; [done|]. split; [done|].
    by rewrite found_app, (assoc_L (++)).
  - wp_step. split; [done|]. split; [done|]. exists []. rewrite app_nil_r. split; [done|].
    split; [apply fneutral_nil|]. split; [done|]. split; [done|]. exists l. by rewrite app_nil_r.
Qed.

(** What the removal loop did: it removed the elements [us], the first of them
    the head of the queue, and left as many as allowed. *)
Lemma clean_loop_spec fuel q l e :
  fq q l -> 0 <= maxFileCount (fm_config (mem e)) -> (length l < fuel)%nat ->
  wp (clean_loop fuel q)
    (pure_step e (fun _ t => found t = [] /\ renames t = [] /\ exists us kept,
       unlinks t = map (fun i => cstr (info_path i)) us /\ us ++ kept ≡ₚ l /\
       len us = Z.max 0 (len l - maxFileCount (fm_config (mem e))) /\
       (us <> [] -> head us = head l))) e.
Proof.
  revert q l e. induction fuel as [|fuel IH]; intros q l e Hq Hc Hf; [lia|]. cbn [clean_loop].
  pose proof Hq as (Hr & _). wp_step. wp_step. unfold SilogPQueueSize. rewrite (pr_size _ _ Hr). wp_step.
  - destruct l as [|x l]; [simpl in *; lia|].
    destruct (pq_pop_cases true q (x :: l) Hr) as (q' & l' & Hp & Hs & Hr' & Hperm).
    pose proof (fq_params _ _ _ Hq Hs _ Hr') as Hq'. wp_step.
    apply (wp_pqueue_pop _ _ _ _ (fs_memory _ _)) with (2 := Hp);
      [rewrite (pr_size _ _ Hr); pose proof (pr_bound _ _ Hr); pose proof (pr_cap _ _ Hr); lia|].
    intros w0 t0 Ht0. destruct (alloc_silent _ Ht0) as (Hu0 & Hre0 & Hf0). apply alloc_fneutral in Ht0 as Hn0. clear Ht0.
    wp_step. eapply wp_lift; [done|]. wp_step. wp_step.
    cbn [default from_option id fst snd].
    pose proof (Permutation_length Hperm) as Hlen. simpl in Hlen, Hf.
    eapply wp_mono; [apply (IH q' l'); [done|done|lia]|].
    intros q2 e2 (Hm2 & Hh2 & t2 & Ht2 & Hn2 & Hf2 & Hre2 & us & kept & Hu2 & Hp2 & Hl2 & _).
    cbn [mem trace held] in *.
    split; [congruence|]. split; [congruence|].
    exists (t0 ++ [(CUnlink (cstr (info_path x)), a)] ++ t2).
    split; [by rewrite Ht2, !(assoc_L (++))|]. split; [solve_fneutral|].
    split; [by rewrite !found_app, Hf0, Hf2|]. split; [by rewrite !renames_app, Hre0, Hre2|].
    exists (x :: us), kept.
    split; [by rewrite !unlinks_app, Hu0, Hu2|].
    split; [rewrite <- Hperm; cbn; by rewrite Hp2|].
    split; [cbn [length] in *; lia|done].
  - wp_step. split; [done|]. split; [done|]. exists []. rewrite app_nil_r. split; [done|].
    split; [apply fneutral_nil|]. split; [done|]. split; [done|]. exists [], l. split; [done|]. split; [done|].
    split; [simpl; lia|done].
Qed.

(** The queue right after its initialisation. *)
Lemma fq_empty :
  fq (MkPQ (Some (replicate (Z.to_nat (u32 (sizeof_FileInfo * MAX_LOG_FILE_COUNT))) 0))
        sizeof_FileInfo MAX_LOG_FILE_COUNT 0 OldestFileCompare) [].
Proof.
  change (u32 (sizeof_FileInfo * MAX_LOG_FILE_COUNT)) with 66560. generalize (Z2Nat.id 66560 ltac:(lia)).
  generalize (Z.to_nat 66560). intros n Hn.
  split; [|done]. split; cbn [pq_elementSize pq_capacity pq_size pq_buffer];
    unfold sizeof_FileInfo, MAX_LOG_FILE_COUNT; try lia; try done; cbn [length]; try lia.
  eexists. split; [done|]. rewrite length_replicate. split; [lia|]. split; [cbn; lia|]. intros ?? Hl.
  by rewrite lookup_nil in Hl.
Qed.

(** The outcome of a clean-up that keeps [cnt] files: among the first 128 history
    files found, as many as exceed [cnt] are removed, beginning with one that no
    other file is newer than. *)
Definition clean_result (cnt : Z) (t : trace_t) : Prop :=
  exists us kept, unlinks t = map fst us /\ us ++ kept ≡ₚ take 128 (found t) /\
    len us = Z.max 0 (len (take 128 (found t)) - cnt) /\
    forall u, head us = Some u -> forall f, f ∈ take 128 (found t) -> f.2 <= u.2.

Lemma oldest_le a b : OldestFileCompare a b <= 0 -> info_mtime a <= info_mtime b.
Proof. unfold OldestFileCompare. repeat case_if; lia. Qed.

Lemma clean_spec e :
  0 <= maxFileCount (fm_config (mem e)) ->
  wp SilogFileManagerCleanOldFiles
    (pure_step e (fun r t => renames t = [] /\ (r = SILOG_FILE_OPEN /\ unlinks t = [] \/
       r = SILOG_OK /\ clean_result (maxFileCount (fm_config (mem e))) t))) e.
Proof.
  intros Hc. unfold SilogFileManagerCleanOldFiles. wp_step. wp_step. wp_step. wp_step. wp_step.
  { wp_step. split; [done|]. split; [done|]. eexists. split; [done|]. split; [solve_fneutral|].
    split; [done|]. by left. }
  destruct (scandir_ok _ _ _ _ H) as [Hn Hn31]; [done|].
  wp_step. apply wp_pqueue_init; [apply fs_memory|done|done| |done]. intros w1 t1 Ht1.
  destruct (alloc_silent _ Ht1) as (Hu1 & Hre1 & Hf1). apply alloc_fneutral in Ht1 as Hn1. clear Ht1. cbn [fst snd].
  wp_step. rewrite decide_True by done. eapply wp_lift; [done|]. wp_step. rewrite u32_small by (unfold is_u32; lia).
  set (q0 := MkPQ _ _ _ _ _).
  assert (fq q0 []) as Hq0.
  { by apply fq_empty. }
  eapply wp_mono; [apply (scan_loop_spec _ _ _ _ _ _ q0 [] []); [done| |done|done|done|lia|lia]|].
  { intros j _ x y Hx. by rewrite lookup_nil in Hx. }
  intros q2 e2 (Hm2 & Hh2 & t2 & Ht2 & Hn2 & Hu2 & Hre2 & l & Hq2 & Hp2 & Hk2). wp_step.
  apply wp_free_names. intros w4 t4 Ht4. wp_step.
  destruct (alloc_silent _ Ht4) as (Hu4 & Hre4 & Hf4). apply alloc_fneutral in Ht4 as Hn4. clear Ht4.
  unfold SilogPQueueSize. rewrite (pr_size q2 l) by apply Hq2. cbn [mem held trace] in *.
  eapply wp_mono; [apply (clean_loop_spec _ q2 l); [done|by rewrite Hm2|lia]|].
  intros q3 e3 (Hm3 & Hh3 & t3 & Ht3 & Hn3 & Hf3 & Hre3 & us & kept & Hu3 & Hp3 & Hl3 & Hhd).
  wp_step. apply wp_pqueue_destroy. intros w5 t5 r5 Ht5. wp_step. cbn [mem held trace].
  destruct (alloc_silent _ Ht5) as (Hu5 & Hre5 & Hf5). apply alloc_fneutral in Ht5 as Hn5. clear Ht5.
  cbn [mem held trace] in Hm3, Hh3, Ht3. split; [cbn; congruence|]. split; [cbn; congruence|].
  eexists. split; [cbn [trace]; rewrite Ht3, Ht2, <- !(assoc_L (++)); done|].
  split; [solve_fneutral|]. split; [by rewrite !renames_app, Hre1, Hre2, Hre3, Hre4, Hre5|]. right. split; [done|].
  cbn [app] in Hk2. match goal with |- clean_result _ ?x => set (t := x) end.
  assert (found t = found t2) as Hfs by (unfold t; rewrite !found_app, Hf1, Hf3, Hf4, Hf5; cbn; by rewrite app_nil_r).
  assert (unlinks t = unlinks t3) as Hut
    by (unfold t; rewrite !unlinks_app, Hu1, Hu2, Hu4, Hu5; cbn; by rewrite app_nil_r).
  unfold clean_result. rewrite Hfs, Hut. exists (map key us), (map key kept).
  split; [by rewrite Hu3, map_map|]. split; [rewrite <- map_app, Hp3; done|].
  split; [rewrite length_map, Hl3, <- Hk2, length_map, Hm2; done|].
  intros u Hu f Hf. destruct us as [|x us]; [done|]. injection Hu as <-.
  rewrite <- Hk2 in Hf. apply list_elem_of_In, in_map_iff in Hf as (y & <- & Hy).
  apply list_elem_of_In, list_elem_of_lookup in Hy as (i & Hy).
  specialize (Hhd ltac:(done)). cbn in Hhd. apply oldest_le.
  apply (heap_root_max OldestFileCompare l x i); [done| |done]. by destruct l as [|? l]; cbn in *.
Qed.
End clean.

(** ** Rotation *)

(** The names probed by [stat]. *)
Definition probes (t : trace_t) : list (list Z * bool) :=
  omap (fun ev => match ev.1 with CStat p => Some (p, ret ev.2 =? 0) | _ => None end) t.
Lemma probes_app t1 t2 : probes (t1 ++ t2) = probes t1 ++ probes t2.
Proof. apply omap_app. Qed.

Record cfg_ok (c : SilogLogFileConfig) : Prop := {
  ck_dir : len (logDir c) = SILOG_MAX_PATH_LEN;
  ck_base : len (logFileBase c) = SILOG_MAX_NAME_LEN;
  ck_size : is_u32 (maxFileSize c);
  ck_count : is_u32 (maxFileCount c);
  ck_flush : is_u32 (asyncFlushSize c);
  ck_retry : is_u32 (rotateRetryCount c)
}.

(** The invariant of the manager: an initialised one has a working queue of
    compression jobs, an uninitialised one has no open file. *)
Definition fm_inv (m : SilogFileManager) : Prop :=
  cfg_ok (fm_config m) /\ is_u32 (fm_currentSize m) /\ is_u64 (fm_asyncBufferSize m) /\
  if fm_initialized m
  then exists l, mpsc_repr sizeof_CompressTask COMPRESS_QUEUE_SIZE (fm_compressQueue m) l
  else fm_currentFd m = 0.

Section rotate.
Context {W : Type} `{!Os W, !Others SilogFileManager W, !FileSys W}.
Implicit Types (e : env SilogFileManager W).

Lemma name_loop_spec c ts fuel seq path e :
  0 <= seq < MAX_SEQ_RETRY_COUNT -> (Z.to_nat (MAX_SEQ_RETRY_COUNT - seq) < fuel)%nat ->
  wp (name_loop fuel c ts seq path)
    (pure_step e (fun p t => renames t = [] /\ unlinks t = [] /\ exists k b,
       seq <= k < MAX_SEQ_RETRY_COUNT /\ p = history_name c ts k /\
       (b = false \/ k = MAX_SEQ_RETRY_COUNT - 1) /\
       probes t = map (fun j => (history_name c ts j, true)) (seqZ seq (k - seq)) ++
                  [(history_name c ts k, b)])) e.
Proof.
  change MAX_SEQ_RETRY_COUNT with 10. revert seq path e.
  induction fuel as [|fuel IH]; intros seq path e Hs Hf; [lia|]. cbn [name_loop].
  change MAX_SEQ_RETRY_COUNT with 10. ztest. wp_step. wp_step.
  assert (probes [(CStat (history_name c ts seq), a)] = [(history_name c ts seq, ret a =? 0)]) as Hp by done.
  destruct (ret a =? 0) eqn:E; cbn [negb]; cycle 1.
  { wp_step. split; [done|]. split; [done|]. eexists. split; [done|]. split; [solve_fneutral|].
    split; [done|]. split; [done|]. exists seq, false. split; [lia|]. split; [done|]. split; [by left|].
    rewrite Z.sub_diag, Hp. done. }
  rewrite u32_small by (unfold is_u32; lia).
  destruct (decide (seq = 9)) as [->|Hne].
  - destruct fuel as [|fuel]; [lia|]. cbn [name_loop]. change MAX_SEQ_RETRY_COUNT with 10. ztest. wp_step.
    split; [done|]. split; [done|]. eexists. split; [done|]. split; [solve_fneutral|].
    split; [done|]. split; [done|]. exists 9, true. split; [lia|]. split; [done|]. split; [by right|].
    by rewrite Hp.
  - eapply wp_mono; [apply (IH (seq + 1)); lia|].
    intros p e1 (Hm1 & Hh1 & t1 & Ht1 & Hn1 & Hr1 & Hu1 & k & b & Hk & -> & Hb & Hpr).
    split; [done|]. split; [done|]. exists ([(CStat (history_name c ts seq), a)] ++ t1).
    split; [by rewrite Ht1, (assoc_L (++))|]. split; [solve_fneutral|].
    split; [by rewrite renames_app, Hr1|]. split; [by rewrite unlinks_app, Hu1|]. exists k, b.
    split; [lia|]. split; [done|]. split; [done|]. rewrite probes_app, Hp, Hpr.
    rewrite (seqZ_cons seq (k - seq)) by lia. cbn [map app]. do 4 f_equal. lia.
Qed.

Lemma rename_loop_spec from to fuel retry e :
  is_u32 (rotateRetryCount (fm_config (mem e))) ->
  0 <= retry <= rotateRetryCount (fm_config (mem e)) ->
  (Z.to_nat (rotateRetryCount (fm_config (mem e)) - retry) < fuel)%nat ->
  wp (rename_loop fuel from to retry)
    (pure_step e (fun r t => unlinks t = [] /\ probes t = [] /\
       retry <= r <= rotateRetryCount (fm_config (mem e)) /\
       renames t = replicate (Z.to_nat (r - retry)) (from, to, false) ++
                   (if r <? rotateRetryCount (fm_config (mem e)) then [(from, to, true)] else []))) e.
Proof.
  intros Hu. revert retry e Hu. induction fuel as [|fuel IH]; intros retry e Hu Hr Hf; [lia|].
  cbn [rename_loop]. wp_step. wp_step. wp_step; cycle 1.
  { wp_step. split; [done|]. split; [done|]. exists []. rewrite app_nil_r. split; [done|].
    split; [apply fneutral_nil|]. split; [done|]. split; [done|]. split; [lia|].
    ztest. by rewrite Z.sub_diag. }
  wp_step. wp_step.
  assert (renames [(CRename from to, a)] = [(from, to, ret a =? 0)]) as Hren by done.
  wp_step.
  { wp_step. split; [done|]. split; [done|]. eexists. split; [done|]. split; [solve_fneutral|].
    split; [done|]. split; [done|]. split; [lia|]. rewrite Z.sub_diag. ztest. exact Hren. }
  unfold is_u32 in Hu. rewrite u32_small by (unfold is_u32; lia). wp_step.
  apply wp_mono with (fun _ e' => exists w' t', fneutral t' /\ unlinks t' = [] /\ probes t' = [] /\
    renames t' = [] /\ e' = Env (mem e) w' (trace e ++ [(CRename from to, a)] ++ t') (held e)).
  { wp_step; wp_steps.
    - eexists _, _. split; [|split; [|split; [|split; [|by rewrite <- (assoc_L (++))]]]]; try done.
      solve_fneutral.
    - eexists _, []. split; [apply fneutral_nil|]. split; [done|]. split; [done|]. split; [done|].
      by rewrite app_nil_r. }
  intros [] e1 (w1 & t1 & Hn1 & Hu1 & Hp1 & Hr1 & ->).
  eapply wp_mono; [apply (IH (retry + 1)); cbn [mem]; [done|lia|lia]|]. cbn [mem].
  intros r e2 (Hm2 & Hh2 & t2 & Ht2 & Hn2 & Hu2 & Hp2 & Hr2 & Hren2).
  split; [done|]. split; [done|]. exists ([(CRename from to, a)] ++ t1 ++ t2).
  split; [rewrite Ht2; cbn [trace]; by rewrite <- !(assoc_L (++))|]. split; [solve_fneutral|].
  split; [by rewrite !unlinks_app, Hu1, Hu2|]. split; [by rewrite !probes_app, Hp1, Hp2|].
  split; [lia|]. rewrite !renames_app, Hr1, Hren2, Hren.
  replace (Z.to_nat (r - retry)) with (S (Z.to_nat (r - (retry + 1)))) by lia. done.
Qed.

(** Pieces without a rename, a removal or a probe. *)
Definition quiet (t : trace_t) : Prop :=
  fneutral t /\ renames t = [] /\ unlinks t = [] /\ probes t = [].
Lemma quiet_one c a :
  match c with CFopen _ _ | CFclose _ | CRename _ _ | CUnlink _ | CStat _ => False | _ => True end ->
  quiet [(c, a)].
Proof. intros H. split; [apply fneutral_one; by destruct c|]. by destruct c. Qed.

Lemma wp_now_u64 (Q : Z -> env SilogFileManager W -> Prop) e :
  (forall n a w, is_u64 n -> Q n (Env (mem e) w (trace e ++ [(CClockGettime false, a)]) (held e))) ->
  wp SilogGetNowMs Q e.
Proof.
  intros HQ. apply wp_now. intros a w w' _. apply HQ. unfold clock_ms.
  destruct (negb (ret a =? 0)); [split; lia|]. apply u64_range.
Qed.

Lemma timestamp_spec ts e :
  0 <= ts ->
  wp (SilogFileManagerFormatTimestamp ts TIME_BUF_SIZE)
    (pure_step e (fun _ t => quiet t)) e.
Proof.
  intros Hts. unfold SilogFileManagerFormatTimestamp. wp_step. wp_step.
  destruct (localtime_ok _ _ _ _ H) as [Hy Hf].
  pose proof (fmt_d_i32_length _ Hy) as L0.
  assert (forall i, (1 <= i <= 5)%nat -> forall d, 0 <= d <= 1 -> (length (fmt_0d 2 (nth i (out a) 0 + d)%Z) <= 2)%nat) as L.
  { intros i Hi d Hd. specialize (Hf i Hi). apply fmt_0d_length; [lia|lia|]. change (10 ^ Z.of_nat 2) with 100. lia. }
  pose proof (L 1%nat ltac:(lia) 1 ltac:(lia)) as L1.
  pose proof (L 2%nat ltac:(lia) 0 ltac:(lia)) as L2. pose proof (L 3%nat ltac:(lia) 0 ltac:(lia)) as L3.
  pose proof (L 4%nat ltac:(lia) 0 ltac:(lia)) as L4. pose proof (L 5%nat ltac:(lia) 0 ltac:(lia)) as L5.
  rewrite Z.add_0_r in L2, L3, L4, L5. change TIME_BUF_SIZE with 32.
  wp_step.
  { rewrite !length_app in Heqb. change (length (chars "_")) with 1%nat in Heqb. lia. }
  wp_step. split; [done|]. split; [done|]. eexists. split; [done|]. split; [solve_fneutral|].
  by apply quiet_one.
Qed.

Lemma task_push q l x :
  mpsc_repr sizeof_CompressTask COMPRESS_QUEUE_SIZE q l -> len x = sizeof_CompressTask ->
  exists r q' l', SilogMpscQueuePush (Some q) (Some x) = Some (r, Some q') /\
    mpsc_repr sizeof_CompressTask COMPRESS_QUEUE_SIZE q' l'.
Proof.
  intros Hq Hx. pose proof (fifo_bound (Fifo := mpsc_fifo _ _) _ _ Hq) as Hb.
  destruct (decide (len l < COMPRESS_QUEUE_SIZE)) as [Hlt|Hge].
  - destruct (fifo_push_ok (Fifo := mpsc_fifo _ _) q l x Hq Hx Hlt) as (q' & Hp & Hq').
    exists SILOG_OK, q', (l ++ [x]). split; [|done]. cbn. by rewrite Hp.
  - destruct (fifo_push_full (Fifo := mpsc_fifo _ _) q l x Hq) as (q' & Hp & Hq'); [lia|].
    exists SILOG_TRANS_QUEUE_FULL, q', l. split; [|done]. cbn. by rewrite Hp.
Qed.

(** Submitting a compression job changes the queue only. *)
Lemma compress_spec path e l :
  mpsc_repr sizeof_CompressTask COMPRESS_QUEUE_SIZE (fm_compressQueue (mem e)) l ->
  wp (SilogFileManagerCompressFile path)
    (fun r e' => r = SILOG_OK /\ held e' = held e /\
       (exists q' l', mem e' = set_queue q' (mem e) /\
          mpsc_repr sizeof_CompressTask COMPRESS_QUEUE_SIZE q' l') /\
       exists t, trace e' = trace e ++ t /\ quiet t) e.
Proof.
  intros Hq. unfold SilogFileManagerCompressFile. wp_step. wp_step.
  assert (set_queue (fm_compressQueue (mem e)) (mem e) = mem e) as Hid by (by destruct (mem e)).
  assert (exists t, trace e = trace e ++ t /\ quiet t) as Hnil.
  { exists []. rewrite app_nil_r. split; [done|]. split; [apply fneutral_nil|done]. }
  wp_step.
  { wp_step. split; [done|]. split; [done|]. split; [|exact Hnil].
    exists (fm_compressQueue (mem e)), l. done. }
  wp_step.
  - wp_step. destruct (snprintf_some COMPRESS_PATH_MAX_LEN path) as (x & Hx & Hlen); [done|].
    eapply wp_lift; [exact Hx|]. destruct (task_push _ _ _ Hq Hlen) as (r & q' & l' & Hp & Hq').
    wp_step. eapply wp_queue_push; [exact Hp|]. intros w. wp_steps. split; [done|]. split; [done|].
    split; [by exists q', l'|exact Hnil].
  - unfold SilogFileManagerDoCompress. wp_steps. split; [done|]. split; [done|].
    split; [by exists (fm_compressQueue (mem e)), l|]. eexists. split; [done|]. by apply quiet_one.
Qed.

Lemma close_current_spec e :
  files (trace e) = Some (handles (mem e)) ->
  wp close_current
    (fun _ e' => mem e' = set_currentFd 0 (mem e) /\ held e' = held e /\ files (trace e') = Some ∅ /\
       exists t, trace e' = trace e ++ t /\ renames t = [] /\ unlinks t = [] /\ probes t = []) e.
Proof.
  intros Hf. unfold close_current. wp_step. wp_step. unfold handles in Hf. wp_step.
  - wp_step. split; [destruct (mem e); cbn in *; by subst|].
    split; [done|]. split; [done|].
    exists []. by rewrite app_nil_r.
  - wp_steps. split; [done|]. split; [done|]. split.
    + apply files_close. cbn [trace].
      rewrite (fneutral_one (CFflush (fm_currentFd (mem e)))) by done.
      by rewrite Hf, (left_id_L ∅ (⊎)).
    + eexists. split; [by rewrite <- (assoc_L (++))|]. done.
Qed.

(** The path of the current log file. *)
Definition current_path (m : SilogFileManager) : list Z :=
  sprint PATH_MAX_LEN (cstr (logDir (fm_config m)) ++ chars "/" ++ cstr (logFileBase (fm_config m)) ++ chars ".log").

(** The history name was found free, or all ten names exist. *)
Definition chosen (m : SilogFileManager) (t : trace_t) (hist : list Z) : Prop :=
  exists ts k b rest, 0 <= k < MAX_SEQ_RETRY_COUNT /\ hist = history_name (fm_config m) ts k /\
    (b = false \/ k = MAX_SEQ_RETRY_COUNT - 1) /\
    probes t = map (fun j => (history_name (fm_config m) ts j, true)) (seqZ 0 k) ++ (hist, b) :: rest.

Definition same_control (m m' : SilogFileManager) : Prop :=
  fm_config m' = fm_config m /\ fm_initialized m' = fm_initialized m /\
  fm_compressThreadRunning m' = fm_compressThreadRunning m /\
  fm_lastFlushTimeMs m' = fm_lastFlushTimeMs m.

(** How a rotation ends. *)
Definition rotated (m : SilogFileManager) (r : ErrorCode) (m' : SilogFileManager) (t : trace_t) : Prop :=
  (exists hist k, r = SILOG_OK /\ fm_currentFd m' <> 0 /\
     fm_currentSize m' = 0 /\ fm_asyncBufferSize m' = 0 /\ chosen m t hist /\
     (k < Z.to_nat (rotateRetryCount (fm_config m)))%nat /\
     renames t = replicate k (current_path m, hist, false) ++ [(current_path m, hist, true)]) \/
  (exists hist, r = SILOG_FILE_WRITE /\ fm_currentFd m' <> 0 /\
     fm_currentSize m' = fm_currentSize m /\ fm_asyncBufferSize m' = fm_asyncBufferSize m /\
     renames t = replicate (Z.to_nat (rotateRetryCount (fm_config m))) (current_path m, hist, false)) \/
  (r = SILOG_FILE_OPEN /\ fm_currentFd m' = 0 /\ fm_currentSize m' = fm_currentSize m /\
     fm_asyncBufferSize m' = fm_asyncBufferSize m).

Lemma files_open t p md a m :
  files t = Some ∅ -> fm_currentFd m = ret a -> files (t ++ [(CFopen p md, a)]) = Some (handles m).
Proof.
  intros Ht Hm. rewrite files_snoc, Ht. unfold handles, files_step. rewrite Hm. cbn [fst snd].
  destruct (ret a =? 0); [done|]. change (Some (∅ ⊎ {[+ ret a +]} : gmultiset Z) = Some {[+ ret a +]}).
  by rewrite (left_id_L ∅ (⊎)).
Qed.

Lemma rotate_spec e :
  fm_inv (mem e) -> fm_initialized (mem e) = true -> files (trace e) = Some (handles (mem e)) ->
  wp SilogFileManagerRotateInternal
    (fun r e' => held e' = held e /\ fm_inv (mem e') /\ files (trace e') = Some (handles (mem e')) /\
       same_control (mem e) (mem e') /\
       exists t, trace e' = trace e ++ t /\ rotated (mem e) r (mem e') t) e.
Proof.
  intros Hinv Hini Hf. pose proof Hinv as (Hcfg & Hsz & Has & Hq). rewrite Hini in Hq. destruct Hq as [lq Hq].
  unfold SilogFileManagerRotateInternal, SilogFileManagerGetCurrentPath.
  wp_step. wp_step. wp_step. wp_step. fold (current_path (mem e)).
  wp_step. apply wp_now_u64. intros now a1 w1 Hnow. wp_step.
  eapply wp_mono; [apply timestamp_spec; unfold is_u64 in Hnow; lia|].
  intros ts e2 (Hm2 & Hh2 & t2 & Ht2 & _ & Hn2 & Hr2 & Hu2 & Hp2). cbn [mem trace held] in *.
  wp_step. wp_step. rewrite Hm2. wp_step. eapply wp_mono; [apply name_loop_spec; [done|unfold MAX_SEQ_RETRY_COUNT; lia]|].
  intros hist e3 (Hm3 & Hh3 & t3 & Ht3 & Hn3 & Hr3 & Hu3 & k & b & Hk & -> & Hb & Hp3).
  set (hist := history_name (fm_config (mem e)) ts k) in *.
  assert (files (trace e3) = Some (handles (mem e3))) as Hf3.
  { rewrite Ht3, Hn3, Ht2, Hn2, (fneutral_one (CClockGettime false) a1 I), Hm3, Hm2. exact Hf. }
  wp_step. eapply wp_mono; [by apply close_current_spec|].
  intros [] e4 (Hm4 & Hh4 & Hf4 & t4 & Ht4 & Hr4 & Hu4 & Hp4).
  assert (fm_config (mem e4) = fm_config (mem e)) as Hc4 by (rewrite Hm4, Hm3, Hm2; done).
  pose proof (ck_retry _ Hcfg) as Hre.
  wp_step. eapply wp_mono; [apply rename_loop_spec; rewrite Hc4; [done|unfold is_u32 in Hre; lia|lia]|].
  rewrite Hc4. intros r e5 (Hm5 & Hh5 & t5 & Ht5 & Hn5 & Hu5 & Hp5 & Hr & Hren5).
  rewrite Z.sub_0_r in Hren5.
  assert (files (trace e5) = Some ∅) as Hf5 by (by rewrite Ht5, Hn5).
  set (t := [(CClockGettime false, a1)] ++ t2 ++ t3 ++ t4 ++ t5).
  assert (trace e5 = trace e ++ t) as Ht.
  { unfold t. by rewrite Ht5, Ht4, Ht3, Ht2, <- !(assoc_L (++)). }
  assert (renames t = renames t5) as Hrt by (unfold t; by rewrite !renames_app, Hr2, Hr3, Hr4).
  assert (probes t = probes t3) as Hpt
    by (unfold t; rewrite !probes_app, Hp2, Hp4, Hp5; cbn; by rewrite app_nil_r).
  assert (mem e5 = set_currentFd 0 (mem e)) as Hm5' by congruence.
  assert (held e5 = held e) as Hh5' by congruence.
  assert (forall f x a, fm_inv (set_currentFd f (set_sizes x a (mem e))) <-> is_u32 x /\ is_u64 a) as Hinv'.
  { intros f x a. split; [by intros (_ & ? & ? & _)|]. intros [? ?]. split; [done|]. split; [done|].
    split; [done|]. cbn. rewrite Hini. by exists lq. }
  assert (forall f, set_currentFd f (set_currentFd 0 (mem e)) =
    set_currentFd f (set_sizes (fm_currentSize (mem e)) (fm_asyncBufferSize (mem e)) (mem e))) as Hset by done.
  wp_step.
  - wp_step. wp_step. wp_step. wp_step. rewrite Hm5', Hset.
    assert (renames (t ++ [(CFopen (current_path (mem e)) 97, a)]) =
      replicate (Z.to_nat (rotateRetryCount (fm_config (mem e)))) (current_path (mem e), hist, false)) as Hren.
    { rewrite renames_app, Hrt, Hren5. ztest. replace r with (rotateRetryCount (fm_config (mem e))) by lia.
      cbn. by rewrite !app_nil_r. }
    wp_step; wp_step; (split; [done|]; split; [by apply Hinv'|];
      split; [apply files_open; [done|by cbn]|]; split; [done|]; eexists;
      split; [cbn [trace]; rewrite Ht, <- (assoc_L (++)); done|]).
    + right. right. done.
    + right. left. by exists hist.
  - wp_step. wp_step. wp_step. wp_step. rewrite Hm5', Hset.
    assert (files (trace e5 ++ [(CFopen (current_path (mem e)) 119, a)])
      = Some (handles (set_currentFd (ret a) (mem e)))) as Hfo by by apply files_open.
    wp_step.
    { wp_step. split; [done|]. split; [by apply Hinv'|]. split; [done|]. split; [done|]. eexists.
      split; [cbn [trace]; rewrite Ht, <- (assoc_L (++)); done|]. right. right. done. }
    wp_step. wp_step. wp_step. eapply wp_mono; [by apply (compress_spec hist _ lq)|].
    intros r6 e6 (-> & Hh6 & (q6 & l6 & Hm6 & Hq6) & t6 & Ht6 & Hn6 & Hr6 & Hu6 & Hp6).
    cbn [mem trace held] in *. wp_step.
    pose proof (ck_count _ Hcfg) as Hcc. unfold is_u32 in Hcc.
    eapply wp_mono; [apply clean_spec; rewrite Hm6; cbn; lia|].
    intros r7 e7 (Hm7 & Hh7 & t7 & Ht7 & Hn7 & Hr7 & Hclean). wp_step.
    split; [congruence|]. rewrite Hm7, Hm6. split.
    { split; [done|]. split; [split; cbn; lia|]. split; [split; cbn; lia|]. cbn. rewrite Hini. by exists l6. }
    split; [rewrite Ht7, Hn7, Ht6, Hn6; exact Hfo|]. split; [done|].
    exists (t ++ [(CFopen (current_path (mem e)) 119, a)] ++ t6 ++ t7).
    split; [by rewrite Ht7, Ht6, Ht, <- !(assoc_L (++))|]. left. exists hist, (Z.to_nat r).
    split; [done|]. split; [done|]. split; [done|]. split; [done|]. split; [|split].
    + exists ts, k, b, (probes t7). rewrite !probes_app, Hpt, Hp6, Hp3, Z.sub_0_r.
      split; [done|]. split; [done|]. split; [done|]. cbn. by rewrite <- (assoc_L (++)).
    + lia.
    + rewrite !renames_app, Hrt, Hren5, Hr6, Hr7. ztest. cbn. by rewrite app_nil_r.
Qed.
End rotate.

(** ** Writing *)

(** The other threads keep the invariant and account for the files they open. *)
Class FmOthersOk (W : Type) `{!Others SilogFileManager W} : Prop :=
  fm_others_ok m w m' t w' :
    others m w = (m', t, w') -> fm_inv m ->
    fm_inv m' /\ forall tr, files tr = Some (handles m) -> files (tr ++ t) = Some (handles m').

(** The complete writes and the flushes of a trace. *)
Definition writes (t : trace_t) : list (Z * list Z) :=
  omap (fun ev => match ev.1 with
                  | CFwrite f d => if ret ev.2 =? len d then Some (f, d) else None
                  | _ => None
                  end) t.
Definition flushes (t : trace_t) : list Z :=
  omap (fun ev => match ev.1 with CFflush f => Some f | _ => None end) t.
Lemma writes_app t1 t2 : writes (t1 ++ t2) = writes t1 ++ writes t2.
Proof. apply omap_app. Qed.
Lemma flushes_app t1 t2 : flushes (t1 ++ t2) = flushes t1 ++ flushes t2.
Proof. apply omap_app. Qed.

Section write.
Context {W : Type} `{!Os W, !Others SilogFileManager W, !FileSys W}.
Implicit Types (e : env SilogFileManager W).

(** The manager is consistent and the only open file is the current one. *)
Definition fginv e : Prop := fm_inv (mem e) /\ files (trace e) = Some (handles (mem e)).

(** The record [d] was written to the current file of [m] in one piece, and
    flushed when the policy asks for it: at once, or when the bytes collected or
    the time passed reach their limits. *)
Definition stored (m : SilogFileManager) (d : list Z) (m' : SilogFileManager) (t : trace_t) : Prop :=
  fm_currentFd m' = fm_currentFd m /\ fm_currentSize m' = u32 (fm_currentSize m + len d) /\
  writes t = [(fm_currentFd m, d)] /\
  if flushMode (fm_config m) =? SILOG_FLUSH_SYNC
  then fm_asyncBufferSize m' = 0 /\ flushes t = [fm_currentFd m]
  else (fm_asyncBufferSize m' = 0 /\ flushes t = [fm_currentFd m]) \/
       (fm_asyncBufferSize m' = u64 (fm_asyncBufferSize m + len d) /\
        fm_asyncBufferSize m' < asyncFlushSize (fm_config m) /\ flushes t = [] /\
        exists now, u64 (now - fm_lastFlushTimeMs m) < asyncFlushIntervalMs (fm_config m)).

Lemma sized_inv m x a l :
  fm_inv m -> is_u32 x -> is_u64 a -> fm_inv (set_lastFlush l (set_sizes x a m)).
Proof. intros (Hc & _ & _ & Hq) Hx Ha. done. Qed.

Lemma write_and_flush_spec d e :
  fginv e -> held e = true ->
  wp (write_and_flush d)
    (fun r e' => fginv e' /\ held e' = false /\ fm_config (mem e') = fm_config (mem e) /\
       exists t, trace e' = trace e ++ t /\
         (r = SILOG_OK /\ stored (mem e) d (mem e') t \/
          r = SILOG_FILE_WRITE /\ mem e' = mem e /\ writes t = [])) e.
Proof.
  intros [Hinv Hf] Hh. destruct e as [m w t h]. cbn [mem trace held] in *. subst h.
  unfold write_and_flush. wp_step. wp_step. wp_step. wp_step.
  assert (fneutral [(CFwrite (fm_currentFd m) d, a)]) as Hnw by by apply fneutral_one.
  assert (writes [(CFwrite (fm_currentFd m) d, a)] = if ret a =? len d then [(fm_currentFd m, d)] else []) as Hw
    by (unfold writes; cbn; by destruct (ret a =? len d)).
  destruct (ret a =? len d) eqn:E; cbn [negb]; cycle 1.
  { wp_steps. split; [split; [done|]; cbn [trace mem]; by rewrite Hnw|]. split; [done|]. split; [done|].
    eexists. split; [done|]. right. done. }
  pose proof Hinv as (_ & Hcs & Has & _).
  assert (forall c b l w' t', is_u64 b -> fneutral t' ->
    fginv (Env (set_lastFlush l (set_sizes (u32 c) b m)) w' (t ++ t') false)) as Hg.
  { intros c b l w' t' Hb Ht'. split; [apply sized_inv; [done|apply u32_range|done]|]. cbn [trace mem].
    by rewrite Ht'. }
  assert (is_u64 0) by (split; lia).
  wp_step. wp_step. wp_step. wp_step.
  - wp_steps. split; [rewrite <- (assoc_L (++)); apply (Hg (fm_currentSize m + len d) 0 (fm_lastFlushTimeMs m)); [done|solve_fneutral]|].
    split; [done|]. split; [done|]. eexists. split; [by rewrite <- (assoc_L (++))|]. left. split; [done|].
    split; [done|]. split; [done|]. rewrite writes_app, Hw. split; [done|]. cbn [fm_config].
    rewrite (proj2 (Z.eqb_eq _ _) Heqb). done.
  - wp_step. wp_step. wp_step. apply wp_now_u64. intros now a1 w1 Hnow. cbn [mem world trace held].
    wp_step. wp_step. cbn [fm_config set_sizes fm_asyncBufferSize fm_lastFlushTimeMs].
    destruct (_ || _) eqn:Eor.
    + wp_steps. split; [rewrite <- !(assoc_L (++)); apply (Hg (fm_currentSize m + len d) 0 now); [done|solve_fneutral]|].
      split; [done|]. split; [done|]. eexists. split; [by rewrite <- !(assoc_L (++))|]. left. split; [done|].
      split; [done|]. split; [done|]. rewrite !writes_app, Hw. split; [done|].
      rewrite (proj2 (Z.eqb_neq _ _) Heqb). by left.
    + apply orb_false_iff in Eor as [E1 E2]. reflectZ.
      wp_steps. split; [rewrite <- !(assoc_L (++)); apply (Hg (fm_currentSize m + len d) (u64 (fm_asyncBufferSize m + len d)) (fm_lastFlushTimeMs m)); [apply u64_range|solve_fneutral]|].
      split; [done|]. split; [done|]. eexists. split; [by rewrite <- !(assoc_L (++))|]. left. split; [done|].
      split; [done|]. split; [done|]. rewrite !writes_app, Hw. split; [done|].
      rewrite (proj2 (Z.eqb_neq _ _) Heqb). right. split; [done|]. split; [done|]. split; [done|]. by exists now.
Qed.

Definition fm_interfered (m : SilogFileManager) (t : trace_t) (m' : SilogFileManager) : Prop :=
  exists w w', others m w = (m', t, w').

Lemma wp_fm_lock `{!FmOthersOk W} (Q : unit -> env SilogFileManager W -> Prop) e :
  fginv e -> held e = false ->
  (forall m w t, fm_interfered (mem e) t m -> fginv (Env m w (trace e ++ t) true) ->
     Q tt (Env m w (trace e ++ t) true)) ->
  wp lock Q e.
Proof.
  intros [Hi Hf] Hh HQ. apply wp_lock; [done|]. intros s0 t w Ho.
  destruct (fm_others_ok _ _ _ _ _ Ho Hi) as (Hi' & Hfo).
  apply HQ; [by eexists _, _|]. split; [done|]. by apply Hfo.
Qed.

(** What a write of the record [d] does to a manager [m] whose mutex is taken. *)
Definition write_outcome (m : SilogFileManager) (d : list Z) (r : ErrorCode) (m' : SilogFileManager)
    (t : trace_t) : Prop :=
  if negb (fm_initialized m) || (fm_currentFd m =? 0)
  then r = SILOG_FILE_MANAGER_NOT_INIT /\ m' = m /\ t = []
  else if u32 (fm_currentSize m + len d) <? maxFileSize (fm_config m)
  then r = SILOG_OK /\ stored m d m' t \/ r = SILOG_FILE_WRITE /\ m' = m /\ writes t = []
  else exists r1 m1 t1 t2, rotated m r1 m1 t1 /\ same_control m m1 /\ t = t1 ++ t2 /\
    (r1 <> SILOG_OK /\ r = r1 /\ m' = m1 /\ t2 = [] \/
     r1 = SILOG_OK /\ (r = SILOG_OK /\ stored m1 d m' t2 \/ r = SILOG_FILE_WRITE /\ m' = m1 /\ writes t2 = [])).

Lemma write_raw_spec `{!FmOthersOk W} data n d e :
  fginv e -> held e = false -> 0 < n -> rd data 0 n = Some d ->
  wp (SilogFileManagerWriteRaw (Some data) n)
    (fun r e' => fginv e' /\ held e' = false /\
       exists m0 t0 t, fm_interfered (mem e) t0 m0 /\ trace e' = trace e ++ t0 ++ t /\
         write_outcome m0 d r (mem e') t) e.
Proof.
  intros Hg Hh Hn Hd. pose proof (rd_length _ _ _ _ Hd) as Hlen. unfold SilogFileManagerWriteRaw. ztest.
  wp_step. eapply wp_lift; [exact Hd|]. wp_step. eapply wp_fm_lock; [done|done|]. intros m w t0 Hint Hg0.
  wp_step. wp_step. rewrite <- Hlen. cbn [mem].
  destruct (negb (fm_initialized m) || (fm_currentFd m =? 0)) eqn:E0.
  { wp_steps. split; [done|]. split; [done|]. exists m, t0, []. rewrite app_nil_r. split; [done|]. split; [done|].
    unfold write_outcome. by rewrite E0. }
  pose proof (proj1 (orb_false_iff _ _) E0) as [Hini%negb_false_iff Hfd].
  wp_step.
  - wp_step. destruct Hg0 as [Hi0 Hf0]. eapply wp_mono; [by apply rotate_spec|]. cbn [mem trace held].
    intros r1 e1 (Hh1 & Hi1 & Hf1 & Hsc & t1 & Ht1 & Hrot).
    destruct (decide (r1 <> SILOG_OK)) as [Hne|He].
    + wp_step. apply wp_unlock; [done|]. wp_step. split; [done|]. split; [done|]. exists m, t0, t1.
      rewrite Ht1, <- (assoc_L (++)). split; [done|]. split; [done|]. unfold write_outcome. rewrite Hini. ztest. cbn [negb orb].
      exists r1, (mem e1), t1, []. rewrite app_nil_r. split; [done|]. split; [done|]. split; [done|]. left. done.
    + apply dec_stable in He as ->. eapply wp_mono; [by apply write_and_flush_spec|].
      intros r e2 (Hg2 & Hh2 & Hc2 & t2 & Ht2 & Hout). split; [done|]. split; [done|]. exists m, t0, (t1 ++ t2).
      rewrite Ht2, Ht1, <- !(assoc_L (++)). split; [done|]. split; [done|]. unfold write_outcome. rewrite Hini. ztest. cbn [negb orb].
      exists SILOG_OK, (mem e1), t1, t2. split; [done|]. split; [done|]. split; [done|]. by right.
  - eapply wp_mono; [by apply write_and_flush_spec|]. cbn [mem trace held].
    intros r e2 (Hg2 & Hh2 & Hc2 & t2 & Ht2 & Hout). split; [done|]. split; [done|]. exists m, t0, t2.
    rewrite Ht2, <- !(assoc_L (++)). split; [done|]. split; [done|]. unfold write_outcome. rewrite Hini. by ztest.
Qed.

(** ** Starting and stopping *)

(** A stopped manager without an open file. *)
Lemma fginv_stopped m w t h :
  cfg_ok (fm_config m) -> is_u32 (fm_currentSize m) -> is_u64 (fm_asyncBufferSize m) ->
  fm_initialized m = false -> fm_currentFd m = 0 -> files t = Some ∅ ->
  fginv (Env m w t h).
Proof.
  intros Hc Hs Ha Hi Hf Ht. split; cbn [mem trace].
  - split; [done|]. split; [done|]. split; [done|]. by rewrite Hi.
  - unfold handles. by rewrite Hf.
Qed.

Lemma wp_ensure_dir (Q : ErrorCode -> env SilogFileManager W -> Prop) e :
  (forall r w t, fneutral t -> r = SILOG_OK \/ r = SILOG_FILE_OPEN ->
     Q r (Env (mem e) w (trace e ++ t) (held e))) ->
  wp SilogFileManagerEnsureDir Q e.
Proof.
  intros HQ. unfold SilogFileManagerEnsureDir. wp_step. wp_step. wp_step. wp_step. wp_step.
  { wp_step; wp_step; (apply HQ; [solve_fneutral|auto]). }
  wp_step. wp_step. rewrite <- (assoc_L (++)).
  destruct (_ && _); wp_step; (apply HQ; [solve_fneutral|auto]).
Qed.

Lemma init_config_spec `{!FmOthersOk W} c e :
  cfg_ok c -> fginv e -> held e = false ->
  wp (SilogFileManagerInitWithConfig (Some c))
    (fun r e' => fginv e' /\ held e' = false /\
       exists m0 t0, fm_interfered (mem e) t0 m0 /\
         if fm_initialized m0 then r = SILOG_OK /\ mem e' = m0
         else fm_config (mem e') = c /\
              (r = SILOG_OK /\ fm_initialized (mem e') = true /\ fm_currentFd (mem e') <> 0 /\
               fm_asyncBufferSize (mem e') = 0 /\ fm_compressThreadRunning (mem e') = true \/
               r <> SILOG_OK /\ fm_initialized (mem e') = false /\ fm_currentFd (mem e') = 0)) e.
Proof.
  intros Hc Hg Hh. unfold SilogFileManagerInitWithConfig. wp_step. eapply wp_fm_lock; [done|done|].
  intros m w t0 Hint [Hi Hf]. wp_step. wp_step. cbn [mem trace] in *.
  destruct (fm_initialized m) eqn:Hini.
  { wp_steps. split; [done|]. split; [done|]. exists m, t0. rewrite Hini. done. }
  destruct Hi as (_ & Hcs & Has & Hq). rewrite Hini in Hq.
  assert (handles m = ∅) as Hh0 by (unfold handles; by rewrite Hq). rewrite Hh0 in Hf.
  match goal with |- wp _ ?P _ => set (Q := P) end.
  assert (forall r m' w' t', r <> SILOG_OK -> fm_config m' = c -> is_u32 (fm_currentSize m') ->
    fm_asyncBufferSize m' = fm_asyncBufferSize m -> fm_initialized m' = false -> fm_currentFd m' = 0 ->
    files t' = Some ∅ -> Q r (Env m' w' t' false)) as Hfail.
  { intros r m' w' t' Hr Hc' Hcs' Ha' Hi' Hf' Ht'. split; [|split; [done|]].
    - apply fginv_stopped; try done; [by rewrite Hc'|by rewrite Ha'].
    - exists m, t0. rewrite Hini. split; [done|]. split; [done|]. by right. }
  wp_step. wp_step. wp_step. apply wp_ensure_dir. intros r w1 t1 Ht1 Hr. cbn [mem trace held].
  destruct (decide (r <> SILOG_OK)) as [Hne|Heq].
  { wp_steps. apply Hfail; try done. by rewrite Ht1. }
  wp_step. unfold SilogFileManagerGetCurrentPath. wp_step. wp_step. wp_step. wp_step. wp_step. wp_step. wp_step.
  destruct (ret a =? 0) eqn:Efd; reflectZ.
  { wp_steps. apply Hfail; try done. rewrite files_snoc, Ht1, Hf. unfold files_step. cbn [fst snd]. by ztest. }
  match goal with |- wp _ _ (Env _ _ ?t _) => assert (files t = Some {[+ ret a +]}) as Hfo end.
  { rewrite (files_open _ _ _ a (set_currentFd (ret a) m)); [|by rewrite Ht1|done]. unfold handles.
    cbn [fm_currentFd set_currentFd]. by ztest. }
  wp_step. wp_step. wp_step. wp_step. wp_step. wp_step. wp_step.
  apply (wp_queue_init _ _ 6); [done|lia|done|done|]. intros r2 q w3 t3 Ht3%alloc_fneutral Hq2.
  cbn [mem trace held]. rewrite <- (assoc_L (++)).
  match goal with |- wp _ _ (Env ?x _ (?t ++ ?t') _) => set (m1 := x); assert (files (t ++ t') = Some {[+ ret a +]}) as Hf1 end.
  { rewrite (fneutral_app [_] _); [done|solve_fneutral|done]. }
  match type of Hf1 with files ?t = _ => set (tr := t) in * end. clearbody tr.
  assert (is_u32 (fm_currentSize m1)) as Hcs1 by (cbn; case_if; [apply u32_range|by split; lia]).
  assert (forall a', files (tr ++ [(CFclose (ret a), a')]) = Some ∅) as Hcl.
  { intros a'. apply files_close. rewrite Hf1. f_equal. multiset_solver. }
  wp_step. wp_step. cbn [fst snd]. destruct (decide (r2 <> SILOG_OK)) as [Hne|Heq2].
  { wp_steps. by apply Hfail. }
  apply dec_stable in Heq2. specialize (Hq2 Heq2). wp_step. wp_step. wp_step. wp_step. wp_step.
  { wp_steps. apply wp_queue_destroy. intros w6 t6 Ht6%alloc_fneutral. wp_steps. apply Hfail; try done.
    apply files_close. cbn [trace]. rewrite Ht6, fneutral_one by done. rewrite Hf1. f_equal. multiset_solver. }
  wp_step. apply wp_now_u64. intros now a4 w5 _. wp_steps. split; [|split; [done|]].
  - split; cbn [mem trace].
    + split; [done|]. split; [done|]. split; [split; cbn; lia|]. cbn. by exists [].
    + rewrite !fneutral_one by done. rewrite Hf1. unfold handles.
      cbn [fm_currentFd set_initialized set_lastFlush set_sizes set_running set_queue set_currentFd m1]. by ztest.
  - exists m, t0. rewrite Hini. split; [done|]. split; [done|]. left. done.
Qed.
End write.
