(* ===== verification/FileManagerOps.v ===== *)
(** * The log file manager: its calls in sequence, and its properties

    The remaining specifications of the public calls of
    silog_dae/src/silog_file_manager.c, sequences of calls from the initial
    state, the compression thread, and the claims on the component. *)

From S2P Require Import Prelude Errors CObj LogEntry RemoteCodec Mpsc PQueue Os Queues Format FileManager.
#[local] Open Scope Z_scope.

(** The initial value of the static variable. *)
Definition g_fileManager : SilogFileManager :=
  MkFm (MkFileConfig (replicate (Z.to_nat SILOG_MAX_PATH_LEN) 0) (replicate (Z.to_nat SILOG_MAX_NAME_LEN) 0)
          0 0 false 0 0 0 0 0 0)
    0 0 0 0 false (MkMpsc None 0 0 0 0 None 0) false.

(** The public calls. *)
Inductive fm_op :=
  | FopInit (config : option SilogLogFileConfig)
  | FopDeinit
  | FopSetLogDir (dir : option (list Z))
  | FopSetLogFileBase (base : option (list Z))
  | FopSetMaxFileSize (size : Z)
  | FopSetMaxFileCount (count : Z)
  | FopSetCompression (enable : bool)
  | FopSetCompressMode (mode : Z)
  | FopSetFlushMode (mode : Z)
  | FopSetAsyncFlushInterval (ms : Z)
  | FopSetAsyncFlushSize (size : Z)
  | FopWriteRaw (data : option (list Z)) (n : Z)
  | FopRotate
  | FopFlush
  | FopGetCurrentSize
  | FopGetCurrentFilePath (path : option (list Z)) (n : Z).

(** Arguments of their C types: the configuration has its array sizes, a buffer
    is at least as long as the length passed with it. *)
Definition fop_typed (o : fm_op) : Prop :=
  match o with
  | FopInit (Some c) => cfg_ok c
  | FopSetMaxFileSize n | FopSetMaxFileCount n | FopSetAsyncFlushSize n => is_u32 n
  | FopWriteRaw (Some b) n | FopGetCurrentFilePath (Some b) n => is_u32 n /\ n <= len b
  | _ => True
  end.

Section ops.
Context {W : Type} `{!Os W, !Others SilogFileManager W}.

Definition run_fop (o : fm_op) : M SilogFileManager W unit :=
  match o with
  | FopInit c => _ ← SilogFileManagerInit c; mret tt
  | FopDeinit => SilogFileManagerDeinit
  | FopSetLogDir d => _ ← SilogFileManagerSetLogDir d; mret tt
  | FopSetLogFileBase b => _ ← SilogFileManagerSetLogFileBase b; mret tt
  | FopSetMaxFileSize n => SilogFileManagerSetMaxFileSize n
  | FopSetMaxFileCount n => SilogFileManagerSetMaxFileCount n
  | FopSetCompression b => SilogFileManagerSetCompression b
  | FopSetCompressMode n => SilogFileManagerSetCompressMode n
  | FopSetFlushMode n => SilogFileManagerSetFlushMode n
  | FopSetAsyncFlushInterval n => SilogFileManagerSetAsyncFlushInterval n
  | FopSetAsyncFlushSize n => SilogFileManagerSetAsyncFlushSize n
  | FopWriteRaw d n => _ ← SilogFileManagerWriteRaw d n; mret tt
  | FopRotate => _ ← SilogFileManagerRotate; mret tt
  | FopFlush => SilogFileManagerFlush
  | FopGetCurrentSize => _ ← SilogFileManagerGetCurrentSize; mret tt
  | FopGetCurrentFilePath p n => _ ← SilogFileManagerGetCurrentFilePath p n; mret tt
  end.
Fixpoint run_fops (os : list fm_op) : M SilogFileManager W unit :=
  match os with
  | [] => mret tt
  | o :: os => run_fop o ;; run_fops os
  end.

(** ** The remaining calls *)

Context `{!FileSys W, !FmOthersOk W}.
Implicit Types (e : env SilogFileManager W).

(** [snprintf_s] into an array of its own size keeps the size. *)
Lemma snprintf_sized a n s : 0 < n -> n <= len a ->
  exists a', (obj_snprintf_s a n (n - 1) s).2 = Some a' /\ length a' = length a.
Proof.
  intros Hn Ha. unfold obj_snprintf_s. ztest. cbn [snd].
  assert (len (take (Z.to_nat (n - 1)) s) <= n - 1) by (rewrite length_take; lia).
  rewrite wr_Some by (rewrite ?length_app; simpl; lia). bind_some.
  set (a1 := take _ _ ++ _). assert (length a1 = length a) as Ha1.
  { eapply (wr_length a 0 (take (Z.to_nat (n - 1)) s ++ [0])).
    rewrite wr_Some by (rewrite ?length_app; simpl; lia). done. }
  rewrite wr_Some by (simpl; lia). eexists. split; [done|].
  rewrite <- Ha1. eapply (wr_length a1 (n - 1) [0]). by rewrite wr_Some by (simpl; lia).
Qed.

Lemma default_config_ok :
  exists c, SilogFileManagerGetDefaultConfig = Some c /\ cfg_ok c /\
    cstr (logDir c) = chars "/tmp/silog" /\ cstr (logFileBase c) = chars "silog" /\
    maxFileSize c = 10485760 /\ maxFileCount c = 10 /\ enableCompression c = true /\
    compressMode c = SILOG_COMPRESS_ASYNC /\ flushMode c = SILOG_FLUSH_ASYNC /\
    asyncFlushIntervalMs c = 1000 /\ asyncFlushSize c = 4096 /\ rotateRetryCount c = 3 /\
    rotateRetryDelayMs c = 100.
Proof.
  eexists. split; [vm_compute; reflexivity|]. split; [by split; vm_compute|]. by repeat split.
Qed.

Lemma fginv_config c e :
  fginv e -> cfg_ok c -> fginv (Env (set_fmConfig c (mem e)) (world e) (trace e) (held e)).
Proof. by intros [(_ & Hs & Ha & Hq) Hf] Hc. Qed.

Lemma set_field_spec f e :
  (forall c, cfg_ok c -> cfg_ok (f c)) -> fginv e -> held e = false ->
  wp (set_field f) (fun _ e' => fginv e' /\ held e' = false /\
    exists m0 t0, fm_interfered (W:=W) (mem e) t0 m0 /\ mem e' = set_fmConfig (f (fm_config m0)) m0) e.
Proof.
  intros Hc Hg Hh. unfold set_field. wp_step. eapply wp_fm_lock; [done|done|]. intros m w t0 Hint Hg0.
  wp_steps. split; [|split; [done|by exists m, t0]].
  apply (fginv_config (f (fm_config m)) (Env m w _ false)); [done|]. apply Hc, Hg0.
Qed.

Lemma set_log_dir_spec d e :
  fginv e -> held e = false ->
  wp (SilogFileManagerSetLogDir d) (fun r e' => fginv e' /\ held e' = false) e.
Proof.
  intros Hg Hh. unfold SilogFileManagerSetLogDir. destruct d as [d|]; [|by wp_step].
  wp_step. eapply wp_fm_lock; [done|done|]. intros m w t0 _ Hg0. wp_step. wp_step. cbn [mem].
  destruct (fm_initialized m) eqn:Hini; [by wp_steps|].
  pose proof Hg0 as [(Hc & _) _]. cbn [mem] in Hc.
  destruct (snprintf_sized (logDir (fm_config m)) SILOG_MAX_PATH_LEN d) as (a & Ha & Hl);
    [done|by rewrite (ck_dir _ Hc)|].
  wp_step. eapply wp_lift; [exact Ha|]. cbn beta. rewrite snprintf_ret by done. wp_steps. split; [|done].
  apply (fginv_config _ (Env m w _ false)); [done|]. destruct Hc; split; cbn; try done. by rewrite Hl.
Qed.

Lemma set_log_base_spec d e :
  fginv e -> held e = false ->
  wp (SilogFileManagerSetLogFileBase d) (fun r e' => fginv e' /\ held e' = false) e.
Proof.
  intros Hg Hh. unfold SilogFileManagerSetLogFileBase. destruct d as [d|]; [|by wp_step].
  wp_step. eapply wp_fm_lock; [done|done|]. intros m w t0 _ Hg0. wp_step. wp_step. cbn [mem].
  destruct (fm_initialized m) eqn:Hini; [by wp_steps|].
  pose proof Hg0 as [(Hc & _) _]. cbn [mem] in Hc.
  destruct (snprintf_sized (logFileBase (fm_config m)) SILOG_MAX_NAME_LEN d) as (a & Ha & Hl);
    [done|by rewrite (ck_base _ Hc)|].
  wp_step. eapply wp_lift; [exact Ha|]. cbn beta. rewrite snprintf_ret by done. wp_steps. split; [|done].
  apply (fginv_config _ (Env m w _ false)); [done|]. destruct Hc; split; cbn; try done. by rewrite Hl.
Qed.

(** Stopping closes the file once, whatever state the manager is in. *)
Lemma fm_deinit_spec e :
  fginv e -> held e = false ->
  wp SilogFileManagerDeinit
    (fun _ e' => fginv e' /\ held e' = false /\ fm_initialized (mem e') = false /\
       fm_currentFd (mem e') = 0 /\ fm_compressThreadRunning (mem e') = false /\ files (trace e') = Some ∅) e.
Proof.
  intros Hg Hh. unfold SilogFileManagerDeinit. wp_step. eapply wp_fm_lock; [done|done|].
  intros m w t0 _ [(Hc & Hs & Ha & Hq) Hf]. wp_step.
  eapply wp_mono; [by apply close_current_spec|]. cbn [mem held trace].
  intros [] e1 (Hm1 & Hh1 & Hf1 & t1 & Ht1 & _). wp_step. wp_step. wp_step. wp_step. rewrite Hm1. cbn.
  assert (forall q run (w' : W) t', files t' = Some ∅ ->
    fginv (Env (set_running run (set_queue q (set_initialized false (set_currentFd 0 m)))) w' t' false)) as Hst.
  { intros q run w' t' Ht'. by apply fginv_stopped. }
  destruct (fm_compressThreadRunning m) eqn:Hrun.
  - wp_steps. apply wp_queue_destroy. intros w2 t2 Ht2%alloc_fneutral. wp_steps.
    split_and!; try done; cbn [trace].
    + apply (Hst _ false). cbn. by rewrite Ht2, fneutral_one.
    + by rewrite Ht2, fneutral_one.
  - rewrite Hh1. apply wp_unlock; [done|]. cbn. split_and!; try done.
Qed.

Lemma fm_rotate_spec e :
  fginv e -> held e = false ->
  wp SilogFileManagerRotate
    (fun r e' => fginv e' /\ held e' = false /\
       exists m0 t0 t, fm_interfered (W:=W) (mem e) t0 m0 /\ trace e' = trace e ++ t0 ++ t /\
         if fm_initialized m0 then same_control m0 (mem e') /\ rotated m0 r (mem e') t
         else r = SILOG_FILE_MANAGER_NOT_INIT /\ mem e' = m0 /\ t = []) e.
Proof.
  intros Hg Hh. unfold SilogFileManagerRotate. wp_step. eapply wp_fm_lock; [done|done|].
  intros m w t0 Hint Hg0. wp_step. wp_step. cbn [mem].
  destruct (fm_initialized m) eqn:Hini; cbn [negb].
  - wp_step. destruct Hg0 as [Hi0 Hf0]. eapply wp_mono; [by apply rotate_spec|]. cbn [mem held trace].
    intros r e1 (Hh1 & Hi1 & Hf1 & Hsc & t1 & Ht1 & Hrot). wp_step. apply wp_unlock; [done|]. wp_step.
    split; [done|]. split; [done|]. exists m, t0, t1. rewrite Hini, Ht1, <- (assoc_L (++)). done.
  - wp_steps. split; [done|]. split; [done|]. exists m, t0, []. by rewrite Hini, app_nil_r.
Qed.

Lemma fm_flush_spec e :
  fginv e -> held e = false ->
  wp SilogFileManagerFlush
    (fun r e' => fginv e' /\ held e' = false /\
       exists m0 t0 t, fm_interfered (W:=W) (mem e) t0 m0 /\ trace e' = trace e ++ t0 ++ t /\
         if fm_currentFd m0 =? 0 then mem e' = m0 /\ t = []
         else flushes t = [fm_currentFd m0] /\ fm_asyncBufferSize (mem e') = 0) e.
Proof.
  intros Hg Hh. unfold SilogFileManagerFlush. wp_step. eapply wp_fm_lock; [done|done|].
  intros m w t0 Hint Hg0. wp_step. wp_step. cbn [mem]. wp_step.
  destruct (fm_currentFd m =? 0) eqn:E.
  - wp_steps. split; [done|]. split; [done|]. exists m, t0, []. by rewrite E, app_nil_r.
  - wp_step. wp_step. wp_step. wp_step. wp_step. apply wp_now_u64. intros now a1 w1 _. wp_steps.
    destruct Hg0 as [Hi0 Hf0]. split; [|split; [done|]].
    + split; cbn [mem trace].
      * apply sized_inv; [done|apply Hi0|by split; lia].
      * rewrite !fneutral_one by done. exact Hf0.
    + exists m, t0. eexists. rewrite E, <- !(assoc_L (++)). split; [done|]. split; [done|]. done.
Qed.

Lemma run_fop_spec o e :
  fop_typed o -> fginv e -> held e = false ->
  wp (run_fop o) (fun _ e' => fginv e' /\ held e' = false) e.
Proof.
  intros Ho Hg Hh.
  destruct o as [c| |d|d|n|n|b|n|n|n|n|d n| | | |p n]; cbn [run_fop];
    try (eapply wp_mono; [apply set_field_spec; [intros c Hc; destruct Hc; by split|done|done]|];
         intros _ e' (? & ? & _); done).
  - wp_step. unfold SilogFileManagerInit. destruct c as [c|].
    + eapply wp_mono; [by apply init_config_spec|]. intros r e' (? & ? & _). by wp_step.
    + destruct default_config_ok as (d & Hd & Hok & _). wp_step. eapply wp_lift; [exact Hd|].
      eapply wp_mono; [by apply init_config_spec|]. intros r e' (? & ? & _). by wp_step.
  - eapply wp_mono; [by apply fm_deinit_spec|]. by intros _ e' (? & ? & _).
  - wp_step. eapply wp_mono; [by apply set_log_dir_spec|]. intros r e' ?. by wp_step.
  - wp_step. eapply wp_mono; [by apply set_log_base_spec|]. intros r e' ?. by wp_step.
  - wp_step. destruct d as [d|]; [|by cbn; wp_steps]. destruct Ho as [[Hn0 Hn] Hl].
    destruct (decide (n = 0)) as [->|]; [by cbn; wp_steps|].
    eapply wp_mono; [eapply write_raw_spec; [done|done|lia|by apply rd_Some; lia]|].
    intros r e' (? & ? & _). by wp_step.
  - wp_step. eapply wp_mono; [by apply fm_rotate_spec|]. intros r e' (? & ? & _). by wp_step.
  - eapply wp_mono; [by apply fm_flush_spec|]. by intros _ e' (? & ? & _).
  - wp_step. unfold SilogFileManagerGetCurrentSize. wp_step. eapply wp_fm_lock; [done|done|].
    intros m w t0 _ Hg0. by wp_steps.
  - wp_step. unfold SilogFileManagerGetCurrentFilePath. destruct p as [p|]; [|by wp_steps].
    destruct Ho as [[Hn0 Hn] Hl]. destruct (decide (n = 0)) as [->|]; [by wp_steps|]. ztest.
    wp_step. eapply wp_fm_lock; [done|done|]. intros m w t0 _ Hg0. wp_step. wp_step. wp_step.
    edestruct (snprintf_sized p n) as (a & Ha & _); [lia|lia|]. eapply wp_lift; [exact Ha|]. by wp_steps.
Qed.
End ops.

(** ** The compression thread *)

(** The commands given to the shell. *)
Definition commands (t : trace_t) : list (list Z) :=
  omap (fun ev => match ev.1 with CSystem c => Some c | _ => None end) t.
Lemma commands_app t1 t2 : commands (t1 ++ t2) = commands t1 ++ commands t2.
Proof. apply omap_app. Qed.

Definition gzip_command (task : list Z) : list Z :=
  sprint (PATH_MAX_LEN + CMD_ARG_BUF_SIZE)
    (chars "gzip " ++ [34] ++ cstr task ++ [34] ++ chars " 2>/dev/null").

Section compress.
Context {W : Type} `{!Os W}.
Implicit Types (e : env SilogFileManager W).

Lemma compress_drain_spec l fuel e :
  (length l < fuel)%nat -> mpsc_repr sizeof_CompressTask COMPRESS_QUEUE_SIZE (fm_compressQueue (mem e)) l ->
  wp (compress_drain fuel)
    (fun _ e' => held e' = held e /\
       (exists q, mem e' = set_queue q (mem e) /\ mpsc_repr sizeof_CompressTask COMPRESS_QUEUE_SIZE q []) /\
       exists t, trace e' = trace e ++ t /\ commands t = map gzip_command l) e.
Proof.
  revert fuel e. induction l as [|x l IH]; intros [|fuel] e Hn Hq; try (cbn in Hn; lia); cbn [compress_drain].
  - pose proof (fifo_pop_empty _ Hq) as Hp. wp_step. wp_step. wp_step.
    eapply wp_lift; [cbn; rewrite Hp; done|]. wp_step. wp_step. rewrite decide_False by done. wp_step.
    split; [done|]. split.
    + exists (fm_compressQueue (mem e)). by destruct (mem e).
    + exists []. by rewrite app_nil_r.
  - destruct (fifo_pop_ok (Fifo:=mpsc_fifo sizeof_CompressTask COMPRESS_QUEUE_SIZE) _ _ _ Hq) as (q & Hp & Hq'). wp_step. wp_step. wp_step.
    eapply wp_lift; [cbn; rewrite Hp; done|]. cbn [fst snd default]. wp_step. wp_step.
    rewrite decide_True by done. wp_step. eapply wp_lift; [done|]. unfold SilogFileManagerDoCompress at 1.
    wp_step. wp_step. wp_step. wp_step. eapply wp_mono; [apply IH; [cbn in Hn; lia|done]|]. cbn [mem held trace].
    intros [] e1 (Hh & (q1 & Hm & Hq1) & t & Ht & Hc). split; [done|]. split.
    + exists q1. by rewrite Hm.
    + eexists. split; [by rewrite Ht, <- (assoc_L (++))|]. by rewrite commands_app, Hc.
Qed.
End compress.

(** ** A small file system

    The files with their modification times, by path; enough of the calls to run
    the manager. *)
Definition fs := list (list Z * Z).

Definition fs_mtime (w : fs) (p : list Z) : option Z :=
  snd <$> find (fun x => bool_decide (x.1 = p)) w.

#[export] Instance fs_os : Os fs := fun c w =>
  match c with
  | CMalloc _ => (ok 1, w)
  | CStat p => (match fs_mtime w p with Some m => Ans 0 0 [33188; 0; i64 m] [] | None => fails 2 end, w)
  | CScandir d => let ns := map (fun x => drop (S (length d)) x.1) (take 1000 w) in (Ans (len ns) 0 [] ns, w)
  | CFopen p _ => (ok 7, if fs_mtime w p then w else (p, 400) :: w)
  | CRename a b => (ok 0, map (fun x => if bool_decide (x.1 = a) then (b, x.2) else x) w)
  | CUnlink p => (ok 0, List.filter (fun x => negb (bool_decide (x.1 = p))) w)
  | CFwrite _ d => (ok (len d), w)
  | CLocaltime _ => (Ans 1 0 [125; 5; 7; 12; 30; 15] [], w)
  | CClockGettime _ => (Ans 0 0 [1000; 0] [], w)
  | _ => (ok 0, w)
  end.

#[export] Instance fs_sys : FileSys fs.
Proof.
  split.
  - intros n w a w' [= <- _]. done.
  - intros p w a w' [= <- _] _. cbn [ret names]. split; [done|]. rewrite length_map, length_take. lia.
  - intros p w a w'. cbn. destruct (fs_mtime w p) as [m|]; intros [= <- _]; [|cbn; lia]. cbn.
    pose proof (Z.mod_pos_bound (m + 2 ^ 63) (2 ^ 64)). unfold i64. lia.
  - intros s w a w' [= <- _]. split; [split; cbn; lia|]. intros i Hi. cbn.
    do 6 (destruct i as [|i]; [cbn; lia|]). lia.
Qed.

(** No other thread runs. *)
#[export] Instance fm_idle {W} : Others SilogFileManager W := fun m w => (m, [], w).
#[export] Instance fm_idle_ok {W} : @FmOthersOk W fm_idle.
Proof. intros m w m' t w' [= <- <- _] Hi. split; [done|]. intros tr. by rewrite app_nil_r. Qed.

(** ** Properties *)

Section properties.
Context {W : Type} `{!Os W, !Others SilogFileManager W, !FileSys W, !FmOthersOk W}.
Implicit Types (e : env SilogFileManager W).






(** Starting the manager: an initialised one is left as it is. Otherwise the
    given configuration is stored and either the manager runs with an open file,
    nothing buffered and the compression thread started, or an error is returned
    and the manager is stopped without an open file. *)
Theorem fm_init_outcome c e :
  cfg_ok c -> fginv e -> held e = false ->
  wp (SilogFileManagerInit (Some c))
    (fun r e' => fginv e' /\ held e' = false /\
       exists m0 t0, fm_interfered (W:=W) (mem e) t0 m0 /\
         if fm_initialized m0 then r = SILOG_OK /\ mem e' = m0
         else fm_config (mem e') = c /\
              (r = SILOG_OK /\ fm_initialized (mem e') = true /\ fm_currentFd (mem e') <> 0 /\
               fm_asyncBufferSize (mem e') = 0 /\ fm_compressThreadRunning (mem e') = true \/
               r <> SILOG_OK /\ fm_initialized (mem e') = false /\ fm_currentFd (mem e') = 0)) e.
Proof. apply init_config_spec. Qed.
End properties.

(** When the compression thread is told to stop, the loop over the jobs left
    in the queue ends after as many rounds as there are jobs and one more; each
    path is given to gzip once, in the order of submission, and the queue is
    empty. *)
Theorem compress_drain_ends {W} `{!Os W} l (e : env SilogFileManager W) :
  mpsc_repr sizeof_CompressTask COMPRESS_QUEUE_SIZE (fm_compressQueue (mem e)) l ->
  wp (compress_drain (S (length l)))
    (fun _ e' => held e' = held e /\
       (exists q, mem e' = set_queue q (mem e) /\ mpsc_repr sizeof_CompressTask COMPRESS_QUEUE_SIZE q []) /\
       exists t, trace e' = trace e ++ t /\ commands t = map gzip_command l) e.
Proof. apply compress_drain_spec. lia. Qed.

(** ** Runs on concrete file systems *)

Definition c_array (n : nat) (s : string) : list Z := chars s ++ replicate (n - length (chars s)) 0.

(** Logs in /d, named a, at most 100 bytes and two history files; no
    compression, synchronous flushing. *)
Definition demo_cfg : SilogLogFileConfig :=
  MkFileConfig (c_array 256 "/d") (c_array 64 "a") 100 2 false SILOG_COMPRESS_SYNC SILOG_FLUSH_SYNC
    1000 4096 3 100.
Lemma demo_cfg_ok : cfg_ok demo_cfg.
Proof. by split; vm_compute. Qed.

Definition demo_queue : SiLogMpscQueue :=
  (mpsc_init (Some (replicate (Z.to_nat (512 * 64)) 0)) (Some (replicate 64 0)) 512 64
     (MkMpsc None 0 0 0 0 None 0)).2.
Lemma demo_queue_ok : mpsc_repr sizeof_CompressTask COMPRESS_QUEUE_SIZE demo_queue [].
Proof.
  unfold demo_queue, sizeof_CompressTask, COMPRESS_QUEUE_SIZE.
  destruct (mpsc_init_repr 512 64 6 (replicate (Z.to_nat (512 * 64)) 0) (replicate 64 0)
    (MkMpsc None 0 0 0 0 None 0)) as (q & Hq & Hr); [lia|lia|done|lia| |done|by rewrite Hq].
  rewrite length_replicate, Z2Nat.id; [done|lia].
Qed.

(** A running manager whose file holds 95 bytes. *)
Definition demo_fm : SilogFileManager := MkFm demo_cfg 7 95 0 0 true demo_queue true.
Definition demo_fs : fs :=
  [(chars "/d/a_1.log", 100); (chars "/d/a.log", 300); (chars "/d/a_2.log", 200)].
Definition demo_env (w : fs) : env SilogFileManager fs :=
  Env demo_fm w [(CFopen (chars "/d/a.log") 97, ok 7)] false.
Lemma demo_fginv w : fginv (demo_env w).
Proof.
  split; [|by vm_compute]. split; [apply demo_cfg_ok|]. split; [split; cbn; lia|]. split; [split; cbn; lia|].
  exists []. apply demo_queue_ok.
Qed.

(** With as many history files as the configuration keeps, a rotation removes
    the file it has just made: the log that was rotated out is gone, and the two
    older files stay. *)
Theorem rotation_discards_the_rotated_log :
  (fun x => (x.1, renames (trace x.2), unlinks (trace x.2), map fst (world x.2)))
    <$> SilogFileManagerRotate (demo_env demo_fs) =
  Some (SILOG_OK, [(chars "/d/a.log", chars "/d/a_20250607_123015_000.log", true)],
        [chars "/d/a_20250607_123015_000.log"],
        [chars "/d/a.log"; chars "/d/a_1.log"; chars "/d/a_2.log"]).
Proof. vm_compute. reflexivity. Qed.

(** The thread calls of a trace with their results. *)
Definition threads (t : trace_t) : list (bool * Z) :=
  omap (fun ev => match ev.1 with
                  | CPthreadCreate => Some (true, ret ev.2)
                  | CPthreadJoin => Some (false, ret ev.2)
                  | _ => None
                  end) t.

(** If the compression thread cannot be created, the start fails but leaves
    its running flag set; stopping the manager afterwards joins a thread that was
    never created. *)
Theorem deinit_joins_missing_thread :
  (fun x => (threads (trace x.2), fm_initialized (mem x.2), fm_compressThreadRunning (mem x.2)))
    <$> run_fops [FopInit (Some demo_cfg); FopDeinit]
          (Env g_fileManager [Ans 0 0 [16384; 0; 0] []; ok 7; ok 0; ok 1; ok 1; ok EAGAIN; ok 0; ok 0; ok 0; ok 0] [] false) =
  Some ([(true, EAGAIN); (false, 0)], false, false).
Proof. vm_compute. reflexivity. Qed.

(** ** The properties at concrete inputs *)






Lemma fm_init_outcome_witness :
  wp (SilogFileManagerInit (Some demo_cfg)) (fun r e' => held e' = false) (Env g_fileManager demo_fs [] false).
Proof.
  eapply wp_mono; [apply fm_init_outcome; [apply demo_cfg_ok|by apply fginv_stopped|reflexivity]|].
  intros r e' (_ & Hh & _). exact Hh.
Defined.

(** A queue with one job. *)
Lemma demo_queue_one : exists q, mpsc_repr sizeof_CompressTask COMPRESS_QUEUE_SIZE q [c_array 512 "/d/a_1.log"].
Proof.
  destruct (fifo_push_ok (Fifo:=mpsc_fifo sizeof_CompressTask COMPRESS_QUEUE_SIZE) demo_queue []
    (c_array 512 "/d/a_1.log") demo_queue_ok) as (q & _ & Hq); [done|done|]. by exists q.
Qed.

Lemma compress_drain_ends_witness : exists q,
  mpsc_repr sizeof_CompressTask COMPRESS_QUEUE_SIZE q [c_array 512 "/d/a_1.log"] /\
  wp (compress_drain 2) (fun _ e' => commands (trace e') = [gzip_command (c_array 512 "/d/a_1.log")])
    (Env (set_queue q demo_fm) demo_fs [] false).
Proof.
  destruct demo_queue_one as [q Hq]. exists q. split; [exact Hq|].
  eapply wp_mono; [apply (compress_drain_ends [c_array 512 "/d/a_1.log"]); exact Hq|].
  intros r e' (_ & _ & t & Ht & Hc). rewrite Ht. exact Hc.
Defined.
