(* ===== verification/FileCompress.v ===== *)
(** * The compression thread of the file manager

    [SilogFileManagerCompressFile] queues the path of a rotated file and
    [SilogFileManagerCompressThread] gives the queued paths to gzip: its rounds come
    in any order with the submissions, and it empties the queue when it is told to
    stop. *)

From S2P Require Import Prelude Errors LogEntry CObj Mpsc Os Format Queues FileManager FileManagerOps.
#[local] Open Scope Z_scope.

(** The command for a path, which is cut to the array of a job. *)
Definition gzip_path (p : list Z) : list Z :=
  sprint (PATH_MAX_LEN + CMD_ARG_BUF_SIZE)
    (chars "gzip " ++ [34] ++ sprint COMPRESS_PATH_MAX_LEN p ++ [34] ++ chars " 2>/dev/null").
(** The job [x] is that of the path [p]. *)
Definition job_of (p x : list Z) : Prop := cstr x = sprint COMPRESS_PATH_MAX_LEN p.
Lemma job_commands ps l : Forall2 job_of ps l -> map gzip_command l = map gzip_path ps.
Proof.
  induction 1 as [|p x ps l Hx _ IH]; cbn [map]; [done|]. rewrite IH. f_equal. unfold gzip_command, gzip_path. by rewrite Hx.
Qed.

(** A submission or a round of the thread. *)
Inductive compress_op := Submit (path : list Z) | Round.
Definition path_ok (o : compress_op) : Prop := match o with Submit p => Forall (fun c => c <> 0) p | Round => True end.
Definition submitted (ops : list compress_op) : list (list Z) :=
  omap (fun o => match o with Submit p => Some p | Round => None end) ops.

Section compress.
Context {W : Type} `{!Os W}.
Implicit Types (e : env SilogFileManager W).

Definition compress_step (o : compress_op) : M SilogFileManager W unit :=
  match o with Submit p => _ ← SilogFileManagerCompressFile p; mret tt | Round => compress_round end.
Fixpoint compress_steps (ops : list compress_op) : M SilogFileManager W unit :=
  match ops with
  | [] => mret tt
  | o :: ops => compress_step o ;; compress_steps ops
  end.

#[local] Abbreviation jobs := (mpsc_repr sizeof_CompressTask COMPRESS_QUEUE_SIZE).
#[local] Abbreviation job_fifo := (mpsc_fifo sizeof_CompressTask COMPRESS_QUEUE_SIZE).

(** The manager runs with compression in the background. *)
Definition background e : Prop :=
  enableCompression (fm_config (mem e)) = true /\ compressMode (fm_config (mem e)) = SILOG_COMPRESS_ASYNC.

(** From [e] to [e'] the commands for [ps] were run, and the queue holds [l]. *)
Definition compressed e (cs : list (list Z)) (l : list (list Z)) e' : Prop :=
  held e' = held e /\ (exists q, mem e' = set_queue q (mem e) /\ jobs q l) /\
  exists t, trace e' = trace e ++ t /\ commands t = cs.
Lemma compressed_trans e1 e2 e3 c1 c2 l1 l2 :
  compressed e1 c1 l1 e2 -> compressed e2 c2 l2 e3 -> compressed e1 (c1 ++ c2) l2 e3.
Proof.
  intros (Hh & (q & Hm & _) & t & Ht & Hc) (Hh' & (q' & Hm' & Hq') & t' & Ht' & Hc'). split; [congruence|]. split.
  - exists q'. by rewrite Hm', Hm.
  - exists (t ++ t'). by rewrite Ht', Ht, (assoc_L (++)), commands_app, Hc, Hc'.
Qed.
Lemma compressed_queue e cs l e' : compressed e cs l e' -> jobs (fm_compressQueue (mem e')) l.
Proof. by intros (_ & (q & -> & ?) & _). Qed.
Lemma compressed_background e cs l e' : compressed e cs l e' -> background e -> background e'.
Proof. by intros (_ & (q & Hm & _) & _) ?; unfold background; rewrite Hm. Qed.

Lemma round_spec l e :
  jobs (fm_compressQueue (mem e)) l ->
  wp compress_round (fun _ e' => compressed e (map gzip_command (take 1 l)) (drop 1 l) e') e.
Proof.
  intros Hq. unfold compress_round. wp_step. wp_step. wp_step. destruct l as [|x l].
  - pose proof (fifo_pop_empty (Fifo:=job_fifo) _ Hq) as Hp. eapply wp_lift; [cbn; rewrite Hp; done|].
    wp_step. wp_step. rewrite decide_False by done. wp_steps. split; [done|]. split; [|by eexists].
    exists (fm_compressQueue (mem e)). by destruct (mem e).
  - destruct (fifo_pop_ok (Fifo:=job_fifo) _ _ _ Hq) as (q & Hp & Hq'). eapply wp_lift; [cbn; rewrite Hp; done|].
    cbn [fst snd default]. wp_step. wp_step. rewrite decide_True by done. wp_step. eapply wp_lift; [done|].
    unfold SilogFileManagerDoCompress. wp_steps. split; [done|]. split; [by exists q|]. by eexists.
Qed.

Lemma submit_spec p l e :
  jobs (fm_compressQueue (mem e)) l -> background e -> Forall (fun c => c <> 0) p ->
  wp (SilogFileManagerCompressFile p)
    (fun r e' => r = SILOG_OK /\ exists l', compressed e [] l' e' /\
       if len l <? COMPRESS_QUEUE_SIZE then exists x, job_of p x /\ l' = l ++ [x] else l' = l) e.
Proof.
  intros Hq [Hen Hmo] Hp. unfold SilogFileManagerCompressFile. wp_step. wp_step. rewrite Hen, Hmo. cbn [negb]. ztest. wp_step.
  destruct (snprintf_sprint (replicate (Z.to_nat COMPRESS_PATH_MAX_LEN) 0) COMPRESS_PATH_MAX_LEN p) as (x & Hx & Hl & Hc); [done..|].
  eapply wp_lift; [exact Hx|]. wp_step. pose proof (fifo_bound (Fifo:=job_fifo) _ _ Hq) as Hb.
  destruct (len l <? COMPRESS_QUEUE_SIZE) eqn:E; reflectZ.
  - destruct (fifo_push_ok (Fifo:=job_fifo) _ l x Hq Hl E) as (q & Hpu & Hq'). eapply wp_queue_push; [cbn; rewrite Hpu; done|]. intros w.
    wp_steps.
    split; [done|]. exists (l ++ [x]). split; [|by exists x]. split; [done|]. split; [by exists q|]. exists []. by rewrite app_nil_r.
  - destruct (fifo_push_full (Fifo:=job_fifo) _ l x Hq) as (q & Hpu & Hq'); [lia|]. eapply wp_queue_push; [cbn; rewrite Hpu; done|].
    intros w. wp_steps.
    split; [done|]. exists l. split; [|done]. split; [done|]. split; [by exists q|]. exists []. by rewrite app_nil_r.
Qed.

(** The paths [acc] of the submissions [ops] were accepted after [pend]; those of
    [fin] are compressed and those of [pend'] wait as the jobs [l']. *)
Definition progress e (pend : list (list Z)) (ops : list compress_op) e' : Prop :=
  exists acc fin pend' l', sublist acc (submitted ops) /\ pend ++ acc = fin ++ pend' /\ Forall2 job_of pend' l' /\
    compressed e (map gzip_path fin) l' e' /\ (len pend + len (submitted ops) <= COMPRESS_QUEUE_SIZE -> acc = submitted ops).

Lemma steps_spec ops pend l e :
  jobs (fm_compressQueue (mem e)) l -> Forall2 job_of pend l -> background e -> Forall path_ok ops ->
  wp (compress_steps ops) (fun _ e' => progress e pend ops e') e.
Proof.
  intros Hq Hj Hb Ho. revert pend l e Hq Hj Hb. induction Ho as [|o ops Hok _ IH]; intros pend l e Hq Hj Hb; cbn [compress_steps].
  { wp_step. exists [], [], pend, l. rewrite app_nil_r. split; [done|]. split; [done|]. split; [done|]. split; [|done]. split; [done|].
    split; [exists (fm_compressQueue (mem e)); by destruct (mem e)|]. exists []. by rewrite app_nil_r. }
  pose proof (Forall2_length Hj) as Hlen. wp_step. destruct o as [p|]; cbn [compress_step].
  - wp_step. eapply wp_mono; [by apply (submit_spec p l)|]. intros r e1 (_ & l1 & Hc1 & Hl1). wp_step.
    assert (exists ps, Forall2 job_of (pend ++ ps) l1 /\ sublist ps [p] /\ (len pend < COMPRESS_QUEUE_SIZE -> ps = [p])) as (ps & Hj1 & Hsub & Hps).
    { destruct (len l <? COMPRESS_QUEUE_SIZE) eqn:E; reflectZ.
      - destruct Hl1 as (x & Hx & ->). exists [p]. split; [apply Forall2_app; [done|by constructor]|done].
      - subst l1. exists []. rewrite app_nil_r. split; [done|]. split; [apply sublist_nil_l|lia]. }
    eapply wp_mono; [by apply (IH (pend ++ ps) l1); [by eapply compressed_queue| |by eapply compressed_background]|].
    intros _ e2 (acc & fin & pend' & l' & Hs & He & Hj' & Hc & Hall). exists (ps ++ acc), fin, pend', l'.
    split; [by apply (sublist_app ps [p])|]. rewrite (assoc_L (++)), He. split; [done|]. split; [done|].
    split; [exact (compressed_trans _ _ _ _ _ _ _ Hc1 Hc)|]. change (submitted (Submit p :: ops)) with (p :: submitted ops).
    cbn [length]. intros Hn. assert (ps = [p]) as -> by (apply Hps; lia).
    cbn [app]. f_equal. apply Hall. rewrite length_app. cbn [length]. lia.
  - eapply wp_mono; [by apply (round_spec l)|]. intros [] e1 Hc1. cbn beta in Hc1.
    eapply wp_mono; [by apply (IH (drop 1 pend) (drop 1 l)); [by eapply compressed_queue|by apply Forall2_drop|by eapply compressed_background]|].
    intros _ e2 (acc & fin & pend' & l' & Hs & He & Hj' & Hc & Hall). exists acc, (take 1 pend ++ fin), pend', l'.
    split; [done|]. split; [by rewrite <- (assoc_L (++)), <- He, (assoc_L (++)), take_drop|]. split; [done|]. split.
    + rewrite map_app, <- (job_commands (take 1 pend) (take 1 l)) by (by apply Forall2_take). exact (compressed_trans _ _ _ _ _ _ _ Hc1 Hc).
    + intros Hn. apply Hall. rewrite length_drop. change (submitted (Round :: ops)) with (submitted ops) in Hn. lia.
Qed.

Lemma thread_spec n l e :
  jobs (fm_compressQueue (mem e)) l -> wp (SilogFileManagerCompressThread n) (fun _ e' => compressed e (map gzip_command l) [] e') e.
Proof.
  intros Hq. unfold SilogFileManagerCompressThread. wp_step.
  eapply (wp_mono _ (fun _ e2 => exists k, compressed e (map gzip_command (take k l)) (drop k l) e2)).
  - revert l e Hq. induction n as [|n IH]; intros l e Hq; cbn [compress_loop].
    + wp_step. exists 0%nat. split; [done|]. split; [exists (fm_compressQueue (mem e)); by destruct (mem e)|]. exists [].
      by rewrite app_nil_r.
    + wp_step. eapply wp_mono; [by apply (round_spec l)|]. intros [] e1 Hc1. cbn beta in Hc1.
      eapply wp_mono; [by apply (IH (drop 1 l)); eapply compressed_queue|]. intros _ e2 [k Hc2]. exists (1 + k)%nat.
      rewrite drop_drop in Hc2. rewrite <- take_take_drop, map_app. exact (compressed_trans _ _ _ _ _ _ _ Hc1 Hc2).
  - intros _ e1 [k Hc1]. pose proof (compressed_queue _ _ _ _ Hc1) as Hq1. pose proof (fifo_bound (Fifo:=job_fifo) _ _ Hq1) as Hb.
    eapply wp_mono; [apply (compress_drain_spec (drop k l)); [lia|done]|]. intros [] e2 Hc2. cbn beta in Hc2.
    rewrite <- (take_drop k l), map_app. exact (compressed_trans _ _ _ _ _ _ _ Hc1 Hc2).
Qed.
End compress.

(** ** Property *)


Definition demo_jobs : env SilogFileManager fs :=
  Env (MkFm (MkFileConfig (c_array 256 "/d") (c_array 64 "a") 100 2 true SILOG_COMPRESS_ASYNC SILOG_FLUSH_SYNC 1000 4096 3 100)
         7 95 0 0 true demo_queue true) demo_fs [] false.
