(* ===== verification/Ipc.v ===== *)
(** * Local datagram transport (silog_comm/src/silog_ipc.c)

    The Unix domain datagram socket between the logging library and the daemon.
    The three static variables are atomics; the functions are modelled without
    interference between their accesses. *)

From S2P Require Import Prelude Errors CObj LogEntry Os Format.
#[local] Open Scope Z_scope.

Definition LOGD_SOCKET_PATH : list Z := chars "/tmp/logd.sock".

Record SilogIpcAgent := MkAgent { ia_isInit : bool; ia_sendFd : Z; ia_recvFd : Z }.
Definition g_silogIpcAgent : SilogIpcAgent := MkAgent false 0 0.

Definition set_ipcInit b a := MkAgent b (ia_sendFd a) (ia_recvFd a).
Definition set_sendFd fd a := MkAgent (ia_isInit a) fd (ia_recvFd a).
Definition set_recvFd fd a := MkAgent (ia_isInit a) (ia_sendFd a) fd.

Definition SILOG_IPC_TYPE_UNIX_DGRAM : Z := 0.
Definition ECONNREFUSED : Z := 111.
Definition ENOENT : Z := 2.
Definition sizeof_sun_path : Z := 108.

(** The formatting of the path into the cleared address structure, and the path
    that it stores. *)
Definition format_path : Z * option (list Z) :=
  obj_snprintf_s (replicate (Z.to_nat sizeof_sun_path) 0) sizeof_sun_path (sizeof_sun_path - 1) LOGD_SOCKET_PATH.
Definition socket_path : list Z := cstr (default [] format_path.2).
Lemma format_path_ok : (format_path.1 <? 0) = false.
Proof. reflexivity. Qed.

Section ipc.
Context {W : Type} `{!Os W}.
#[local] Abbreviation IM := (M SilogIpcAgent W).

Definition setNonblock (fd : Z) : IM ErrorCode :=
  flags ← sys (CGetfl fd);
  if ret flags <? 0 then mret SILOG_NET_FILE_ERROR
  else
    r ← sys (CSetfl fd (Z.lor (ret flags) O_NONBLOCK));
    if ret r <? 0 then mret SILOG_NET_FILE_ERROR else mret SILOG_OK.

Definition SilogIpcDgramClientInit : IM ErrorCode :=
  s ← sys CSocket;
  let fd := ret s in
  if fd <? 0 then
    SILOG_PRELOG_E SILOG_PRELOG_COMM "Failed to create client socket: %s" [AErrno] ;;
    mret SILOG_NET_FILE_CREATE
  else
    r ← setNonblock fd;
    if decide (r <> SILOG_OK) then _ ← sys (CClose fd); mret r
    else if format_path.1 <? 0 then
      SILOG_PRELOG_E SILOG_PRELOG_COMM "Failed to format socket path" [] ;;
      _ ← sys (CClose fd); mret SILOG_STR_ERR
    else
      c ← sys (CConnectUnix fd socket_path);
      if ret c <? 0 then
        SILOG_PRELOG_E SILOG_PRELOG_COMM "Failed to connect to socket %s: %s" [AStr LOGD_SOCKET_PATH; AErrno] ;;
        _ ← sys (CClose fd); mret SILOG_NET_CONNECT
      else modify (set_sendFd fd) ;; mret SILOG_OK.

Definition SilogIpcDgramClientClose : IM unit :=
  a ← get;
  modify (set_sendFd (-1)) ;;
  if 0 <=? ia_sendFd a then _ ← sys (CClose (ia_sendFd a)); mret tt else mret tt.

Definition SilogIpcDgramClientSend (data : list Z) : IM ErrorCode :=
  a ← get;
  let fd := ia_sendFd a in
  if fd <? 0 then
    SILOG_PRELOG_E SILOG_PRELOG_COMM "Client send failed: socket not initialized" [] ;;
    mret SILOG_NET_FILE_ERROR
  else
    let failed := SILOG_PRELOG_E SILOG_PRELOG_COMM "Client send failed: %s" [AErrno] ;; mret SILOG_NET_SEND in
    n ← sys (CSend fd data);
    if ret n <? 0 then
      if (errno n =? ECONNREFUSED) || (errno n =? ENOENT) then
        SILOG_PRELOG_W SILOG_PRELOG_COMM "Server disconnected, attempting reconnect..." [] ;;
        SilogIpcDgramClientClose ;;
        r ← SilogIpcDgramClientInit;
        if decide (r = SILOG_OK) then
          a ← get;
          n ← sys (CSend (ia_sendFd a) data);
          if 0 <=? ret n then mret SILOG_OK else failed
        else failed
      else failed
    else mret SILOG_OK.

Definition SilogIpcDgramServerInit : IM ErrorCode :=
  _ ← sys (CUnlink LOGD_SOCKET_PATH);
  s ← sys CSocket;
  let fd := ret s in
  if fd <? 0 then
    SILOG_PRELOG_E SILOG_PRELOG_COMM "Failed to create server socket: %s" [AErrno] ;;
    mret SILOG_NET_FILE_CREATE
  else
    r ← setNonblock fd;
    if decide (r <> SILOG_OK) then _ ← sys (CClose fd); mret r
    else if format_path.1 <? 0 then
      SILOG_PRELOG_E SILOG_PRELOG_COMM "Failed to format server socket path" [] ;;
      _ ← sys (CClose fd); mret SILOG_STR_ERR
    else
      b ← sys (CBindUnix fd socket_path);
      if ret b <? 0 then
        SILOG_PRELOG_E SILOG_PRELOG_COMM "Failed to bind socket %s: %s" [AStr LOGD_SOCKET_PATH; AErrno] ;;
        _ ← sys (CClose fd); mret SILOG_NET_FILE_OPEN
      else modify (set_recvFd fd) ;; mret SILOG_OK.

(** The number of bytes, and what was received; the caller's buffer of [n] bytes
    keeps the rest. *)
Definition SilogIpcDgramServerRecv (n : Z) : IM (Z * list Z) :=
  a ← get;
  let fd := ia_recvFd a in
  if fd <? 0 then
    SILOG_PRELOG_E SILOG_PRELOG_COMM "Server recv failed: socket not initialized" [] ;; mret (0, [])
  else
    r ← sys (CRecv fd n);
    (if (ret r <? 0) && negb (errno r =? EAGAIN)
     then SILOG_PRELOG_E SILOG_PRELOG_COMM "Server recv failed: %s" [AErrno] else mret tt) ;;
    mret (ret r, out r).

Definition SilogIpcDgramServerClose : IM unit :=
  a ← get;
  modify (set_recvFd (-1)) ;;
  (if 0 <=? ia_recvFd a then _ ← sys (CClose (ia_recvFd a)); mret tt else mret tt) ;;
  _ ← sys (CUnlink LOGD_SOCKET_PATH);
  mret tt.

Definition SilogIpcClientInit : IM ErrorCode :=
  a ← get; if negb (ia_isInit a) then mret SILOG_NOT_IMPLEMENTED else SilogIpcDgramClientInit.
Definition SilogIpcClientSend (data : list Z) : IM ErrorCode :=
  a ← get; if negb (ia_isInit a) then mret SILOG_NOT_IMPLEMENTED else SilogIpcDgramClientSend data.
Definition SilogIpcClientClose : IM unit :=
  a ← get; if negb (ia_isInit a) then mret tt else SilogIpcDgramClientClose.
Definition SilogIpcServerInit : IM ErrorCode :=
  a ← get; if negb (ia_isInit a) then mret SILOG_NOT_IMPLEMENTED else SilogIpcDgramServerInit.

(** The result is a byte count or the value of an error code. *)
Definition SilogIpcServerRecv (n : Z) : IM (Z * list Z) :=
  a ← get; if negb (ia_isInit a) then mret (err SILOG_NOT_IMPLEMENTED, []) else SilogIpcDgramServerRecv n.
Definition SilogIpcServerClose : IM unit :=
  a ← get;
  if negb (ia_isInit a) then mret tt
  else SilogIpcDgramServerClose ;; modify (set_ipcInit false).
Definition SilogIpcIsInit : IM bool := a ← get; mret (ia_isInit a).
Definition SilogIpcInit (type : Z) : IM unit :=
  a ← get;
  if ia_isInit a then mret tt
  else if type =? SILOG_IPC_TYPE_UNIX_DGRAM then
    modify (set_ipcInit true) ;; modify (set_sendFd (-1)) ;; modify (set_recvFd (-1))
  else mret tt.
End ipc.

(** ** Descriptors *)

Definition fd_set (fd : Z) : gmultiset Z := if 0 <=? fd then {[+ fd +]} else ∅.
Definition ipc_held (a : SilogIpcAgent) : gmultiset Z :=
  if ia_isInit a then fd_set (ia_sendFd a) ⊎ fd_set (ia_recvFd a) else ∅.

Section specs.
Context {W : Type} `{!Os W}.
Implicit Types (e : env SilogIpcAgent W).

(** The descriptors of the agent are open; [X] are the other open ones. *)
Definition iinv (X : gmultiset Z) e : Prop := ledger (trace e) = Some (ipc_held (mem e) ⊎ X).

Lemma wp_set_nonblock fd (Q : ErrorCode -> env SilogIpcAgent W -> Prop) e :
  (forall r w t, neutral t -> sends t = [] -> Q r (Env (mem e) w (trace e ++ t) (held e))) ->
  wp (setNonblock fd) Q e.
Proof.
  intros HQ. unfold setNonblock. wp_steps; rewrite <- ?(assoc_L (++)); apply HQ; (done || solve_neutral).
Qed.

Lemma fd_set_neg fd : fd < 0 -> fd_set fd = ∅.
Proof. intros. unfold fd_set. by ztest. Qed.
Lemma fd_set_pos fd : 0 <= fd -> fd_set fd = {[+ fd +]}.
Proof. intros. unfold fd_set. by ztest. Qed.

(** A descriptor is created and either kept or closed again. *)
Definition opened (fd : Z) (t : trace_t) : Prop :=
  forall tr X, ledger tr = Some X -> ledger (tr ++ t) = Some (X ⊎ fd_set fd).

Lemma opened_none t : (forall tr, ledger (tr ++ t) = ledger tr) -> opened (-1) t.
Proof. intros H tr X Htr. rewrite H, Htr. f_equal. by rewrite fd_set_neg, (right_id_L ∅ (⊎)). Qed.

Lemma closed_again a t c2 :
  0 <= ret a -> neutral t -> opened (-1) ((CSocket, a) :: t ++ [(CClose (ret a), c2)]).
Proof.
  intros Ha Hn tr X Htr. rewrite fd_set_neg, (right_id_L ∅ (⊎)) by lia.
  change ((CSocket, a) :: t ++ [(CClose (ret a), c2)]) with ([(CSocket, a)] ++ t ++ [(CClose (ret a), c2)]).
  rewrite !(assoc_L (++)). apply ledger_close. rewrite Hn. by apply ledger_open.
Qed.

Lemma kept_open a t : 0 <= ret a -> neutral t -> opened (ret a) ((CSocket, a) :: t).
Proof.
  intros Ha Hn tr X Htr. change ((CSocket, a) :: t) with ([(CSocket, a)] ++ t).
  rewrite (assoc_L (++)), Hn, fd_set_pos by done. by apply ledger_open.
Qed.

Lemma wp_dgram_client_init (Q : ErrorCode -> env SilogIpcAgent W -> Prop) e :
  (forall w t fd, 0 <= fd -> opened fd t -> sends t = [] ->
     Q SILOG_OK (Env (set_sendFd fd (mem e)) w (trace e ++ t) (held e))) ->
  (forall r w t, r <> SILOG_OK -> opened (-1) t -> sends t = [] ->
     Q r (Env (mem e) w (trace e ++ t) (held e))) ->
  wp SilogIpcDgramClientInit Q e.
Proof.
  intros Hok Hno. unfold SilogIpcDgramClientInit. wp_step. wp_step. wp_step.
  { wp_step. apply Hno; [done| |done]. apply opened_none. intros tr. by apply ledger_open_fail. }
  wp_step. apply wp_set_nonblock. intros r w1 t1 Hn1 Hs1. cbn [mem trace held world].
  destruct (decide (r <> SILOG_OK)) as [Hne|_].
  { wp_steps. rewrite <- !(assoc_L (++)). apply Hno; [done|by apply closed_again|].
    by rewrite !sends_app, Hs1. }
  rewrite format_path_ok. wp_step. wp_step. wp_step.
  - wp_steps. rewrite <- !(assoc_L (++)), (assoc_L (++) t1). apply Hno; [done| |].
    + apply closed_again; [done|]. solve_neutral.
    + by rewrite !sends_app, Hs1.
  - wp_steps. rewrite <- !(assoc_L (++)). apply Hok; [done| |].
    + apply kept_open; [done|]. solve_neutral.
    + by rewrite !sends_app, Hs1.
Qed.

Lemma wp_dgram_server_init (Q : ErrorCode -> env SilogIpcAgent W -> Prop) e :
  (forall w t fd, 0 <= fd -> opened fd t ->
     Q SILOG_OK (Env (set_recvFd fd (mem e)) w (trace e ++ t) (held e))) ->
  (forall r w t, r <> SILOG_OK -> opened (-1) t -> Q r (Env (mem e) w (trace e ++ t) (held e))) ->
  wp SilogIpcDgramServerInit Q e.
Proof.
  intros Hok Hno. unfold SilogIpcDgramServerInit. wp_step. wp_step.
  assert (forall fd t, opened fd t -> opened fd ((CUnlink LOGD_SOCKET_PATH, a) :: t)) as Hu.
  { intros fd t Ht tr X Htr. change (?x :: t) with ([x] ++ t). rewrite (assoc_L (++)).
    apply Ht. by rewrite neutral_one. }
  wp_step. wp_step. wp_step.
  { wp_step. rewrite <- (assoc_L (++)). apply Hno; [done|]. apply Hu, opened_none. intros tr.
    by apply ledger_open_fail. }
  wp_step. apply wp_set_nonblock. intros r w1 t1 Hn1 _. cbn [mem trace held world].
  destruct (decide (r <> SILOG_OK)) as [Hne|_].
  { wp_steps. rewrite <- !(assoc_L (++)). apply Hno; [done|]. by apply Hu, closed_again. }
  rewrite format_path_ok. wp_step. wp_step. wp_step.
  - wp_steps. rewrite <- !(assoc_L (++)), (assoc_L (++) t1). apply Hno; [done|].
    apply Hu, closed_again; [done|]. solve_neutral.
  - wp_steps. rewrite <- !(assoc_L (++)). apply Hok; [done|]. apply Hu, kept_open; [done|]. solve_neutral.
Qed.

Lemma wp_dgram_client_close X (Q : unit -> env SilogIpcAgent W -> Prop) e :
  ia_isInit (mem e) = true -> iinv X e ->
  (forall w t, sends t = [] -> iinv X (Env (set_sendFd (-1) (mem e)) w (trace e ++ t) (held e)) ->
     Q tt (Env (set_sendFd (-1) (mem e)) w (trace e ++ t) (held e))) ->
  wp SilogIpcDgramClientClose Q e.
Proof.
  intros Hi Hinv HQ. unfold SilogIpcDgramClientClose. wp_step. wp_step. wp_step. wp_step.
  unfold iinv, ipc_held in Hinv. rewrite Hi in Hinv. wp_step.
  - wp_steps. apply HQ; [done|]. unfold iinv, ipc_held. cbn [mem trace set_sendFd ia_isInit ia_sendFd ia_recvFd].
    rewrite Hi. apply ledger_close. rewrite Hinv, fd_set_pos by done. f_equal. rewrite (fd_set_neg (-1)) by lia.
    multiset_solver.
  - wp_step. rewrite <- (app_nil_r (trace e)). apply HQ; [done|]. unfold iinv, ipc_held.
    cbn [mem trace set_sendFd ia_isInit ia_sendFd ia_recvFd]. rewrite app_nil_r, Hi, Hinv.
    rewrite (fd_set_neg (ia_sendFd (mem e))), (fd_set_neg (-1)) by lia. done.
Qed.

(** A new client socket replaces the old one, which stays open. *)
Lemma ipc_client_init_spec X e :
  iinv X e ->
  wp SilogIpcClientInit
    (fun r e' => held e' = held e /\
       (r = SILOG_OK /\ ia_isInit (mem e) = true /\ mem e' = set_sendFd (ia_sendFd (mem e')) (mem e) /\
        0 <= ia_sendFd (mem e') /\ iinv (X ⊎ fd_set (ia_sendFd (mem e))) e' \/
        r <> SILOG_OK /\ mem e' = mem e /\ iinv X e')) e.
Proof.
  intros Hinv. unfold SilogIpcClientInit. wp_step. wp_step.
  destruct (ia_isInit (mem e)) eqn:Hi; cbn [negb]; [|wp_step; split; [done|by right]].
  unfold iinv, ipc_held in Hinv. rewrite Hi in Hinv.
  apply wp_dgram_client_init.
  - intros w t fd Hfd Ht _. split; [done|]. left. split; [done|]. split; [done|]. split; [done|]. split; [done|].
    unfold iinv, ipc_held. cbn [mem trace set_sendFd ia_isInit ia_sendFd ia_recvFd]. rewrite Hi.
    rewrite (Ht _ _ Hinv). f_equal. multiset_solver.
  - intros r w t Hr Ht _. split; [done|]. right. split; [done|]. split; [done|]. unfold iinv, ipc_held.
    cbn [mem trace]. rewrite Hi, (Ht _ _ Hinv), (fd_set_neg (-1)) by lia. f_equal. multiset_solver.
Qed.

(** The attempts of a send on the socket [fd]: one, and a second one on a new
    socket if the daemon was gone. *)
Definition attempted (fd : Z) (data : list Z) (r : ErrorCode) (t : trace_t) : Prop :=
  exists a1, (0 <= ret a1 /\ r = SILOG_OK /\ sends t = [(CSend fd data, a1)]) \/
    (ret a1 < 0 /\
     (r = SILOG_NET_SEND /\ sends t = [(CSend fd data, a1)] \/
      (errno a1 = ECONNREFUSED \/ errno a1 = ENOENT) /\
      exists fd' a2, 0 <= fd' /\ sends t = [(CSend fd data, a1); (CSend fd' data, a2)] /\
        r = if 0 <=? ret a2 then SILOG_OK else SILOG_NET_SEND)).

Definition send_outcome (a : SilogIpcAgent) (data : list Z) (r : ErrorCode) (t : trace_t) : Prop :=
  if negb (ia_isInit a) then r = SILOG_NOT_IMPLEMENTED /\ sends t = []
  else if ia_sendFd a <? 0 then r = SILOG_NET_FILE_ERROR /\ sends t = []
  else attempted (ia_sendFd a) data r t.

(** The datagrams that the kernel took, and that it took all that were given. *)
Definition delivered (t : trace_t) : list (list Z) :=
  omap (fun ev => match ev.1 with CSend _ d => if 0 <=? ret ev.2 then Some d else None | _ => None end) (sends t).
Definition all_sent (t : trace_t) : Prop := Forall (fun ev => 0 <= ret ev.2) (sends t).
Lemma delivered_app t1 t2 : delivered (t1 ++ t2) = delivered t1 ++ delivered t2.
Proof. unfold delivered. by rewrite sends_app, omap_app. Qed.
Lemma all_sent_app t1 t2 : all_sent (t1 ++ t2) <-> all_sent t1 /\ all_sent t2.
Proof. unfold all_sent. by rewrite sends_app, Forall_app. Qed.

Lemma send_outcome_delivered a data r t :
  send_outcome a data r t ->
  sublist (delivered t) [data] /\
  (ia_isInit a = true -> 0 <= ia_sendFd a -> all_sent t -> r = SILOG_OK /\ delivered t = [data]).
Proof.
  unfold send_outcome, delivered, all_sent.
  destruct (ia_isInit a); cbn [negb]; [|intros [_ ->]; split; [apply sublist_nil_l|done]].
  destruct (ia_sendFd a <? 0) eqn:Hf; reflectZ; [intros [_ ->]; split; [apply sublist_nil_l|lia]|].
  intros (a1 & [(Ha & -> & ->)|(Ha & [(-> & ->)|(_ & fd & a2 & _ & -> & ->)])]); cbn.
  - ztest. split; [done|done].
  - ztest. split; [apply sublist_nil_l|]. intros _ _ H%Forall_cons_1. cbn in H. lia.
  - ztest. split; [destruct (0 <=? ret a2); [done|apply sublist_nil_l]|]. intros _ _ H%Forall_cons_1. cbn in H. lia.
Qed.

Lemma iinv_neutral X m w t h t' w' h' : iinv X (Env m w t h) -> neutral t' -> iinv X (Env m w' (t ++ t') h').
Proof. intros Hi Hn. unfold iinv in *. cbn [trace mem] in *. by rewrite Hn. Qed.

Lemma client_send_spec X data e :
  iinv X e ->
  wp (SilogIpcClientSend data)
    (fun r e' => held e' = held e /\ ia_isInit (mem e') = ia_isInit (mem e) /\
       ia_recvFd (mem e') = ia_recvFd (mem e) /\ iinv X e' /\
       exists t, trace e' = trace e ++ t /\ send_outcome (mem e) data r t) e.
Proof.
  intros Hinv. destruct e as [m w tr h]. unfold SilogIpcClientSend, send_outcome. wp_step. wp_step. cbn [mem].
  assert (exists t : trace_t, tr = tr ++ t /\ sends t = []) as (t0 & Ht0 & Hs0) by (exists []; by rewrite app_nil_r).
  destruct (ia_isInit m) eqn:Hi; cbn [negb].
  2:{ wp_step. split_and!; try done. by exists t0. }
  unfold SilogIpcDgramClientSend. wp_step. wp_step. cbn [mem].
  destruct (ia_sendFd m <? 0) eqn:Hf.
  { wp_step. split_and!; try done. by exists t0. }
  wp_step. wp_step. wp_step; cycle 1.
  { wp_step. split_and!; try done; [eapply iinv_neutral; [done|solve_neutral]|]. eexists. split; [done|].
    exists a. left. done. }
  assert (forall t', sends t' = [(CSend (ia_sendFd m) data, a)] ->
    attempted (ia_sendFd m) data SILOG_NET_SEND t') as Hfail.
  { intros t' Hs. exists a. right. split; [done|]. by left. }
  destruct ((errno a =? ECONNREFUSED) || (errno a =? ENOENT)) eqn:Herr.
  2:{ wp_step. split_and!; try done; [eapply iinv_neutral; [done|solve_neutral]|]. eexists. split; [done|].
    by apply Hfail. }
  wp_step. eapply (wp_dgram_client_close X); [done|eapply iinv_neutral; [done|solve_neutral]|]. cbn [mem trace held].
  intros w1 t1 Hs1 Hinv1. wp_step. unfold iinv, ipc_held in Hinv1.
  cbn [mem trace set_sendFd ia_isInit ia_sendFd ia_recvFd] in Hinv1. rewrite Hi, (fd_set_neg (-1)), (left_id_L ∅ (⊎)) in Hinv1 by lia.
  apply wp_dgram_client_init; cbn [mem trace held].
  - intros w2 t2 fd Hfd Ht2 Hs2. rewrite decide_True by done. wp_step. wp_step. wp_step. wp_step.
    cbn [set_sendFd ia_sendFd]. rewrite <- !(assoc_L (++)).
    assert (iinv X (Env (set_sendFd fd (set_sendFd (-1) m)) w3
      (tr ++ [(CSend (ia_sendFd m) data, a)] ++ t1 ++ t2 ++ [(CSend fd data, a0)]) h)) as Hinv2.
    { unfold iinv, ipc_held. cbn [mem trace set_sendFd ia_isInit ia_sendFd ia_recvFd]. rewrite Hi.
      rewrite !(assoc_L (++)), neutral_one by done. rewrite (Ht2 _ _ Hinv1). f_equal. multiset_solver. }
    assert (sends ([(CSend (ia_sendFd m) data, a)] ++ t1 ++ t2 ++ [(CSend fd data, a0)]) =
      [(CSend (ia_sendFd m) data, a); (CSend fd data, a0)]) as Hss by (rewrite !sends_app, Hs1, Hs2; done).
    assert (errno a = ECONNREFUSED \/ errno a = ENOENT) as He.
    { apply orb_true_iff in Herr as [?|?]; reflectZ; auto. }
    destruct (0 <=? ret a0) eqn:Er; wp_step; split_and!; try done; eexists; (split; [done|]);
      exists a; right; (split; [done|]); right; (split; [done|]); exists fd, a0; by rewrite Er.
  - intros r w2 t2 Hr Ht2 Hs2. rewrite decide_False by done. wp_step. rewrite <- !(assoc_L (++)).
    split_and!; try done; [|eexists; split; [done|]; apply Hfail; by rewrite !sends_app, Hs1, Hs2].
    unfold iinv, ipc_held. cbn [mem trace set_sendFd ia_isInit ia_sendFd ia_recvFd].
    rewrite Hi, (fd_set_neg (-1)), (left_id_L ∅ (⊎)) by lia.
    rewrite !(assoc_L (++)), (Ht2 _ _ Hinv1), (fd_set_neg (-1)) by lia.
    f_equal. multiset_solver.
Qed.
(** After a successful send the agent has a socket. *)
Lemma send_keeps_socket data e :
  wp (SilogIpcClientSend data) (fun r e' => r = SILOG_OK -> 0 <= ia_sendFd (mem e')) e.
Proof.
  unfold SilogIpcClientSend, SilogIpcDgramClientSend, SilogIpcDgramClientClose, SilogIpcDgramClientInit, setNonblock.
  wp_steps; try reflexivity; cbn; intros; done || lia.
Qed.
End specs.

(** ** Properties *)

Inductive ipc_op :=
  | IopInit (type : Z)
  | IopClientInit
  | IopClientSend (data : list Z)
  | IopClientClose
  | IopServerInit
  | IopServerRecv (n : Z)
  | IopServerClose.

Section properties.
Context {W : Type} `{!Os W}.
Implicit Types (e : env SilogIpcAgent W).

Definition run_iop (o : ipc_op) : M SilogIpcAgent W unit :=
  match o with
  | IopInit t => SilogIpcInit t
  | IopClientInit => _ ← SilogIpcClientInit; mret tt
  | IopClientSend d => _ ← SilogIpcClientSend d; mret tt
  | IopClientClose => SilogIpcClientClose
  | IopServerInit => _ ← SilogIpcServerInit; mret tt
  | IopServerRecv n => _ ← SilogIpcServerRecv n; mret tt
  | IopServerClose => SilogIpcServerClose
  end.
Fixpoint run_iops (os : list ipc_op) : M SilogIpcAgent W unit :=
  match os with
  | [] => mret tt
  | o :: os => run_iop o ;; run_iops os
  end.

Lemma ipc_init_spec X type e :
  iinv X e ->
  wp (SilogIpcInit type)
    (fun _ e' => held e' = held e /\ trace e' = trace e /\ iinv X e' /\
       mem e' = if negb (ia_isInit (mem e)) && (type =? SILOG_IPC_TYPE_UNIX_DGRAM)
                then MkAgent true (-1) (-1) else mem e) e.
Proof.
  intros Hinv. unfold SilogIpcInit. wp_step. wp_step.
  destruct (ia_isInit (mem e)) eqn:Hi; cbn [negb andb]; [by wp_step|].
  destruct (type =? SILOG_IPC_TYPE_UNIX_DGRAM) eqn:Ht; [|by wp_step]. wp_steps. split_and!; try done.
  unfold iinv, ipc_held in *. rewrite Hi in Hinv.
  cbn [mem trace set_recvFd set_sendFd set_ipcInit ia_isInit ia_sendFd ia_recvFd].
  rewrite Hinv, fd_set_neg by lia. done.
Qed.

Lemma client_close_spec X e :
  iinv X e ->
  wp SilogIpcClientClose
    (fun _ e' => held e' = held e /\ iinv X e' /\
       mem e' = if ia_isInit (mem e) then set_sendFd (-1) (mem e) else mem e) e.
Proof.
  intros Hinv. unfold SilogIpcClientClose. wp_step. wp_step.
  destruct (ia_isInit (mem e)) eqn:Hi; cbn [negb]; [|by wp_step].
  eapply (wp_dgram_client_close X); [done|done|]. done.
Qed.

(** The descriptors of the agent, and more that no one has closed. *)
Definition some_iinv e : Prop := exists X, iinv X e.

Lemma server_init_spec e :
  some_iinv e -> wp SilogIpcServerInit (fun _ e' => some_iinv e' /\ held e' = held e /\ ia_isInit (mem e') = ia_isInit (mem e)) e.
Proof.
  intros [X Hinv]. unfold SilogIpcServerInit. wp_step. wp_step.
  destruct (ia_isInit (mem e)) eqn:Hi; cbn [negb]; [|wp_step; split; [by exists X|done]].
  unfold iinv, ipc_held in Hinv. rewrite Hi in Hinv. apply wp_dgram_server_init.
  - intros w t fd Hfd Ht. split; [|done]. exists (X ⊎ fd_set (ia_recvFd (mem e))). unfold iinv, ipc_held.
    cbn [mem trace set_recvFd ia_isInit ia_sendFd ia_recvFd]. rewrite Hi, (Ht _ _ Hinv). f_equal. multiset_solver.
  - intros r w t Hr Ht. split; [|done]. exists X. unfold iinv, ipc_held. cbn [mem trace].
    rewrite Hi, (Ht _ _ Hinv), (fd_set_neg (-1)) by lia. f_equal. multiset_solver.
Qed.

Lemma server_close_spec e :
  some_iinv e -> wp SilogIpcServerClose (fun _ e' => some_iinv e' /\ held e' = held e) e.
Proof.
  intros [X Hinv]. unfold SilogIpcServerClose. wp_step. wp_step.
  destruct (ia_isInit (mem e)) eqn:Hi; cbn [negb]; [|wp_step; split; [by exists X|done]].
  unfold iinv, ipc_held in Hinv. rewrite Hi in Hinv.
  unfold SilogIpcDgramServerClose. wp_step. wp_step. wp_step. wp_step. wp_step. wp_step. wp_step.
  - wp_steps. split; [|done]. exists (X ⊎ fd_set (ia_sendFd (mem e))). unfold iinv, ipc_held.
    cbn [mem trace set_ipcInit ia_isInit]. rewrite neutral_one by done. apply ledger_close. rewrite Hinv.
    rewrite (fd_set_pos (ia_recvFd (mem e))) by done. f_equal. multiset_solver.
  - wp_steps. split; [|done]. exists (X ⊎ fd_set (ia_sendFd (mem e))). unfold iinv, ipc_held.
    cbn [mem trace set_ipcInit ia_isInit]. rewrite neutral_one by done. rewrite Hinv.
    rewrite (fd_set_neg (ia_recvFd (mem e))) by lia. f_equal. multiset_solver.
Qed.

Lemma run_iop_spec o e :
  some_iinv e -> wp (run_iop o) (fun _ e' => some_iinv e' /\ held e' = held e) e.
Proof.
  intros Hs. destruct o as [t| |d| | |n|]; cbn [run_iop]; try destruct Hs as [X Hinv].
  - eapply wp_mono; [by apply (ipc_init_spec X)|]. intros _ e' (? & _ & ? & _). split; [by exists X|done].
  - wp_step. eapply wp_mono; [by apply (ipc_client_init_spec X)|]. intros r e' (Hh & Ho). wp_step. split; [|done].
    destruct Ho as [(_ & _ & _ & _ & ?)|(_ & _ & ?)]; by eexists.
  - wp_step. eapply wp_mono; [by apply (client_send_spec X)|]. intros r e' (? & _ & _ & ? & _). wp_step.
    split; [by exists X|done].
  - eapply wp_mono; [by apply (client_close_spec X)|]. intros _ e' (? & ? & _). split; [by exists X|done].
  - wp_step. eapply wp_mono; [apply server_init_spec; by exists X|]. intros r e' (? & ? & _). by wp_step.
  - wp_step. unfold SilogIpcServerRecv. wp_step. wp_step. destruct (negb (ia_isInit (mem e))).
    { wp_steps. split; [by exists X|done]. }
    unfold SilogIpcDgramServerRecv. wp_step. wp_step. destruct (ia_recvFd (mem e) <? 0).
    + wp_steps. split; [by exists X|done].
    + wp_steps; (split; [|done]); exists X; destruct e; (eapply iinv_neutral; [done|solve_neutral]).
  - apply server_close_spec. by exists X.
Qed.

(** Whatever sequence of calls is made and whatever the kernel answers, the
    transport never closes a descriptor that it does not hold, and the sockets
    that it records are open. *)
Theorem ipc_ops_safe ops w h :
  wp (run_iops ops)
    (fun _ e => held e = h /\ exists X, ledger (trace e) = Some (ipc_held (mem e) ⊎ X))
    (Env g_silogIpcAgent w [] h).
Proof.
  assert (forall e, some_iinv e -> wp (run_iops ops) (fun _ e' => some_iinv e' /\ held e' = held e) e) as H.
  { induction ops as [|o ops IH]; intros e Hs; cbn [run_iops]; [by wp_step|].
    wp_step. eapply wp_mono; [by apply run_iop_spec|]. intros [] e1 [Hs1 Hh1].
    eapply wp_mono; [by apply IH|]. intros _ e2 [? ?]. split; [done|congruence]. }
  eapply wp_mono; [apply H|].
  - exists ∅. done.
  - intros _ e [[X ?] ?]. split; [done|]. by exists X.
Qed.

(** C17: A datagram is reported as sent exactly when the kernel accepted it whole
    on the socket of the agent, or, if the daemon had gone away, on a new socket
    connected in its place; there are at most two attempts, both with exactly the
    data of the caller, the old socket is closed before the second, and on every
    path the sockets held are the sockets recorded. *)
Theorem ipc_send_outcome X data e :
  iinv X e ->
  wp (SilogIpcClientSend data)
    (fun r e' => held e' = held e /\ ia_isInit (mem e') = ia_isInit (mem e) /\
       ia_recvFd (mem e') = ia_recvFd (mem e) /\ iinv X e' /\
       exists t, trace e' = trace e ++ t /\ send_outcome (mem e) data r t) e.
Proof. apply client_send_spec. Qed.
End properties.

(** A second initialisation of the client replaces the recorded socket without
    closing it: the descriptor leaks. *)
Theorem ipc_client_init_leaks :
  (fun x => (ledger (trace x.2), ia_sendFd (mem x.2))) <$>
    run_iops [IopInit SILOG_IPC_TYPE_UNIX_DGRAM; IopClientInit; IopClientInit; IopClientClose]
      (Env g_silogIpcAgent [ok 3; ok 0; ok 0; ok 0; ok 4; ok 0; ok 0; ok 0; ok 0] [] false) =
  Some (Some {[+ 3 +]}, -1).
Proof. vm_compute. reflexivity. Qed.

Lemma ipc_send_outcome_witness :
  wp (SilogIpcClientSend [1; 2; 3]) (fun r e' => held e' = false)
    (Env (MkAgent true 5 (-1)) [fails ECONNREFUSED; ok 0; ok 6; ok 0; ok 0; ok 0; ok 3] [(CSocket, ok 5)] false).
Proof.
  eapply wp_mono; [apply (ipc_send_outcome ∅); vm_compute; reflexivity|]. intros r e' (Hh & _). exact Hh.
Defined.
