(* ===== verification/Prelog.v ===== *)
(** * The pre-log (silog_comm/src/silog_prelog.c)

    The diagnostic file of each process, written under a mutex. The text of an
    error number is the parameter [strerror]; the message and its arguments are
    an [expansion]; the initial contents of the local buffer are arbitrary. *)

From S2P Require Import Prelude Errors LogEntry CObj CMem Os Format.
#[local] Open Scope Z_scope.

Definition SILOG_PRELOG_PATH_MAX : Z := 256.
Definition SILOG_PRELOG_MSG_MAX : Z := 1024.
Definition SILOG_PRELOG_DEFAULT_PATH : list Z := chars "/tmp/silog_prelog.txt".

Record SilogPrelogConfig_t := MkPrelogConfig { pc_path : list Z; pc_minLevel : Z; pc_enableStdout : bool }.
Record SilogPrelogManager_t := MkPrelog { pm_file : Z; pm_config : SilogPrelogConfig_t; pm_initialized : bool }.

Definition g_prelogMgr : SilogPrelogManager_t :=
  MkPrelog 0 (MkPrelogConfig (replicate (Z.to_nat SILOG_PRELOG_PATH_MAX) 0) 0 false) false.

Definition set_plFile f m := MkPrelog f (pm_config m) (pm_initialized m).
Definition set_plConfig c m := MkPrelog (pm_file m) c (pm_initialized m).
Definition set_plInit b m := MkPrelog (pm_file m) (pm_config m) b.

Definition SilogPrelogLevelToString (level : Z) : list Z :=
  if level =? SILOG_PRELOG_LEVEL_DEBUG then chars "DEBUG"
  else if level =? SILOG_PRELOG_LEVEL_INFO then chars "INFO"
  else if level =? SILOG_PRELOG_LEVEL_WARNING then chars "WARNING"
  else if level =? SILOG_PRELOG_LEVEL_ERROR then chars "ERROR"
  else chars "UNKNOWN".

(** The stream [stdout], distinct from every handle of [fopen]. *)
Definition STDOUT : Z := -1.

Section prelog.
Context {W : Type} `{!Os W, !Others SilogPrelogManager_t W} (strerror : Z -> list Z).
#[local] Abbreviation PM := (M SilogPrelogManager_t W).

Definition SilogPrelogInit (config : option SilogPrelogConfig_t) : PM ErrorCode :=
  lock ;;
  m ← get;
  if pm_initialized m then unlock ;; mret SILOG_OK
  else
    c ← (match config with
         | Some c => mret c
         | None =>
             p ← lift (obj_strncpy_s (pc_path (pm_config m)) SILOG_PRELOG_PATH_MAX SILOG_PRELOG_DEFAULT_PATH
                         (len SILOG_PRELOG_DEFAULT_PATH)).2;
             mret (MkPrelogConfig p SILOG_PRELOG_LEVEL_DEBUG false)
         end);
    modify (set_plConfig c) ;;
    f ← sys (CFopen (cstr (pc_path c)) 119);
    modify (set_plFile (ret f)) ;;
    (if ret f =? 0 then
       if negb (pc_enableStdout c)
       then modify (set_plConfig (MkPrelogConfig (pc_path c) (pc_minLevel c) true))
       else mret tt
     else mret tt) ;;
    modify (set_plInit true) ;;
    unlock ;;
    mret SILOG_OK.

Definition SilogPrelogDeinit : PM unit :=
  lock ;;
  m ← get;
  if negb (pm_initialized m) then unlock
  else
    (if negb (pm_file m =? 0) then
       _ ← sys (CFflush (pm_file m));
       _ ← sys (CFclose (pm_file m));
       modify (set_plFile 0)
     else mret tt) ;;
    modify (set_plInit false) ;;
    unlock.

(** [[errno text] [module] [LEVEL] ]. *)
Definition prelog_prefix (err : Z) (module : list Z) (level : Z) : list Z :=
  chars "[" ++ strerror err ++ chars "] [" ++ module ++ chars "] [" ++ SilogPrelogLevelToString level ++ chars "] ".

(** [SilogPrelogWriteV]; [buf] is the indeterminate content of the local buffer and
    [err] the value of [errno] at the call. *)
Definition SilogPrelogWriteV (buf : list Z) (err : Z) (module : option (list Z)) (level : Z)
    (fmt : option expansion) : PM ErrorCode :=
  match module, fmt with
  | Some module, Some x =>
      lock ;;
      m ← get;
      if negb (pm_initialized m) then unlock ;; mret SILOG_TRANS_NOT_INIT
      else if level <? pc_minLevel (pm_config m) then unlock ;; mret SILOG_OK
      else
        let prefix := prelog_prefix err module level in
        buf ← lift (obj_snprintf_s buf SILOG_PRELOG_MSG_MAX (SILOG_PRELOG_MSG_MAX - 1) prefix).2;
        let n := len prefix in
        match x with
        | Fails _ => unlock ;; mret SILOG_STR_ERR
        | Expands s =>
            buf ← lift (obj_vsnprintf buf n (u64 (SILOG_PRELOG_MSG_MAX - n)) s).2;
            buf ← lift (obj_strncat_s buf SILOG_PRELOG_MSG_MAX [10] 1).2;
            (if negb (pm_file m =? 0) then
               _ ← sys (CFputs (pm_file m) (cstr buf));
               _ ← sys (CFflush (pm_file m)); mret tt
             else mret tt) ;;
            (if pc_enableStdout (pm_config m) then
               _ ← sys (CFputs STDOUT (cstr buf));
               _ ← sys (CFflush STDOUT); mret tt
             else mret tt) ;;
            unlock ;;
            mret SILOG_OK
        end
  | _, _ => mret SILOG_NULL_PTR
  end.

Definition SilogPrelogWrite (buf : list Z) (err : Z) (module : option (list Z)) (level : Z)
    (fmt : option expansion) : PM ErrorCode := SilogPrelogWriteV buf err module level fmt.

Definition SilogPrelogIsInitialized : PM bool := m ← get; mret (pm_initialized m).
Definition SilogPrelogGetFile : PM Z := lock ;; m ← get; unlock ;; mret (pm_file m).
End prelog.

(** ** The line *)

(** The line of a message: the prefix and the message in at most 1023 characters,
    with a newline if there is still room. *)
Definition prelog_line (prefix s : list Z) : list Z :=
  let body := take 1023 (prefix ++ s) in
  if len body <? 1023 then body ++ [10] else body.

Lemma cstr_take_nul s l n :
  Forall (fun c => c <> 0) s -> (length s < n)%nat -> cstr (take n (s ++ 0 :: l)) = s.
Proof.
  intros Hs Hn. rewrite take_app_ge by lia. destruct (n - length s)%nat as [|k] eqn:E; [lia|].
  cbn [take]. by apply cstr_app_nul.
Qed.

(** The buffer after the three steps. *)
Lemma prelog_buffer buf prefix s :
  len buf = SILOG_PRELOG_MSG_MAX -> len prefix < SILOG_PRELOG_MSG_MAX ->
  Forall (fun c => c <> 0) prefix -> Forall (fun c => c <> 0) s ->
  exists b1 b2 b3,
    (obj_snprintf_s buf SILOG_PRELOG_MSG_MAX (SILOG_PRELOG_MSG_MAX - 1) prefix).2 = Some b1 /\
    (obj_vsnprintf b1 (len prefix) (u64 (SILOG_PRELOG_MSG_MAX - len prefix)) s).2 = Some b2 /\
    (obj_strncat_s b2 SILOG_PRELOG_MSG_MAX [10] 1).2 = Some b3 /\
    cstr b3 = prelog_line prefix s.
Proof.
  change SILOG_PRELOG_MSG_MAX with 1024. intros Hb Hp Hpn Hsn.
  (* the prefix and its terminator at the start *)
  assert (exists t, (obj_snprintf_s buf 1024 (1024 - 1) prefix).2 = Some (prefix ++ t) /\ len t = 1024 - len prefix)
    as (t1 & H1 & Hl1).
  { unfold obj_snprintf_s. ztest. cbn [snd]. rewrite take_ge by lia.
    rewrite wr_Some by (rewrite ?length_app; cbn; lia). bind_some. rewrite take_0, app_nil_l.
    set (rest := drop _ buf). rewrite <- (assoc_L (++)).
    assert (len ([0] ++ rest) = 1024 - len prefix) as Hr
      by (unfold rest; rewrite length_app, length_drop, length_app; cbn; lia).
    rewrite wr_Some by (rewrite ?length_app; cbn in *; lia).
    exists (take (Z.to_nat (1024 - 1) - length prefix) ([0] ++ rest) ++ [0] ++
            drop (Z.to_nat (1024 - 1) + 1 - length prefix) ([0] ++ rest)). split.
    - f_equal. rewrite take_app_ge by lia. rewrite drop_app_ge by (cbn [length]; lia).
      rewrite <- (assoc_L (++)). done.
    - rewrite !length_app, length_take, length_drop. cbn [length] in *. lia. }
  exists (prefix ++ t1). rewrite u64_small by (unfold is_u64; lia). unfold obj_vsnprintf. ztest. cbn [snd].
  set (k := Z.to_nat (1024 - len prefix - 1)). set (s' := take k s).
  assert (len s' <= Z.of_nat k) as Hs' by (unfold s'; rewrite length_take; lia).
  rewrite wr_Some by (rewrite ?length_app; cbn; lia).
  replace (Z.to_nat (len prefix)) with (length prefix) by lia. rewrite take_app_length.
  set (rest := drop _ (prefix ++ t1)).
  assert (prefix ++ s' = take 1023 (prefix ++ s)) as Hbody.
  { rewrite take_app_ge by lia. unfold s', k. do 2 f_equal. lia. }
  assert (Forall (fun c => c <> 0) (prefix ++ s')) as Hbn by (apply Forall_app; split; [done|by apply Forall_take]).
  assert (prefix ++ (s' ++ [0]) ++ rest = (prefix ++ s') ++ 0 :: rest) as Hb2.
  { by rewrite <- !(assoc_L (++)). }
  rewrite Hb2.
  assert (len ((prefix ++ s') ++ 0 :: rest) = 1024) as Hl2.
  { rewrite <- Hb2, !length_app. unfold rest. rewrite length_drop, !length_app. cbn [length]. lia. }
  eexists ((prefix ++ s') ++ 0 :: rest). unfold obj_strncat_s. ztest.
  assert (length (prefix ++ s') <= 1023)%nat as Hbl by (rewrite Hbody, length_take; lia).
  rewrite cstr_take_nul by (done || lia). unfold prelog_line. rewrite <- Hbody.
  change (len (take (Z.to_nat 1) [10])) with 1. case_if.
  - ztest. eexists. split; [done|]. split; [done|]. split; [done|]. by apply cstr_app_nul.
  - ztest. cbn [snd]. change (take (Z.to_nat 1) [10]) with [10].
    rewrite wr_Some by (rewrite ?Hl2; cbn [length app]; lia). eexists. split; [done|]. split; [done|].
    split; [done|]. rewrite Nat2Z.id, take_app_length.
    match goal with |- cstr (?x ++ _ ++ ?r) = _ =>
      change (x ++ ([10] ++ [0]) ++ r) with (x ++ [10] ++ 0 :: r); rewrite (assoc_L (++) x [10] (0 :: r)) end.
    apply cstr_app_nul. apply Forall_app. split; [done|]. by repeat constructor.
Qed.

(** ** Specifications *)

Definition prelog_inv (m : SilogPrelogManager_t) : Prop :=
  len (pc_path (pm_config m)) = SILOG_PRELOG_PATH_MAX /\ (pm_initialized m = false -> pm_file m = 0).

(** The lines printed, with their streams. *)
Definition printed (t : trace_t) : list (Z * list Z) :=
  omap (fun ev => match ev.1 with CFputs f s => Some (f, s) | _ => None end) t.
Lemma printed_app t1 t2 : printed (t1 ++ t2) = printed t1 ++ printed t2.
Proof. apply omap_app. Qed.

(** The other threads use the module by its functions. *)
Class PrelogOthersOk (W : Type) `{!Others SilogPrelogManager_t W} : Prop :=
  prelog_others_ok m w m' t w' :
    others m w = (m', t, w') -> prelog_inv m ->
    prelog_inv m' /\ forall tr, files tr = Some (handle_set (pm_file m)) -> files (tr ++ t) = Some (handle_set (pm_file m')).

Section specs.
Context {W : Type} `{!Os W, !Others SilogPrelogManager_t W, !PrelogOthersOk W} (strerror : Z -> list Z).
Implicit Types (e : env SilogPrelogManager_t W).

Definition pinv e : Prop := prelog_inv (mem e) /\ files (trace e) = Some (handle_set (pm_file (mem e))).

Lemma wp_prelog_lock (Q : unit -> env SilogPrelogManager_t W -> Prop) e :
  pinv e -> held e = false ->
  (forall m w t, (exists w0 w1, others (mem e) w0 = (m, t, w1)) -> pinv (Env m w (trace e ++ t) true) ->
     Q tt (Env m w (trace e ++ t) true)) ->
  wp lock Q e.
Proof.
  intros [Hi Hf] Hh HQ. apply wp_lock; [done|]. intros s0 t w Ho.
  destruct (prelog_others_ok _ _ _ _ _ Ho Hi) as (Hi' & Hfo).
  apply HQ; [by eexists _, _|]. split; [done|]. by apply Hfo.
Qed.

Lemma pinv_neutral m w t h t' w' h' :
  pinv (Env m w t h) -> fneutral t' -> pinv (Env m w' (t ++ t') h').
Proof. intros [Hi Hf] Hn. split; [done|]. cbn [trace mem] in *. by rewrite Hn. Qed.

Lemma default_path_fits p : len p = SILOG_PRELOG_PATH_MAX ->
  exists p', (obj_strncpy_s p SILOG_PRELOG_PATH_MAX SILOG_PRELOG_DEFAULT_PATH (len SILOG_PRELOG_DEFAULT_PATH)).2
    = Some p' /\ len p' = SILOG_PRELOG_PATH_MAX /\ cstr p' = SILOG_PRELOG_DEFAULT_PATH.
Proof.
  change SILOG_PRELOG_PATH_MAX with 256. intros Hp. unfold obj_strncpy_s. ztest. rewrite Nat2Z.id, firstn_all.
  change (len SILOG_PRELOG_DEFAULT_PATH) with 21. ztest. cbn [snd].
  rewrite wr_Some by (rewrite ?length_app, ?Hp; cbn; lia). eexists. split; [done|]. split.
  - rewrite !length_app, length_take, length_drop. cbn. lia.
  - rewrite take_0, app_nil_l, <- (assoc_L (++)). apply cstr_app_nul. by repeat constructor.
Qed.

Lemma prelog_init_spec config e :
  (forall c, config = Some c -> len (pc_path c) = SILOG_PRELOG_PATH_MAX) -> pinv e -> held e = false ->
  wp (SilogPrelogInit config)
    (fun r e' => r = SILOG_OK /\ pinv e' /\ held e' = false /\ pm_initialized (mem e') = true) e.
Proof.
  intros Hcfg Hp Hh. unfold SilogPrelogInit. wp_step. eapply wp_prelog_lock; [done|done|].
  intros m w t _ [[Hpath Hfile] Hf]. wp_step. wp_step. cbn [mem trace] in *.
  destruct (pm_initialized m) eqn:Hi.
  { wp_steps. split_and!; try done. split; [split; [done|cbn; intros; first [congruence|by apply Hfile]]|done]. }
  rewrite (Hfile eq_refl) in Hf. wp_step.
  apply wp_mono with (fun c e' => len (pc_path c) = SILOG_PRELOG_PATH_MAX /\ e' = Env m w (trace e ++ t) true).
  { destruct config as [c|]; [wp_step; split; [by apply Hcfg|done]|].
    destruct (default_path_fits _ Hpath) as (p & Hp' & Hlp & _). wp_step. eapply wp_lift; [exact Hp'|]. by wp_step. }
  intros c ? [Hlc ->]. wp_step. wp_step. wp_step. wp_step. wp_step. wp_step. wp_step.
  apply wp_mono with (fun _ e' => exists c', len (pc_path c') = SILOG_PRELOG_PATH_MAX /\
    e' = Env (MkPrelog (ret a) c' false) w0 ((trace e ++ t) ++ [(CFopen (cstr (pc_path c)) 119, a)]) true).
  { unfold set_plFile, set_plConfig. cbn. rewrite Hi.
    repeat case_match; wp_step; (eexists; split; [|reflexivity]); done. }
  intros [] ? (c' & Hlc' & ->). wp_steps. split_and!; try done. split; [split; [done|by cbn]|].
  cbn [trace mem pm_file set_plInit]. apply files_fopen. exact Hf.
Qed.

Lemma prelog_deinit_spec e :
  pinv e -> held e = false ->
  wp SilogPrelogDeinit
    (fun _ e' => pinv e' /\ held e' = false /\ pm_initialized (mem e') = false /\ files (trace e') = Some ∅) e.
Proof.
  intros Hp Hh. unfold SilogPrelogDeinit. wp_step. eapply wp_prelog_lock; [done|done|].
  intros m w t _ [[Hpath Hfile] Hf]. wp_step. wp_step. cbn [mem trace] in *.
  destruct (pm_initialized m) eqn:Hi; cbn [negb].
  2:{ wp_steps. split_and!; try done; [|rewrite (Hfile eq_refl) in Hf; exact Hf].
      split; [split; [done|cbn; intros; first [congruence|by apply Hfile]]|done]. }
  wp_step. apply wp_mono with (fun _ e' => exists w' t', files t' = Some ∅ /\ e' = Env (set_plFile 0 m) w' t' true).
  { destruct (pm_file m =? 0) eqn:Hz; cbn [negb]; reflectZ.
    - wp_step. exists w, (trace e ++ t). split; [by rewrite Hz in Hf|]. destruct m; cbn in *. by subst.
    - wp_steps. eexists _, _. split; [|done]. apply files_fclose; [done|]. rewrite fneutral_one by done. exact Hf. }
  intros [] ? (w' & t' & Hf' & ->). wp_steps. split_and!; try done.
Qed.

(** What a write does; [m] is the state when the mutex is taken. *)
Definition prelog_outcome (m : SilogPrelogManager_t) (err : Z) (module : list Z) (level : Z) (x : expansion)
    (r : ErrorCode) (t : trace_t) : Prop :=
  if negb (pm_initialized m) then r = SILOG_TRANS_NOT_INIT /\ t = []
  else if level <? pc_minLevel (pm_config m) then r = SILOG_OK /\ t = []
  else match x with
       | Fails _ => r = SILOG_STR_ERR /\ t = []
       | Expands s =>
           let line := prelog_line (prelog_prefix strerror err module level) s in
           r = SILOG_OK /\
           printed t = (if pm_file m =? 0 then [] else [(pm_file m, line)]) ++
                       (if pc_enableStdout (pm_config m) then [(STDOUT, line)] else [])
       end.

Lemma prelog_write_spec buf err module level x e :
  len buf = SILOG_PRELOG_MSG_MAX -> len (prelog_prefix strerror err module level) < SILOG_PRELOG_MSG_MAX ->
  Forall (fun c => c <> 0) (prelog_prefix strerror err module level) ->
  (forall s, x = Expands s -> Forall (fun c => c <> 0) s) ->
  pinv e -> held e = false ->
  wp (SilogPrelogWrite strerror buf err (Some module) level (Some x))
    (fun r e' => pinv e' /\ held e' = false /\
       exists m0 t0 t, (exists w0 w1, others (mem e) w0 = (m0, t0, w1)) /\ mem e' = m0 /\
         trace e' = trace e ++ t0 ++ t /\ prelog_outcome m0 err module level x r t) e.
Proof.
  intros Hb Hlen Hpn Hx Hp Hh. unfold SilogPrelogWrite, SilogPrelogWriteV. wp_step.
  eapply wp_prelog_lock; [done|done|]. intros m w t0 Hint Hp0. wp_step. wp_step. cbn [mem].
  unfold prelog_outcome. destruct (pm_initialized m) eqn:Hi; cbn [negb].
  2:{ wp_steps. split_and!; try done. exists m, t0, []. rewrite Hi, app_nil_r. by split_and!. }
  destruct (level <? pc_minLevel (pm_config m)) eqn:Hlv.
  { wp_steps. split_and!; try done. exists m, t0, []. rewrite Hi, Hlv, app_nil_r. by split_and!. }
  assert (Forall (fun c => c <> 0) (match x with Expands s => s | Fails _ => [] end)) as Hs.
  { destruct x as [s|]; [by apply Hx|constructor]. }
  destruct (prelog_buffer buf _ _ Hb Hlen Hpn Hs) as (b1 & b2 & b3 & H1 & H2 & H3 & Hline).
  wp_step. eapply wp_lift; [exact H1|]. destruct x as [s|part].
  2:{ wp_steps. split_and!; try done. exists m, t0, []. rewrite Hi, Hlv, app_nil_r. by split_and!. }
  wp_step. eapply wp_lift; [exact H2|]. wp_step. eapply wp_lift; [exact H3|]. rewrite Hline. cbn [mem].
  set (line := prelog_line _ s). wp_step.
  apply wp_mono with (fun _ e' => exists w' t, fneutral t /\
    printed t = (if pm_file m =? 0 then [] else [(pm_file m, line)]) /\ e' = Env m w' ((trace e ++ t0) ++ t) true).
  { destruct (pm_file m =? 0); cbn [negb].
    - wp_step. exists w, []. rewrite app_nil_r. split_and!; try done; apply fneutral_nil.
    - wp_steps. eexists _, _. split_and!; [| |by rewrite <- (assoc_L (++))]; [solve_fneutral|done]. }
  intros [] ? (w1 & t1 & Hn1 & Hp1 & ->). wp_step.
  apply wp_mono with (fun _ e' => exists w' t, fneutral t /\
    printed t = (if pc_enableStdout (pm_config m) then [(STDOUT, line)] else []) /\
    e' = Env m w' (((trace e ++ t0) ++ t1) ++ t) true).
  { destruct (pc_enableStdout (pm_config m)).
    - wp_steps. eexists _, _. split_and!; [| |by rewrite <- (assoc_L (++))]; [solve_fneutral|done].
    - wp_step. exists w1, []. rewrite app_nil_r. split_and!; try done; apply fneutral_nil. }
  intros [] ? (w2 & t2 & Hn2 & Hp2 & ->). wp_steps. rewrite <- (assoc_L (++) (trace e ++ t0)).
  split; [eapply pinv_neutral; [done|solve_fneutral]|]. split; [done|]. exists m, t0, (t1 ++ t2).
  rewrite Hi, Hlv, printed_app, Hp1, Hp2, <- (assoc_L (++)). by split_and!.
Qed.
End specs.

(** ** Properties *)

Inductive prelog_op :=
  | PopInit (config : option SilogPrelogConfig_t)
  | PopDeinit
  | PopWrite (buf : list Z) (err : Z) (module : list Z) (level : Z) (x : expansion)
  | PopGetFile.

Section properties.
Context {W : Type} `{!Os W, !Others SilogPrelogManager_t W, !PrelogOthersOk W} (strerror : Z -> list Z).
Implicit Types (e : env SilogPrelogManager_t W).

(** Arguments of their C types, no NUL inside strings, and a prefix that fits. *)
Definition pop_ok (o : prelog_op) : Prop :=
  match o with
  | PopInit (Some c) => len (pc_path c) = SILOG_PRELOG_PATH_MAX
  | PopWrite buf err module level x =>
      len buf = SILOG_PRELOG_MSG_MAX /\ len (prelog_prefix strerror err module level) < SILOG_PRELOG_MSG_MAX /\
      Forall (fun c => c <> 0) (prelog_prefix strerror err module level) /\
      match x with Expands s => Forall (fun c => c <> 0) s | Fails _ => True end
  | _ => True
  end.
Definition run_pop (o : prelog_op) : M SilogPrelogManager_t W unit :=
  match o with
  | PopInit c => _ ← SilogPrelogInit c; mret tt
  | PopDeinit => SilogPrelogDeinit
  | PopWrite buf err module level x => _ ← SilogPrelogWrite strerror buf err (Some module) level (Some x); mret tt
  | PopGetFile => _ ← SilogPrelogGetFile; mret tt
  end.
Fixpoint run_pops (os : list prelog_op) : M SilogPrelogManager_t W unit :=
  match os with
  | [] => mret tt
  | o :: os => run_pop o ;; run_pops os
  end.

Lemma run_pop_spec o e :
  pop_ok o -> pinv e -> held e = false -> wp (run_pop o) (fun _ e' => pinv e' /\ held e' = false) e.
Proof.
  intros Ho Hp Hh. destruct o as [c| |buf er md lv x|]; cbn [run_pop].
  - wp_step. eapply wp_mono; [apply prelog_init_spec; [by intros c' ->|done|done]|].
    intros r e' (_ & ? & ? & _). by wp_step.
  - eapply wp_mono; [by apply prelog_deinit_spec|]. by intros _ e' (? & ? & _).
  - destruct Ho as (Hb & Hl & Hn & Hx). wp_step.
    eapply wp_mono; [apply prelog_write_spec; try done; by intros s ->|]. intros r e' (? & ? & _). by wp_step.
  - wp_step. unfold SilogPrelogGetFile. wp_step. eapply wp_prelog_lock; [done|done|]. intros. by wp_steps.
Qed.

(** C34: A message of the pre-log is printed once to the file, if one is open, and
    once to the standard output, if that is enabled: both get the same line, the
    prefix with the error text, the module and the level, then the message, cut
    to 1023 characters, and a newline if there is room for it. A message below
    the minimum level, a failed expansion and a module that is not initialised
    print nothing. *)
Theorem prelog_write_outcome buf err module level x e :
  len buf = SILOG_PRELOG_MSG_MAX -> len (prelog_prefix strerror err module level) < SILOG_PRELOG_MSG_MAX ->
  Forall (fun c => c <> 0) (prelog_prefix strerror err module level) ->
  (forall s, x = Expands s -> Forall (fun c => c <> 0) s) ->
  pinv e -> held e = false ->
  wp (SilogPrelogWrite strerror buf err (Some module) level (Some x))
    (fun r e' => pinv e' /\ held e' = false /\
       exists m0 t0 t, (exists w0 w1, others (mem e) w0 = (m0, t0, w1)) /\ mem e' = m0 /\
         trace e' = trace e ++ t0 ++ t /\ prelog_outcome strerror m0 err module level x r t) e.
Proof. by apply prelog_write_spec. Qed.

(** Every sequence of calls of the pre-log whose prefixes fit the buffer
    returns without leaving the buffer, with the mutex free, and with no file
    open but the recorded one. *)
Theorem prelog_ops_safe ops w :
  Forall pop_ok ops ->
  wp (run_pops ops)
    (fun _ e => held e = false /\ prelog_inv (mem e) /\ files (trace e) = Some (handle_set (pm_file (mem e))))
    (Env g_prelogMgr w [] false).
Proof.
  intros Ht.
  assert (forall e, pinv e -> held e = false -> wp (run_pops ops) (fun _ e' => pinv e' /\ held e' = false) e) as H.
  { induction Ht as [|o ops Ho _ IH]; intros e Hp Hh; cbn [run_pops]; [by wp_step|].
    wp_step. eapply wp_mono; [by apply run_pop_spec|]. intros [] e' [? ?]. by apply IH. }
  eapply wp_mono; [apply H; [|done]|].
  - split; [|done]. split; [done|]. done.
  - by intros _ e [[Hi Hf] Hh].
Qed.
End properties.

(** No other thread runs. *)
#[export] Instance prelog_idle {W} : Others SilogPrelogManager_t W := fun m w => (m, [], w).
#[export] Instance prelog_idle_ok {W} : @PrelogOthersOk W prelog_idle.
Proof. intros m w m' t w' [= <- <- _] Hi. split; [done|]. intros tr. by rewrite app_nil_r. Qed.

(** A prefix longer than the buffer makes every message be stored behind the
    end of the buffer: the length returned by [snprintf_s] is not the number of
    characters stored, and the remaining size wraps around. *)
Theorem prelog_long_prefix_overflows {W} `{!Os W} strerror buf err module level s w t m :
  len buf = SILOG_PRELOG_MSG_MAX -> pm_initialized m = true -> pc_minLevel (pm_config m) <= level ->
  SILOG_PRELOG_MSG_MAX < len (prelog_prefix strerror err module level) < 2 ^ 63 ->
  SilogPrelogWrite strerror buf err (Some module) level (Some (Expands s)) (Env m w t false) = None.
Proof.
  change SILOG_PRELOG_MSG_MAX with 1024. intros Hb Hi Hl Hp.
  unfold SilogPrelogWrite, SilogPrelogWriteV. set (p := prelog_prefix strerror err module level) in *.
  assert (exists b1, (obj_snprintf_s buf SILOG_PRELOG_MSG_MAX (SILOG_PRELOG_MSG_MAX - 1) p).2 = Some b1 /\
    len b1 = 1024) as (b1 & H1 & Hl1).
  { change SILOG_PRELOG_MSG_MAX with 1024. unfold obj_snprintf_s. ztest. cbn [snd].
    assert (len (take (Z.to_nat (1024 - 1)) p) = 1023) as Ht by (rewrite length_take; lia).
    destruct (wr buf 0 (take (Z.to_nat (1024 - 1)) p ++ [0])) as [b0|] eqn:Hw.
    - bind_some. pose proof (wr_length _ _ _ _ Hw) as Hl0. rewrite wr_Some by (cbn [length]; lia).
      eexists. split; [done|]. rewrite !length_app, length_take, length_drop. cbn [length]. lia.
    - rewrite wr_Some in Hw by (rewrite ?length_app; cbn [length]; lia). done. }
  unfold mbind, M_bind, lock, get, lift. cbn [held]. cbn [others prelog_idle mem world trace].
  rewrite Hi. cbn [negb]. ztest. rewrite H1. unfold obj_vsnprintf. cbn [snd].
  rewrite (proj2 (Z.eqb_neq _ _)).
  - unfold wr. rewrite (proj2 (Z.leb_gt (len p + _) (len b1))) by lia. by rewrite andb_false_r.
  - change SILOG_PRELOG_MSG_MAX with 1024. unfold u64. rewrite Zmod_eq_full by lia.
    assert ((1024 - len p) / 2 ^ 64 = -1) as -> by (symmetry; apply (Z.div_unique _ _ _ (1024 - len p + 2 ^ 64)); lia).
    lia.
Qed.

(** ** The properties at concrete inputs *)

Lemma prelog_write_outcome_witness :
  wp (SilogPrelogWrite (fun _ => chars "Success") (replicate 1024 7) 0 (Some (chars "daemon")) 3
        (Some (Expands (chars "hi"))))
    (fun r e' => held e' = false)
    (Env (MkPrelog 7 (pm_config g_prelogMgr) true) [] [(CFopen [] 119, ok 7)] false).
Proof.
  eapply wp_mono; [apply prelog_write_outcome|].
  - vm_compute. reflexivity.
  - vm_compute. reflexivity.
  - by repeat constructor.
  - intros s [= <-]. by repeat constructor.
  - split; [split; [vm_compute; reflexivity|discriminate]|vm_compute; reflexivity].
  - reflexivity.
  - intros r e' (_ & Hh & _). exact Hh.
Defined.

Lemma prelog_ops_safe_witness :
  wp (run_pops (fun _ => chars "Success") [PopInit None; PopWrite (replicate 1024 7) 0 (chars "cat") 1 (Expands (chars "up")); PopDeinit])
    (fun _ e => held e = false /\ prelog_inv (mem e) /\ files (trace e) = Some (handle_set (pm_file (mem e))))
    (Env g_prelogMgr [ok 5] [] false).
Proof.
  apply prelog_ops_safe. constructor; [exact I|]. constructor; [|by repeat constructor].
  split; [vm_compute; reflexivity|]. split; [vm_compute; reflexivity|]. split; by repeat constructor.
Defined.

Lemma prelog_long_prefix_overflows_witness :
  SilogPrelogWrite (fun _ => chars "Success") (replicate 1024 7) 0 (Some (replicate 1100 97)) 3
    (Some (Expands (chars "x"))) (Env (MkPrelog 7 (pm_config g_prelogMgr) true) ([] : script) [] false) = None.
Proof.
  apply prelog_long_prefix_overflows; [vm_compute; reflexivity|reflexivity|vm_compute; discriminate|].
  split; vm_compute; reflexivity.
Defined.
