(* ===== verification/Layout.v ===== *)
(** * The memory layout of a log entry

    A [logEntry_t] travels as the bytes of its structure: through the queue of the
    logging library, in a datagram, and through the queue of the daemon. This is
    the layout of silog_logger/include/silog_logger.h on a 64-bit little-endian
    Linux: the fields in order, naturally aligned, five bytes of padding at the
    end, 384 bytes in all. The allocation of a queue of entries is here too. *)

From S2P Require Import Prelude Errors LogEntry CObj Mpsc RemoteCodec Os.
#[local] Open Scope Z_scope.

Definition sizeof_logEntry : Z := 384.

Definition le64b (x : Z) : list Z := rev (be64 (u64 x)).
Definition le32b (x : Z) : list Z := rev (be32 (u32 x)).
Definition le16b (x : Z) : list Z := [x mod 256; x / 256 mod 256].

(** The structure with its padding bytes. *)
Definition entry_bytes (e : logEntry_t) (pad : list Z) : list Z :=
  le64b (ts e) ++ le32b (pid e) ++ le32b (tid e) ++ le32b (level e) ++ tag e ++ file e ++
  le32b (line e) ++ msg e ++ le16b (msgLen e) ++ [enabled e] ++ pad.

(** The field of [n] bytes at an offset. *)
Definition field (l : list Z) (off n : nat) : list Z := take n (drop off l).
Definition le_val (l : list Z) : Z := be_val (rev l).

Definition bytes_entry (l : list Z) : logEntry_t :=
  MkEntry (le_val (field l 0 8)) (i32 (le_val (field l 8 4))) (i32 (le_val (field l 12 4)))
    (le_val (field l 16 4)) (field l 20 32) (field l 52 64) (le_val (field l 116 4)) (field l 120 256)
    (le_val (field l 376 2)) (le_val (field l 378 1)).

Lemma entry_bytes_length e pad :
  entry_typed e -> length pad = 5%nat -> len (entry_bytes e pad) = sizeof_logEntry.
Proof.
  intros [_ _ _ _ [Ht _] [Hf _] _ [Hm _] _ _] Hp. unfold entry_bytes. rewrite !length_app.
  change SILOG_TAG_MAX_LEN with 32 in Ht. change SILOG_FILE_MAX_LEN with 64 in Hf.
  change SILOG_MSG_MAX_LEN with 256 in Hm. unfold le64b, le32b. rewrite !length_rev. cbn [length be64 be32 le16b].
  change sizeof_logEntry with 384. cbn. lia.
Qed.

Lemma field_skip a r k off n : length a = k -> field (a ++ r) (k + off) n = field r off n.
Proof. intros <-. unfold field. by rewrite drop_app_add. Qed.
Lemma field_here a r n : length a = n -> field (a ++ r) 0 n = a.
Proof. intros <-. unfold field. by rewrite drop_0, take_app_length. Qed.

Lemma le64b_val x : le_val (le64b x) = u64 x.
Proof. unfold le_val, le64b. rewrite rev_involutive, be64_val. apply Zmod_mod. Qed.
Lemma le32b_val x : le_val (le32b x) = u32 x.
Proof. unfold le_val, le32b. rewrite rev_involutive, be32_val. apply Zmod_mod. Qed.
Lemma le16b_val x : is_u16 x -> le_val (le16b x) = x.
Proof.
  unfold is_u16, le_val, le16b. intros H. cbn.
  rewrite (Z.mod_small (x / 256)) by (split; [apply Z.div_pos; lia|apply Z.div_lt_upper_bound; lia]).
  pose proof (Z.div_mod x 256). lia.
Qed.
Lemma i32_u32 x : is_i32 x -> i32 (u32 x) = x.
Proof.
  intros H. unfold i32, u32. rewrite Zplus_mod_idemp_l. fold (i32 x). by apply i32_small.
Qed.

(** The lengths of the fields. *)
Ltac field_len := first [reflexivity | eassumption | unfold le64b, le32b; rewrite length_rev; reflexivity].
Ltac skip k := rewrite (field_skip _ _ k) by field_len.
Ltac at_off k := match goal with |- context [field ?l ?o ?n] => change (field l o n) with (field l k n) end.
Ltac here := rewrite field_here by field_len.

Lemma bytes_entry_bytes e pad :
  entry_typed e -> length pad = 5%nat ->
  bytes_entry (entry_bytes e pad) = e.
Proof.
  intros He Hp.
  destruct e as [ts0 pid0 tid0 lev0 tag0 file0 line0 msg0 ml0 en0].
  destruct He as [H1 H2 H3 H4 [H5 _] [H6 _] H7 [H8 _] H9 H10].
  cbn [ts pid tid level tag file line msg msgLen enabled] in *.
  change SILOG_TAG_MAX_LEN with 32 in H5. change SILOG_FILE_MAX_LEN with 64 in H6. change SILOG_MSG_MAX_LEN with 256 in H8.
  assert (length tag0 = 32%nat) as L5 by lia. assert (length file0 = 64%nat) as L6 by lia.
  assert (length msg0 = 256%nat) as L8 by lia.
  unfold bytes_entry, entry_bytes. cbn [ts pid tid level tag file line msg msgLen enabled].
  f_equal.
  - here. by rewrite le64b_val, u64_small.
  - at_off (8 + 0)%nat. skip 8%nat. here. by rewrite le32b_val, i32_u32.
  - at_off (8 + (4 + 0))%nat. skip 8%nat. skip 4%nat. here. by rewrite le32b_val, i32_u32.
  - at_off (8 + (4 + (4 + 0)))%nat. skip 8%nat. do 2 skip 4%nat. here. by rewrite le32b_val, u32_small.
  - at_off (8 + (4 + (4 + (4 + 0))))%nat. skip 8%nat. do 3 skip 4%nat. by here.
  - at_off (8 + (4 + (4 + (4 + (32 + 0)))))%nat. skip 8%nat. do 3 skip 4%nat. skip 32%nat. by here.
  - at_off (8 + (4 + (4 + (4 + (32 + (64 + 0))))))%nat. skip 8%nat. do 3 skip 4%nat. skip 32%nat. skip 64%nat. here.
    by rewrite le32b_val, u32_small.
  - at_off (8 + (4 + (4 + (4 + (32 + (64 + (4 + 0)))))))%nat. skip 8%nat. do 3 skip 4%nat. skip 32%nat.
    skip 64%nat. skip 4%nat. by here.
  - at_off (8 + (4 + (4 + (4 + (32 + (64 + (4 + (256 + 0))))))))%nat. skip 8%nat. do 3 skip 4%nat. skip 32%nat.
    skip 64%nat. skip 4%nat. skip 256%nat. here. by apply le16b_val.
  - at_off (8 + (4 + (4 + (4 + (32 + (64 + (4 + (256 + (2 + 0)))))))))%nat. skip 8%nat. do 3 skip 4%nat. skip 32%nat.
    skip 64%nat. skip 4%nat. skip 256%nat. skip 2%nat. here. cbn. unfold is_u8 in H10. lia.
Qed.


