(* ===== verification/Logger.v ===== *)
(** * The logging library (silog_logger/src/silog_logger.c)

    The entry point of an application: a message is put into an entry, the entry
    into a queue, and a thread of the library sends the queued entries to the
    daemon. The library keeps the variables of the transport and of the
    pre-log. *)

From S2P Require Import Prelude Errors LogEntry CObj CMem Mpsc RemoteCodec Os Queues Format Layout Ipc Prelog.
#[local] Open Scope Z_scope.

Definition LOG_ENTRY_QUEUE_CAPACITY : Z := 1024.
Definition LOGGER_US_PER_MS : Z := 1000.

Record logEntryManager_t := MkLogMgr {
  lm_minLevel : Z;
  lm_initOnce : bool;
  lm_logQueue : SiLogMpscQueue;
  lm_initSuccess : bool
}.
Definition g_logEntryMgr : logEntryManager_t := MkLogMgr (level_val SILOG_DEBUG) false (MkMpsc None 0 0 0 0 None 0) false.

(** The variables of a process that uses the library. *)
Record logger := MkLogger {
  lg_mgr : logEntryManager_t;
  lg_ipc : comp SilogIpcAgent;
  lg_prelog : comp SilogPrelogManager_t
}.
Definition set_mgr m s := MkLogger m (lg_ipc s) (lg_prelog s).
Definition set_ipc c s := MkLogger (lg_mgr s) c (lg_prelog s).
Definition set_prelog c s := MkLogger (lg_mgr s) (lg_ipc s) c.
Definition set_lmLevel l s :=
  set_mgr (MkLogMgr l (lm_initOnce (lg_mgr s)) (lm_logQueue (lg_mgr s)) (lm_initSuccess (lg_mgr s))) s.
Definition set_lmOnce b s :=
  set_mgr (MkLogMgr (lm_minLevel (lg_mgr s)) b (lm_logQueue (lg_mgr s)) (lm_initSuccess (lg_mgr s))) s.
Definition set_lmQueue q s :=
  set_mgr (MkLogMgr (lm_minLevel (lg_mgr s)) (lm_initOnce (lg_mgr s)) q (lm_initSuccess (lg_mgr s))) s.
Definition set_lmSuccess b s :=
  set_mgr (MkLogMgr (lm_minLevel (lg_mgr s)) (lm_initOnce (lg_mgr s)) (lm_logQueue (lg_mgr s)) b) s.

(** The expansion of a format without arguments; a conversion that needs one is
    undefined. *)
Fixpoint expand_noargs (fmt : list Z) : option (list Z) :=
  match fmt with
  | [] => Some []
  | c :: rest =>
      if c =? 37 then
        match rest with
        | d :: rest' => if d =? 37 then cons 37 <$> expand_noargs rest' else None
        | [] => None
        end
      else cons c <$> expand_noargs rest
  end.

Definition logger_prelog_config : SilogPrelogConfig_t :=
  MkPrelogConfig (chars "/tmp/silog_logger.txt" ++ replicate (256 - 21) 0) SILOG_PRELOG_LEVEL_DEBUG false.

Section logger.
Context {W : Type} `{!Os W, !Others SilogPrelogManager_t W}.
#[local] Abbreviation LM := (M logger W).

Definition silogSetLevel (level : Z) : LM unit := modify (set_lmLevel level).
Definition silogCheckLevel (level : Z) : LM bool := s ← get; mret (lm_minLevel (lg_mgr s) <=? level).

(** The caller does not pass its arguments on: the format is expanded without
    any. *)
Definition silogBuildEntry (level : Z) (tag file : list Z) (line : Z) (fmt : list Z) : LM (ErrorCode * logEntry_t) :=
  let zeros n := replicate (Z.to_nat n) 0 in
  s ← lift (expand_noargs fmt);
  let n := obj_vsnprintf (zeros SILOG_MSG_MAX_LEN) 0 SILOG_MSG_MAX_LEN s in
  m ← lift n.2;
  if n.1 <? 0 then
    SILOG_PRELOG_E SILOG_PRELOG_LOGGER "vsnprintf failed" [] ;;
    mret (SILOG_STR_ERR, MkEntry 0 0 0 0 (zeros SILOG_TAG_MAX_LEN) (zeros SILOG_FILE_MAX_LEN) 0 m 0 0)
  else
    now ← SilogGetNowMs;
    p ← sys CGetpid;
    t ← SilogUtilsGetTid;
    let entry tg fl := MkEntry now (i32 (ret p)) t level tg fl line m in
    let tg := obj_snprintf_s (zeros SILOG_TAG_MAX_LEN) SILOG_TAG_MAX_LEN (SILOG_TAG_MAX_LEN - 1) tag in
    tg2 ← lift tg.2;
    if tg.1 <? 0 then
      SILOG_PRELOG_E SILOG_PRELOG_LOGGER "snprintf_s failed" [] ;;
      mret (SILOG_STR_ERR, entry tg2 (zeros SILOG_FILE_MAX_LEN) 0 0)
    else
      let fl := obj_snprintf_s (zeros SILOG_FILE_MAX_LEN) SILOG_FILE_MAX_LEN (SILOG_FILE_MAX_LEN - 1) file in
      fl2 ← lift fl.2;
      if fl.1 <? 0 then
        SILOG_PRELOG_E SILOG_PRELOG_LOGGER "snprintf_s failed" [] ;;
        mret (SILOG_STR_ERR, entry tg2 fl2 0 0)
      else mret (SILOG_OK, entry tg2 fl2 (u16 n.1) 1).

(** One round of the loop of [silogEntrySendHandle]. *)
Definition send_round : LM unit :=
  s ← get;
  r ← lift (SilogMpscQueuePop (Some (lm_logQueue (lg_mgr s))) true);
  modify (set_lmQueue (default (lm_logQueue (lg_mgr s)) r.1.2)) ;;
  if decide (r.1.1 <> SILOG_OK) then _ ← sys (CUsleep LOGGER_US_PER_MS); mret tt
  else
    entry ← lift r.2;
    r ← zoom lg_ipc set_ipc (SilogIpcClientSend entry);
    if decide (r <> SILOG_OK) then
      SILOG_PRELOG_E SILOG_PRELOG_LOGGER "SilogIpcClientSend failed, ret=%u" [AInt (err r)]
    else mret tt.

Definition silogEntrySendTaskInit : LM ErrorCode :=
  zoom lg_ipc set_ipc (SilogIpcInit SILOG_IPC_TYPE_UNIX_DGRAM) ;;
  r ← zoom lg_ipc set_ipc SilogIpcClientInit;
  if decide (r <> SILOG_OK) then
    SILOG_PRELOG_E SILOG_PRELOG_LOGGER "ipc init failed, ret=%u" [AInt (err r)] ;; mret r
  else
    p ← sys CPthreadCreate;
    if negb (ret p =? 0) then
      SILOG_PRELOG_E SILOG_PRELOG_LOGGER "pthread_create failed: %d" [AInt (ret p)] ;; mret SILOG_THREAD_CREATE
    else _ ← sys CPthreadDetach; mret SILOG_OK.

Definition silogEntryMngInit : LM unit :=
  _ ← zoom lg_prelog set_prelog (SilogPrelogInit (Some logger_prelog_config));
  s ← get;
  r ← queue_init sizeof_logEntry LOG_ENTRY_QUEUE_CAPACITY (lm_logQueue (lg_mgr s));
  modify (set_lmQueue r.2) ;;
  if decide (r.1 <> SILOG_OK) then
    SILOG_PRELOG_E SILOG_PRELOG_LOGGER "MPSC Queue init failed, ret=%u" [AInt (err r.1)]
  else
    r ← silogEntrySendTaskInit;
    if decide (r <> SILOG_OK) then
      SILOG_PRELOG_E SILOG_PRELOG_LOGGER "MPSC Send Task init failed, ret=%u" [AInt (err r)]
    else
      modify (set_lmSuccess true) ;;
      SILOG_PRELOG_I SILOG_PRELOG_LOGGER "SiLog socket initialized in constructor" [].

(** [pthread_once]. *)
Definition log_once : LM unit :=
  s ← get;
  if lm_initOnce (lg_mgr s) then mret tt
  else silogEntryMngInit ;; modify (set_lmOnce true).

Definition silogLog (level : Z) (tag file : list Z) (line : Z) (fmt : list Z) : LM unit :=
  log_once ;;
  s ← get;
  if negb (lm_initSuccess (lg_mgr s)) then mret tt
  else
    ok ← silogCheckLevel level;
    if negb ok then mret tt
    else
      r ← silogBuildEntry level tag file line fmt;
      if decide (r.1 <> SILOG_OK) then
        SILOG_PRELOG_E SILOG_PRELOG_LOGGER "silogBuildEntry failed, ret=%u" [AInt (err r.1)]
      else
        s ← get;
        p ← queue_push (Some (lm_logQueue (lg_mgr s))) (Some (entry_bytes r.2 (replicate 5 0)));
        modify (set_lmQueue (default (lm_logQueue (lg_mgr s)) p.2)) ;;
        if decide (p.1 <> SILOG_OK) then
          SILOG_PRELOG_E SILOG_PRELOG_LOGGER "silogSend failed, ret=%u" [AInt (err p.1)]
        else mret tt.

(** The macros of the interface; [file] and [line] are those of the call. *)
Definition SILOG_D (tag fmt file : list Z) (line : Z) : LM unit := silogLog (level_val SILOG_DEBUG) tag file line fmt.
Definition SILOG_I (tag fmt file : list Z) (line : Z) : LM unit := silogLog (level_val SILOG_INFO) tag file line fmt.
Definition SILOG_W (tag fmt file : list Z) (line : Z) : LM unit := silogLog (level_val SILOG_WARN) tag file line fmt.
Definition SILOG_E (tag fmt file : list Z) (line : Z) : LM unit := silogLog (level_val SILOG_ERROR) tag file line fmt.
Definition SILOG_F (tag fmt file : list Z) (line : Z) : LM unit := silogLog (level_val SILOG_FATAL) tag file line fmt.
End logger.

(** ** Building entries *)

(** The characters of a C string. *)
Definition c_chars (s : list Z) : Prop := Forall (fun c => 0 < c < 256) s.
Lemma c_chars_nonzero s : c_chars s -> Forall (fun c => c <> 0) s.
Proof. apply List.Forall_impl. intros; lia. Qed.
Lemma c_chars_u8 s : c_chars s -> Forall is_u8 s.
Proof. apply List.Forall_impl. unfold is_u8. intros; lia. Qed.

Lemma wr_Forall (P : Z -> Prop) b off d b' :
  wr b off d = Some b' -> Forall P b -> Forall P d -> Forall P b'.
Proof.
  unfold wr. destruct (_ && _); [|done]. intros [= <-] Hb Hd. rewrite !Forall_app.
  split; [by apply Forall_take|]. split; [done|by apply Forall_drop].
Qed.

(** A cleared array of [n] bytes filled by one of the two printing functions. *)
Definition holds (n : Z) (s a : list Z) : Prop := bytes_of n a /\ cstr a = sprint n s.

Lemma zeros_u8 n : Forall is_u8 (replicate n 0).
Proof. apply Forall_replicate. split; lia. Qed.

Lemma snprintf_holds n s :
  0 < n -> c_chars s ->
  exists a, (obj_snprintf_s (replicate (Z.to_nat n) 0) n (n - 1) s).2 = Some a /\ holds n s a.
Proof.
  intros Hn Hs.
  destruct (snprintf_sprint (replicate (Z.to_nat n) 0) n s) as (a & Ha & Hl & Hc);
    [done|rewrite length_replicate; lia|by apply c_chars_nonzero|].
  exists a. split; [done|]. split; [split; [done|]|done].
  revert Ha. unfold obj_snprintf_s. ztest. cbn [snd]. intros Ha.
  destruct (wr (replicate (Z.to_nat n) 0) 0 _) as [a1|] eqn:Hw; [|done]. cbn [mbind option_bind] in Ha.
  eapply wr_Forall; [exact Ha| |repeat constructor; lia].
  eapply wr_Forall; [exact Hw|apply zeros_u8|]. apply Forall_app.
  split; [by apply Forall_take, c_chars_u8|repeat constructor; lia].
Qed.

Lemma vsnprintf_holds n s :
  0 < n -> c_chars s ->
  exists a, (obj_vsnprintf (replicate (Z.to_nat n) 0) 0 n s).2 = Some a /\ holds n s a.
Proof.
  intros Hn Hs. unfold obj_vsnprintf. ztest. cbn [snd].
  assert (len (take (Z.to_nat (n - 1)) s) <= n - 1) as Ht by (rewrite length_take; lia).
  destruct (wr (replicate (Z.to_nat n) 0) 0 (take (Z.to_nat (n - 1)) s ++ [0])) as [a|] eqn:Hw.
  - exists a. split; [done|]. split; [split|].
    + rewrite (wr_length _ _ _ _ Hw), length_replicate. lia.
    + eapply wr_Forall; [exact Hw|apply zeros_u8|]. apply Forall_app.
      split; [by apply Forall_take, c_chars_u8|repeat constructor; lia].
    + rewrite wr_Some in Hw by (rewrite ?length_app, ?length_replicate; cbn; lia). injection Hw as <-.
      rewrite <- (assoc_L (++)). cbn [app]. apply cstr_app_nul.
      by apply Forall_take, c_chars_nonzero.
  - rewrite wr_Some in Hw by (rewrite ?length_app, ?length_replicate; cbn; lia). done.
Qed.

(** The entry of a message. *)
Record entry_of (level : Z) (tag file : list Z) (line : Z) (s : list Z) (en : logEntry_t) : Prop := {
  eo_typed : entry_typed en;
  eo_level : LogEntry.level en = level;
  eo_line : LogEntry.line en = line;
  eo_tag : cstr (LogEntry.tag en) = take 31 tag;
  eo_file : cstr (LogEntry.file en) = take 63 file;
  eo_msg : cstr (LogEntry.msg en) = take 255 s;
  eo_msgLen : msgLen en = u16 (len s);
  eo_enabled : enabled en = 1
}.

(** The calls of a piece of trace leave descriptors and files alone. *)
Section build.
Context {W : Type} `{!Os W, !Others SilogPrelogManager_t W}.
Implicit Types (e : env logger W).

Lemma build_spec level tag file line fmt s e :
  is_u32 level -> is_u32 line -> c_chars tag -> c_chars file -> c_chars s -> expand_noargs fmt = Some s ->
  wp (silogBuildEntry level tag file line fmt)
    (fun r e' => r.1 = SILOG_OK /\ entry_of level tag file line s r.2 /\ mem e' = mem e /\ held e' = held e) e.
Proof.
  intros Hlv Hln Ht Hf Hs Hx. unfold silogBuildEntry, SilogUtilsGetTid. wp_step. eapply wp_lift; [exact Hx|].
  destruct (vsnprintf_holds SILOG_MSG_MAX_LEN s) as (m & Hm & [Hmb Hmc]); [done|done|].
  destruct (snprintf_holds SILOG_TAG_MAX_LEN tag) as (tg & Htg & [Htb Htc]); [done|done|].
  destruct (snprintf_holds SILOG_FILE_MAX_LEN file) as (fl & Hfl & [Hfb Hfc]); [done|done|].
  wp_step. eapply wp_lift; [exact Hm|]. wp_step; [exfalso; cbn in *; lia|].
  wp_step. apply wp_now. intros an w w' _. wp_step. wp_step. wp_step. wp_step. wp_step. wp_step.
  wp_step. eapply wp_lift; [exact Htg|]. cbn beta. rewrite snprintf_ret by done.
  wp_step. eapply wp_lift; [exact Hfl|]. cbn beta. rewrite snprintf_ret by done. wp_step. split; [done|]. split; [|done]. split; try done.
  split; cbn; try done.
  - unfold clock_ms. destruct (negb _); [split; lia|apply u64_range].
  - apply i32_range.
  - apply i32_range.
  - apply u16_range.
Qed.
End build.

(** ** Sending *)

(** The data of the sends of a trace. *)
Definition sent_data (t : trace_t) : list (list Z) :=
  omap (fun ev => match ev.1 with CSend _ d => Some d | _ => None end) (sends t).
Lemma sent_data_app t1 t2 : sent_data (t1 ++ t2) = sent_data t1 ++ sent_data t2.
Proof. unfold sent_data. rewrite sends_app. apply omap_app. Qed.

(** Up to two copies of every element, in order. *)
Inductive attempts_of : list (list Z) -> list (list Z) -> Prop :=
  | attempts_nil : attempts_of [] []
  | attempts_cons x l d k : (k <= 2)%nat -> attempts_of l d -> attempts_of (x :: l) (replicate k x ++ d).

Lemma send_outcome_data a data r t :
  send_outcome a data r t -> exists k, (k <= 2)%nat /\ sent_data t = replicate k data /\
    (r = SILOG_OK -> (1 <= k)%nat).
Proof.
  unfold send_outcome, sent_data. case_if; [intros [-> ->]; by exists 0%nat; split_and!; [lia|..]|].
  case_if; [intros [-> ->]; by exists 0%nat; split_and!; [lia|..]|].
  intros (a1 & [(_ & _ & ->)|(_ & [(_ & ->)|(_ & fd' & a2 & _ & -> & _)])]).
  - exists 1%nat. split_and!; [lia|done|lia].
  - exists 1%nat. split_and!; [lia|done|lia].
  - exists 2%nat. split_and!; [lia|done|lia].
Qed.

Abbreviation log_repr := (mpsc_repr sizeof_logEntry LOG_ENTRY_QUEUE_CAPACITY).

(** The transport is ready to send. *)
Definition can_send (s : logger) : Prop :=
  ia_isInit (c_mem (lg_ipc s)) = true /\ 0 <= ia_sendFd (c_mem (lg_ipc s)).

Section sending.
Context {W : Type} `{!Os W}.
Implicit Types (e : env logger W).

Fixpoint send_rounds (n : nat) : M logger W unit :=
  match n with O => mret tt | S n => send_round ;; send_rounds n end.

(** The transport of the process holds its sockets. *)
Definition ipc_ok (s : logger) : Prop :=
  exists X, ledger (c_trace (lg_ipc s)) = Some (ipc_held (c_mem (lg_ipc s)) ⊎ X).

Lemma send_round_spec x l e :
  ipc_ok (mem e) -> log_repr (lm_logQueue (lg_mgr (mem e))) (x :: l) ->
  wp send_round
    (fun _ e' => held e' = held e /\ ipc_ok (mem e') /\ log_repr (lm_logQueue (lg_mgr (mem e'))) l /\
       exists t k, trace e' = trace e ++ t /\ (k <= 2)%nat /\ sent_data t = replicate k x /\
         sublist (delivered t) [x] /\ c_trace (lg_ipc (mem e')) = c_trace (lg_ipc (mem e)) ++ t /\
         lg_mgr (mem e') = lg_mgr (set_lmQueue (lm_logQueue (lg_mgr (mem e'))) (mem e)) /\
         (can_send (mem e) -> all_sent t -> delivered t = [x] /\ can_send (mem e'))) e.
Proof.
  intros [X Hi] Hq. unfold send_round. wp_step. wp_step. wp_step.
  destruct (fifo_pop_ok (Fifo:=mpsc_fifo sizeof_logEntry LOG_ENTRY_QUEUE_CAPACITY) _ _ _ Hq) as (q & Hp & Hq').
  eapply wp_lift; [cbn; rewrite Hp; done|]. cbn [fst snd default]. wp_step. wp_step.
  rewrite decide_False by (intros []; done). wp_step. eapply wp_lift; [done|]. wp_step. apply wp_zoom.
  cbn [mem world trace held set_lmQueue set_mgr lg_ipc].
  eapply wp_mono; [apply wp_and; [apply (client_send_spec X)|apply send_keeps_socket]|].
  { exact Hi. }
  cbn [mem world trace held].
  intros r e1 [(Hh & Hini & _ & Hinv & t & Ht & Ho) Hfd].
  apply wp_mono with (fun _ e' => same_state (Env (set_ipc (MkComp (mem e1) (trace e1)) (set_lmQueue q (mem e)))
    (world e1) (trace e ++ drop (length (c_trace (lg_ipc (mem e)))) (trace e1)) (held e1)) e');
    [case_decide; by wp_steps|].
  intros [] e2 (-> & -> & ->). cbn [mem world trace held]. split; [done|]. split.
  { exists X. exact Hinv. }
  split; [exact Hq'|]. destruct (send_outcome_data _ _ _ _ Ho) as (k & Hk & Hd & _). exists t, k.
  rewrite Ht, drop_app_length. apply send_outcome_delivered in Ho as [Hs Hd']. split_and!; try done.
  intros [H1 H2] Ha. destruct (Hd' H1 H2 Ha) as [Hr ?]. split; [done|]. split; [exact (eq_trans Hini H1)|exact (Hfd Hr)].
Qed.

(** A round that finds the queue empty waits. *)
Lemma send_idle_spec e :
  log_repr (lm_logQueue (lg_mgr (mem e))) [] ->
  wp send_round (fun _ e' => held e' = held e /\ mem e' = mem e) e.
Proof.
  intros Hq. unfold send_round. wp_step. wp_step. wp_step.
  pose proof (fifo_pop_empty (Fifo:=mpsc_fifo sizeof_logEntry LOG_ENTRY_QUEUE_CAPACITY) _ Hq) as Hp.
  eapply wp_lift; [cbn; rewrite Hp; done|]. cbn [fst snd default]. wp_step. wp_step. rewrite decide_True by done.
  wp_steps. split; [done|]. by destruct (mem e) as [[] ? ?].
Qed.

Lemma send_rounds_spec l e :
  ipc_ok (mem e) -> log_repr (lm_logQueue (lg_mgr (mem e))) l ->
  wp (send_rounds (length l))
    (fun _ e' => held e' = held e /\ ipc_ok (mem e') /\ log_repr (lm_logQueue (lg_mgr (mem e'))) [] /\
       exists t, trace e' = trace e ++ t /\ attempts_of l (sent_data t)) e.
Proof.
  revert e. induction l as [|x l IH]; intros e Hi Hq; cbn [length send_rounds].
  - wp_step. split_and!; try done. exists []. rewrite app_nil_r. split; [done|constructor].
  - wp_step. eapply wp_mono; [by apply send_round_spec|].
    intros [] e1 (Hh1 & Hi1 & Hq1 & t1 & k & Ht1 & Hk & Hd1 & _).
    eapply wp_mono; [by apply IH|]. intros _ e2 (Hh2 & Hi2 & Hq2 & t2 & Ht2 & Ha).
    split; [congruence|]. split; [done|]. split; [done|]. exists (t1 ++ t2).
    rewrite Ht2, Ht1, (assoc_L (++)), sent_data_app, Hd1. split; [done|]. by constructor.
Qed.
End sending.

(** ** Properties *)

Section properties.
Context {W : Type} `{!Os W, !Others SilogPrelogManager_t W}.
Implicit Types (e : env logger W).

Lemma log_spec level tag file line fmt s l e :
  lm_initOnce (lg_mgr (mem e)) = true -> lm_initSuccess (lg_mgr (mem e)) = true ->
  log_repr (lm_logQueue (lg_mgr (mem e))) l ->
  is_u32 level -> is_u32 line -> c_chars tag -> c_chars file -> c_chars s -> expand_noargs fmt = Some s ->
  wp (silogLog level tag file line fmt)
    (fun _ e' => held e' = held e /\ lg_ipc (mem e') = lg_ipc (mem e) /\
       lg_mgr (mem e') = lg_mgr (set_lmQueue (lm_logQueue (lg_mgr (mem e'))) (mem e)) /\
       exists l', log_repr (lm_logQueue (lg_mgr (mem e'))) l' /\
         if level <? lm_minLevel (lg_mgr (mem e)) then l' = l
         else exists en, entry_of level tag file line s en /\
           l' = if len l <? LOG_ENTRY_QUEUE_CAPACITY then l ++ [entry_bytes en (replicate 5 0)] else l) e.
Proof.
  intros Honce Hsucc Hq Hlv Hln Ht Hf Hs Hx. unfold silogLog, log_once. wp_step. wp_step. wp_step.
  rewrite Honce. wp_step. wp_step. wp_step. rewrite Hsucc. cbn [negb]. wp_step. unfold silogCheckLevel.
  wp_step. wp_step. wp_step. rewrite Z.leb_antisym, negb_involutive.
  destruct (level <? lm_minLevel (lg_mgr (mem e))) eqn:El.
  { wp_step. split_and!; try done; [by destruct (mem e) as [[] ? ?]|by exists l]. }
  wp_step. eapply wp_mono; [by apply build_spec|]. intros r e1 (Hr & Hen & Hm1 & Hh1).
  rewrite decide_False by (rewrite Hr; intros []; done). wp_step. wp_step. rewrite Hm1.
  assert (len (entry_bytes r.2 (replicate 5 0)) = sizeof_logEntry) as Hlen
    by (apply entry_bytes_length; [apply Hen|done]).
  assert (exists rp q', SilogMpscQueuePush (Some (lm_logQueue (lg_mgr (mem e)))) (Some (entry_bytes r.2 (replicate 5 0)))
      = Some (rp, Some q') /\ log_repr q' (if len l <? LOG_ENTRY_QUEUE_CAPACITY then l ++ [entry_bytes r.2 (replicate 5 0)] else l))
    as (rp & q' & Hp & Hq').
  { pose (F := mpsc_fifo sizeof_logEntry LOG_ENTRY_QUEUE_CAPACITY). pose proof (fifo_bound (Fifo:=F) _ _ Hq).
    case_if.
    - destruct (fifo_push_ok (Fifo:=F) _ _ _ Hq Hlen ltac:(lia)) as (q' & Hp & Hq').
      unfold SilogMpscQueuePush. rewrite Hp. by eexists _, _.
    - destruct (fifo_push_full (Fifo:=F) _ _ (entry_bytes r.2 (replicate 5 0)) Hq ltac:(lia)) as (q' & Hp & Hq').
      unfold SilogMpscQueuePush. rewrite Hp. by eexists _, _. }
  wp_step. eapply wp_queue_push; [exact Hp|]. intros wq. wp_step. wp_step.
  apply wp_mono with (fun _ e' => held e' = held e /\ mem e' = set_lmQueue q' (mem e));
    [case_decide; wp_steps; cbn; by rewrite ?Hm1|].
  intros [] e2 [-> ->]. do 3 (split; [done|]). eexists. split; [exact Hq'|]. by exists r.2.
Qed.


(** The sending thread takes the entries from the queue in the order in which
    they were logged and sends each of them as one datagram, at most twice (the
    second time on a new connection): no entry is reordered, merged or split. *)
Theorem sender_keeps_order l e :
  ipc_ok (mem e) -> log_repr (lm_logQueue (lg_mgr (mem e))) l ->
  wp (send_rounds (length l))
    (fun _ e' => held e' = held e /\ ipc_ok (mem e') /\ log_repr (lm_logQueue (lg_mgr (mem e'))) [] /\
       exists t, trace e' = trace e ++ t /\ attempts_of l (sent_data t)) e.
Proof. apply send_rounds_spec. Qed.

(** A format with a conversion is expanded without the caller's arguments,
    which is undefined, as soon as the message passes the level filter. *)
Theorem log_with_arguments_undefined level tag file line fmt e :
  lm_initOnce (lg_mgr (mem e)) = true -> lm_initSuccess (lg_mgr (mem e)) = true ->
  lm_minLevel (lg_mgr (mem e)) <= level -> expand_noargs fmt = None ->
  silogLog level tag file line fmt e = None.
Proof.
  intros Honce Hsucc Hlv Hx. unfold silogLog, log_once, silogCheckLevel, silogBuildEntry.
  unfold mbind, M_bind, get. rewrite Honce. cbn. rewrite Hsucc. cbn. ztest. cbn. by rewrite Hx.
Qed.
End properties.

(** ** Starting *)

Section starting.
Context {W : Type} `{!Os W, !Others SilogPrelogManager_t W, !PrelogOthersOk W}.
Implicit Types (e : env logger W).

Definition prelog_ok (s : logger) : Prop :=
  prelog_inv (c_mem (lg_prelog s)) /\
  files (c_trace (lg_prelog s)) = Some (handle_set (pm_file (c_mem (lg_prelog s)))).

(** The process after a successful start. *)
Definition log_ready (s : logger) : Prop :=
  lm_initSuccess (lg_mgr s) = true /\ log_repr (lm_logQueue (lg_mgr s)) [] /\
  ia_isInit (c_mem (lg_ipc s)) = true /\ 0 <= ia_sendFd (c_mem (lg_ipc s)).

Lemma send_task_init_spec e :
  ipc_ok (mem e) ->
  wp silogEntrySendTaskInit
    (fun r e' => held e' = held e /\ ipc_ok (mem e') /\ lg_mgr (mem e') = lg_mgr (mem e) /\
       lg_prelog (mem e') = lg_prelog (mem e) /\
       (r = SILOG_OK -> ia_isInit (c_mem (lg_ipc (mem e'))) = true /\ 0 <= ia_sendFd (c_mem (lg_ipc (mem e'))))) e.
Proof.
  intros [X Hi]. unfold silogEntrySendTaskInit. wp_step. apply wp_zoom.
  eapply wp_mono; [by apply (ipc_init_spec X)|]. cbn [mem held trace world].
  intros _ e1 (Hh1 & Ht1 & Hi1 & Hm1). wp_step. apply wp_zoom. cbn [mem held trace world set_ipc lg_ipc c_mem c_trace].
  eapply wp_mono; [apply (ipc_client_init_spec X); exact Hi1|]. cbn [mem held trace world].
  intros r e2 (Hh2 & Ho).
  destruct Ho as [(-> & Hini & Hm2 & Hfd & Hi2)|(Hr & Hm2 & Hi2)].
  - rewrite decide_False by tauto. wp_step. wp_step.
    assert (ia_isInit (mem e2) = true) as Hini2 by (rewrite Hm2; exact Hini).
    destruct (negb (ret a =? 0)); wp_steps; (split; [cbn; congruence|]); (split; [by eexists|]); by split_and!.
  - rewrite decide_True by done. wp_step. split; [cbn; congruence|]. split; [by eexists|]. by split_and!.
Qed.

Lemma log_once_spec e :
  lm_initOnce (lg_mgr (mem e)) = false -> lm_initSuccess (lg_mgr (mem e)) = false ->
  ipc_ok (mem e) -> prelog_ok (mem e) -> held e = false ->
  wp log_once
    (fun _ e' => held e' = false /\ ipc_ok (mem e') /\ prelog_ok (mem e') /\
       lm_initOnce (lg_mgr (mem e')) = true /\ lm_minLevel (lg_mgr (mem e')) = lm_minLevel (lg_mgr (mem e)) /\
       (lm_initSuccess (lg_mgr (mem e')) = false \/ log_ready (mem e'))) e.
Proof.
  intros Honce Hsucc Hi Hp Hh. unfold log_once. wp_step. wp_step. rewrite Honce. wp_step. unfold silogEntryMngInit.
  wp_step. apply wp_zoom.
  eapply wp_mono; [apply prelog_init_spec; [by intros c [= <-]|exact Hp|exact Hh]|]. cbn [mem held trace world].
  intros _ e1 (_ & Hp1 & Hh1 & _). rewrite Hh1. wp_step.
  match goal with |- wp _ _ (Env ?m _ _ _) => set (m1 := m) end.
  wp_step. wp_step. apply (wp_queue_init _ _ 10); [done|lia|done|done|]. intros r q w2 t2 _ Hq. cbn [mem held trace]. wp_step. wp_step.
  cbn [fst snd].
  destruct (decide (r <> SILOG_OK)) as [Hne|Heq].
  { wp_steps. split_and!; try done. by left. }
  apply dec_stable in Heq. specialize (Hq Heq). wp_step. eapply wp_mono; [by apply send_task_init_spec|].
  cbn [mem held]. intros r2 e3 (Hh3 & Hi3 & Hm3 & Hp3 & Hok).
  assert (prelog_ok (mem e3)) as Hp4 by (unfold prelog_ok; rewrite Hp3; exact Hp1).
  destruct (decide (r2 <> SILOG_OK)) as [Hne2|Heq2].
  - wp_steps. cbn. rewrite Hm3. split_and!; try done. by left.
  - apply dec_stable in Heq2. specialize (Hok Heq2) as [? ?]. wp_steps. cbn. rewrite Hm3. split_and!; try done.
    right. split_and!; try done. cbn. by rewrite Hm3.
Qed.

(** The first message of a process starts the library, once: afterwards either
    the queue is empty and usable, the socket is connected and messages are
    queued, or the start has failed and every later message is ignored without
    any effect. *)
Theorem log_starts_once e :
  lm_initOnce (lg_mgr (mem e)) = false -> lm_initSuccess (lg_mgr (mem e)) = false ->
  ipc_ok (mem e) -> prelog_ok (mem e) -> held e = false ->
  wp log_once
    (fun _ e' => held e' = false /\ ipc_ok (mem e') /\ prelog_ok (mem e') /\
       lm_initOnce (lg_mgr (mem e')) = true /\
       (log_ready (mem e') \/
        lm_initSuccess (lg_mgr (mem e')) = false /\
        forall level tag file line fmt, silogLog level tag file line fmt e' = Some (tt, e'))) e.
Proof.
  intros. eapply wp_mono; [by apply log_once_spec|]. intros _ e' (? & ? & ? & Ho & _ & Hr). split_and!; try done.
  destruct Hr as [Hf|?]; [|by left]. right. split; [done|]. intros.
  unfold silogLog, log_once, mbind, M_bind, get. rewrite Ho. cbn. by rewrite Hf.
Qed.
End starting.

(** ** The properties at concrete inputs *)

Definition demo_log_queue : SiLogMpscQueue :=
  (mpsc_init (Some (replicate (Z.to_nat (384 * 1024)) 0)) (Some (replicate 1024 0)) 384 1024
     (MkMpsc None 0 0 0 0 None 0)).2.
Lemma demo_log_queue_ok : log_repr demo_log_queue [].
Proof.
  unfold demo_log_queue.
  destruct (mpsc_init_repr 384 1024 10 (replicate (Z.to_nat (384 * 1024)) 0) (replicate 1024 0)
    (MkMpsc None 0 0 0 0 None 0)) as (q & Hq & Hr); [lia|lia|done|lia| |by rewrite length_replicate|by rewrite Hq].
  rewrite length_replicate, Z2Nat.id; [done|lia].
Qed.

Definition demo_logger : logger :=
  MkLogger (MkLogMgr 1 true demo_log_queue true) (MkComp (MkAgent true 3 (-1)) [(CSocket, ok 3)])
    (MkComp g_prelogMgr []).
Definition demo_log_env (w : script) : env logger script := Env demo_logger w [] false.


(** A queue with one entry. *)
Lemma demo_log_queue_one : exists q, log_repr q [replicate 384 1].
Proof.
  destruct (fifo_push_ok (Fifo:=mpsc_fifo sizeof_logEntry LOG_ENTRY_QUEUE_CAPACITY) demo_log_queue [] (replicate 384 1)
    demo_log_queue_ok) as (q & _ & Hq); [done|done|]. by exists q.
Qed.

Lemma sender_keeps_order_witness : exists q, log_repr q [replicate 384 1] /\
  wp (send_rounds 1) (fun _ e' => attempts_of [replicate 384 1] (sent_data (trace e')))
    (Env (set_lmQueue q demo_logger) [ok 384] [] false).
Proof.
  destruct demo_log_queue_one as [q Hq]. exists q. split; [exact Hq|].
  eapply wp_mono; [apply (sender_keeps_order [replicate 384 1])|].
  - exists ∅. vm_compute. reflexivity.
  - exact Hq.
  - intros _ e' (_ & _ & _ & t & Ht & Ha). rewrite Ht. exact Ha.
Defined.

Lemma log_with_arguments_undefined_witness :
  silogLog 3 (chars "net") (chars "a.c") 7 (chars "x=%d") (demo_log_env []) = None.
Proof.
  apply log_with_arguments_undefined; [reflexivity|reflexivity|cbn; lia|reflexivity].
Defined.

Lemma log_starts_once_witness :
  wp log_once (fun _ e' => held e' = false)
    (Env (MkLogger g_logEntryMgr (MkComp g_silogIpcAgent []) (MkComp g_prelogMgr [])) ([] : script) [] false).
Proof.
  eapply wp_mono; [apply log_starts_once; [reflexivity|reflexivity| | |reflexivity]|].
  - exists ∅. vm_compute. reflexivity.
  - split; [split; [reflexivity|reflexivity]|reflexivity].
  - intros _ e' (Hh & _). exact Hh.
Defined.
