(* ===== verification/Daemon.v ===== *)
(** * The daemon (silog_dae/src/silog_daemon.c)

    The receiving thread puts the datagrams of the applications into a queue, the
    writing thread formats the queued entries, writes them to the log file and
    broadcasts them to the remote clients, a third thread accepts these clients.
    The daemon keeps the variables of its components beside its own.

    A thread function runs its loop as long as it reads [true] from its flag: it
    takes the number of these reads as an argument. The other threads act
    between two rounds, and inside a round whenever it takes a mutex. The fputs
    of a build with SILOG_EXE is not part of the library. *)

From S2P Require Import Prelude Errors LogEntry CObj CMem Mpsc RemoteCodec Os Queues Format Layout.
From S2P Require Import RemoteServer FileManager FileManagerOps Ipc Prelog.
#[local] Open Scope Z_scope.

Definition LOG_MSG_BUF_SIZE : Z := 512.
Definition DAEMON_LOG_QUEUE_CAPACITY : Z := 4096.

Record SilogDaemonRemoteConfig := MkDaemonRemote {
  dr_listenPort : Z;
  dr_maxClients : Z;
  dr_enable : bool
}.

(** The static variables of silog_daemon.c ([dm_logQueue] is [g_silogDaemonMgr])
    and those of the components. *)
Record daemon := MkDaemon {
  dm_logQueue : SiLogMpscQueue;
  dm_remoteEnabled : bool;
  dm_remoteThread : Z;
  dm_remoteRunning : bool;
  dm_daemonRunning : bool;
  dm_recvThread : Z;
  dm_writeThread : Z;
  dm_ipc : comp SilogIpcAgent;
  dm_prelog : comp SilogPrelogManager_t;
  dm_fm : comp SilogFileManager;
  dm_remote : comp SilogRemoteManager
}.
Definition g_daemon : daemon :=
  MkDaemon (MkMpsc None 0 0 0 0 None 0) false 0 false false 0 0
    (MkComp g_silogIpcAgent []) (MkComp g_prelogMgr []) (MkComp g_fileManager []) (MkComp g_silogRemoteMgr []).

Definition set_dmQueue q s := MkDaemon q (dm_remoteEnabled s) (dm_remoteThread s) (dm_remoteRunning s)
  (dm_daemonRunning s) (dm_recvThread s) (dm_writeThread s) (dm_ipc s) (dm_prelog s) (dm_fm s) (dm_remote s).
Definition set_dmEnabled b s := MkDaemon (dm_logQueue s) b (dm_remoteThread s) (dm_remoteRunning s)
  (dm_daemonRunning s) (dm_recvThread s) (dm_writeThread s) (dm_ipc s) (dm_prelog s) (dm_fm s) (dm_remote s).
Definition set_dmRemoteThread t s := MkDaemon (dm_logQueue s) (dm_remoteEnabled s) t (dm_remoteRunning s)
  (dm_daemonRunning s) (dm_recvThread s) (dm_writeThread s) (dm_ipc s) (dm_prelog s) (dm_fm s) (dm_remote s).
Definition set_dmRemoteRunning b s := MkDaemon (dm_logQueue s) (dm_remoteEnabled s) (dm_remoteThread s) b
  (dm_daemonRunning s) (dm_recvThread s) (dm_writeThread s) (dm_ipc s) (dm_prelog s) (dm_fm s) (dm_remote s).
Definition set_dmRunning b s := MkDaemon (dm_logQueue s) (dm_remoteEnabled s) (dm_remoteThread s) (dm_remoteRunning s)
  b (dm_recvThread s) (dm_writeThread s) (dm_ipc s) (dm_prelog s) (dm_fm s) (dm_remote s).
Definition set_dmRecvThread t s := MkDaemon (dm_logQueue s) (dm_remoteEnabled s) (dm_remoteThread s) (dm_remoteRunning s)
  (dm_daemonRunning s) t (dm_writeThread s) (dm_ipc s) (dm_prelog s) (dm_fm s) (dm_remote s).
Definition set_dmWriteThread t s := MkDaemon (dm_logQueue s) (dm_remoteEnabled s) (dm_remoteThread s) (dm_remoteRunning s)
  (dm_daemonRunning s) (dm_recvThread s) t (dm_ipc s) (dm_prelog s) (dm_fm s) (dm_remote s).
Definition set_dmIpc c s := MkDaemon (dm_logQueue s) (dm_remoteEnabled s) (dm_remoteThread s) (dm_remoteRunning s)
  (dm_daemonRunning s) (dm_recvThread s) (dm_writeThread s) c (dm_prelog s) (dm_fm s) (dm_remote s).
Definition set_dmPrelog c s := MkDaemon (dm_logQueue s) (dm_remoteEnabled s) (dm_remoteThread s) (dm_remoteRunning s)
  (dm_daemonRunning s) (dm_recvThread s) (dm_writeThread s) (dm_ipc s) c (dm_fm s) (dm_remote s).
Definition set_dmFm c s := MkDaemon (dm_logQueue s) (dm_remoteEnabled s) (dm_remoteThread s) (dm_remoteRunning s)
  (dm_daemonRunning s) (dm_recvThread s) (dm_writeThread s) (dm_ipc s) (dm_prelog s) c (dm_remote s).
Definition set_dmRemote c s := MkDaemon (dm_logQueue s) (dm_remoteEnabled s) (dm_remoteThread s) (dm_remoteRunning s)
  (dm_daemonRunning s) (dm_recvThread s) (dm_writeThread s) (dm_ipc s) (dm_prelog s) (dm_fm s) c.

Definition daemon_prelog_config : SilogPrelogConfig_t :=
  MkPrelogConfig (chars "/tmp/silog_daemon.txt" ++ replicate (256 - 21) 0) SILOG_PRELOG_LEVEL_DEBUG false.

(** The text of an entry, as the format of the writing thread asks for it. *)
Definition daemon_line (timebuf : list Z) (en : logEntry_t) : list Z :=
  chars "[" ++ cstr timebuf ++ chars "][" ++ chars (SilogUtilsLevelToName (level en)) ++
  chars "][pid:" ++ fmt_d (pid en) ++ chars " tid:" ++ fmt_d (tid en) ++ chars "][" ++ cstr (tag en) ++
  chars "][" ++ cstr (file en) ++ chars ":" ++ fmt_u (line en) ++ chars "] " ++ cstr (msg en) ++ [10].

Section daemon.
Context {W : Type} `{!Os W, !Others SilogPrelogManager_t W, !Others SilogFileManager W,
  !Others SilogRemoteManager W}.
#[local] Abbreviation DM := (M daemon W).

(** ** The receiving thread *)

(** One round; [entry] is the local variable of the thread, which keeps its
    contents from round to round. *)
Definition recv_round (entry : list Z) : DM (list Z) :=
  r ← zoom dm_ipc set_dmIpc (SilogIpcServerRecv sizeof_logEntry);
  entry ← lift (wr entry 0 (take (Z.to_nat r.1) r.2));
  if 0 <? r.1 then
    s ← get;
    p ← queue_push (Some (dm_logQueue s)) (Some entry);
    modify (set_dmQueue (default (dm_logQueue s) p.2)) ;;
    (if decide (p.1 <> SILOG_OK)
     then SILOG_PRELOG_E SILOG_PRELOG_DAEMON "SilogMpscQueuePush failed: %d" [AInt (err p.1)]
     else mret tt) ;;
    mret entry
  else _ ← sys (CUsleep US_PER_MS); mret entry.

Fixpoint recv_loop (n : nat) (entry : list Z) : DM unit :=
  match n with
  | O => mret tt
  | S n => entry ← recv_round entry; recv_loop n entry
  end.

Definition SilogDaemonRecvThreadFunc (n : nat) (entry : list Z) : DM unit :=
  zoom dm_ipc set_dmIpc (SilogIpcInit SILOG_IPC_TYPE_UNIX_DGRAM) ;;
  r ← zoom dm_ipc set_dmIpc SilogIpcServerInit;
  if decide (r <> SILOG_OK) then
    SILOG_PRELOG_E SILOG_PRELOG_DAEMON "SilogIpcServerInit failed: %d" [AInt (err r)]
  else
    recv_loop n entry ;;
    zoom dm_ipc set_dmIpc SilogIpcServerClose.

(** ** The writing thread *)

(** The broadcast of an entry, if the remote service is enabled. *)
Definition relay (entry : logEntry_t) : DM unit :=
  s ← get;
  if dm_remoteEnabled s
  then _ ← zoom dm_remote set_dmRemote (SilogRemoteBroadcast (Some entry) false); mret tt
  else mret tt.

(** One round, with the two local buffers. A string of the entry that has no
    terminator in its array is read outside it. *)
Definition write_round (timebuf logbuf : list Z) : DM (list Z * list Z) :=
  s ← get;
  r ← lift (SilogMpscQueuePop (Some (dm_logQueue s)) true);
  modify (set_dmQueue (default (dm_logQueue s) r.1.2)) ;;
  if decide (r.1.1 = SILOG_OK) then
    b ← lift r.2;
    let entry := bytes_entry b in
    t ← SilogFormatWallClockMs (ts entry) (Some timebuf) TIME_BUF_SIZE;
    timebuf ← lift t;
    if negb (has_nul (tag entry) && has_nul (file entry) && has_nul (msg entry)) then undefined
    else
      let p := obj_snprintf_s logbuf LOG_MSG_BUF_SIZE (LOG_MSG_BUF_SIZE - 1) (daemon_line timebuf entry) in
      logbuf ← lift p.2;
      if p.1 <? 0 then
        SILOG_PRELOG_E SILOG_PRELOG_DAEMON "snprintf_s failed" [] ;; mret (timebuf, logbuf)
      else
        let n := if LOG_MSG_BUF_SIZE <? p.1 then LOG_MSG_BUF_SIZE else p.1 in
        _ ← zoom dm_fm set_dmFm (SilogFileManagerWriteRaw (Some logbuf) n);
        relay entry ;;
        mret (timebuf, logbuf)
  else _ ← sys (CUsleep US_PER_MS); mret (timebuf, logbuf).

Fixpoint write_loop (n : nat) (timebuf logbuf : list Z) : DM unit :=
  match n with
  | O => mret tt
  | S n => b ← write_round timebuf logbuf; write_loop n b.1 b.2
  end.
Definition SilogDaemonWriteThreadFunc (n : nat) (timebuf logbuf : list Z) : DM unit := write_loop n timebuf logbuf.

(** ** The remote service *)

Definition remote_round : DM unit :=
  _ ← zoom dm_remote set_dmRemote SilogRemoteAccept;
  _ ← sys (CUsleep 10000);
  mret tt.
Fixpoint remote_loop (n : nat) : DM unit :=
  match n with O => mret tt | S n => remote_round ;; remote_loop n end.
Definition SilogDaemonRemoteThreadFunc (n : nat) : DM unit :=
  SILOG_PRELOG_I SILOG_PRELOG_DAEMON "Remote service thread started" [] ;;
  remote_loop n ;;
  SILOG_PRELOG_I SILOG_PRELOG_DAEMON "Remote service thread stopped" [].

Definition remote_config (config : option SilogDaemonRemoteConfig) : SilogRemoteConfig_t :=
  match config with
  | Some c =>
      MkRemoteConfig (if negb (dr_listenPort c =? 0) then dr_listenPort c else SILOG_REMOTE_DEFAULT_PORT)
        (if negb (dr_maxClients c =? 0) then dr_maxClients c else SILOG_REMOTE_DEFAULT_MAX_CLIENTS) false
  | None => MkRemoteConfig SILOG_REMOTE_DEFAULT_PORT SILOG_REMOTE_DEFAULT_MAX_CLIENTS false
  end.

(** [pthread_create] stores the identifier of the new thread. *)
Definition thread_id (a : answer) : Z := nth 0 (out a) 0.

Definition SilogDaemonRemoteInit (config : option SilogDaemonRemoteConfig) : DM ErrorCode :=
  s ← get;
  if dm_remoteEnabled s then
    SILOG_PRELOG_W SILOG_PRELOG_DAEMON "Remote service already initialized" [] ;; mret SILOG_OK
  else
    r ← zoom dm_remote set_dmRemote (SilogRemoteInit (Some (remote_config config)));
    if decide (r <> SILOG_OK) then
      SILOG_PRELOG_E SILOG_PRELOG_DAEMON "Failed to init remote service: %d" [AInt (err r)] ;; mret r
    else
      modify (set_dmRemoteRunning true) ;;
      p ← sys CPthreadCreate;
      modify (set_dmRemoteThread (thread_id p)) ;;
      if negb (ret p =? 0) then
        SILOG_PRELOG_E SILOG_PRELOG_DAEMON "Failed to create remote thread" [] ;;
        zoom dm_remote set_dmRemote SilogRemoteDeinit ;; mret SILOG_THREAD_CREATE
      else
        modify (set_dmEnabled true) ;;
        SILOG_PRELOG_I SILOG_PRELOG_DAEMON "Remote service initialized on port %d"
          [AInt (cfg_listenPort (remote_config config))] ;;
        mret SILOG_OK.

Definition SilogDaemonRemoteDeinit : DM unit :=
  s ← get;
  if negb (dm_remoteEnabled s) then mret tt
  else
    modify (set_dmRemoteRunning false) ;;
    (if negb (dm_remoteThread s =? 0)
     then _ ← sys CPthreadJoin; modify (set_dmRemoteThread 0)
     else mret tt) ;;
    zoom dm_remote set_dmRemote SilogRemoteDeinit ;;
    modify (set_dmEnabled false) ;;
    SILOG_PRELOG_I SILOG_PRELOG_DAEMON "Remote service deinitialized" [].

Definition SilogDaemonRemoteIsEnabled : DM bool := s ← get; mret (dm_remoteEnabled s).
Definition SilogDaemonRemoteGetClientCount : DM Z :=
  s ← get;
  if negb (dm_remoteEnabled s) then mret 0
  else zoom dm_remote set_dmRemote SilogRemoteGetClientCount.

(** ** Starting and stopping *)

Definition SilogDaemonRecvThreadInit : DM ErrorCode :=
  p ← sys CPthreadCreate;
  if negb (ret p =? 0) then modify (set_dmRecvThread 0) ;; mret SILOG_THREAD_CREATE
  else modify (set_dmRecvThread (thread_id p)) ;; mret SILOG_OK.
Definition SilogDaemonWriteThreadInit : DM ErrorCode :=
  p ← sys CPthreadCreate;
  if negb (ret p =? 0) then modify (set_dmWriteThread 0) ;; mret SILOG_THREAD_CREATE
  else modify (set_dmWriteThread (thread_id p)) ;; mret SILOG_OK.

(** The second half of [SilogDaemonInit]. *)
Definition start_threads : DM ErrorCode :=
  r ← SilogDaemonRecvThreadInit;
  if decide (r <> SILOG_OK) then mret r
  else
    r ← SilogDaemonWriteThreadInit;
    if decide (r <> SILOG_OK) then
      SILOG_PRELOG_E SILOG_PRELOG_DAEMON "SilogDaemonWriteThreadInit failed: %d" [AInt (err r)] ;; mret r
    else
      r ← SilogDaemonRemoteInit (Some (MkDaemonRemote 0 0 true));
      (if decide (r <> SILOG_OK) then
         SILOG_PRELOG_W SILOG_PRELOG_DAEMON
           "Remote service init failed: %d, continuing without remote support" [AInt (err r)]
       else mret tt) ;;
      modify (set_dmRunning true) ;;
      mret SILOG_OK.

Definition SilogDaemonInit : DM ErrorCode :=
  s ← get;
  if dm_daemonRunning s then mret SILOG_OK
  else
    _ ← zoom dm_prelog set_dmPrelog (SilogPrelogInit (Some daemon_prelog_config));
    r ← zoom dm_fm set_dmFm (SilogFileManagerInit None);
    if decide (r <> SILOG_OK) then
      SILOG_PRELOG_E SILOG_PRELOG_DAEMON "SilogFileManagerInit failed: %d" [AInt (err r)] ;; mret r
    else
      s ← get;
      r ← queue_init sizeof_logEntry DAEMON_LOG_QUEUE_CAPACITY (dm_logQueue s);
      modify (set_dmQueue r.2) ;;
      if decide (r.1 <> SILOG_OK) then
        SILOG_PRELOG_E SILOG_PRELOG_DAEMON "SilogMpscQueueInit failed: %d" [AInt (err r.1)] ;;
        zoom dm_fm set_dmFm SilogFileManagerDeinit ;; mret r.1
      else
        start_threads.

Definition SilogDaemonDeinit : DM unit :=
  modify (set_dmRunning false) ;;
  s ← get;
  (if negb (dm_recvThread s =? 0) then _ ← sys CPthreadJoin; modify (set_dmRecvThread 0) else mret tt) ;;
  s ← get;
  (if negb (dm_writeThread s =? 0) then _ ← sys CPthreadJoin; modify (set_dmWriteThread 0) else mret tt) ;;
  SilogDaemonRemoteDeinit ;;
  zoom dm_prelog set_dmPrelog SilogPrelogDeinit ;;
  zoom dm_fm set_dmFm SilogFileManagerDeinit ;;
  s ← get;
  q ← queue_destroy (dm_logQueue s);
  modify (set_dmQueue q).
End daemon.

(** ** The line *)

(** An entry as the logging library builds it. *)
Record wf_entry (en : logEntry_t) : Prop := {
  wf_typed : entry_typed en;
  wf_tag : has_nul (tag en) = true;
  wf_file : has_nul (file en) = true;
  wf_msg : has_nul (msg en) = true
}.

Lemma fmt_u_u32_length n : is_u32 n -> (length (fmt_u n) <= 10)%nat.
Proof.
  unfold is_u32, fmt_u. change (2 ^ 32) with 4294967296. intros H.
  apply digits_length; [lia|]. change (10 ^ Z.of_nat 10) with 10000000000. lia.
Qed.
Lemma level_name_length n : (length (chars (SilogUtilsLevelToName n)) <= 7)%nat.
Proof. unfold SilogUtilsLevelToName. repeat case_match; cbn; lia. Qed.
Lemma level_name_nonzero n : Forall (fun c => c <> 0) (chars (SilogUtilsLevelToName n)).
Proof. unfold SilogUtilsLevelToName. repeat case_match; by repeat constructor. Qed.
Lemma fmt_d_nonzero n : Forall (fun c => c <> 0) (fmt_d n).
Proof. unfold fmt_d, fmt_u. case_if; [constructor; [lia|]|]; apply digits_nonzero. Qed.
Lemma fmt_u_nonzero n : Forall (fun c => c <> 0) (fmt_u n).
Proof. apply digits_nonzero. Qed.
#[local] Hint Resolve level_name_nonzero fmt_d_nonzero fmt_u_nonzero cstr_no_nul : silog.

(** The line of an entry fits the buffer with much to spare. *)
Lemma daemon_line_length tb en :
  wf_entry en -> (length (cstr tb) <= 31)%nat -> 0 < len (daemon_line tb en) <= 441.
Proof.
  intros [Ht H1 H2 H3] Htb. destruct Ht as [_ Hp Hi _ [Hlt _] [Hlf _] Hl [Hlm _] _ _].
  unfold SILOG_TAG_MAX_LEN, SILOG_FILE_MAX_LEN, SILOG_MSG_MAX_LEN in *.
  apply cstr_length in H1, H2, H3. pose proof (level_name_length (level en)) as Hname.
  pose proof (fmt_d_i32_length _ Hp). pose proof (fmt_d_i32_length _ Hi). pose proof (fmt_u_u32_length _ Hl).
  unfold daemon_line. generalize dependent (chars (SilogUtilsLevelToName (level en))). intros name Hn.
  rewrite !length_app. cbn [length chars map String.list_ascii_of_string]. lia.
Qed.

Lemma daemon_line_nonzero tb en : Forall (fun c => c <> 0) (daemon_line tb en).
Proof.
  unfold daemon_line. rewrite !Forall_app. split_and!; auto with silog; by repeat constructor.
Qed.

(** What the formatting of a line leaves in the buffer. *)
Lemma daemon_line_printed lb tb en :
  len lb = LOG_MSG_BUF_SIZE -> wf_entry en -> (length (cstr tb) <= 31)%nat ->
  let d := daemon_line tb en in
  exists lb', obj_snprintf_s lb LOG_MSG_BUF_SIZE (LOG_MSG_BUF_SIZE - 1) d = (len d, Some lb') /\
    len lb' = LOG_MSG_BUF_SIZE /\ rd lb' 0 (len d) = Some d.
Proof.
  intros Hb Hw Htb d. destruct (daemon_line_length tb en Hw Htb) as [_ Hd]. fold d in Hd.
  destruct (snprintf_sprint lb LOG_MSG_BUF_SIZE d) as (lb' & Ho & Hl & Hc);
    [done|done|apply daemon_line_nonzero|].
  exists lb'. split_and!; [|done|].
  - rewrite <- Ho. by destruct (obj_snprintf_s _ _ _ _) eqn:E; unfold obj_snprintf_s in E; injection E as <- <-.
  - unfold sprint, LOG_MSG_BUF_SIZE in Hc. rewrite take_ge in Hc by lia.
    rewrite (rd_Some lb' 0 (len d)) by (unfold LOG_MSG_BUF_SIZE in Hl; lia).
    change (drop (Z.to_nat 0) lb') with lb'. rewrite Nat2Z.id. pose proof (cstr_prefix lb') as Hp. rewrite Hc in Hp. by rewrite <- Hp.
Qed.

(** ** The state of the daemon *)

Definition ipc_comp_ok (c : comp SilogIpcAgent) : Prop :=
  exists X, ledger (c_trace c) = Some (ipc_held (c_mem c) ⊎ X).
Definition prelog_comp_ok (c : comp SilogPrelogManager_t) : Prop :=
  prelog_inv (c_mem c) /\ files (c_trace c) = Some (handle_set (pm_file (c_mem c))).
Definition fm_comp_ok (c : comp SilogFileManager) : Prop :=
  fm_inv (c_mem c) /\ files (c_trace c) = Some (handles (c_mem c)).
Definition remote_comp_ok (c : comp SilogRemoteManager) : Prop :=
  mgr_inv (c_mem c) /\ ledger (c_trace c) = Some (fds (c_mem c) ⊎ ∅).

(** Every component keeps its own invariant, and the remote service runs exactly
    if it is enabled. *)
Record daemon_inv (s : daemon) : Prop := {
  di_ipc : ipc_comp_ok (dm_ipc s);
  di_prelog : prelog_comp_ok (dm_prelog s);
  di_fm : fm_comp_ok (dm_fm s);
  di_remote : remote_comp_ok (dm_remote s);
  di_enabled : dm_remoteEnabled s = m_isInit (c_mem (dm_remote s))
}.

Abbreviation daemon_repr := (mpsc_repr sizeof_logEntry DAEMON_LOG_QUEUE_CAPACITY).

(** The text of an entry: its line, with the wall clock of its time stamp or an
    empty time if that is not representable. *)
Definition line_of (en : logEntry_t) (d : list Z) : Prop :=
  exists tb t, d = daemon_line tb en /\
    cstr tb = if ret t =? 0 then [] else sprint TIME_BUF_SIZE (wall_clock_text t (ts en mod 1000)).

Section rounds.
Context {W : Type} `{!Os W, !Others SilogPrelogManager_t W, !Others SilogFileManager W,
  !Others SilogRemoteManager W, !FileSys W, !FmOthersOk W, !OthersOk W, !SendLaw W}.
Implicit Types (e : env daemon W).

(** The file manager was asked once to write [d]. *)
Definition line_written (c : comp SilogFileManager) (d : list Z) (c' : comp SilogFileManager) : Prop :=
  exists m0 t0 t r, fm_interfered (W:=W) (c_mem c) t0 m0 /\ c_trace c' = c_trace c ++ t0 ++ t /\
    write_outcome m0 d r (c_mem c') t.

(** The remote service was asked once to broadcast [en]. *)
Definition relayed_one (c : comp SilogRemoteManager) (en : logEntry_t) (c' : comp SilogRemoteManager) : Prop :=
  remote_comp_ok c' /\ exists w w' r, broadcast_done en false (Env (W:=W) (c_mem c) w (c_trace c) false) r
    (Env (c_mem c') w' (c_trace c') false).

(** One round of the accepting thread. *)
Definition accepted_one (c c' : comp SilogRemoteManager) : Prop :=
  (exists t, c_trace c' = c_trace c ++ t) /\
  exists w w' r, accept_post ∅ (Env (W:=W) (c_mem c) w (c_trace c) false) r (Env (c_mem c') w' (c_trace c') false).

(** What a writing round does to a queued entry. *)
Definition handled (s : daemon) (en : logEntry_t) (s' : daemon) : Prop :=
  (exists d, line_of en d /\ line_written (dm_fm s) d (dm_fm s')) /\
  if dm_remoteEnabled s then relayed_one (dm_remote s) en (dm_remote s') else dm_remote s' = dm_remote s.

Lemma sprint_time_length t ms : (length (sprint TIME_BUF_SIZE (wall_clock_text t ms)) <= 31)%nat.
Proof. unfold sprint. rewrite length_take. change (Z.to_nat (TIME_BUF_SIZE - 1)) with 31%nat. lia. Qed.

(** The remote service after the broadcast of an entry. *)
Definition relay_done (s : daemon) (en : logEntry_t) (c : comp SilogRemoteManager) : Prop :=
  if dm_remoteEnabled s then relayed_one (dm_remote s) en c else c = dm_remote s.

Lemma relay_spec en e :
  remote_comp_ok (dm_remote (mem e)) -> dm_remoteEnabled (mem e) = m_isInit (c_mem (dm_remote (mem e))) ->
  held e = false -> entry_typed en ->
  wp (relay en)
    (fun _ e' => held e' = false /\ exists c, mem e' = set_dmRemote c (mem e) /\ remote_comp_ok c /\
       m_isInit (c_mem c) = m_isInit (c_mem (dm_remote (mem e))) /\ relay_done (mem e) en c) e.
Proof.
  intros Hr Hen Hh Ht. unfold relay, relay_done. wp_step. wp_step. destruct (dm_remoteEnabled (mem e)).
  - wp_step. apply wp_zoom. eapply wp_mono; [apply broadcast_spec; [exact Hr|done|done]|].
    cbn [mem]. intros rb [m3 w3 t3 h3] (Hg3 & Hh3 & Hs3 & Hb). cbn [held mem trace world] in *. subst h3. wp_step.
    split; [done|]. eexists. split; [reflexivity|]. split; [exact Hg3|]. split; [apply Hs3|].
    rewrite <- Hen, Hh in Hb. split; [exact Hg3|]. eexists _, w3, rb. exact Hb.
  - wp_step. split; [done|]. exists (dm_remote (mem e)). split; [by destruct (mem e)|]. done.
Qed.

(** A writing round that finds an entry writes its line and broadcasts it. *)
Lemma write_round_spec tb lb en pad l e :
  daemon_inv (mem e) -> held e = false -> len tb = TIME_BUF_SIZE -> len lb = LOG_MSG_BUF_SIZE ->
  wf_entry en -> length pad = 5%nat -> daemon_repr (dm_logQueue (mem e)) (entry_bytes en pad :: l) ->
  wp (write_round tb lb)
    (fun b e' => held e' = false /\ daemon_inv (mem e') /\ len b.1 = TIME_BUF_SIZE /\ len b.2 = LOG_MSG_BUF_SIZE /\
       daemon_repr (dm_logQueue (mem e')) l /\ dm_ipc (mem e') = dm_ipc (mem e) /\
       dm_remoteEnabled (mem e') = dm_remoteEnabled (mem e) /\ handled (mem e) en (mem e')) e.
Proof.
  intros Hi Hh Htb Hlb Hw Hpad Hq. unfold write_round. wp_step. wp_step. wp_step.
  destruct (fifo_pop_ok (Fifo:=mpsc_fifo sizeof_logEntry DAEMON_LOG_QUEUE_CAPACITY) _ _ _ Hq) as (q & Hp & Hq').
  eapply wp_lift; [cbn; rewrite Hp; done|]. cbn [fst snd default]. wp_step. wp_step.
  rewrite decide_True by done. wp_step. eapply wp_lift; [done|]. cbv zeta.
  rewrite bytes_entry_bytes by (done || apply Hw).
  wp_step. rewrite <- Htb.
  eapply wp_mono; [apply format_wall_clock_fits; [apply Hw|rewrite Htb; done]|]. cbn [mem held].
  intros o [m1 w1 t1 h1] (Hm1 & Hh1 & tb' & t & -> & Htb' & Hct). cbn [mem held] in *. subst m1 h1.
  wp_step. eapply wp_lift; [done|].
  rewrite (wf_tag _ Hw), (wf_file _ Hw), (wf_msg _ Hw). cbn [andb negb].
  rewrite Htb in Hct.
  assert (length (cstr tb') <= 31)%nat as Hc31.
  { rewrite Hct. case_if; [cbn; lia|apply sprint_time_length]. }
  destruct (daemon_line_printed lb tb' en Hlb Hw Hc31) as (lb' & Ho & Hlb' & Hrd).
  pose proof (daemon_line_length tb' en Hw Hc31) as Hlen. set (d := daemon_line tb' en) in *.
  rewrite Ho. cbn [fst snd]. wp_step. eapply wp_lift; [done|].
  assert (len d <? 0 = false) as -> by (apply Z.ltb_ge; lia).
  assert (LOG_MSG_BUF_SIZE <? len d = false) as -> by (apply Z.ltb_ge; unfold LOG_MSG_BUF_SIZE; lia).
  wp_step. apply wp_zoom. cbn [mem held trace world set_dmQueue dm_fm c_mem c_trace].
  eapply wp_mono; [apply (write_raw_spec lb' (len d) d); [apply (di_fm _ Hi)|done|lia|done]|].
  cbn [mem trace]. intros r e2 (Hfg & Hh2 & m0 & t0 & t2 & Hint & Htr & Hwo). wp_step. rewrite Hh2.
  assert (line_of en d) as Hlo by (exists tb', t; done).
  assert (line_written (dm_fm (mem e)) d (MkComp (mem e2) (trace e2))) as Hlw.
  { exists m0, t0, t2, r. cbn. done. }
  eapply wp_mono; [apply relay_spec; [apply (di_remote _ Hi)|apply (di_enabled _ Hi)|done|apply Hw]|].
  cbn [mem]. intros [] [m4 w4 t4 h4] (Hh4 & c & Hm4 & Hc & Hci & Hrel). cbn [mem held] in *. subst m4 h4. wp_step.
  split; [done|]. split.
  { split; cbn; [apply (di_ipc _ Hi)|apply (di_prelog _ Hi)|exact Hfg|exact Hc|].
    rewrite Hci. apply (di_enabled _ Hi). }
  cbn [fst snd]. split; [rewrite Htb'; done|]. split; [done|]. split; [exact Hq'|]. split; [done|]. split; [done|].
  split; [by exists d|]. done.
Qed.

(** A writing round that finds the queue empty waits. *)
Lemma write_idle_spec tb lb e :
  daemon_repr (dm_logQueue (mem e)) [] ->
  wp (write_round tb lb) (fun b e' => b = (tb, lb) /\ held e' = held e /\ mem e' = mem e) e.
Proof.
  intros Hq. unfold write_round. wp_step. wp_step. wp_step. eapply wp_lift.
  { cbn. rewrite (fifo_pop_empty (Fifo:=mpsc_fifo sizeof_logEntry DAEMON_LOG_QUEUE_CAPACITY) _ Hq). done. }
  cbn [fst snd default]. wp_step. wp_step. rewrite decide_False by done. wp_steps. split_and!; try done.
  by destruct (mem e).
Qed.

Lemma remote_round_spec e :
  daemon_inv (mem e) -> held e = false ->
  wp remote_round
    (fun _ e' => held e' = false /\ exists c, mem e' = set_dmRemote c (mem e) /\
       daemon_inv (mem e') /\ accepted_one (dm_remote (mem e)) c) e.
Proof.
  intros Hi Hh. unfold remote_round. wp_step. apply wp_zoom.
  eapply wp_mono; [apply framed_wp; [apply framed_accept|apply (accept_spec ∅)]; [apply (di_remote _ Hi)|exact Hh]|].
  intros r [m1 w1 t1 h1] [Ha [t2 Ht2]]. pose proof Ha as (Hh1 & Hg1 & (Hini & _) & _). cbn [mem held trace world] in *. subst h1.
  wp_steps. split; [done|]. eexists. split; [reflexivity|]. split.
  - split; cbn; try apply Hi; [exact Hg1|]. rewrite Hini. apply (di_enabled _ Hi).
  - rewrite Hh in Ha. split; [by exists t2|]. eexists _, w1, r. exact Ha.
Qed.

(** ** Receiving *)

(** The bytes of an entry of the logging library. *)
Definition entry_block (x : list Z) : Prop :=
  exists en pad, x = entry_bytes en pad /\ wf_entry en /\ length pad = 5%nat.

(** The datagrams received in a trace. *)
Definition datagrams (t : trace_t) : list (list Z) :=
  omap (fun ev => match ev.1 with
                  | CRecv _ _ => if 0 <? ret ev.2 then Some (out ev.2) else None
                  | _ => None
                  end) t.
Lemma datagrams_app t1 t2 : datagrams (t1 ++ t2) = datagrams t1 ++ datagrams t2.
Proof. apply omap_app. Qed.

(** The next datagram, if there is one, is an entry and arrives whole. *)
Definition only_entries {V} `{!Os V} (w : V) : Prop :=
  forall fd a w', os (CRecv fd sizeof_logEntry) w = (a, w') -> 0 < ret a -> ret a = sizeof_logEntry /\ entry_block (out a).

(** Only the logging library sends to the socket of the daemon. *)
Class ClientsOnly (V : Type) `{!Os V} : Prop := recv_entry (w : V) : only_entries w.

Lemma entry_block_length x : entry_block x -> len x = sizeof_logEntry.
Proof. intros (en & pad & -> & Hw & Hp). apply entry_bytes_length; [apply Hw|done]. Qed.

Definition listening (s : daemon) : Prop := ia_isInit (c_mem (dm_ipc s)) = true.

(** The transport after the calls [t]. *)
Definition ipc_calls (t : trace_t) (s : daemon) : daemon :=
  set_dmIpc (MkComp (c_mem (dm_ipc s)) (c_trace (dm_ipc s) ++ t)) s.

Lemma daemon_inv_calls q t s : daemon_inv s -> neutral t -> daemon_inv (set_dmQueue q (ipc_calls t s)).
Proof.
  intros [[X HX] H2 H3 H4 H5] Hn. split; try done. exists X. cbn. by rewrite Hn.
Qed.

(** With a socket, the receiving thread asks for one datagram. *)
Definition asked (s : daemon) (t : trace_t) : Prop :=
  0 <= ia_recvFd (c_mem (dm_ipc s)) -> exists fd a, t = [(CRecv fd sizeof_logEntry, a)].

Lemma recv_spec e :
  only_entries (world e) -> listening (mem e) ->
  wp (zoom dm_ipc set_dmIpc (SilogIpcServerRecv sizeof_logEntry))
    (fun r e' => held e' = held e /\ exists t, mem e' = ipc_calls t (mem e) /\ neutral t /\ asked (mem e) t /\
       (r.1 <= 0 /\ datagrams t = [] \/ r.1 = sizeof_logEntry /\ datagrams t = [r.2] /\ entry_block r.2)) e.
Proof.
  intros Hon Hls. apply wp_zoom. unfold SilogIpcServerRecv. wp_step. wp_step. rewrite Hls. cbn [negb].
  unfold SilogIpcDgramServerRecv. wp_step. wp_step. wp_step.
  - wp_step. split; [done|]. exists []. unfold ipc_calls. rewrite app_nil_r. split; [done|]. split; [apply neutral_nil|].
    split; [intros ?; cbn in *; lia|]. by left.
  - wp_steps; (split; [done|]; eexists; split; [reflexivity|]; split; [solve_neutral|]; split; [intros _; by eexists _, _|]; cbn [fst snd];
    destruct (decide (0 < ret a)) as [Hr|Hr]).
    + exfalso. lia.
    + left. split; [lia|]. unfold datagrams. cbn. by ztest.
    + right. destruct (Hon _ _ _ H Hr). split; [done|]. split; [|done]. unfold datagrams. cbn. by ztest.
    + left. split; [lia|]. unfold datagrams. cbn. by ztest.
Qed.

Lemma recv_round_spec buf l e :
  only_entries (world e) ->
  daemon_inv (mem e) -> held e = false -> listening (mem e) -> len buf = sizeof_logEntry ->
  daemon_repr (dm_logQueue (mem e)) l ->
  wp (recv_round buf)
    (fun buf' e' => held e' = false /\ len buf' = sizeof_logEntry /\
       exists q t, mem e' = set_dmQueue q (ipc_calls t (mem e)) /\ daemon_inv (mem e') /\ asked (mem e) t /\
         (datagrams t = [] /\ daemon_repr q l \/
          exists x, datagrams t = [x] /\ entry_block x /\
            (len l < DAEMON_LOG_QUEUE_CAPACITY /\ daemon_repr q (l ++ [x]) \/
             len l = DAEMON_LOG_QUEUE_CAPACITY /\ daemon_repr q l))) e.
Proof.
  intros Hon Hi Hh Hls Hb Hq. unfold recv_round. wp_step. eapply wp_mono; [by apply recv_spec|].
  intros [n d] [m1 w1 t1 h1] (Hh1 & t & Hm & Hn & Hask & Hr). cbn [mem held fst snd] in *. subst m1. rewrite Hh in Hh1. subst h1.
  assert (dm_logQueue (ipc_calls t (mem e)) = dm_logQueue (mem e)) as Hdq by done.
  destruct Hr as [[Hle Ht]|(-> & Ht & Hx)].
  - replace (Z.to_nat n) with 0%nat by lia. rewrite take_0. wp_step.
    eapply wp_lift; [apply wr_Some; cbn [length]; lia|]. cbn [take drop length app Z.to_nat Nat.add]. ztest. wp_steps.
    split; [done|]. split; [done|]. exists (dm_logQueue (mem e)), t.
    assert (set_dmQueue (dm_logQueue (mem e)) (ipc_calls t (mem e)) = ipc_calls t (mem e)) as -> by done.
    split; [done|]. split; [by apply (daemon_inv_calls (dm_logQueue (mem e)))|]. split; [done|]. by left.
  - pose proof (entry_block_length _ Hx) as Hxl. assert (take (Z.to_nat sizeof_logEntry) d = d) as Htk by (apply take_ge; lia). wp_step.
    rewrite Htk.
    eapply wp_lift; [rewrite wr_Some by (rewrite ?Hxl, ?Hb; lia); done|].
    rewrite take_0, app_nil_l, drop_ge, app_nil_r by lia. change (0 <? sizeof_logEntry) with true. cbv iota.
    wp_step. wp_step. wp_step. rewrite Hdq.
    assert (len l < DAEMON_LOG_QUEUE_CAPACITY \/ len l = DAEMON_LOG_QUEUE_CAPACITY) as [Hlt|Heq].
    { pose proof (fifo_bound (Fifo:=mpsc_fifo sizeof_logEntry DAEMON_LOG_QUEUE_CAPACITY) _ _ Hq). lia. }
    + destruct (fifo_push_ok (Fifo:=mpsc_fifo sizeof_logEntry DAEMON_LOG_QUEUE_CAPACITY) _ _ _ Hq Hxl Hlt) as (q & Hp & Hq').
      eapply wp_queue_push; [cbn; rewrite Hp; done|]. intros wq. cbn [fst]. rewrite decide_False by tauto. wp_steps.
      split; [done|]. split; [done|]. exists q, t. split; [done|].
      split; [by apply daemon_inv_calls|]. split; [done|]. right. exists d. split; [done|]. split; [done|]. by left.
    + destruct (fifo_push_full (Fifo:=mpsc_fifo sizeof_logEntry DAEMON_LOG_QUEUE_CAPACITY) _ _ d Hq Heq) as (q & Hp & Hq').
      eapply wp_queue_push; [cbn; rewrite Hp; done|]. intros wq. cbn [fst]. rewrite decide_True by done. wp_steps.
      split; [done|]. split; [done|]. exists q, t. split; [done|].
      split; [by apply daemon_inv_calls|]. split; [done|]. right. exists d. split; [done|]. split; [done|]. by right.
Qed.

(** ** The threads together

    Rounds of the three threads in any order, with the local variables of the
    threads. *)
Inductive daemon_step := StRecv | StWrite | StAccept.
Record locals := MkLocals { lc_entry : list Z; lc_time : list Z; lc_log : list Z }.
Definition locals_ok (lc : locals) : Prop :=
  len (lc_entry lc) = sizeof_logEntry /\ len (lc_time lc) = TIME_BUF_SIZE /\ len (lc_log lc) = LOG_MSG_BUF_SIZE.

Definition run_step (o : daemon_step) (lc : locals) : M daemon W locals :=
  match o with
  | StRecv => b ← recv_round (lc_entry lc); mret (MkLocals b (lc_time lc) (lc_log lc))
  | StWrite => b ← write_round (lc_time lc) (lc_log lc); mret (MkLocals (lc_entry lc) b.1 b.2)
  | StAccept => remote_round ;; mret lc
  end.
Fixpoint run_steps (os : list daemon_step) (lc : locals) : M daemon W locals :=
  match os with
  | [] => mret lc
  | o :: os => lc ← run_step o lc; run_steps os lc
  end.

(** The file manager and the remote service are asked to handle a list of entries
    one after the other, while clients are accepted. *)
Inductive served (enabled : bool) :
    comp SilogFileManager -> comp SilogRemoteManager -> list logEntry_t ->
    comp SilogFileManager -> comp SilogRemoteManager -> Prop :=
  | served_nil fm rm : served enabled fm rm [] fm rm
  | served_accept fm rm rm1 ens fm' rm' :
      accepted_one rm rm1 -> served enabled fm rm1 ens fm' rm' -> served enabled fm rm ens fm' rm'
  | served_entry fm rm d en fm1 rm1 ens fm' rm' :
      line_of en d -> line_written fm d fm1 ->
      (if enabled then relayed_one rm en rm1 else rm1 = rm) ->
      served enabled fm1 rm1 ens fm' rm' -> served enabled fm rm (en :: ens) fm' rm'.

(** The state of the pipeline with the blocks [l] in the queue. *)
Definition piped (l : list (list Z)) e (lc : locals) : Prop :=
  held e = false /\ daemon_inv (mem e) /\ listening (mem e) /\ locals_ok lc /\
  daemon_repr (dm_logQueue (mem e)) l /\ Forall entry_block l.

(** From the blocks [l] in the queue: [ens] were handled and [rest] is queued now,
    after the datagrams of [t] arrived; those that found the queue full are lost. *)
Definition piped_to (l : list (list Z)) e (ens rest : list (list Z)) e' : Prop :=
  exists t acc, c_trace (dm_ipc (mem e')) = c_trace (dm_ipc (mem e)) ++ t /\
    sublist acc (datagrams t) /\
    (len l + len (datagrams t) <= DAEMON_LOG_QUEUE_CAPACITY -> acc = datagrams t) /\
    l ++ acc = ens ++ rest /\
    dm_remoteEnabled (mem e') = dm_remoteEnabled (mem e) /\
    served (dm_remoteEnabled (mem e)) (dm_fm (mem e)) (dm_remote (mem e)) (map bytes_entry ens)
      (dm_fm (mem e')) (dm_remote (mem e')).

Lemma served_trans b fm rm ens1 fm1 rm1 ens2 fm2 rm2 :
  served b fm rm ens1 fm1 rm1 -> served b fm1 rm1 ens2 fm2 rm2 -> served b fm rm (ens1 ++ ens2) fm2 rm2.
Proof. induction 1; intros; cbn [app]; [done|by eapply served_accept; eauto|by eapply served_entry; eauto]. Qed.

Lemma piped_to_trans l e ens1 l1 e1 ens2 l2 e2 :
  piped_to l e ens1 l1 e1 -> piped_to l1 e1 ens2 l2 e2 -> piped_to l e (ens1 ++ ens2) l2 e2.
Proof.
  intros (t1 & acc1 & Ht1 & Hs1 & Hc1 & He1 & Hen1 & Hv1) (t2 & acc2 & Ht2 & Hs2 & Hc2 & He2 & Hen2 & Hv2).
  exists (t1 ++ t2), (acc1 ++ acc2). rewrite datagrams_app, length_app, map_app, Hen1 in *.
  split; [by rewrite Ht2, Ht1, (assoc_L (++))|]. split; [by apply sublist_app|]. split.
  { intros Hcap. specialize (Hc1 ltac:(lia)). subst acc1. rewrite Hc2; [done|].
    apply (f_equal length) in He1. rewrite !length_app in He1. lia. }
  split; [by rewrite (assoc_L (++)), He1, <- !(assoc_L (++)), He2|]. split; [done|]. by eapply served_trans.
Qed.

(** The calls of the transport between two states. *)
Definition recv_news e e' : trace_t := drop (length (c_trace (dm_ipc (mem e)))) (c_trace (dm_ipc (mem e'))).

Lemma recv_step_spec lc l e :
  only_entries (world e) -> piped l e lc ->
  wp (run_step StRecv lc)
    (fun lc' e' => exists l', piped l' e' lc' /\ piped_to l e [] l' e' /\
       c_mem (dm_ipc (mem e')) = c_mem (dm_ipc (mem e)) /\ asked (mem e) (recv_news e e') /\
       dm_remote (mem e') = dm_remote (mem e)) e.
Proof.
  intros Hon (Hh & Hi & Hls & (He & Ht & Hl) & Hq & Hbl). cbn [run_step].
  wp_step. eapply wp_mono; [by apply (recv_round_spec _ l)|].
  intros b [m1 w1 t1 h1] (Hh1 & Hb & q & t & Hm & Hi1 & Hask & Ho). cbn [mem held] in *. subst m1 h1. wp_step.
  assert (forall acc, daemon_repr q (l ++ acc) -> Forall entry_block acc -> sublist acc (datagrams t) ->
    (len l + len (datagrams t) <= DAEMON_LOG_QUEUE_CAPACITY -> acc = datagrams t) ->
    exists l', piped l' (Env (set_dmQueue q (ipc_calls t (mem e))) w1 t1 false) (MkLocals b (lc_time lc) (lc_log lc)) /\
      piped_to l e [] l' (Env (set_dmQueue q (ipc_calls t (mem e))) w1 t1 false) /\
      c_mem (dm_ipc (set_dmQueue q (ipc_calls t (mem e)))) = c_mem (dm_ipc (mem e)) /\
      asked (mem e) (recv_news e (Env (set_dmQueue q (ipc_calls t (mem e))) w1 t1 false)) /\
      dm_remote (set_dmQueue q (ipc_calls t (mem e))) = dm_remote (mem e)) as Hout.
  { intros acc Hr Hf Hs Hc. exists (l ++ acc). split; [split_and!; try done; by apply Forall_app|].
    split; [exists t, acc; split_and!; try done; constructor|]. split; [done|]. split; [|done].
    unfold recv_news. cbn [mem dm_ipc set_dmQueue ipc_calls set_dmIpc c_trace]. by rewrite drop_app_length. }
  destruct Ho as [[Hd Hr]|(x & Hd & Hx & [[Hlt Hr]|[Heq Hr]])]; rewrite Hd in *.
  - apply (Hout []); try done. by rewrite app_nil_r.
  - apply (Hout [x]); try done. by constructor.
  - apply (Hout []); try done; [by rewrite app_nil_r|apply sublist_nil_l|cbn [length]; lia].
Qed.

Lemma piped_to_refl l e e' : mem e' = mem e -> piped_to l e [] l e'.
Proof. intros Hm. exists [], []. rewrite !app_nil_r, Hm. split_and!; try done. constructor. Qed.

Lemma write_step_spec lc l e :
  piped l e lc ->
  wp (run_step StWrite lc)
    (fun lc' e' => piped (drop 1 l) e' lc' /\ piped_to l e (take 1 l) (drop 1 l) e' /\
       dm_ipc (mem e') = dm_ipc (mem e)) e.
Proof.
  intros (Hh & Hi & Hls & (He & Ht & Hl) & Hq & Hbl). cbn [run_step]. wp_step. destruct l as [|x l].
  - eapply wp_mono; [by apply write_idle_spec|]. intros b [m1 w1 t1 h1] (-> & Hh1 & Hm). cbn [mem held] in *.
    rewrite Hh in Hh1. subst m1 h1. wp_step. split; [split_and!; done|]. split; [by apply piped_to_refl|done].
  - apply Forall_cons_1 in Hbl as [(en & pad & -> & Hw & Hpad) Hbl].
    eapply wp_mono; [by eapply write_round_spec|].
    intros [tb lb] e1 (Hh1 & Hi1 & Htb & Hlb & Hq1 & Hipc & Hen1 & [(d & Hd & Hlw) Hrel]). wp_step.
    cbn [take drop]. split; [split_and!; try done; unfold listening; by rewrite Hipc|].
    split; [|done].
    exists [], []. rewrite app_nil_r, Hipc. split; [done|]. split; [done|]. split; [done|]. split; [by rewrite app_nil_r|].
    split; [done|]. cbn [map]. rewrite bytes_entry_bytes by (done || apply Hw).
    eapply served_entry; [done|done|done|constructor].
Qed.

Lemma accept_step_spec lc l e :
  piped l e lc ->
  wp (run_step StAccept lc)
    (fun lc' e' => piped l e' lc' /\ piped_to l e [] l e' /\ dm_ipc (mem e') = dm_ipc (mem e)) e.
Proof.
  intros (Hh & Hi & Hls & Hlc & Hq & Hbl). cbn [run_step].
  wp_step. eapply wp_mono; [by apply remote_round_spec|].
  intros [] [m1 w1 t1 h1] (Hh1 & c & Hm & Hi1 & Hac). cbn [mem held] in *. subst m1 h1. wp_step.
  split; [split_and!; done|]. split; [|done]. exists [], []. rewrite !app_nil_r. split_and!; try done.
  eapply served_accept; [done|constructor].
Qed.

Lemma run_step_spec o lc l e :
  (o = StRecv -> only_entries (world e)) -> piped l e lc ->
  wp (run_step o lc) (fun lc' e' => exists ens l', piped l' e' lc' /\ piped_to l e ens l' e') e.
Proof.
  intros Hon Hp. destruct o.
  - specialize (Hon eq_refl). eapply wp_mono; [by apply recv_step_spec|]. intros lc' e' (l' & ? & ? & _). by exists [], l'.
  - eapply wp_mono; [by apply write_step_spec|]. intros lc' e' (? & ? & _). by exists (take 1 l), (drop 1 l).
  - eapply wp_mono; [by apply accept_step_spec|]. intros lc' e' (? & ? & _). by exists [], l.
Qed.

Lemma pipeline_spec `{!ClientsOnly W} os lc l e :
  piped l e lc ->
  wp (run_steps os lc) (fun lc' e' => exists ens l', piped l' e' lc' /\ piped_to l e ens l' e') e.
Proof.
  revert lc l e. induction os as [|o os IH]; intros lc l e Hp; cbn [run_steps].
  { wp_step. exists [], l. split; [done|]. by apply piped_to_refl. }
  wp_step. eapply wp_mono; [apply run_step_spec; [intros _; apply recv_entry|done]|]. intros lc1 e1 (ens1 & l1 & Hp1 & Ht1).
  eapply wp_mono; [by apply (IH _ l1)|]. intros lc2 e2 (ens2 & l2 & Hp2 & Ht2).
  exists (ens1 ++ ens2), l2. split; [done|]. by eapply piped_to_trans.
Qed.

(** [n] rounds of the writing thread handle the first [n] queued entries. *)
Lemma write_thread_spec n tb lb l e :
  held e = false -> daemon_inv (mem e) -> len tb = TIME_BUF_SIZE -> len lb = LOG_MSG_BUF_SIZE ->
  daemon_repr (dm_logQueue (mem e)) l -> Forall entry_block l ->
  wp (SilogDaemonWriteThreadFunc n tb lb)
    (fun _ e' => held e' = false /\ daemon_inv (mem e') /\ daemon_repr (dm_logQueue (mem e')) (drop n l) /\
       dm_ipc (mem e') = dm_ipc (mem e) /\ dm_remoteEnabled (mem e') = dm_remoteEnabled (mem e) /\
       served (dm_remoteEnabled (mem e)) (dm_fm (mem e)) (dm_remote (mem e)) (map bytes_entry (take n l))
         (dm_fm (mem e')) (dm_remote (mem e'))) e.
Proof.
  unfold SilogDaemonWriteThreadFunc. revert tb lb l e.
  induction n as [|n IH]; intros tb lb l e Hh Hi Htb Hlb Hq Hbl; cbn [write_loop].
  { wp_step. split_and!; try done. constructor. }
  wp_step. destruct l as [|x l].
  - eapply wp_mono; [by apply write_idle_spec|]. intros b e1 (-> & Hh1 & Hm). cbn [fst snd].
    eapply wp_mono; [apply (IH _ _ []); by rewrite ?Hm, ?Hh1|]. intros [] e2. rewrite Hm, drop_nil, take_nil. done.
  - apply Forall_cons_1 in Hbl as [(en & pad & -> & Hw & Hpad) Hbl]. eapply wp_mono; [by eapply write_round_spec|].
    intros [tb' lb'] e1 (Hh1 & Hi1 & Htb' & Hlb' & Hq1 & Hipc & Hen1 & [(d & Hd & Hlw) Hrel]). cbn [fst snd].
    eapply wp_mono; [by apply (IH _ _ l)|]. intros [] e2 (Hh2 & Hi2 & Hq2 & Hipc2 & Hen2 & Hsv).
    rewrite Hen1 in *. cbn [drop take map]. rewrite bytes_entry_bytes by (done || apply Hw).
    split_and!; try done; [congruence|]. by eapply served_entry.
Qed.

(** ** The receiving thread as a whole *)

Lemma recv_loop_spec `{!ClientsOnly W} n buf l e :
  held e = false -> daemon_inv (mem e) -> listening (mem e) -> len buf = sizeof_logEntry ->
  daemon_repr (dm_logQueue (mem e)) l ->
  wp (recv_loop n buf)
    (fun _ e' => held e' = false /\ daemon_inv (mem e') /\ exists q t acc,
       mem e' = set_dmQueue q (ipc_calls t (mem e)) /\ daemon_repr q (l ++ acc) /\ sublist acc (datagrams t)) e.
Proof.
  revert buf l e. induction n as [|n IH]; intros buf l e Hh Hi Hls Hb Hq; cbn [recv_loop].
  { wp_step. split; [done|]. split; [done|]. exists (dm_logQueue (mem e)), [], []. unfold ipc_calls.
    rewrite !app_nil_r. split; [by destruct (mem e) as [? ? ? ? ? ? ? []]|]. done. }
  wp_step. eapply wp_mono; [apply (recv_round_spec _ l); [apply recv_entry|done..]|].
  intros b e1 (Hh1 & Hb1 & q1 & t1 & Hm1 & Hi1 & _ & Ho).
  assert (exists acc1, daemon_repr q1 (l ++ acc1) /\ sublist acc1 (datagrams t1)) as (acc1 & Hq1 & Hs1).
  { destruct Ho as [[Hd Hr]|(x & Hd & Hx & [[Hlt Hr]|[Heq Hr]])]; rewrite Hd.
    - exists []. by rewrite app_nil_r.
    - by exists [x].
    - exists []. rewrite app_nil_r. split; [done|apply sublist_nil_l]. }
  eapply wp_mono; [apply (IH _ (l ++ acc1)); [done|done|by rewrite Hm1|done|by rewrite Hm1]|].
  intros [] e2 (Hh2 & Hi2 & q2 & t2 & acc2 & Hm2 & Hq2 & Hs2).
  split; [done|]. split; [done|]. exists q2, (t1 ++ t2), (acc1 ++ acc2). rewrite (assoc_L (++)), datagrams_app.
  split; [|split; [done|by apply sublist_app]]. rewrite Hm2, Hm1. unfold ipc_calls. cbn. by rewrite (assoc_L (++)).
Qed.

Lemma daemon_inv_ipc c s : daemon_inv s -> ipc_comp_ok c -> daemon_inv (set_dmIpc c s).
Proof. intros [] ?. by split. Qed.

(** The thread opens its socket, receives, and closes it again. *)
Lemma recv_thread_spec `{!ClientsOnly W} n buf l e :
  held e = false -> daemon_inv (mem e) -> len buf = sizeof_logEntry -> daemon_repr (dm_logQueue (mem e)) l ->
  wp (SilogDaemonRecvThreadFunc n buf)
    (fun _ e' => held e' = false /\ daemon_inv (mem e') /\ exists acc, daemon_repr (dm_logQueue (mem e')) (l ++ acc)) e.
Proof.
  intros Hh Hi Hb Hq. unfold SilogDaemonRecvThreadFunc. wp_step. apply wp_zoom. destruct (di_ipc _ Hi) as [X HX].
  eapply wp_mono; [by apply (ipc_init_spec X)|]. intros [] [m1 w1 t1 h1] (Hh1 & Ht1 & Hi1 & Hm1).
  cbn [mem held trace world] in *. rewrite Hh in Hh1. subst h1. wp_step. apply wp_zoom.
  cbn [mem held trace world set_dmIpc dm_ipc c_mem c_trace].
  eapply wp_mono; [apply server_init_spec; by exists X|]. intros r [m2 w2 t2 h2] (Hi2 & Hh2 & Hini).
  cbn [mem held trace world] in *. subst h2. destruct (decide (r <> SILOG_OK)) as [Hr|Hr].
  { wp_step. split; [done|]. split; [exact (daemon_inv_ipc (MkComp m2 t2) _ Hi Hi2)|]. exists []. by rewrite app_nil_r. }
  wp_step. eapply wp_mono; [apply (recv_loop_spec n buf l); try done; [exact (daemon_inv_ipc (MkComp m2 t2) _ Hi Hi2)|]|].
  { unfold listening. cbn. rewrite Hini, Hm1. by destruct (ia_isInit _) eqn:?. }
  cbn [mem held]. intros [] [m3 w3 t3 h3] (Hh3 & Hi3 & q & t & acc & Hm3 & Hq3 & _). cbn [mem held] in *. subst h3.
  apply wp_zoom. cbn [mem held trace world]. destruct (di_ipc _ Hi3) as [Y HY].
  eapply wp_mono; [apply server_close_spec; by exists Y|]. intros _ [m4 w4 t4 h4] (Hi4 & Hh4). cbn [mem held trace world] in *.
  split; [done|]. split; [by apply daemon_inv_ipc|]. exists acc. by rewrite Hm3.
Qed.
End rounds.

(** ** Starting and stopping *)

Definition remote_typed (config : option SilogDaemonRemoteConfig) : Prop :=
  match config with Some c => is_u16 (dr_listenPort c) /\ is_u32 (dr_maxClients c) | None => True end.
Lemma remote_config_typed config : remote_typed config -> config_typed (remote_config config).
Proof.
  unfold config_typed, remote_typed, remote_config, is_u16, is_u32, SILOG_REMOTE_DEFAULT_PORT,
    SILOG_REMOTE_DEFAULT_MAX_CLIENTS.
  destruct config as [c|]; cbn [cfg_listenPort cfg_maxClients]; repeat case_match; lia.
Qed.

Section lifecycle.
Context {W : Type} `{!Os W, !Others SilogPrelogManager_t W, !Others SilogFileManager W,
  !Others SilogRemoteManager W, !FileSys W, !FmOthersOk W, !OthersOk W, !PrelogOthersOk W}.
Implicit Types (e : env daemon W).

(** Waiting for a thread that may not have been started. *)
Lemma wp_join n (f : daemon -> daemon) (Q : unit -> env daemon W -> Prop) e :
  (n = 0 -> f (mem e) = mem e) -> (forall w t, Q tt (Env (f (mem e)) w t (held e))) ->
  wp (if negb (n =? 0) then _ ← sys CPthreadJoin; modify f else mret tt) Q e.
Proof.
  intros Hf HQ. destruct (n =? 0) eqn:Hn; cbn [negb]; [|wp_steps; apply HQ]. reflectZ. wp_step.
  destruct e as [m w t h]. cbn [mem held] in *. rewrite <- (Hf Hn). apply HQ.
Qed.

(** The variables of the remote service alone have changed. *)
Definition remote_changed (s s' : daemon) : Prop :=
  exists b t r c, s' = set_dmEnabled b (set_dmRemoteThread t (set_dmRemoteRunning r (set_dmRemote c s))).

Lemma remote_changed_refl s : remote_changed s s.
Proof. exists (dm_remoteEnabled s), (dm_remoteThread s), (dm_remoteRunning s), (dm_remote s). by destruct s. Qed.

Lemma daemon_inv_remote b t r c s :
  daemon_inv s -> remote_comp_ok c -> b = m_isInit (c_mem c) ->
  daemon_inv (set_dmEnabled b (set_dmRemoteThread t (set_dmRemoteRunning r (set_dmRemote c s)))).
Proof. intros [] ??. by split. Qed.

Lemma stopped_ok c :
  mgr_inv (c_mem c) -> m_isInit (c_mem c) = false -> ledger (c_trace c) = Some ∅ -> remote_comp_ok c.
Proof. intros Hm Hi Hl. split; [done|]. by rewrite Hl, fds_uninit. Qed.

Lemma remote_init_spec config e :
  daemon_inv (mem e) -> held e = false -> remote_typed config ->
  wp (SilogDaemonRemoteInit config)
    (fun r e' => held e' = false /\ daemon_inv (mem e') /\ remote_changed (mem e) (mem e') /\
       (r = SILOG_OK <-> dm_remoteEnabled (mem e') = true)) e.
Proof.
  intros Hi Hh Hc. unfold SilogDaemonRemoteInit. wp_step. wp_step.
  pose proof (di_enabled _ Hi) as Hen. destruct (dm_remoteEnabled (mem e)) eqn:Hb.
  { wp_step. split_and!; try done. apply remote_changed_refl. }
  wp_step. apply wp_zoom.
  eapply wp_mono; [apply (init_spec (Some (remote_config config))); [apply (di_remote _ Hi)|by apply remote_config_typed]|].
  cbn [mem]. rewrite <- Hen. intros r [m1 w1 t1 h1] (Hg & Hh1 & _ & _ & _ & Hr). cbn [mem held trace world] in *.
  rewrite Hh in Hh1. subst h1. destruct (decide (r <> SILOG_OK)) as [Hne|Heq].
  { assert (m_isInit m1 = false) as Hf by (destruct (m_isInit m1); [done|done]). wp_step. split; [done|].
    assert (set_dmRemote (MkComp m1 t1) (mem e) = set_dmEnabled false (set_dmRemoteThread (dm_remoteThread (mem e))
      (set_dmRemoteRunning (dm_remoteRunning (mem e)) (set_dmRemote (MkComp m1 t1) (mem e))))) as ->
      by (rewrite <- Hb; done).
    split; [by apply daemon_inv_remote|]. split; [by do 4 eexists|]. cbn. by destruct r. }
  apply dec_stable in Heq. subst r. assert (m_isInit m1 = true) as Ht by (destruct (m_isInit m1); [done|by destruct Hr]).
  wp_step. wp_step. wp_step. wp_step. wp_step. wp_step. wp_step.
  - wp_step. apply wp_zoom. cbn [mem held trace world set_dmRemoteThread set_dmRemoteRunning set_dmRemote dm_remote c_mem c_trace].
    eapply wp_mono; [apply deinit_spec; [exact Hg|done]|].
    intros _ [m2 w2 t2 h2] (Hh2 & Hi2 & Hf2 & Hl2). cbn [mem held trace world] in *. subst h2. wp_step.
    split; [done|]. assert (remote_comp_ok (MkComp m2 t2)) as Hok by by apply stopped_ok.
    split; [by apply (daemon_inv_remote (dm_remoteEnabled (mem e)) (thread_id a) true (MkComp m2 t2) (mem e)); rewrite ?Hb|].
    split; [by exists (dm_remoteEnabled (mem e)), (thread_id a), true, (MkComp m2 t2)|]. cbn. by rewrite Hb.
  - wp_step. wp_step. wp_step. split; [done|].
    split; [by apply (daemon_inv_remote true (thread_id a) true (MkComp m1 t1) (mem e))|].
    split; [by exists true, (thread_id a), true, (MkComp m1 t1)|]. done.
Qed.

Lemma remote_deinit_spec e :
  daemon_inv (mem e) -> held e = false ->
  wp SilogDaemonRemoteDeinit
    (fun _ e' => held e' = false /\ daemon_inv (mem e') /\ remote_changed (mem e) (mem e') /\
       dm_remoteEnabled (mem e') = false /\ ledger (c_trace (dm_remote (mem e'))) = Some ∅) e.
Proof.
  intros Hi Hh. unfold SilogDaemonRemoteDeinit. wp_step. wp_step. pose proof (di_enabled _ Hi) as Hen.
  destruct (dm_remoteEnabled (mem e)) eqn:Hb; cbn [negb].
  2:{ wp_step. split_and!; try done; [apply remote_changed_refl|].
      destruct (di_remote _ Hi) as [Hm Hl]. by rewrite Hl, fds_uninit. }
  wp_step. wp_step. wp_step.
  apply wp_join; [intros H0; rewrite <- H0; by destruct (mem e)|]. intros w1 t1. cbn [mem held]. wp_step. apply wp_zoom.
  eapply wp_mono; [apply deinit_spec; [apply (di_remote _ Hi)|done]|].
  intros _ [m2 w2 t2 h2] (Hh2 & Hi2 & Hf2 & Hl2). cbn [mem held trace world] in *. subst h2. wp_steps.
  split; [done|]. assert (remote_comp_ok (MkComp m2 t2)) as Hok by by apply stopped_ok.
  split; [by apply (daemon_inv_remote false 0 false (MkComp m2 t2) (mem e))|].
  split; [by exists false, 0, false, (MkComp m2 t2)|]. done.
Qed.

(** [s'] has the components of [s] and may differ in the other variables. *)
Definition same_comps (s s' : daemon) : Prop :=
  dm_ipc s' = dm_ipc s /\ dm_prelog s' = dm_prelog s /\ dm_fm s' = dm_fm s /\ dm_remote s' = dm_remote s /\
  dm_remoteEnabled s' = dm_remoteEnabled s.
Lemma daemon_inv_same s s' : daemon_inv s -> same_comps s s' -> daemon_inv s'.
Proof. intros [] (E1 & E2 & E3 & E4 & E5). split; by rewrite ?E1, ?E2, ?E3, ?E4, ?E5. Qed.
Lemma daemon_inv_fm c s : daemon_inv s -> fm_comp_ok c -> daemon_inv (set_dmFm c s).
Proof. intros [] ?. by split. Qed.
Lemma daemon_inv_prelog c s : daemon_inv s -> prelog_comp_ok c -> daemon_inv (set_dmPrelog c s).
Proof. intros [] ?. by split. Qed.

(** No file is open. *)
Definition fm_stopped (c : comp SilogFileManager) : Prop :=
  fm_initialized (c_mem c) = false /\ files (c_trace c) = Some ∅.

Lemma zoom_fm_deinit e :
  daemon_inv (mem e) -> held e = false ->
  wp (zoom dm_fm set_dmFm SilogFileManagerDeinit)
    (fun _ e' => held e' = false /\ exists c, mem e' = set_dmFm c (mem e) /\ daemon_inv (mem e') /\ fm_stopped c) e.
Proof.
  intros Hi Hh. apply wp_zoom. eapply wp_mono; [apply fm_deinit_spec; [apply (di_fm _ Hi)|exact Hh]|].
  intros _ e1 (Hg & Hh1 & Hin & _ & _ & Hf). split; [done|]. eexists. split; [reflexivity|].
  split; [by apply daemon_inv_fm|done].
Qed.

Lemma zoom_fm_init e :
  daemon_inv (mem e) -> held e = false ->
  wp (zoom dm_fm set_dmFm (SilogFileManagerInit None))
    (fun r e' => held e' = false /\ exists c, mem e' = set_dmFm c (mem e) /\ daemon_inv (mem e') /\
       (r = SILOG_OK /\ fm_initialized (c_mem c) = true \/ r <> SILOG_OK /\ fm_stopped c)) e.
Proof.
  intros Hi Hh. apply wp_zoom. unfold SilogFileManagerInit. destruct default_config_ok as (d & -> & Hd & _).
  wp_step. eapply wp_lift; [done|]. eapply wp_mono; [apply (init_config_spec d); [done|apply (di_fm _ Hi)|exact Hh]|].
  intros r [m1 w1 t1 h1] (Hg & Hh1 & m0 & t0 & _ & Ho). cbn [mem held trace world] in *. subst h1. split; [done|].
  eexists. split; [reflexivity|]. split; [by apply daemon_inv_fm|]. cbn [c_mem c_trace].
  destruct (fm_initialized m0) eqn:Hini; [left; destruct Ho as [? ->]; done|].
  destruct Ho as [_ [(? & ? & _)|(? & ? & Hfd)]]; [by left|]. right. split; [done|]. split; [done|].
  destruct Hg as [_ Hf]. cbn [mem trace] in Hf. unfold handles in Hf. by rewrite Hfd in Hf.
Qed.

(** How a start ends. *)
Definition daemon_started (s : daemon) (r : ErrorCode) (s' : daemon) : Prop :=
  if dm_daemonRunning s then r = SILOG_OK /\ s' = s
  else r = SILOG_OK /\ dm_daemonRunning s' = true /\ fm_initialized (c_mem (dm_fm s')) = true /\
         pm_initialized (c_mem (dm_prelog s')) = true /\ daemon_repr (dm_logQueue s') [] \/
       r <> SILOG_OK /\ dm_daemonRunning s' = false /\ dm_remoteEnabled s' = dm_remoteEnabled s /\
         (fm_stopped (dm_fm s') \/
          r = SILOG_THREAD_CREATE /\ fm_initialized (c_mem (dm_fm s')) = true /\ daemon_repr (dm_logQueue s') []).

Lemma recv_thread_init_spec e :
  wp SilogDaemonRecvThreadInit
    (fun r e' => held e' = held e /\ exists t, mem e' = set_dmRecvThread t (mem e) /\
       (r = SILOG_OK \/ r = SILOG_THREAD_CREATE)) e.
Proof.
  unfold SilogDaemonRecvThreadInit. wp_steps; (split; [done|]); (eexists; split; [reflexivity|]); auto.
Qed.
Lemma write_thread_init_spec e :
  wp SilogDaemonWriteThreadInit
    (fun r e' => held e' = held e /\ exists t, mem e' = set_dmWriteThread t (mem e) /\
       (r = SILOG_OK \/ r = SILOG_THREAD_CREATE)) e.
Proof.
  unfold SilogDaemonWriteThreadInit. wp_steps; (split; [done|]); (eexists; split; [reflexivity|]); auto.
Qed.

(** The threads of a daemon whose file manager and queue are ready. *)
Definition threads_started (s : daemon) (r : ErrorCode) (s' : daemon) : Prop :=
  dm_prelog s' = dm_prelog s /\ dm_fm s' = dm_fm s /\ dm_logQueue s' = dm_logQueue s /\
  (r = SILOG_OK /\ dm_daemonRunning s' = true \/
   r = SILOG_THREAD_CREATE /\ dm_daemonRunning s' = dm_daemonRunning s /\ dm_remoteEnabled s' = dm_remoteEnabled s).

Lemma start_threads_spec e :
  daemon_inv (mem e) -> held e = false ->
  wp start_threads (fun r e' => held e' = false /\ daemon_inv (mem e') /\ threads_started (mem e) r (mem e')) e.
Proof.
  intros Hi Hh. unfold start_threads. wp_step. eapply wp_mono; [apply recv_thread_init_spec|].
  intros r1 [m1 w1 t1 h1] (Hh1 & th1 & Hm1 & Hr1). cbn [mem held] in *. rewrite Hh in Hh1. subst h1 m1.
  assert (daemon_inv (set_dmRecvThread th1 (mem e))) as Hi1 by by eapply daemon_inv_same.
  destruct (decide (r1 <> SILOG_OK)) as [Hne|_].
  { wp_step. destruct Hr1; [done|]. split; [done|]. split; [done|]. split_and!; try done. by right. }
  wp_step. eapply wp_mono; [apply write_thread_init_spec|]. clear Hr1.
  intros r2 [m2 w2 t2 h2] (Hh2 & th2 & Hm2 & Hr2). cbn [mem held] in *. subst h2 m2.
  assert (daemon_inv (set_dmWriteThread th2 (set_dmRecvThread th1 (mem e)))) as Hi2 by by eapply daemon_inv_same.
  destruct (decide (r2 <> SILOG_OK)) as [Hne|_].
  { wp_step. destruct Hr2; [done|]. split; [done|]. split; [done|]. split_and!; try done. by right. }
  wp_step. eapply wp_mono; [apply (remote_init_spec (Some (MkDaemonRemote 0 0 true))); [done|done|by split; split; cbn; lia]|].
  intros r3 [m3 w3 t3 h3] (Hh3 & Hi3 & (b & t & rr & cr & Hm3) & _). cbn [mem held] in *. subst h3.
  wp_step. eapply wp_mono with (fun _ e' => same_state (Env m3 w3 t3 false) e'); [case_decide; by wp_steps|].
  intros [] [m4 w4 t4 h4] (Hm4 & _ & Hh4). cbn [mem held] in *. subst h4 m4.
  wp_steps. split; [done|]. split; [by eapply daemon_inv_same|]. rewrite Hm3. split_and!; try done. by left.
Qed.

Lemma daemon_init_spec e :
  daemon_inv (mem e) -> held e = false ->
  wp SilogDaemonInit
    (fun r e' => held e' = false /\ daemon_inv (mem e') /\ daemon_started (mem e) r (mem e')) e.
Proof.
  intros Hi Hh. unfold SilogDaemonInit, daemon_started. wp_step. wp_step. destruct (dm_daemonRunning (mem e)) eqn:Hrun.
  { by wp_step. }
  wp_step. apply wp_zoom.
  eapply wp_mono; [apply prelog_init_spec; [by intros c [= <-]|apply (di_prelog _ Hi)|exact Hh]|].
  intros _ [m1 w1 t1 h1] (_ & Hp & Hh1 & Hpi). cbn [mem held trace world] in *. subst h1.
  assert (daemon_inv (set_dmPrelog (MkComp m1 t1) (mem e))) as Hi1 by by apply daemon_inv_prelog. wp_step.
  eapply wp_mono; [by apply zoom_fm_init|]. cbn [mem].
  intros r [m2 w2 t2 h2] (Hh2 & c & Hm2 & Hi2 & Hr). cbn [mem held] in *. subst h2.
  destruct (decide (r <> SILOG_OK)) as [Hne|Heq].
  { wp_step. split; [done|]. split; [done|]. right. rewrite Hm2. cbn. destruct Hr as [[? _]|[_ ?]]; [done|].
    split_and!; try done. by left. }
  destruct Hr as [[_ Hfi]|[? _]]; [|done]. wp_step.
  wp_step. wp_step. apply (wp_queue_init _ _ 12); [done|lia|done|done|]. intros rq q w3 t3 _ Hq. cbn [mem held trace]. wp_step. wp_step.
  cbn [fst snd].
  assert (daemon_inv (set_dmQueue q m2)) as Hi3 by (by eapply daemon_inv_same).
  destruct (decide (rq <> SILOG_OK)) as [Hne|Heq2].
  { wp_step. eapply wp_mono; [by apply zoom_fm_deinit|]. intros [] e4 (Hh4 & c4 & Hm4 & Hi4 & Hst). wp_step.
    split; [done|]. split; [done|]. right. rewrite Hm4, Hm2. cbn. split_and!; try done. by left. }
  apply dec_stable in Heq2. specialize (Hq Heq2). eapply wp_mono; [by apply start_threads_spec|].
  intros r4 e4 (Hh4 & Hi4 & Hp4 & Hf4 & Hq4 & Ho). split; [done|]. split; [done|]. rewrite Hp4, Hf4, Hq4, Hm2 in *. cbn.
  destruct Ho as [[-> Hr]|(-> & Hr & Hen)]; [by left|right]. cbn in Hr, Hen. split_and!; try done; [congruence|].
  by right.
Qed.

(** Nothing runs and nothing is held any more. *)
Definition daemon_stopped (s : daemon) : Prop :=
  dm_daemonRunning s = false /\ dm_recvThread s = 0 /\ dm_writeThread s = 0 /\ dm_remoteEnabled s = false /\
  ledger (c_trace (dm_remote s)) = Some ∅ /\ fm_stopped (dm_fm s) /\
  pm_initialized (c_mem (dm_prelog s)) = false /\ files (c_trace (dm_prelog s)) = Some ∅ /\
  mq_buffer (dm_logQueue s) = None /\ mq_seq (dm_logQueue s) = None.

Lemma destroy_frees q : exists q', SilogMpscQueueDestroy (Some q) = Some q' /\ mq_buffer q' = None /\ mq_seq q' = None.
Proof. destruct q as [[b|] ? ? ? ? [sq|] ?]; eexists; (split; [reflexivity|done]). Qed.

Lemma daemon_deinit_spec e :
  daemon_inv (mem e) -> held e = false ->
  wp SilogDaemonDeinit (fun _ e' => held e' = false /\ daemon_inv (mem e') /\ daemon_stopped (mem e')) e.
Proof.
  intros Hi Hh. unfold SilogDaemonDeinit. wp_step. wp_step. wp_step. wp_step. wp_step.
  apply wp_join; [cbn; intros H0; rewrite <- H0; by destruct (mem e)|]. intros w1 t1. cbn [mem held]. wp_step. wp_step. wp_step.
  apply wp_join; [cbn; intros H0; rewrite <- H0; by destruct (mem e)|]. intros w2 t2. cbn [mem held]. wp_step.
  eapply wp_mono; [apply remote_deinit_spec; [by eapply daemon_inv_same|done]|].
  intros [] [m3 w3 t3 h3] (Hh3 & Hi3 & (b & t & rr & cr & Hm3) & Hen & Hl). cbn [mem held] in *. subst h3. wp_step. apply wp_zoom.
  eapply wp_mono; [apply prelog_deinit_spec; [apply (di_prelog _ Hi3)|done]|].
  intros [] [m4 w4 t4 h4] (Hp4 & Hh4 & Hpi & Hpf). cbn [mem held trace world] in *. subst h4. wp_step.
  eapply wp_mono; [apply zoom_fm_deinit; [by apply daemon_inv_prelog|done]|]. cbn [mem].
  intros [] [m5 w5 t5 h5] (Hh5 & c & Hm5 & Hi5 & Hst). cbn [mem held] in *. subst h5. wp_step.
  wp_step. wp_step. apply wp_queue_destroy. intros w6 t6 _. cbn [mem held trace].
  destruct (destroy_frees (dm_logQueue m5)) as (q & [= <-] & Hb & Hs).
  wp_step. split; [done|]. split; [by eapply daemon_inv_same|]. rewrite Hm5, Hm3 in *. cbn in *. split_and!; done.
Qed.
End lifecycle.

(** ** Properties *)

Section properties.
Context {W : Type} `{!Os W, !Others SilogPrelogManager_t W, !Others SilogFileManager W,
  !Others SilogRemoteManager W, !FileSys W, !FmOthersOk W, !OthersOk W, !SendLaw W, !PrelogOthersOk W}.
Implicit Types (e : env daemon W).


(** The writing thread handles the queued entries in order: [n] rounds format
    and write exactly the first [n] of them, or all if there are fewer, and
    broadcast each if the remote service is enabled. *)
Theorem writer_handles_in_order n tb lb l e :
  held e = false -> daemon_inv (mem e) -> len tb = TIME_BUF_SIZE -> len lb = LOG_MSG_BUF_SIZE ->
  daemon_repr (dm_logQueue (mem e)) l -> Forall entry_block l ->
  wp (SilogDaemonWriteThreadFunc n tb lb)
    (fun _ e' => held e' = false /\ daemon_repr (dm_logQueue (mem e')) (drop n l) /\
       served (dm_remoteEnabled (mem e)) (dm_fm (mem e)) (dm_remote (mem e)) (map bytes_entry (take n l))
         (dm_fm (mem e')) (dm_remote (mem e'))) e.
Proof.
  intros. eapply wp_mono; [by apply write_thread_spec|]. intros _ e' (? & _ & ? & _ & _ & ?). done.
Qed.



(** An entry whose tag, file or message is not terminated in its array makes
    the writing thread read outside of it. *)
Theorem unterminated_entry_undefined tb lb x l e :
  len tb = TIME_BUF_SIZE -> is_u64 (ts (bytes_entry x)) -> daemon_repr (dm_logQueue (mem e)) (x :: l) ->
  has_nul (tag (bytes_entry x)) && has_nul (file (bytes_entry x)) && has_nul (msg (bytes_entry x)) = false ->
  write_round tb lb e = None.
Proof.
  intros Htb Hts Hq Hn. unfold write_round, mbind, M_bind, get, lift, modify.
  destruct (fifo_pop_ok (Fifo:=mpsc_fifo sizeof_logEntry DAEMON_LOG_QUEUE_CAPACITY) _ _ _ Hq) as (q & Hp & _).
  assert (SilogMpscQueuePop (Some (dm_logQueue (mem e))) true = Some (SILOG_OK, Some q, Some x)) as -> by (cbn; by rewrite Hp).
  cbn [fst snd default]. rewrite decide_True by done.
  match goal with |- context [SilogFormatWallClockMs _ _ _ ?e1] =>
    destruct (format_wall_clock_fits (ts (bytes_entry x)) tb e1 Hts) as (o & e2 & Hf & _ & _ & tb' & t & -> & _)
  end; [by rewrite Htb|].
  rewrite Htb in Hf. rewrite Hf, Hn. done.
Qed.
End properties.

(** C36: The line of an entry always fits: with a terminated time of at most 31
    characters the buffer of 512 bytes holds the whole line and its terminator,
    so the text handed to the file is never cut and the length passed on is the
    number of characters stored. *)
Theorem daemon_line_fits lb tb en :
  len lb = LOG_MSG_BUF_SIZE -> wf_entry en -> (length (cstr tb) <= 31)%nat ->
  let d := daemon_line tb en in
  len d <= 441 /\
  exists lb', obj_snprintf_s lb LOG_MSG_BUF_SIZE (LOG_MSG_BUF_SIZE - 1) d = (len d, Some lb') /\
    len lb' = LOG_MSG_BUF_SIZE /\ rd lb' 0 (len d) = Some d.
Proof.
  intros Hb Hw Ht. split; [by apply daemon_line_length|]. by apply daemon_line_printed.
Qed.

(** ** The properties at concrete inputs *)

(** A kernel with the small file system and one entry that arrives a number of
    times. *)
Definition demo_log_entry : logEntry_t :=
  MkEntry 1750000000123 10 11 1 (c_array 32 "net") (c_array 64 "a.c") 7 (c_array 256 "up") 2 1.
Definition demo_block : list Z := entry_bytes demo_log_entry (replicate 5 0).
Lemma demo_log_entry_wf : wf_entry demo_log_entry.
Proof.
  split; [|done..]. split; try (split; cbn; lia); (split; [done|]); repeat (constructor; [split; cbn; lia|]); done.
Qed.
Lemma demo_block_ok : entry_block demo_block.
Proof. exists demo_log_entry, (replicate 5 0). split; [done|]. split; [apply demo_log_entry_wf|done]. Qed.

Definition site : Type := fs * nat.
#[export] Instance site_os : Os site := fun c w =>
  match c with
  | CRecv _ n => match w.2 with
                 | S k => (Ans sizeof_logEntry 0 demo_block [], (w.1, k))
                 | O => (fails EAGAIN, w)
                 end
  | CSend _ b => (ok (len b), w)
  | _ => let '(a, f) := fs_os c w.1 in (a, (f, w.2))
  end.
#[export] Instance site_sys : FileSys site.
Proof.
  split; intros ? [f k] a w'; unfold os, site_os; destruct (fs_os _ _) as [a0 f0] eqn:E; intros [= <- _].
  - by eapply malloc_ok.
  - by eapply scandir_ok.
  - by eapply stat_ok.
  - by eapply localtime_ok.
Qed.
#[export] Instance site_send : SendLaw site.
Proof. intros fd b w a w' [= <- _]. cbn. lia. Qed.
#[export] Instance site_clients : ClientsOnly site.
Proof.
  intros [f [|k]] fd a w' [= <- _]; cbn; [lia|]. intros _. split; [done|apply demo_block_ok].
Qed.
#[local] Instance site_accepting : Others SilogRemoteManager site := accepting.
#[local] Instance site_accepting_ok : OthersOk site := @acceptors_ok _ _ (@accepting_ok site _).

Definition demo_daemon_queue : SiLogMpscQueue :=
  (mpsc_init (Some (replicate (Z.to_nat (384 * 4096)) 0)) (Some (replicate (Z.to_nat 4096) 0)) 384 4096
     (MkMpsc None 0 0 0 0 None 0)).2.
Lemma demo_daemon_queue_ok : daemon_repr demo_daemon_queue [].
Proof.
  unfold demo_daemon_queue.
  destruct (mpsc_init_repr 384 4096 12 (replicate (Z.to_nat (384 * 4096)) 0) (replicate (Z.to_nat 4096) 0)
    (MkMpsc None 0 0 0 0 None 0)) as (q & Hq & Hr); [lia|lia|done|lia|..|by rewrite Hq].
  - rewrite length_replicate, Z2Nat.id; [done|lia].
  - rewrite length_replicate, Z2Nat.id; [done|lia].
Qed.
Lemma demo_daemon_queue_one x : len x = sizeof_logEntry -> exists q, daemon_repr q [x].
Proof.
  intros Hx. destruct (fifo_push_ok (Fifo:=mpsc_fifo sizeof_logEntry DAEMON_LOG_QUEUE_CAPACITY) demo_daemon_queue []
    x demo_daemon_queue_ok) as (q & _ & Hq); [done|done|]. by exists q.
Qed.

(** A running daemon with a log file and one remote client. *)
Definition demo_daemon (q : SiLogMpscQueue) : daemon :=
  MkDaemon q true 3 true true 1 2 (MkComp (MkAgent true (-1) 5) [(CSocket, ok 5)]) (MkComp g_prelogMgr [])
    (MkComp demo_fm [(CFopen (chars "/d/a.log") 97, ok 7)]) (MkComp demo_mgr [(CSocket, ok 3); (CAccept 3, ok 4)]).
Lemma demo_daemon_inv q : daemon_inv (demo_daemon q).
Proof.
  split.
  - exists ∅. by vm_compute.
  - by vm_compute.
  - apply (demo_fginv []).
  - apply (demo_ginv []).
  - done.
Qed.

Definition demo_locals : locals := MkLocals (replicate 384 0) (replicate 32 0) (replicate 512 0).


Lemma writer_handles_in_order_witness : exists q, daemon_repr q [demo_block] /\
  wp (SilogDaemonWriteThreadFunc 1 (replicate 32 0) (replicate 512 0))
    (fun _ e' => daemon_repr (dm_logQueue (mem e')) []) (Env (demo_daemon q) (demo_fs, 0%nat) [] false).
Proof.
  destruct (demo_daemon_queue_one demo_block) as [q Hq]; [reflexivity|]. exists q. split; [exact Hq|].
  eapply wp_mono; [apply (writer_handles_in_order 1 _ _ [demo_block])|].
  - reflexivity.
  - exact (demo_daemon_inv q).
  - reflexivity.
  - reflexivity.
  - exact Hq.
  - constructor; [exact demo_block_ok|constructor].
  - intros _ e' (_ & H & _). exact H.
Defined.



Lemma unterminated_entry_undefined_witness : exists q, daemon_repr q [replicate 384 65] /\
  write_round (replicate 32 0) (replicate 512 0) (Env (demo_daemon q) (demo_fs, 0%nat) [] false) = None.
Proof.
  destruct (demo_daemon_queue_one (replicate 384 65)) as [q Hq]; [reflexivity|]. exists q. split; [exact Hq|].
  apply (unterminated_entry_undefined _ _ (replicate 384 65) []); [reflexivity|split; vm_compute; congruence|exact Hq|reflexivity].
Defined.

Lemma daemon_line_fits_witness :
  exists lb', obj_snprintf_s (replicate 512 7) 512 511 (daemon_line (c_array 32 "now") demo_log_entry) =
    (len (chars "[now][INFO][pid:10 tid:11][net][a.c:7] up") + 1, Some lb') /\ len lb' = 512.
Proof.
  destruct (daemon_line_fits (replicate 512 7) (c_array 32 "now") demo_log_entry) as [_ (lb' & H & Hl & _)];
    [reflexivity|exact demo_log_entry_wf|apply Nat.leb_le; reflexivity|]. exists lb'. split; [exact H|exact Hl].
Defined.
