(* ===== verification/Cat.v ===== *)
(** * The viewer (silog_cat/src/silog_cat.c)

    A program that parses its arguments, connects to the daemon as a remote client
    and prints a line for every entry received that passes its filters. Texts that
    the program prints are [CFputs] calls; a signal ends the loop between two of
    its rounds, so that the loop takes the number of times it reads [true]. *)

From S2P Require Import Prelude Errors LogEntry CObj CMem RemoteCodec Os Format Text RemoteServer RemoteClient Prelog.
#[local] Open Scope Z_scope.

Record SilogCatConfig := MkCatConfig {
  sc_serverAddr : list Z;
  sc_serverPort : Z;
  sc_filterTag : list Z;
  sc_minLevel : Z;
  sc_useColor : bool
}.
Definition SERVER_ADDR_SIZE : Z := 64.
Definition FILTER_TAG_SIZE : Z := 32.

Definition g_silogCatConfig : SilogCatConfig :=
  MkCatConfig (string_array SERVER_ADDR_SIZE (chars "127.0.0.1")) 9090 (string_array FILTER_TAG_SIZE [])
    (level_val SILOG_DEBUG) false.

(** The variables of the program and of its components, and the calls on its
    standard streams. *)
Record cat := MkCat {
  ct_config : SilogCatConfig;
  ct_prelog : comp SilogPrelogManager_t;
  ct_client : comp SilogRemoteClientCtx;
  ct_term : comp unit
}.
Definition set_ctConfig c s := MkCat c (ct_prelog s) (ct_client s) (ct_term s).
Definition set_ctPrelog c s := MkCat (ct_config s) c (ct_client s) (ct_term s).
Definition set_ctClient c s := MkCat (ct_config s) (ct_prelog s) c (ct_term s).
Definition set_ctTerm c s := MkCat (ct_config s) (ct_prelog s) (ct_client s) c.
Definition g_cat : cat :=
  MkCat g_silogCatConfig (MkComp g_prelogMgr []) (MkComp g_silogRemoteClient []) (MkComp tt []).

Definition set_scAddr a c := MkCatConfig a (sc_serverPort c) (sc_filterTag c) (sc_minLevel c) (sc_useColor c).
Definition set_scPort p c := MkCatConfig (sc_serverAddr c) p (sc_filterTag c) (sc_minLevel c) (sc_useColor c).
Definition set_scTag t c := MkCatConfig (sc_serverAddr c) (sc_serverPort c) t (sc_minLevel c) (sc_useColor c).
Definition set_scLevel l c := MkCatConfig (sc_serverAddr c) (sc_serverPort c) (sc_filterTag c) l (sc_useColor c).
Definition set_scColor b c := MkCatConfig (sc_serverAddr c) (sc_serverPort c) (sc_filterTag c) (sc_minLevel c) b.

Definition g_levelChars : list Z := chars "DIWEF".
Definition esc (s : string) : list Z := 27 :: chars s.
Definition COLOR_RESET : list Z := esc "[0m".
Definition COLOR_DEBUG : list Z := esc "[36m".
Definition COLOR_INFO : list Z := esc "[32m".
Definition COLOR_WARN : list Z := esc "[33m".
Definition COLOR_ERROR : list Z := esc "[31m".
Definition COLOR_FATAL : list Z := esc "[35m".

(** ** Functions of the C library *)

Definition tolower (c : Z) : Z := if (65 <=? c) && (c <=? 90) then c + 32 else c.
(** [strcasecmp(a, b) == 0]. *)
Definition strcasecmp_eq (a b : list Z) : bool := bool_decide (map tolower a = map tolower b).

(** [strstr(s, u) != NULL]. *)
Fixpoint strstr_found (u s : list Z) : bool :=
  bool_decide (u `prefix_of` s) || match s with [] => false | _ :: r => strstr_found u r end.

(** [%5d]. *)
Definition fmt_wd (w : nat) (n : Z) : list Z := replicate (w - length (fmt_d n)) 32 ++ fmt_d n.

(** ** Operations *)

Definition SilogCatParseLevel (levelStr : list Z) : Z :=
  let same s := strcasecmp_eq levelStr (chars s) in
  if same "DEBUG" || same "D" then level_val SILOG_DEBUG
  else if same "INFO" || same "I" then level_val SILOG_INFO
  else if same "WARN" || same "W" then level_val SILOG_WARN
  else if same "ERROR" || same "E" then level_val SILOG_ERROR
  else if same "FATAL" || same "F" then level_val SILOG_FATAL
  else level_val SILOG_DEBUG.

Definition usage_lines (program : list Z) : list (list Z) :=
  [chars "Usage: " ++ program ++ nl " [options]";
   10 :: nl "Options:";
   nl "  -h, --help           Show this help message";
   nl "  -s, --server <addr>  Server address (default: 127.0.0.1)";
   nl "  -p, --port <port>    Server port (default: 9090)";
   nl "  -t, --tag <tag>      Filter by tag";
   nl "  -l, --level <level>  Minimum log level (DEBUG, INFO, WARN, ERROR, FATAL)";
   nl "  -c, --color          Enable colored output";
   [10]].

(** How the parser ends: it exits the process, or returns. *)
Inductive parsed := PExit (status : Z) | PReturn (r : Z).

Section cat.
Context {W : Type} `{!Os W, !Others SilogPrelogManager_t W}.
#[local] Abbreviation CT := (M cat W).

Definition out_text (f : Z) (s : list Z) : CT unit := zoom ct_term set_ctTerm (_ ← sys (CFputs f s); mret tt).
Definition modify_config (f : SilogCatConfig -> SilogCatConfig) : CT unit :=
  modify (fun s => set_ctConfig (f (ct_config s)) s).

Fixpoint put_all (ls : list (list Z)) : CT unit :=
  match ls with [] => mret tt | l :: ls => out_text STDOUT l ;; put_all ls end.
Definition SilogCatPrintUsage (program : list Z) : CT unit := put_all (usage_lines program).

Definition missing (o : string) : CT parsed :=
  out_text STDERR (chars "Error: " ++ chars o ++ nl " requires an argument") ;; mret (PReturn (-1)).

Fixpoint parse_loop (program : list Z) (argv : list (list Z)) : CT parsed :=
  match argv with
  | [] => mret (PReturn 0)
  | a :: rest =>
      if is_opt a "-h" "--help" then SilogCatPrintUsage program ;; mret (PExit 0)
      else if is_opt a "-s" "--server" then
        match rest with
        | [] => missing "-s"
        | v :: rest =>
            s ← get;
            b ← lift (strncpy (sc_serverAddr (ct_config s)) v (SERVER_ADDR_SIZE - 1));
            modify_config (set_scAddr (<[Z.to_nat (SERVER_ADDR_SIZE - 1) := 0]> b)) ;;
            parse_loop program rest
        end
      else if is_opt a "-p" "--port" then
        match rest with
        | [] => missing "-p"
        | v :: rest => n ← lift (atoi v); modify_config (set_scPort (u16 n)) ;; parse_loop program rest
        end
      else if is_opt a "-t" "--tag" then
        match rest with
        | [] => missing "-t"
        | v :: rest =>
            s ← get;
            b ← lift (strncpy (sc_filterTag (ct_config s)) v (FILTER_TAG_SIZE - 1));
            modify_config (set_scTag (<[Z.to_nat (FILTER_TAG_SIZE - 1) := 0]> b)) ;;
            parse_loop program rest
        end
      else if is_opt a "-l" "--level" then
        match rest with
        | [] => missing "-l"
        | v :: rest => modify_config (set_scLevel (SilogCatParseLevel v)) ;; parse_loop program rest
        end
      else if is_opt a "-c" "--color" then modify_config (set_scColor true) ;; parse_loop program rest
      else
        out_text STDERR (chars "Unknown option: " ++ a ++ [10]) ;;
        SilogCatPrintUsage program ;;
        mret (PReturn (-1))
  end.
(** The arguments after the name of the program. *)
Definition SilogCatParseArgs (program : list Z) (argv : list (list Z)) : CT parsed := parse_loop program argv.

(** [localtime_r] fails only if the year is no [int]; the structure would then be
    indeterminate. *)
Definition SilogCatFormatTime (ts bufSize : Z) : CT (list Z) :=
  t ← sys (CLocaltime (ts / 1000));
  if ret t =? 0 then undefined
  else
    let f i := nth i (out t) 0 in
    mret (sprint bufSize (fmt_0d 2 (f 1%nat + 1) ++ chars "-" ++ fmt_0d 2 (f 2%nat) ++ chars " " ++
      fmt_0d 2 (f 3%nat) ++ chars ":" ++ fmt_0d 2 (f 4%nat) ++ chars ":" ++ fmt_0d 2 (f 5%nat) ++ chars "." ++
      fmt_0d 3 (ts mod 1000))).

Definition level_color (useColor : bool) (level : Z) : list Z :=
  if negb useColor then []
  else if level =? level_val SILOG_DEBUG then COLOR_DEBUG
  else if level =? level_val SILOG_INFO then COLOR_INFO
  else if level =? level_val SILOG_WARN then COLOR_WARN
  else if level =? level_val SILOG_ERROR then COLOR_ERROR
  else if level =? level_val SILOG_FATAL then COLOR_FATAL
  else [].
Definition SilogCatGetLevelColor (level : Z) : CT (list Z) :=
  s ← get; mret (level_color (sc_useColor (ct_config s)) level).

(** The text that is printed for an entry. *)
Definition cat_line (c : SilogCatConfig) (timeStr : list Z) (en : logEntry_t) : list Z :=
  timeStr ++ chars " " ++ fmt_wd 5 (pid en) ++ chars " " ++ fmt_wd 5 (tid en) ++ chars " " ++
  level_color (sc_useColor c) (level en) ++
  [if level en <? 5 then nth (Z.to_nat (level en)) g_levelChars 0 else 63] ++
  (if sc_useColor c then COLOR_RESET else []) ++ chars "/" ++ cstr (tag en) ++ chars ": " ++ cstr (msg en) ++
  chars " (" ++ cstr (file en) ++ chars ":" ++ fmt_d (i32 (line en)) ++ nl ")".

(** The filters: the minimum level and the tag. A string of the entry that is not
    terminated would be read outside its array. *)
Definition SilogCatPrintLog (en : logEntry_t) : CT unit :=
  s ← get;
  let c := ct_config s in
  if level en <? sc_minLevel c then mret tt
  else if negb (bool_decide (cstr (sc_filterTag c) = [])) && negb (has_nul (tag en)) then undefined
  else if negb (bool_decide (cstr (sc_filterTag c) = [])) && negb (strstr_found (cstr (sc_filterTag c)) (cstr (tag en)))
  then mret tt
  else
    timeStr ← SilogCatFormatTime (ts en) 32;
    _ ← SilogCatGetLevelColor (level en);
    if negb (has_nul (tag en) && has_nul (msg en) && has_nul (file en)) then undefined
    else
      out_text STDOUT (cat_line c timeStr en) ;;
      zoom ct_term set_ctTerm (_ ← sys (CFflush STDOUT); mret tt).

Definition cat_prelog_config : SilogPrelogConfig_t :=
  MkPrelogConfig (string_array 256 (chars "/tmp/silog_cat.txt")) SILOG_PRELOG_LEVEL_DEBUG false.
Definition SilogDaemonClientInit : CT Z :=
  _ ← zoom ct_prelog set_ctPrelog (SilogPrelogInit (Some cat_prelog_config));
  SILOG_PRELOG_I SILOG_PRELOG_CAT "SilogCat initialized" [] ;;
  mret 0.

(** ** The main program *)

Fixpoint print_all (es : list logEntry_t) : CT unit :=
  match es with [] => mret tt | e :: es => SilogCatPrintLog e ;; print_all es end.

(** [SilogRemoteClientReceive(SilogCatPrintLog, NULL, 100)]: the entries that the
    client gives to its callback are printed; nothing else is printed meanwhile. *)
Definition receive_print : CT ErrorCode :=
  s ← get;
  r ← zoom ct_client set_ctClient (SilogRemoteClientReceive true 100);
  s' ← get;
  print_all (callbacks (drop (length (c_trace (ct_client s))) (c_trace (ct_client s')))) ;;
  mret r.

(** ["addr:port"] of the configuration. *)
Definition endpoint (c : SilogCatConfig) : list Z :=
  cstr (sc_serverAddr c) ++ chars ":" ++ fmt_d (sc_serverPort c).

(** One round of the main loop; the flag tells whether a connection was made. *)
Definition cat_round (wasConnected : bool) : CT bool :=
  connected ← zoom ct_client set_ctClient SilogRemoteClientIsConnected;
  if (connected : bool) then _ ← receive_print; mret wasConnected
  else
    (if wasConnected then out_text STDOUT (10 :: nl "[Disconnected, reconnecting...]") else mret tt) ;;
    r ← zoom ct_client set_ctClient SilogRemoteClientConnect;
    if decide (r = SILOG_OK) then
      s ← get;
      out_text STDOUT (chars "[Connected to " ++ endpoint (ct_config s) ++ nl "]" ++ [10]) ;;
      _ ← receive_print;
      mret true
    else _ ← sys (CUsleep 1000000); mret false.

Fixpoint cat_loop (n : nat) (wasConnected : bool) : CT unit :=
  match n with
  | O => mret tt
  | S n => was ← cat_round wasConnected; cat_loop n was
  end.

Definition cat_main (n : nat) (program : list Z) (argv : list (list Z)) : CT Z :=
  _ ← SilogDaemonClientInit;
  p ← SilogCatParseArgs program argv;
  match p with
  | PExit status => mret status
  | PReturn r =>
      if negb (r =? 0) then mret 1
      else
        s ← get;
        let c := ct_config s in
        addr ← lift (obj_strncpy_s (replicate (Z.to_nat SERVER_ADDR_LEN) 0) SERVER_ADDR_LEN
                       (cstr (sc_serverAddr c)) (SERVER_ADDR_LEN - 1)).2;
        r ← zoom ct_client set_ctClient
              (SilogRemoteClientInit (Some (MkClientConfig addr (sc_serverPort c) true 5000)));
        if decide (r <> SILOG_OK) then
          SILOG_PRELOG_E SILOG_PRELOG_CAT "Failed to initialize remote client" [] ;; mret 1
        else
          out_text STDOUT (chars "Connecting to " ++ endpoint c ++ nl "...") ;;
          (if negb (bool_decide (cstr (sc_filterTag c) = []))
           then out_text STDOUT (chars "Filtering tag: " ++ cstr (sc_filterTag c) ++ [10]) else mret tt) ;;
          (if level_val SILOG_DEBUG <? sc_minLevel c
           then out_text STDOUT (chars "Min level: " ++ fmt_d (sc_minLevel c) ++ [10]) else mret tt) ;;
          out_text STDOUT (nl "Press Ctrl+C to exit" ++ [10]) ;;
          cat_loop n false ;;
          out_text STDOUT (10 :: nl "[Shutting down...]") ;;
          zoom ct_client set_ctClient SilogRemoteClientDeinit ;;
          mret 0
  end.
End cat.

(** ** The command line *)

Inductive cat_option :=
  | OptServer (addr : list Z)
  | OptPort (n : Z)
  | OptTag (tag : list Z)
  | OptLevel (l : silogLevel) (name : list Z)
  | OptColor.

Definition level_names (l : silogLevel) : list string :=
  match l with
  | SILOG_DEBUG => ["DEBUG"; "D"]
  | SILOG_INFO => ["INFO"; "I"]
  | SILOG_WARN => ["WARN"; "W"]
  | SILOG_ERROR => ["ERROR"; "E"]
  | SILOG_FATAL => ["FATAL"; "F"]
  end%string.

(** Ports are written in decimal, levels by name or initial in any case. *)
Definition option_ok (o : cat_option) : Prop :=
  match o with
  | OptPort n => 0 <= n < 2 ^ 31
  | OptLevel l name => exists s, s ∈ level_names l /\ map tolower name = map tolower (chars s)
  | _ => True
  end.

(** The arguments of an option in its short or long form. *)
Definition render (x : bool * cat_option) : list (list Z) :=
  let flag s l := chars (if x.1 then l else s) in
  match x.2 with
  | OptServer a => [flag "-s" "--server"; a]
  | OptPort n => [flag "-p" "--port"; fmt_u n]
  | OptTag t => [flag "-t" "--tag"; t]
  | OptLevel _ name => [flag "-l" "--level"; name]
  | OptColor => [flag "-c" "--color"]
  end%string.

Definition apply_option (c : SilogCatConfig) (o : cat_option) : SilogCatConfig :=
  match o with
  | OptServer a => set_scAddr (string_array SERVER_ADDR_SIZE a) c
  | OptPort n => set_scPort (u16 n) c
  | OptTag t => set_scTag (string_array FILTER_TAG_SIZE t) c
  | OptLevel l _ => set_scLevel (level_val l) c
  | OptColor => set_scColor true c
  end.

Definition cat_sized (c : SilogCatConfig) : Prop :=
  len (sc_serverAddr c) = SERVER_ADDR_SIZE /\ len (sc_filterTag c) = FILTER_TAG_SIZE.

Lemma apply_sized c o : cat_sized c -> cat_sized (apply_option c o).
Proof. intros [H1 H2]. destruct o; split; cbn; try done; by apply string_array_length. Qed.

Lemma parse_level_name l name :
  option_ok (OptLevel l name) -> SilogCatParseLevel name = level_val l.
Proof.
  intros (s & Hs & He). unfold SilogCatParseLevel, strcasecmp_eq. rewrite He.
  destruct l; cbn [level_names] in Hs; set_unfold in Hs; destruct Hs as [->|[->|[]]]; reflexivity.
Qed.

Ltac eval_opts :=
  repeat match goal with
         | |- context [is_opt ?a ?s ?l] =>
             let b := eval vm_compute in (is_opt a s l) in change (is_opt a s l) with b; cbv iota
         end.

Section parsing.
Context {W : Type} `{!Os W, !Others SilogPrelogManager_t W}.
Implicit Types (e : env cat W).

Definition with_config (f : SilogCatConfig -> SilogCatConfig) e : env cat W :=
  Env (set_ctConfig (f (ct_config (mem e))) (mem e)) (world e) (trace e) (held e).

Lemma parse_step program x rest Q e :
  option_ok x.2 -> cat_sized (ct_config (mem e)) ->
  wp (parse_loop program rest) Q (with_config (fun c => apply_option c x.2) e) ->
  wp (parse_loop program (render x ++ rest)) Q e.
Proof.
  intros Hok [Ha Ht] HQ. destruct x as [b o]. cbn [snd] in *.
  destruct o as [a|n|t|l name|]; destruct b; cbn [render fst snd app parse_loop]; eval_opts; cbn [apply_option] in
    HQ; unfold modify_config.
  1,2: destruct (strncpy_string (sc_serverAddr (ct_config (mem e))) a SERVER_ADDR_SIZE) as (d & Hd & He); [done|done|];
    wp_step; wp_step; wp_step; eapply wp_lift; [exact Hd|]; rewrite He; wp_step; wp_step; exact HQ.
  1,2: wp_step; eapply wp_lift; [by apply atoi_decimal|]; wp_step; wp_step; exact HQ.
  1,2: destruct (strncpy_string (sc_filterTag (ct_config (mem e))) t FILTER_TAG_SIZE) as (d & Hd & He); [done|done|];
    wp_step; wp_step; wp_step; eapply wp_lift; [exact Hd|]; rewrite He; wp_step; wp_step; exact HQ.
  1,2: rewrite (parse_level_name l name Hok); wp_step; wp_step; exact HQ.
  1,2: wp_step; wp_step; exact HQ.
Qed.

(** The parser takes the options from left to right. *)
Lemma parse_options program xs rest Q e :
  Forall (fun x => option_ok x.2) xs -> cat_sized (ct_config (mem e)) ->
  wp (parse_loop program rest) Q (with_config (fun c => foldl apply_option c (map snd xs)) e) ->
  wp (parse_loop program (concat (map render xs) ++ rest)) Q e.
Proof.
  intros Hxs. revert e. induction Hxs as [|x xs Hx _ IH]; intros e Hc HQ.
  - by destruct e as [[] ? ? ?].
  - cbn [map concat]. rewrite <- (assoc_L (++)). apply parse_step; [done|done|]. apply IH; [|exact HQ].
    by apply apply_sized.
Qed.
End parsing.

(** ** Printing *)

(** The time of an entry is representable, and the fields of a broken-down time
    are in range. *)
Class LocalTime (V : Type) `{!Os V} : Prop :=
  local_time s (w : V) a w' :
    os (CLocaltime s) w = (a, w') -> 0 <= s <= 2 ^ 64 / 1000 ->
    ret a <> 0 /\ forall i, (1 <= i <= 5)%nat -> 0 <= nth i (out a) 0 < 99.

(** The filters. *)
Definition passes (c : SilogCatConfig) (en : logEntry_t) : bool :=
  negb (level en <? sc_minLevel c) &&
  (bool_decide (cstr (sc_filterTag c) = []) || strstr_found (cstr (sc_filterTag c)) (cstr (tag en))).

(** The text of an entry whose time has been broken down as [t]. *)
Definition cat_time (t : answer) (ts : Z) : list Z :=
  let f i := nth i (out t) 0 in
  sprint 32 (fmt_0d 2 (f 1%nat + 1) ++ chars "-" ++ fmt_0d 2 (f 2%nat) ++ chars " " ++
    fmt_0d 2 (f 3%nat) ++ chars ":" ++ fmt_0d 2 (f 4%nat) ++ chars ":" ++ fmt_0d 2 (f 5%nat) ++ chars "." ++
    fmt_0d 3 (ts mod 1000)).
(** [t] is what the kernel answers for the seconds of the entry. *)
Definition text_of (V : Type) `{!Os V} (c : SilogCatConfig) (en : logEntry_t) (d : list Z) : Prop :=
  exists (w : V) t w', os (CLocaltime (ts en / 1000)) w = (t, w') /\ d = cat_line c (cat_time t (ts en)) en /\
    forall i, (1 <= i <= 5)%nat -> 0 <= nth i (out t) 0 < 99.

(** The texts on the standard output that begin with a digit: the messages of the
    program about itself do not. *)
Definition shown (t : trace_t) : list (list Z) :=
  omap (fun x => if (x.1 =? STDOUT) && match x.2 with c :: _ => isdigit c | [] => false end then Some x.2 else None)
    (printed t).
Lemma shown_app t1 t2 : shown (t1 ++ t2) = shown t1 ++ shown t2.
Proof. unfold shown. by rewrite printed_app, omap_app. Qed.

Lemma fmt_0d_digit w n : 0 <= n -> exists c r, fmt_0d w n = c :: r /\ isdigit c = true.
Proof.
  intros Hn. unfold fmt_0d, fmt_0u, fmt_u. ztest. pose proof (digits_isdigit 20 n) as Hd.
  destruct (w - length (digits 20 n))%nat; cbn [replicate app].
  - destruct (digits 20 n) as [|c r] eqn:E; [|apply Forall_cons_1 in Hd as [? _]; by exists c, r].
    exfalso. change 20%nat with (S 19) in E. cbn [digits] in E. revert E. case_if; [done|]. intros [_ ?]%app_eq_nil. done.
  - by eexists _, _.
Qed.

Lemma text_digit (V : Type) `{!Os V} c en d : text_of V c en d -> exists x r, d = x :: r /\ isdigit x = true.
Proof.
  intros (w & t & w' & _ & -> & Ht).
  destruct (fmt_0d_digit 2 (nth 1 (out t) 0 + 1)) as (x & r & Hx & Hd); [specialize (Ht 1%nat); lia|].
  unfold cat_line, cat_time, sprint. rewrite Hx. cbn. by eexists _, _.
Qed.

Section printing.
Context {W : Type} `{!Os W, !Others SilogPrelogManager_t W}.
Implicit Types (e : env cat W).

(** [t] has been written to the standard streams. *)
Definition term_calls (t : trace_t) (s : cat) : cat :=
  set_ctTerm (MkComp tt (c_trace (ct_term s) ++ t)) s.

Lemma term_calls_app t1 t2 s : term_calls t2 (term_calls t1 s) = term_calls (t1 ++ t2) s.
Proof. unfold term_calls. cbn. by rewrite (assoc_L (++)). Qed.
Lemma term_calls_nil s : term_calls [] s = s.
Proof. unfold term_calls. rewrite app_nil_r. by destruct s as [? ? ? [[] ?]]. Qed.

Lemma wp_out_text f d Q e :
  (forall a w tr, Q tt (Env (term_calls [(CFputs f d, a)] (mem e)) w tr (held e))) -> wp (out_text f d) Q e.
Proof.
  intros HQ. unfold out_text. apply wp_zoom. wp_steps. destruct e as [[c p cl [[] tt]] w0 t0 h]. apply HQ.
Qed.
Lemma wp_flush Q e :
  (forall a w tr, Q tt (Env (term_calls [(CFflush STDOUT, a)] (mem e)) w tr (held e))) ->
  wp (zoom ct_term set_ctTerm (_ ← sys (CFflush STDOUT); mret tt)) Q e.
Proof.
  intros HQ. apply wp_zoom. wp_steps. destruct e as [[c p cl [[] tt]] w0 t0 h]. apply HQ.
Qed.

(** A message of the program about itself. *)
Lemma wp_status f d Q e :
  f <> STDOUT \/ (match d with c :: _ => isdigit c | [] => false end = false) ->
  (forall t w tr, shown t = [] -> Q tt (Env (term_calls t (mem e)) w tr (held e))) -> wp (out_text f d) Q e.
Proof.
  intros Hf HQ. apply wp_out_text. intros a w tr. apply HQ. unfold shown. cbn.
  destruct Hf as [Hf| ->]; [|by rewrite andb_false_r]. rewrite (proj2 (Z.eqb_neq _ _)) by done. done.
Qed.

Lemma print_spec `{!LocalTime W} en e :
  entry_sane en ->
  wp (SilogCatPrintLog en)
    (fun _ e' => held e' = held e /\ exists t, mem e' = term_calls t (mem e) /\
       if passes (ct_config (mem e)) en
       then exists d, text_of W (ct_config (mem e)) en d /\ printed t = [(STDOUT, d)]
       else t = []) e.
Proof.
  intros (Het & Hn1 & Hn2 & Hn3 & _). unfold SilogCatPrintLog, passes. wp_step. wp_step.
  set (c := ct_config (mem e)). rewrite Hn1, Hn2, Hn3. cbn [negb andb]. rewrite andb_false_r.
  destruct (level en <? sc_minLevel c); cbn [negb andb].
  { wp_step. split; [done|]. exists []. by rewrite term_calls_nil. }
  destruct (bool_decide (cstr (sc_filterTag c) = [])); cbn [negb andb orb].
  2: destruct (strstr_found _ _); cbn [negb].
  3:{ wp_step. split; [done|]. exists []. by rewrite term_calls_nil. }
  all: unfold SilogCatFormatTime, SilogCatGetLevelColor; wp_step; wp_step; wp_step;
    assert (0 <= ts en / 1000 <= 2 ^ 64 / 1000) as Hts
      by (destruct Het as [Hts _]; unfold is_u64 in Hts; split; [apply Z.div_pos; lia|apply Z.div_le_mono; lia]);
    destruct (local_time _ _ _ _ H Hts) as [Hr Hf]; ztest; wp_step; wp_step; wp_step; wp_step; wp_step; wp_step;
    apply wp_out_text; intros a1 w1 tr1; apply wp_flush; intros a2 w2 tr2; cbn [mem held];
    (split; [done|]); eexists; rewrite term_calls_app; (split; [reflexivity|]);
    eexists; (split; [by eexists _, a, _|]); reflexivity.
Qed.
End printing.

(** ** The calls of the client *)

Section quiet.
Context {W : Type} `{!Os W}.
Implicit Types (e : env SilogRemoteClientCtx W).

(** The calls of the client that do not receive give nothing to the callback. *)
Lemma connect_quiet e :
  wp SilogRemoteClientConnect (fun _ e' => exists t, trace e' = trace e ++ t /\ callbacks t = []) e.
Proof.
  unfold SilogRemoteClientConnect, SilogRemoteClientSetNonblock.
  wp_steps; first [exists []; by rewrite app_nil_r | eexists; rewrite <- ?(assoc_L (++)); done].
Qed.
Lemma init_quiet c e :
  cginv e -> cop_typed (COpInit c) ->
  wp (SilogRemoteClientInit c) (fun r e' => r = SILOG_OK /\ cginv e' /\ x_isInit (mem e') = true /\ trace e' = trace e) e.
Proof.
  intros Hg Hc.
  assert (wp (SilogRemoteClientInit c) (fun _ e' => trace e' = trace e) e) as Ht.
  { destruct (client_init_spec c e Hg Hc) as (r & e' & Hr & _). exists r, e'. split; [done|].
    revert Hr. unfold SilogRemoteClientInit, mbind, M_bind, mret, M_ret, get, lift, Os.put.
    repeat (case_match; simplify_eq/=); intros; by simplify_eq/=. }
  eapply wp_mono; [apply wp_and; [by apply client_init_spec|exact Ht]|]. by intros r e' [(? & ? & ? & _) ?].
Qed.
End quiet.

(** ** The session *)

Section session.
Context {W : Type} `{!Os W, !Others SilogPrelogManager_t W, !RecvLaw W, !LocalTime W}.
Implicit Types (e : env cat W).

Definition cat_ok (s : cat) : Prop :=
  ctx_inv (c_mem (ct_client s)) /\ ledger (c_trace (ct_client s)) = Some (ctx_fds (c_mem (ct_client s))) /\
  x_isInit (c_mem (ct_client s)) = true.

(** Between two states, the client received some entries and the program printed
    the texts of those that pass the filters, in order. *)
Definition viewed (s s' : cat) : Prop :=
  ct_config s' = ct_config s /\ exists tc tt, c_trace (ct_client s') = c_trace (ct_client s) ++ tc /\
    c_trace (ct_term s') = c_trace (ct_term s) ++ tt /\ Forall entry_sane (callbacks tc) /\
    Forall2 (text_of W (ct_config s)) (List.filter (passes (ct_config s)) (callbacks tc)) (shown tt).

Lemma viewed_trans s1 s2 s3 : viewed s1 s2 -> viewed s2 s3 -> viewed s1 s3.
Proof.
  intros (Hc1 & tc1 & tt1 & Ht1 & Hm1 & Hs1 & Hf1) (Hc2 & tc2 & tt2 & Ht2 & Hm2 & Hs2 & Hf2).
  rewrite Hc1 in *. split; [done|]. exists (tc1 ++ tc2), (tt1 ++ tt2).
  rewrite Ht2, Ht1, Hm2, Hm1, callbacks_app, shown_app, !(assoc_L (++)), List.filter_app.
  split_and!; try done; [by apply Forall_app|by apply Forall2_app].
Qed.
Lemma viewed_status s t : shown t = [] -> viewed s (term_calls t s).
Proof.
  intros Ht. split; [done|]. exists [], t. rewrite app_nil_r. split; [done|]. split; [done|]. split; [constructor|].
  rewrite Ht. constructor.
Qed.
Lemma viewed_refl s : viewed s s.
Proof. rewrite <- (term_calls_nil s) at 2. by apply viewed_status. Qed.
Lemma viewed_calls s tc m :
  callbacks tc = [] -> viewed s (set_ctClient (MkComp m (c_trace (ct_client s) ++ tc)) s).
Proof.
  intros Hc. split; [done|]. exists tc, []. rewrite app_nil_r, Hc. split; [done|]. split; [done|].
  split; [constructor|]. constructor.
Qed.

Lemma print_all_spec es e :
  Forall entry_sane es ->
  wp (print_all es)
    (fun _ e' => exists t, mem e' = term_calls t (mem e) /\
       Forall2 (text_of W (ct_config (mem e))) (List.filter (passes (ct_config (mem e))) es) (shown t)) e.
Proof.
  intros Hes. revert e. induction Hes as [|en es Hen _ IH]; intros e; cbn [print_all List.filter].
  { wp_step. exists []. by rewrite term_calls_nil. }
  wp_step. eapply wp_mono; [by apply print_spec|]. intros [] e1 (_ & t1 & Hm1 & Ht1).
  eapply wp_mono; [apply IH|]. intros [] e2 (t2 & Hm2 & Hf2). exists (t1 ++ t2). rewrite Hm1 in *.
  cbn [ct_config term_calls set_ctTerm] in Hf2.
  split; [by rewrite Hm2, term_calls_app|]. rewrite shown_app. destruct (passes _ en).
  - destruct Ht1 as (d & Hd & Hp). destruct (text_digit _ _ _ _ Hd) as (x & r & -> & Hx).
    assert (shown t1 = [x :: r]) as -> by (unfold shown; rewrite Hp; cbn; by rewrite Hx). by constructor.
  - by subst t1.
Qed.

(** What the client took from the network and gave to the callback. *)
Definition pending (x : SilogRemoteClientCtx) : list Z := take (Z.to_nat (x_recvOffset x)) (x_recvBuf x).
Definition client_received (c c' : comp SilogRemoteClientCtx) : Prop :=
  exists t, c_trace c' = c_trace c ++ t /\
  if x_isConnected (c_mem c') then
    exists bs, callbacks t = map decode_block bs /\ Forall (bytes_of SILOG_REMOTE_ENTRY_SIZE) bs /\
      cut (pending (c_mem c) ++ stream t) bs (pending (c_mem c'))
  else stream t = [] /\ callbacks t = [].

(** [P] is what else is known of the client after the call that receives. *)
Lemma receive_print_with (P : comp SilogRemoteClientCtx -> Prop) e :
  cat_ok (mem e) -> x_isConnected (c_mem (ct_client (mem e))) = true ->
  wp (SilogRemoteClientReceive true 100) (fun _ (x1 : env SilogRemoteClientCtx W) => P (MkComp (mem x1) (trace x1)))
    (Env (c_mem (ct_client (mem e))) (world e) (c_trace (ct_client (mem e))) (held e)) ->
  wp receive_print
    (fun _ e' => cat_ok (mem e') /\ viewed (mem e) (mem e') /\
       client_received (ct_client (mem e)) (ct_client (mem e')) /\ P (ct_client (mem e'))) e.
Proof.
  intros (Hx & Hl & Hi) Hc HP. unfold receive_print. wp_step. wp_step. wp_step. apply wp_zoom.
  eapply wp_mono; [apply wp_and; [by apply receive_spec|exact HP]|]. intros r e1 [([Hx1 Hl1] & Hi1 & _ & t & Ht & Hpost) HP1].
  cbn [mem trace] in Ht, Hpost. wp_step. wp_step. wp_step. cbn [mem set_ctClient ct_client c_trace c_mem].
  rewrite Ht, drop_app_length.
  assert (Forall entry_sane (callbacks t)) as Hsane.
  { destruct (x_isConnected (mem e1)); [|by destruct Hpost as [_ ->]].
    destruct Hpost as (bs & -> & Hbs & _). apply Forall_fmap. eapply Forall_impl; [|exact Hbs]. intros b.
    apply decode_sane. }
  eapply wp_mono; [by apply print_all_spec|]. cbn [mem ct_config set_ctClient].
  intros [] e2 (t2 & Hm2 & Hf2). wp_step. rewrite Hm2. split; [|split].
  - split; [done|]. cbn. by rewrite <- Ht.
  - split; [done|]. exists t, t2. done.
  - split; [by exists t|]. rewrite Ht in HP1. exact HP1.
Qed.

Lemma receive_print_full e :
  cat_ok (mem e) -> x_isConnected (c_mem (ct_client (mem e))) = true ->
  wp receive_print
    (fun _ e' => cat_ok (mem e') /\ viewed (mem e) (mem e') /\
       client_received (ct_client (mem e)) (ct_client (mem e'))) e.
Proof.
  intros Hok Hc. eapply wp_mono; [apply (receive_print_with (fun _ => True)); [done|done|]|].
  - destruct Hok as (Hx & Hl & Hi). eapply wp_mono; [by apply receive_spec|done].
  - by intros _ e' (? & ? & ? & _).
Qed.

Lemma receive_print_spec e :
  cat_ok (mem e) -> x_isConnected (c_mem (ct_client (mem e))) = true ->
  wp receive_print (fun _ e' => cat_ok (mem e') /\ viewed (mem e) (mem e')) e.
Proof. intros. eapply wp_mono; [by apply receive_print_full|]. by intros _ e' (? & ? & _). Qed.

Lemma cat_round_spec was e :
  cat_ok (mem e) -> wp (cat_round was) (fun _ e' => cat_ok (mem e') /\ viewed (mem e) (mem e')) e.
Proof.
  intros Hok. pose proof Hok as (Hx & Hl & Hi). unfold cat_round. wp_step. apply wp_zoom.
  unfold SilogRemoteClientIsConnected. wp_step. wp_step. wp_step. cbn [mem trace held world].
  rewrite Hi, drop_all, app_nil_r. cbn [andb].
  assert (set_ctClient (MkComp (c_mem (ct_client (mem e))) (c_trace (ct_client (mem e)))) (mem e) = mem e) as ->
    by (by destruct (mem e) as [? ? [] ?]).
  destruct (x_isConnected (c_mem (ct_client (mem e)))) eqn:Hc.
  { wp_step. eapply wp_mono; [by apply receive_print_spec|]. intros r e' ?. by wp_step. }
  wp_step. apply wp_mono with (fun _ e' => exists t, shown t = [] /\ mem e' = term_calls t (mem e)).
  { destruct was; [|wp_step; exists []; by rewrite term_calls_nil].
    apply wp_status; [by right|]. intros t w tr Ht. by exists t. }
  intros [] e1 (t1 & Hs1 & Hm1). wp_step. apply wp_zoom. rewrite Hm1. cbn [term_calls set_ctTerm ct_client].
  eapply wp_mono; [apply wp_and; [by apply connect_spec|apply connect_quiet]|]. cbn [mem trace].
  rewrite Hi. intros r e2 ([[Hx2 Hl2] (Hi2 & Hc2 & _)] & t2 & Ht2 & Hcb2).
  assert (cat_ok (set_ctClient (MkComp (mem e2) (trace e2)) (term_calls t1 (mem e)))) as Hok2 by done.
  assert (viewed (mem e) (set_ctClient (MkComp (mem e2) (trace e2)) (term_calls t1 (mem e)))) as Hv2.
  { eapply viewed_trans; [exact (viewed_status _ t1 Hs1)|]. rewrite Ht2.
    exact (viewed_calls (term_calls t1 (mem e)) t2 (mem e2) Hcb2). }
  destruct (decide (r = SILOG_OK)) as [Hr|Hr]; [|wp_steps; done].
  wp_step. wp_step. wp_step. apply wp_status; [by right|]. intros t3 w3 tr3 Hs3. cbn [mem].
  wp_step. eapply wp_mono; [apply receive_print_spec; [done|by apply Hc2]|]. cbn [mem].
  intros _ e3 [Hok3 Hv3]. wp_step. split; [done|]. eapply viewed_trans; [exact Hv2|].
  eapply viewed_trans; [exact (viewed_status _ t3 Hs3)|exact Hv3].
Qed.

Lemma cat_loop_spec n was e :
  cat_ok (mem e) -> wp (cat_loop n was) (fun _ e' => cat_ok (mem e') /\ viewed (mem e) (mem e')) e.
Proof.
  revert was e. induction n as [|n IH]; intros was e Hok; cbn [cat_loop].
  { wp_step. split; [done|apply viewed_refl]. }
  wp_step. eapply wp_mono; [by apply cat_round_spec|]. intros was1 e1 [Hok1 Hv1].
  eapply wp_mono; [by apply IH|]. intros [] e2 [Hok2 Hv2]. split; [done|]. by eapply viewed_trans.
Qed.

(** What the program writes before the loop. *)
Lemma wp_statuses (b : bool) d Q e :
  match d with c :: _ => isdigit c | [] => false end = false ->
  (forall t w tr, shown t = [] -> Q tt (Env (term_calls t (mem e)) w tr (held e))) ->
  wp (if b then out_text STDOUT d else mret tt) Q e.
Proof.
  intros Hd HQ. destruct b; [apply wp_status; [by right|exact HQ]|]. wp_step.
  specialize (HQ [] (world e) (trace e) eq_refl). rewrite term_calls_nil in HQ. by destruct e.
Qed.

Lemma deinit_closes (s : cat) (Q : unit -> env cat W -> Prop) w t h :
  cat_ok s ->
  (forall m tc w' t' h', ledger (c_trace (ct_client s) ++ tc) = Some ∅ -> callbacks tc = [] ->
     Q tt (Env (set_ctClient (MkComp m (c_trace (ct_client s) ++ tc)) s) w' t' h')) ->
  wp (zoom ct_client set_ctClient SilogRemoteClientDeinit) Q (Env s w t h).
Proof.
  intros (Hx & Hl & Hi) HQ. apply wp_zoom. cbn [mem world held trace]. unfold SilogRemoteClientDeinit. wp_step. wp_step.
  rewrite Hi. cbn [negb]. wp_step. eapply wp_mono; [apply disconnect_spec; [done|exact Hi]|]. cbn [trace].
  intros _ e1 ([_ Hl1] & _ & _ & _ & Hfd & _ & tc & Ht & _ & Hcb). wp_steps. cbn [mem trace]. rewrite Ht in Hl1 |- *.
  apply HQ; [|exact Hcb]. rewrite Hl1. unfold ctx_fds. by ztest.
Qed.
End session.

(** ** The program *)

Section main.
Context {W : Type} `{!Os W, !Others SilogPrelogManager_t W, !PrelogOthersOk W, !RecvLaw W, !LocalTime W}.
Implicit Types (e : env cat W).

Lemma start_spec (w : W) Q :
  (forall p w' t', Q 0 (Env (set_ctPrelog p g_cat) w' t' false)) -> wp SilogDaemonClientInit Q (Env g_cat w [] false).
Proof.
  intros HQ. unfold SilogDaemonClientInit. wp_step. apply wp_zoom.
  eapply wp_mono; [apply prelog_init_spec; [by intros c [= <-]|by vm_compute|done]|].
  intros _ e1 (_ & _ & Hh & _). wp_step. rewrite Hh. apply HQ.
Qed.

Lemma server_addr_ok a : exists b,
  (obj_strncpy_s (replicate (Z.to_nat SERVER_ADDR_LEN) 0) SERVER_ADDR_LEN a (SERVER_ADDR_LEN - 1)).2 = Some b /\
  len b = SERVER_ADDR_LEN.
Proof.
  change SERVER_ADDR_LEN with 64. unfold obj_strncpy_s. set (s := take _ a).
  assert (len s <= 63) as Hs by (unfold s; rewrite length_take; lia). ztest. cbn [snd].
  destruct (wr (replicate (Z.to_nat 64) 0) 0 (s ++ [0])) as [b|] eqn:Hw.
  - exists b. split; [done|]. by rewrite (wr_length _ _ _ _ Hw).
  - rewrite wr_Some in Hw; [done|lia|]. rewrite length_app, length_replicate. cbn [length]. lia.
Qed.

Lemma cat_main_spec n program xs (w : W) :
  Forall (fun x => option_ok x.2) xs ->
  let c := foldl apply_option g_silogCatConfig (map snd xs) in
  wp (cat_main n program (concat (map render xs)))
    (fun r e' => r = 0 /\ ledger (c_trace (ct_client (mem e'))) = Some ∅ /\
       Forall2 (text_of W c) (List.filter (passes c) (callbacks (c_trace (ct_client (mem e')))))
         (shown (c_trace (ct_term (mem e'))))) (Env g_cat w [] false).
Proof.
  intros Hxs c. unfold cat_main. wp_step. apply start_spec. intros p w1 t1. wp_step. unfold SilogCatParseArgs.
  rewrite <- (app_nil_r (concat _)). apply parse_options; [done|split; by apply string_array_length|].
  cbn [parse_loop]. wp_step. unfold with_config. cbn [mem world trace held set_ctPrelog ct_config g_cat]. fold c.
  change (negb (0 =? 0)) with false. cbv iota. wp_step. wp_step. wp_step. cbn [mem ct_config set_ctConfig].
  destruct (server_addr_ok (cstr (sc_serverAddr c))) as (b & Hb & Hlb). eapply wp_lift; [exact Hb|].
  wp_step. apply wp_zoom. cbn [mem world trace held].
  eapply wp_mono; [apply init_quiet; [split; [|done]|exact Hlb]|].
  { split; [split; [done|apply Forall_replicate; split; cbn; lia]|]. split; [split; done|]. done. }
  intros r e2 (-> & [Hx2 Hl2] & Hi2 & Ht2). cbn [mem trace] in *. rewrite decide_False by tauto.
  match goal with |- wp _ _ (Env ?s _ _ _) => set (s0 := s) end.
  assert (cat_ok s0) as Hok0 by done.
  assert (viewed (set_ctConfig c g_cat) s0) as Hv0.
  { split; [done|]. exists [], []. split; [cbn; by rewrite Ht2|]. split; [done|]. split; [constructor|]. constructor. }
  wp_step. apply wp_status; [by right|]. intros s1 w3 t3 Hs1. wp_step. apply wp_statuses; [done|].
  intros s2 w4 t4 Hs2. wp_step. apply wp_statuses; [done|]. intros s3 w5 t5 Hs3. wp_step. apply wp_status; [by right|].
  intros s4 w6 t6 Hs4. cbn [mem]. wp_step.
  eapply wp_mono; [by apply cat_loop_spec|]. cbn [mem]. intros [] [m7 w7 t7 h7] [Hok Hv]. cbn [mem] in *.
  wp_step. apply wp_status; [by right|]. intros s5 w8 t8 Hs5. wp_step. cbn [mem].
  apply deinit_closes; [exact Hok|]. intros m tc w9 t9 h9 Hl9 Hcb. wp_step. split; [done|]. split; [exact Hl9|].
  assert (viewed (set_ctConfig c g_cat)
    (set_ctClient (MkComp m (c_trace (ct_client m7) ++ tc)) (term_calls s5 m7))) as (_ & tc' & tt' & Htc & Htt & _ & Hf).
  { eapply viewed_trans; [exact Hv0|]. eapply viewed_trans; [exact (viewed_status _ s1 Hs1)|].
    eapply viewed_trans; [exact (viewed_status _ s2 Hs2)|]. eapply viewed_trans; [exact (viewed_status _ s3 Hs3)|].
    eapply viewed_trans; [exact (viewed_status _ s4 Hs4)|]. eapply viewed_trans; [exact Hv|].
    eapply viewed_trans; [exact (viewed_status _ s5 Hs5)|]. exact (viewed_calls (term_calls s5 m7) tc m Hcb). }
  cbn [mem ct_client ct_term set_ctClient set_ctConfig term_calls set_ctTerm c_trace g_cat app] in Htc, Htt |- *.
  rewrite Htc, Htt. exact Hf.
Qed.

(** A wrong or incomplete option, and the request for help. *)
Inductive stopping : list (list Z) -> parsed -> Prop :=
  | stop_missing a : a ∈ map chars ["-s"; "--server"; "-p"; "--port"; "-t"; "--tag"; "-l"; "--level"]%string ->
      stopping [a] (PReturn (-1))
  | stop_unknown a rest :
      a ∉ map chars ["-h"; "--help"; "-s"; "--server"; "-p"; "--port"; "-t"; "--tag"; "-l"; "--level"; "-c";
        "--color"]%string ->
      stopping (a :: rest) (PReturn (-1))
  | stop_help a rest : a ∈ map chars ["-h"; "--help"]%string -> stopping (a :: rest) (PExit 0).

Lemma wp_put_all ls Q e :
  (forall t w tr, Q tt (Env (term_calls t (mem e)) w tr (held e))) -> wp (put_all ls) Q e.
Proof.
  revert e. induction ls as [|l ls IH]; intros e HQ; cbn [put_all].
  { wp_step. specialize (HQ [] (world e) (trace e)). rewrite term_calls_nil in HQ. by destruct e. }
  wp_step. apply wp_out_text. intros a w tr. apply IH. intros t w' tr'. cbn [mem held]. rewrite term_calls_app. apply HQ.
Qed.

Lemma is_opt_no a s l L : a ∉ map chars L -> s ∈ L -> l ∈ L -> is_opt a s l = false.
Proof.
  intros Ha Hs Hl. unfold is_opt. apply orb_false_iff. split; apply bool_decide_eq_false; intros ->; apply Ha; set_solver.
Qed.

Lemma stopping_spec program rest res e :
  stopping rest res ->
  wp (parse_loop program rest) (fun r e' => r = res /\ held e' = held e /\ exists t, mem e' = term_calls t (mem e)) e.
Proof.
  intros [a Ha|a r Ha|a r Ha].
  - cbn [map] in Ha. set_unfold in Ha.
    destruct Ha as [->|[->|[->|[->|[->|[->|[->|[->|[]]]]]]]]]; cbn [parse_loop]; eval_opts; unfold missing; wp_step;
      apply wp_out_text; intros; wp_step; (split; [done|]); (split; [done|]); by eexists.
  - cbn [parse_loop]. rewrite !(is_opt_no _ _ _ _ Ha) by set_solver. wp_step. apply wp_out_text. intros. wp_step.
    unfold SilogCatPrintUsage. apply wp_put_all. intros. cbn [mem held]. rewrite term_calls_app. wp_step.
    split; [done|]. split; [done|]. by eexists.
  - cbn [map] in Ha. set_unfold in Ha. destruct Ha as [->|[->|[]]]; cbn [parse_loop]; eval_opts; unfold SilogCatPrintUsage;
      wp_step; apply wp_put_all; intros; wp_step; (split; [done|]); (split; [done|]); by eexists.
Qed.

(** ** Properties *)

(** C10: The viewer as a whole: started with any correct options, however often its
    loop runs and whatever the network does, it ends with status 0 and its socket
    closed, and the texts it has shown are, in order, those of exactly the
    received entries that pass the filters which the options ask for. *)
Theorem viewer_shows n program xs (w : W) :
  Forall (fun x => option_ok x.2) xs ->
  let c := foldl apply_option g_silogCatConfig (map snd xs) in
  wp (cat_main n program (concat (map render xs)))
    (fun r e' => r = 0 /\ ledger (c_trace (ct_client (mem e'))) = Some ∅ /\
       Forall2 (text_of W c) (List.filter (passes c) (callbacks (c_trace (ct_client (mem e')))))
         (shown (c_trace (ct_term (mem e'))))) (Env g_cat w [] false).
Proof. apply cat_main_spec. Qed.

(** A command line that ends its correct options with an unknown option, or
    with one that lacks its argument, makes the viewer end with status 1; the
    request for help ends it with status 0. No connection is tried. *)
Theorem viewer_rejects n program xs rest res (w : W) :
  Forall (fun x => option_ok x.2) xs -> stopping rest res ->
  wp (cat_main n program (concat (map render xs) ++ rest))
    (fun r e' => r = (match res with PExit k => k | PReturn _ => 1 end) /\ c_trace (ct_client (mem e')) = [])
    (Env g_cat w [] false).
Proof.
  intros Hxs Hst. unfold cat_main. wp_step. apply start_spec. intros p w1 t1. wp_step. unfold SilogCatParseArgs.
  apply parse_options; [done|split; by apply string_array_length|].
  eapply wp_mono; [by apply stopping_spec|]. intros r e' (-> & _ & t & Hm).
  assert (c_trace (ct_client (mem e')) = []) as Hc by (by rewrite Hm).
  destruct Hst; cbn [negb]; try change (negb (-1 =? 0)) with true; cbn iota; wp_step; (split; [reflexivity|exact Hc]).
Qed.
End main.

(** ** The properties at concrete inputs *)

(** The scripted kernel with a clock that always answers. *)
Definition clocked : Type := script.
#[export] Instance clocked_os : Os clocked := fun c w =>
  match c with
  | CLocaltime _ => (Ans 1 0 [125; 5; 15; 23; 6; 40] [], w)
  | _ => script_os c w
  end.
#[export] Instance clocked_recv : RecvLaw clocked.
Proof. intros fd n w a w' H. exact (script_recv_law fd n w a w' H). Qed.
#[export] Instance clocked_time : LocalTime clocked.
Proof.
  intros s w a w' [= <- _] _. split; [done|]. intros i Hi. do 6 (destruct i as [|i]; [cbn; lia|]). lia.
Qed.

(** A command line, and a session in which one entry arrives. *)
Definition demo_options : list (bool * cat_option) :=
  [(false, OptTag (chars "net")); (true, OptLevel SILOG_INFO (chars "info")); (false, OptPort 9091)].
Definition demo_session : clocked :=
  [ok 4; ok 0; ok 6; ok 1; ok 0; ok 2; ok 0; ok 0; ok 1; data (wire (demo_entry 1750000000123))].

Lemma viewer_shows_witness :
  wp (cat_main 1 (chars "silogcat") (concat (map render demo_options)))
    (fun r e' => r = 0) (Env g_cat demo_session [] false).
Proof.
  eapply wp_mono; [apply (viewer_shows 1 (chars "silogcat") demo_options demo_session)|].
  - constructor; [exact I|]. constructor.
    { exists "INFO"%string. split; [apply list_elem_of_here|reflexivity]. }
    constructor; [cbn; lia|constructor].
  - intros r e' [Hr _]. exact Hr.
Defined.

Lemma viewer_rejects_witness :
  wp (cat_main 1 (chars "silogcat") (concat (map render demo_options) ++ [chars "-s"]))
    (fun r e' => r = 1) (Env g_cat demo_session [] false).
Proof.
  eapply wp_mono; [apply (viewer_rejects 1 (chars "silogcat") demo_options [chars "-s"] (PReturn (-1)) demo_session)|].
  - constructor; [exact I|]. constructor.
    { exists "INFO"%string. split; [apply list_elem_of_here|reflexivity]. }
    constructor; [cbn; lia|constructor].
  - apply stop_missing. apply list_elem_of_here.
  - intros r e' [Hr _]. exact Hr.
Defined.
