(* ===== verification/Exe.v ===== *)
(** * The command line tool (silog_exe/src/silog_exe.c)

    The program that starts the daemon, in the foreground or in the background,
    stops it, shows its state and sends test entries. It is linked with the
    daemon, whose variables are the state of every process that runs it; its own
    calls are those of the environment. A call of [fork] returns in two processes:
    the answer tells which of them the run describes. The texts are the bytes of
    the source file. *)

From S2P Require Import Prelude Errors LogEntry CObj CMem Mpsc RemoteCodec Os Queues Format Text Layout.
From S2P Require Import RemoteServer FileManager FileManagerOps Ipc Prelog Daemon.
#[local] Open Scope Z_scope.

Definition PID_FILE : list Z := chars "/tmp/silogd.pid".
Definition DEV_NULL : list Z := chars "/dev/null".
Definition SIGKILL : Z := 9.
Definition SIGTERM : Z := 15.
(** The standard input stream, and the modes of [fopen]. *)
Definition STDIN : Z := -3.
Definition MODE_R : Z := 114.
Definition MODE_W : Z := 119.

(** How a process ends: the value of [main], a call of [exit], or the endless loop
    of a daemon that runs until it is killed. *)
Inductive outcome := Returned (r : Z) | Exited (status : Z) | Serving.

Definition exe_usage (program : list Z) : list (list Z) :=
  [nl "SiLog - 日志系统守护进程管理工具" ++ [10];
   chars "Usage: " ++ program ++ nl " [command] [options]" ++ [10];
   nl "Commands:";
   nl "  start                启动守护进程";
   nl "  stop                 停止守护进程";
   nl "  status               查看守护进程状态";
   nl "  test                 发送测试日志";
   10 :: nl "Options:";
   nl "  -d, --daemon         后台运行模式";
   nl "  -h, --help           显示帮助";
   10 :: nl "Examples:";
   chars "  " ++ program ++ nl " start             # 前台启动守护进程";
   chars "  " ++ program ++ nl " start -d          # 后台启动守护进程";
   chars "  " ++ program ++ nl " status            # 查看守护进程状态";
   chars "  " ++ program ++ nl " stop              # 停止守护进程";
   chars "  " ++ program ++ nl " test              # 发送测试日志"].

Definition exe_prelog_config (enableStdout : bool) : SilogPrelogConfig_t :=
  MkPrelogConfig (string_array 256 (chars "/tmp/silog_exe.txt")) SILOG_PRELOG_LEVEL_DEBUG enableStdout.

(** The line of the file with the identifier of the process. *)
Definition pid_text (pid : Z) : list Z := fmt_d pid ++ [10].

(** The four entries that are sent differ in level and message. *)
Definition set_test (e : logEntry_t) (level : silogLevel) (msg : list Z) : logEntry_t :=
  MkEntry (ts e) (pid e) (tid e) (level_val level) (tag e) (file e) (line e) msg (u16 (len (cstr msg))) (enabled e).

Section exe.
Context {W : Type} `{!Os W, !Others SilogPrelogManager_t W, !Others SilogFileManager W,
  !Others SilogRemoteManager W}.
#[local] Abbreviation DM := (M daemon W).

Definition puts (f : Z) (s : list Z) : DM unit := _ ← sys (CFputs f s); mret tt.
Fixpoint puts_all (ls : list (list Z)) : DM unit :=
  match ls with [] => mret tt | l :: ls => puts STDOUT l ;; puts_all ls end.

Definition SilogExePrintUsage (program : list Z) : DM unit := puts_all (exe_usage program).

(** ** The process of the daemon *)

Definition SilogExeDaemonIsRunning : DM bool :=
  zoom dm_ipc set_dmIpc (SilogIpcInit SILOG_IPC_TYPE_UNIX_DGRAM) ;;
  r ← zoom dm_ipc set_dmIpc SilogIpcClientInit;
  if decide (r = SILOG_OK) then zoom dm_ipc set_dmIpc SilogIpcClientClose ;; mret true
  else mret false.

Definition SilogExeWritePidFile (pid : Z) : DM unit :=
  f ← sys (CFopen PID_FILE MODE_W);
  if ret f =? 0 then mret tt
  else
    puts (ret f) (pid_text pid) ;;
    _ ← sys (CFclose (ret f));
    mret tt.

Definition SilogExeReadPidFile : DM Z :=
  f ← sys (CFopen PID_FILE MODE_R);
  if ret f =? 0 then mret (-1)
  else
    t ← sys (CReadText (ret f));
    v ← lift (scan_d (out t));
    _ ← sys (CFclose (ret f));
    mret (default (-1) v).

Definition SilogExeRemovePidFile : DM unit := _ ← sys (CUnlink PID_FILE); mret tt.

(** [while (1) sleep(1)], for [n] seconds of it. *)
Fixpoint sleep_loop (n : nat) : DM unit :=
  match n with O => mret tt | S n => _ ← sys (CUsleep 1000000); sleep_loop n end.

Definition SilogExeStartForeground (n : nat) : DM outcome :=
  _ ← zoom dm_prelog set_dmPrelog (SilogPrelogInit (Some (exe_prelog_config true)));
  SILOG_PRELOG_I SILOG_PRELOG_EXE "SiLog Daemon starting (foreground)" [] ;;
  r ← SilogDaemonInit;
  if decide (r <> SILOG_OK) then
    SILOG_PRELOG_E SILOG_PRELOG_EXE "SilogDaemonInit failed: %d" [AInt (err r)] ;; mret (Returned (err r))
  else
    SILOG_PRELOG_I SILOG_PRELOG_EXE "SiLog Daemon Started Successfully" [] ;;
    p ← sys CGetpid;
    puts STDOUT (chars "SiLog Daemon is running (PID: " ++ fmt_d (ret p) ++ nl ")") ;;
    puts STDOUT (nl "Press Ctrl+C to stop" ++ [10]) ;;
    sleep_loop n ;;
    mret Serving.

(** Up to [k] times: wait 100 ms, then ask whether the daemon runs, until the
    answer is [b]. *)
Fixpoint poll (k : nat) (b : bool) : DM bool :=
  match k with
  | O => mret false
  | S k =>
      _ ← sys (CUsleep 100000);
      r ← SilogExeDaemonIsRunning;
      if eqb r b then mret true else poll k b
  end.

(** The child after the fork. *)
Definition daemon_process (n : nat) : DM outcome :=
  s ← sys CSetsid;
  if ret s <? 0 then _ ← sys (CPerror (chars "setsid failed")); mret (Exited 1)
  else
    _ ← sys (CFreopen DEV_NULL MODE_R STDIN);
    _ ← sys (CFreopen DEV_NULL MODE_W STDOUT);
    _ ← sys (CFreopen DEV_NULL MODE_W STDERR);
    _ ← zoom dm_prelog set_dmPrelog (SilogPrelogInit (Some (exe_prelog_config false)));
    SILOG_PRELOG_I SILOG_PRELOG_EXE "SiLog Daemon starting (background)" [] ;;
    r ← SilogDaemonInit;
    if decide (r <> SILOG_OK) then
      SILOG_PRELOG_E SILOG_PRELOG_EXE "SilogDaemonInit failed: %d" [AInt (err r)] ;; mret (Exited 1)
    else
      p ← sys CGetpid;
      SILOG_PRELOG_I SILOG_PRELOG_EXE "SiLog Daemon Started (PID: %d)" [AInt (ret p)] ;;
      sleep_loop n ;; mret Serving.

Definition SilogExeStartDaemon (n : nat) : DM outcome :=
  running ← SilogExeDaemonIsRunning;
  if (running : bool) then
    puts STDOUT (nl "SiLog Daemon is already running") ;; mret (Returned (err SILOG_OK))
  else
    p ← sys CFork;
    if ret p <? 0 then _ ← sys (CPerror (chars "fork failed")); mret (Returned (err SILOG_SYS_CALL))
    else if 0 <? ret p then
      puts STDOUT (nl "Starting SiLog Daemon...") ;;
      started ← poll 30 true;
      if (started : bool) then
        puts STDOUT (chars "SiLog Daemon started successfully (PID: " ++ fmt_d (ret p) ++ nl ")") ;;
        SilogExeWritePidFile (ret p) ;;
        mret (Returned (err SILOG_OK))
      else
        puts STDERR (nl "Failed to start SiLog Daemon") ;;
        mret (Returned (err SILOG_TIMEOUT))
    else daemon_process n.

Definition SilogExeStopDaemon : DM outcome :=
  running ← SilogExeDaemonIsRunning;
  if negb running then
    puts STDOUT (nl "SiLog Daemon is not running") ;;
    SilogExeRemovePidFile ;;
    mret (Returned (err SILOG_OK))
  else
    pid ← SilogExeReadPidFile;
    stopped ←
      (if 0 <? pid then
         k ← sys (CKill pid SIGTERM);
         if ret k =? 0 then
           stopped ← poll 30 false;
           if (stopped : bool) then mret true
           else
             puts STDOUT (nl "Force stopping SiLog Daemon...") ;;
             _ ← sys (CKill pid SIGKILL);
             mret false
         else mret false
       else mret false);
    if (stopped : bool) then
      puts STDOUT (nl "SiLog Daemon stopped") ;;
      SilogExeRemovePidFile ;;
      mret (Returned (err SILOG_OK))
    else
      SilogExeRemovePidFile ;;
      puts STDOUT (nl "SiLog Daemon stopped") ;;
      mret (Returned (err SILOG_OK)).

Definition SilogExeShowStatus : DM outcome :=
  running ← SilogExeDaemonIsRunning;
  puts STDOUT (nl "SiLog Daemon Status:") ;;
  puts STDOUT (chars "  Running: " ++ (if (running : bool) then nl "Yes" else nl "No")) ;;
  (if (running : bool) then
     pid ← SilogExeReadPidFile;
     (if 0 <? pid then puts STDOUT (chars "  PID: " ++ fmt_d pid ++ [10]) else mret tt) ;;
     clientCount ← zoom dm_remote set_dmRemote SilogRemoteGetClientCount;
     puts STDOUT (chars "  Remote clients: " ++ fmt_u clientCount ++ [10]) ;;
     puts STDOUT (10 :: nl "SiLog is ready to receive logs.") ;;
     puts STDOUT (nl "Use SILOG_I(), SILOG_D(), etc. macros to send logs.")
   else
     puts STDOUT (10 :: nl "SiLog Daemon is not running.") ;;
     puts STDOUT (nl "Start it with: silog start")) ;;
  mret (Returned (err SILOG_OK)).

(** ** The test entries *)

(** An entry whose bytes are all zero. *)
Definition zero_entry : logEntry_t :=
  MkEntry 0 0 0 0 (replicate (Z.to_nat SILOG_TAG_MAX_LEN) 0) (replicate (Z.to_nat SILOG_FILE_MAX_LEN) 0) 0
    (replicate (Z.to_nat SILOG_MSG_MAX_LEN) 0) 0 0.

(** Set level and message of the entry and send it. *)
Definition send_test (e : logEntry_t) (level : silogLevel) (name text : string) : DM logEntry_t :=
  m ← lift (strncpy (msg e) (chars text) (SILOG_MSG_MAX_LEN - 1));
  let e := set_test e level m in
  _ ← zoom dm_ipc set_dmIpc (SilogIpcClientSend (entry_bytes e (replicate 5 0)));
  puts STDOUT (chars "[" ++ chars name ++ nl "] Test message sent") ;;
  mret e.

Definition SilogExeSendTestLogs : DM outcome :=
  running ← SilogExeDaemonIsRunning;
  if negb running then
    puts STDERR (nl "Error: SiLog Daemon is not running.") ;;
    puts STDERR (nl "Start it with: silog start") ;;
    mret (Returned (err SILOG_TRANS_NOT_INIT))
  else
    puts STDOUT (nl "Sending test logs to SiLog Daemon..." ++ [10]) ;;
    zoom dm_ipc set_dmIpc (SilogIpcInit SILOG_IPC_TYPE_UNIX_DGRAM) ;;
    r ← zoom dm_ipc set_dmIpc SilogIpcClientInit;
    if decide (r <> SILOG_OK) then
      puts STDERR (chars "Failed to connect to daemon: " ++ fmt_d (err r) ++ [10]) ;;
      mret (Returned (err r))
    else
      p1 ← sys CGetpid;
      p2 ← sys CGetpid;
      tg ← lift (strncpy (tag zero_entry) (chars "Test") (SILOG_TAG_MAX_LEN - 1));
      fl ← lift (strncpy (file zero_entry) (chars "test.cpp") (SILOG_FILE_MAX_LEN - 1));
      let e := MkEntry 0 (i32 (ret p1)) (i32 (ret p2)) 0 tg fl 1 (msg zero_entry) 0 1 in
      e ← send_test e SILOG_DEBUG "DEBUG" "This is a DEBUG test message";
      _ ← sys (CUsleep 100000);
      e ← send_test e SILOG_INFO "INFO" "This is an INFO test message";
      _ ← sys (CUsleep 100000);
      e ← send_test e SILOG_WARN "WARN" "This is a WARN test message";
      _ ← sys (CUsleep 100000);
      _ ← send_test e SILOG_ERROR "ERROR" "This is an ERROR test message";
      zoom dm_ipc set_dmIpc SilogIpcClientClose ;;
      puts STDOUT (10 :: nl "Test logs sent successfully.") ;;
      puts STDOUT (nl "Check the log file: /tmp/silog_daemon.txt") ;;
      mret (Returned (err SILOG_OK)).

(** ** The main program *)

Definition exe_main (n : nat) (argv : list (list Z)) : DM outcome :=
  match argv with
  | [] => undefined
  | [program] => SilogExePrintUsage program ;; mret (Returned 1)
  | program :: command :: rest =>
      let daemon_mode := match rest with a :: _ => is_opt a "-d" "--daemon" | [] => false end in
      let cmd s := bool_decide (command = chars s) in
      if cmd "start" then (if daemon_mode then SilogExeStartDaemon n else SilogExeStartForeground n)
      else if cmd "stop" then SilogExeStopDaemon
      else if cmd "status" then SilogExeShowStatus
      else if cmd "test" then SilogExeSendTestLogs
      else if cmd "-h" || cmd "--help" then SilogExePrintUsage program ;; mret (Returned 0)
      else
        puts STDERR (chars "Unknown command: " ++ command ++ nl "" ++ [10]) ;;
        SilogExePrintUsage program ;;
        mret (Returned 1)
  end.
End exe.

(** ** What a run does *)

(** The calls of a trace apart from those of the probes and the waits. *)
Definition hidden (c : call) : bool :=
  match c with
  | CSocket | CGetfl _ | CSetfl _ _ | CConnectUnix _ _ | CClose _ | CUsleep _ | CSend _ _ => true
  | _ => false
  end.
Definition visible (t : trace_t) : trace_t := List.filter (fun ev => negb (hidden ev.1)) t.
Lemma visible_app t1 t2 : visible (t1 ++ t2) = visible t1 ++ visible t2.
Proof. apply List.filter_app. Qed.

(** How often the socket of the daemon has been reached. *)
Definition connections (t : trace_t) : nat :=
  length (omap (fun ev => match ev.1 with CConnectUnix _ _ => if 0 <=? ret ev.2 then Some tt else None | _ => None end) t).
Lemma connections_app t1 t2 : connections (t1 ++ t2) = (connections t1 + connections t2)%nat.
Proof. unfold connections. by rewrite omap_app, length_app. Qed.

(** The transport between two probes: no socket is open. *)
Definition idle_agent : SilogIpcAgent := MkAgent true (-1) (-1).
Definition probe_ready (c : comp SilogIpcAgent) : Prop :=
  (c_mem c = g_silogIpcAgent \/ c_mem c = idle_agent) /\ ledger (c_trace c) = Some ∅.

Section probes.
Context {W : Type} `{!Os W}.
Implicit Types (e : env SilogIpcAgent W).

Lemma connect_idle_spec w tr h :
  ledger tr = Some ∅ ->
  wp SilogIpcClientInit
    (fun r e' => held e' = h /\ exists t, trace e' = tr ++ t /\ visible t = [] /\ sends t = [] /\
       (r = SILOG_OK /\ connections t = 1%nat /\
          (exists fd, 0 <= fd /\ mem e' = MkAgent true fd (-1) /\ ledger (tr ++ t) = Some {[+ fd +]}) \/
        r <> SILOG_OK /\ connections t = 0%nat /\ mem e' = idle_agent /\ ledger (tr ++ t) = Some ∅))
    (Env idle_agent w tr h).
Proof.
  intros Hl.
  assert (forall t, opened (-1) t -> ledger (tr ++ t) = Some ∅) as Hno
    by (intros t Ht; by rewrite (Ht _ _ Hl), fd_set_neg, (right_id_L ∅ (⊎)) by lia).
  assert (forall a t, 0 <= ret a -> neutral t -> ledger (tr ++ (CSocket, a) :: t) = Some {[+ ret a +]}) as Hyes
    by (intros a t Ha Ht; rewrite (kept_open a t Ha Ht _ _ Hl), fd_set_pos by done; by rewrite (left_id_L ∅ (⊎))).
  unfold SilogIpcClientInit, SilogIpcDgramClientInit, setNonblock, idle_agent.
  wp_step. wp_step. cbn [ia_isInit negb]. wp_steps; rewrite <- ?(assoc_L (++)); try done; (split; [done|]);
    eexists; (split; [reflexivity|]); (split; [done|]); (split; [done|]).
  - right. split_and!; try done. apply Hno, opened_none. intros tr'. by apply ledger_open_fail.
  - right. split_and!; try done. by apply Hno, (closed_again a [_]), neutral_one.
  - right. split_and!; try done. apply Hno, (closed_again a [_; _]); [done|]. apply (neutral_app [_] [_]); solve_neutral.
  - right. split_and!; try done; [unfold connections; cbn; by ztest|]. apply Hno, (closed_again a [_; _; _]); [done|].
    apply (neutral_app [_] [_; _]); [|apply (neutral_app [_] [_])]; solve_neutral.
  - left. split_and!; [done|unfold connections; cbn; by ztest|]. exists (ret a). split_and!; [done|done|].
    apply (Hyes a [_; _; _]); [done|]. apply (neutral_app [_] [_; _]); [|apply (neutral_app [_] [_])]; solve_neutral.
Qed.

Lemma ipc_disconnect_spec fd w tr h :
  ledger tr = Some (fd_set fd) ->
  wp SilogIpcClientClose
    (fun _ e' => held e' = h /\ mem e' = idle_agent /\ ledger (trace e') = Some ∅ /\
       exists t, trace e' = tr ++ t /\ visible t = [] /\ connections t = 0%nat /\ sends t = [])
    (Env (MkAgent true fd (-1)) w tr h).
Proof.
  intros Hl. unfold SilogIpcClientClose, SilogIpcDgramClientClose. wp_step. wp_step. cbn [ia_isInit negb ia_sendFd].
  wp_step. wp_step. wp_step. wp_step. cbn [ia_sendFd]. wp_steps; (split_and!; [done|done| |]).
  - apply ledger_close. by rewrite (left_id_L ∅ (⊎)), <- fd_set_pos.
  - by eexists.
  - by rewrite Hl, fd_set_neg.
  - exists []. by rewrite app_nil_r.
Qed.

End probes.

(** ** The operations *)

Section exe_specs.
Context {W : Type} `{!Os W, !Others SilogPrelogManager_t W, !Others SilogFileManager W,
  !Others SilogRemoteManager W}.
Implicit Types (e : env daemon W).

(** From [e] to [e'], only the variables of the transport have changed, and the
    calls made show as [vis], with [n] connections to the daemon. *)
Definition acted (vis : trace_t) (n : nat) e e' : Prop :=
  held e' = held e /\ exists c t, mem e' = set_dmIpc c (mem e) /\ probe_ready c /\
    trace e' = trace e ++ t /\ visible t = vis /\ connections t = n /\ sends t = [].

Lemma acted_refl e : probe_ready (dm_ipc (mem e)) -> acted [] 0 e e.
Proof. intros H. split; [done|]. exists (dm_ipc (mem e)), []. rewrite app_nil_r. split_and!; try done.
by destruct e as [[] ? ? ?]. Qed.
Lemma acted_trans v1 n1 v2 n2 e1 e2 e3 :
  acted v1 n1 e1 e2 -> acted v2 n2 e2 e3 -> acted (v1 ++ v2) (n1 + n2) e1 e3.
Proof.
  intros (H1 & c1 & t1 & Hm1 & _ & Ht1 & <- & <- & Hs1) (H2 & c2 & t2 & Hm2 & Hc2 & Ht2 & <- & <- & Hs2).
  split; [congruence|]. exists c2, (t1 ++ t2).
  by rewrite visible_app, connections_app, sends_app, Hs1, Hs2, Hm2, Hm1, Ht2, Ht1, (assoc_L (++)).
Qed.
Lemma acted_ready v n e e' : acted v n e e' -> probe_ready (dm_ipc (mem e')).
Proof. intros (_ & c & t & -> & Hc & _). done. Qed.

Lemma running_spec e :
  probe_ready (dm_ipc (mem e)) ->
  wp SilogExeDaemonIsRunning (fun b e' => acted [] (Nat.b2n b) e e') e.
Proof.
  destruct e as [m w tr h]. destruct (dm_ipc m) as [a0 t0] eqn:Hc. cbn [mem]. rewrite Hc. intros [Ha Hl].
  cbn [c_mem c_trace] in *. unfold SilogExeDaemonIsRunning. wp_step. apply wp_zoom. cbn [mem world trace held]. rewrite Hc.
  cbn [c_mem c_trace]. exists tt, (Env idle_agent w t0 h). split; [by destruct Ha as [-> | ->]|]. cbn [mem world trace held].
  rewrite drop_all, app_nil_r. wp_step. apply wp_zoom. cbn [mem world trace held dm_ipc set_dmIpc c_mem c_trace].
  eapply wp_mono; [by apply connect_idle_spec|]. intros r [m1 w1 t1' h1] (Hh1 & t1 & Ht1 & Hv1 & Hs1 & Ho).
  cbn [mem world trace held] in *. subst h1 t1'. rewrite drop_app_length.
  destruct Ho as [(-> & Hn1 & fd & Hfd & -> & Hl1)|(Hr & Hn1 & -> & Hl1)].
  - rewrite decide_True by done. wp_step. apply wp_zoom. cbn [mem world trace held dm_ipc set_dmIpc c_mem c_trace].
    eapply wp_mono; [apply ipc_disconnect_spec; by rewrite fd_set_pos|].
    intros _ [m2 w2 t2' h2] (Hh2 & -> & Hl2 & t2 & Ht2 & Hv2 & Hn2 & Hs2).
    cbn [mem world trace held] in *. subst h2 t2'. rewrite drop_app_length. wp_step. split; [done|].
    exists (MkComp idle_agent ((t0 ++ t1) ++ t2)), (t1 ++ t2).
    rewrite visible_app, connections_app, sends_app, Hv1, Hv2, Hn1, Hn2, Hs1, Hs2.
    rewrite (assoc_L (++)). split_and!; try done. split; [by right|done].
  - rewrite decide_False by done. wp_step. split; [done|]. exists (MkComp idle_agent (t0 ++ t1)), t1.
    split_and!; try done. split; [by right|done].
Qed.

(** ** Steps of a run that began in [e0] *)

Lemma wp_running v n e0 (Q : _ -> env daemon W -> Prop) e :
  acted v n e0 e -> (forall b e', acted v (n + Nat.b2n b) e0 e' -> Q b e') -> wp SilogExeDaemonIsRunning Q e.
Proof.
  intros H HQ. eapply wp_mono; [apply running_spec; by eapply acted_ready|]. intros b e' Ha. apply HQ.
  rewrite <- (app_nil_r v). by eapply acted_trans.
Qed.
(** A call of the program itself. *)
Lemma wp_call c v n e0 (Q : _ -> env daemon W -> Prop) e :
  hidden c = false -> acted v n e0 e -> (forall a e', acted (v ++ [(c, a)]) n e0 e' -> Q a e') -> wp (sys c) Q e.
Proof.
  intros Hc H HQ. apply wp_sys. intros a w _. apply HQ. rewrite <- (Nat.add_0_r n). eapply acted_trans; [done|].
  split; [done|]. exists (dm_ipc (mem e)), [(c, a)]. cbn [mem trace]. split_and!; [by destruct e as [[] ? ? ?]| |done| | |].
  - by eapply acted_ready.
  - unfold visible. cbn. by rewrite Hc.
  - by destruct c.
  - by destruct c.
Qed.
Lemma wp_wait us v n e0 (Q : _ -> env daemon W -> Prop) e :
  acted v n e0 e -> (forall a e', acted v n e0 e' -> Q a e') -> wp (sys (CUsleep us)) Q e.
Proof.
  intros H HQ. apply wp_sys. intros a w _. apply (HQ a). rewrite <- (Nat.add_0_r n), <- (app_nil_r v).
  eapply acted_trans; [done|]. split; [done|]. exists (dm_ipc (mem e)), [(CUsleep us, a)]. cbn [mem trace].
  split_and!; try done; [by destruct e as [[] ? ? ?]|by eapply acted_ready].
Qed.
Lemma wp_puts f d v n e0 (Q : _ -> env daemon W -> Prop) e :
  acted v n e0 e -> (forall a e', acted (v ++ [(CFputs f d, a)]) n e0 e' -> Q tt e') -> wp (puts f d) Q e.
Proof. intros H HQ. unfold puts. wp_step. eapply wp_call; [done|done|]. intros a e' Ha. wp_step. by eapply HQ. Qed.

Lemma wp_remove v n e0 (Q : _ -> env daemon W -> Prop) e :
  acted v n e0 e -> (forall a e', acted (v ++ [(CUnlink PID_FILE, a)]) n e0 e' -> Q tt e') -> wp SilogExeRemovePidFile Q e.
Proof.
  intros H HQ. unfold SilogExeRemovePidFile. wp_step. eapply wp_call; [done|done|]. intros a e' Ha. wp_step. by eapply HQ.
Qed.

(** The daemon is asked until it runs: one connection ends the loop. *)
Lemma poll_true_spec k v n e0 (Q : _ -> env daemon W -> Prop) e :
  acted v n e0 e -> (forall b e', acted v (n + Nat.b2n b) e0 e' -> Q b e') -> wp (poll k true) Q e.
Proof.
  revert e. induction k as [|k IH]; intros e H HQ; cbn [poll].
  { wp_step. apply (HQ false). by rewrite Nat.add_0_r. }
  wp_step. eapply wp_wait; [done|]. intros _ e1 H1. wp_step. eapply wp_running; [done|].
  intros [|] e2 H2; cbn [eqb Bool.eqb].
  - wp_step. by apply (HQ true).
  - apply IH; [|done]. by rewrite Nat.add_0_r in H2.
Qed.
(** The daemon is asked until it does not run any more. *)
Lemma poll_false_spec k v n e0 (Q : _ -> env daemon W -> Prop) e :
  acted v n e0 e ->
  (forall (b : bool) j e', (if b then j < k else j = k)%nat -> acted v (n + j) e0 e' -> Q b e') -> wp (poll k false) Q e.
Proof.
  revert n e. induction k as [|k IH]; intros n e H HQ; cbn [poll].
  { wp_step. apply (HQ false 0%nat); [done|]. by rewrite Nat.add_0_r. }
  wp_step. eapply wp_wait; [done|]. intros _ e1 H1. wp_step. eapply wp_running; [done|].
  intros [|] e2 H2; cbn [eqb Bool.eqb].
  - apply (IH _ e2 H2). intros b j e' Hj He. apply (HQ b (S j)); [destruct b; lia|].
    by replace (n + S j)%nat with (n + 1 + j)%nat by lia.
  - wp_step. apply (HQ true 0%nat); [lia|done].
Qed.
End exe_specs.

(** ** Outcomes *)

Definition shows (f : Z) (s : list Z) (ev : call * answer) : Prop := ev.1 = CFputs f s.
Definition removed (ev : call * answer) : Prop := ev.1 = CUnlink PID_FILE.

(** Reading the file of the identifier gives [pid]; it is closed again. *)
Inductive pid_read : trace_t -> Z -> Prop :=
  | pid_no_file a : ret a = 0 -> pid_read [(CFopen PID_FILE MODE_R, a)] (-1)
  | pid_found a t c v : ret a <> 0 -> scan_d (out t) = Some v ->
      pid_read [(CFopen PID_FILE MODE_R, a); (CReadText (ret a), t); (CFclose (ret a), c)] (default (-1) v).

(** What the command stop does, with the number of connections it makes:
    nothing runs; no identifier is known; the signal cannot be sent; the daemon
    ends within thirty waits; it is killed. *)
Inductive stop_run : trace_t -> nat -> Prop :=
  | stop_none p u : shows STDOUT (nl "SiLog Daemon is not running") p -> removed u -> stop_run [p; u] 0
  | stop_no_pid rd pid u p : pid_read rd pid -> pid <= 0 ->
      removed u -> shows STDOUT (nl "SiLog Daemon stopped") p -> stop_run (rd ++ [u; p]) 1
  | stop_refused rd pid k u p : pid_read rd pid -> 0 < pid -> ret k <> 0 ->
      removed u -> shows STDOUT (nl "SiLog Daemon stopped") p -> stop_run (rd ++ [(CKill pid SIGTERM, k); u; p]) 1
  | stop_ended rd pid k p u n : pid_read rd pid -> 0 < pid -> ret k = 0 -> (1 <= n <= 30)%nat ->
      shows STDOUT (nl "SiLog Daemon stopped") p -> removed u -> stop_run (rd ++ [(CKill pid SIGTERM, k); p; u]) n
  | stop_killed rd pid k f k' u p : pid_read rd pid -> 0 < pid -> ret k = 0 ->
      shows STDOUT (nl "Force stopping SiLog Daemon...") f ->
      removed u -> shows STDOUT (nl "SiLog Daemon stopped") p ->
      stop_run (rd ++ [(CKill pid SIGTERM, k); f; (CKill pid SIGKILL, k'); u; p]) 31.

(** The file of the identifier holds no number outside the type [int]. *)
Class PidFile (V : Type) `{!Os V} : Prop :=
  pid_file f (w : V) a w' : os (CReadText f) w = (a, w') -> scan_d (out a) <> None.

Section exe_outcomes.
Context {W : Type} `{!Os W, !Others SilogPrelogManager_t W, !Others SilogFileManager W,
  !Others SilogRemoteManager W, !PidFile W}.
Implicit Types (e : env daemon W).

Lemma wp_read_pid v n e0 (Q : Z -> env daemon W -> Prop) e :
  acted v n e0 e -> (forall rd pid e', pid_read rd pid -> acted (v ++ rd) n e0 e' -> Q pid e') ->
  wp SilogExeReadPidFile Q e.
Proof.
  intros H HQ. unfold SilogExeReadPidFile. wp_step. eapply wp_call; [done|done|]. intros a e1 H1. wp_step.
  { wp_step. eapply HQ; [by apply pid_no_file|done]. }
  wp_step.
  assert (forall t e2, acted (v ++ [(CFopen PID_FILE MODE_R, a); (CReadText (ret a), t)]) n e0 e2 -> scan_d (out t)
    <> None ->
    wp (v0 ← lift (scan_d (out t)); _ ← sys (CFclose (ret a)); mret (default (-1) v0)) Q e2) as Hrest.
  { intros t e2 H2 Ht. destruct (scan_d (out t)) as [x|] eqn:Hx; [|done]. wp_step. eapply wp_lift; [done|]. wp_step.
    eapply wp_call; [done|done|]. intros c e3 H3. wp_step. eapply HQ; [by apply (pid_found a t c x)|].
    by rewrite <- (assoc_L (++)) in H3. }
  assert (wp (sys (CReadText (ret a))) (fun t e2 =>
    acted (v ++ [(CFopen PID_FILE MODE_R, a); (CReadText (ret a), t)]) n e0 e2 /\ scan_d (out t) <> None) e1) as Hr.
  { eapply wp_mono; [apply wp_and|].
    - eapply (wp_call _ _ _ _ (fun t e2 => acted (v ++ [(CFopen PID_FILE MODE_R, a); (CReadText (ret a), t)]) n e0 e2));
        [done|exact H1|]. intros t e2 H2. by rewrite <- (assoc_L (++)) in H2.
    - apply (wp_sys _ (fun t _ => scan_d (out t) <> None)). intros t w Ht. by eapply pid_file.
    - done. }
  eapply wp_mono; [exact Hr|]. intros t e2 [H2 Ht]. by apply Hrest.
Qed.

Lemma stop_spec e :
  probe_ready (dm_ipc (mem e)) ->
  wp SilogExeStopDaemon (fun o e' => o = Returned 0 /\ exists vis n, stop_run vis n /\ acted vis n e e') e.
Proof.
  intros Hp. unfold SilogExeStopDaemon. wp_step. eapply wp_running; [by apply acted_refl|]. intros b e1 H1.
  destruct b; cbn [negb Nat.b2n Nat.add] in *.
  2:{ wp_step. eapply wp_puts; [done|]. intros p e2 H2. wp_step. eapply wp_remove; [done|]. intros u e3 H3.
      wp_step. split; [done|]. eexists _, _. split; [|exact H3]. by apply stop_none. }
  wp_step. eapply wp_read_pid; [done|]. intros rd pid e2 Hrd H2. rewrite app_nil_l in H2.
  assert (forall (v : trace_t) n e3, acted v n e e3 ->
    (forall u p, removed u -> shows STDOUT (nl "SiLog Daemon stopped") p -> stop_run (v ++ [u; p]) n) ->
    wp (SilogExeRemovePidFile ;; puts STDOUT (nl "SiLog Daemon stopped") ;; mret (Returned (err SILOG_OK)))
      (fun o e' => o = Returned 0 /\ exists vis n, stop_run vis n /\ acted vis n e e') e3) as Hend.
  { intros v n e3 H3 Hs. wp_step. eapply wp_remove; [done|]. intros u e4 H4. wp_step. eapply wp_puts; [done|].
    intros p e5 H5. wp_step. split; [done|]. rewrite <- (assoc_L (++)) in H5. eexists _, _. split; [|exact H5].
    by apply Hs. }
  wp_step. wp_step; [|wp_step; apply (Hend rd 1%nat); [done|]; intros; by eapply stop_no_pid].
  wp_step. eapply wp_call; [done|done|]. intros k e3 H3.
  wp_step; [|wp_step; apply (Hend (rd ++ [(CKill pid SIGTERM, k)]) 1%nat); [done|]; intros; rewrite <- (assoc_L (++));
    by eapply stop_refused].
  wp_step. eapply poll_false_spec; [done|]. intros [|] j e4 Hj H4.
  - wp_step. wp_step. eapply wp_puts; [done|]. intros p e5 H5. wp_step. eapply wp_remove; [done|]. intros u e6 H6. wp_step.
    split; [done|]. rewrite <- !(assoc_L (++)) in H6. eexists _, _. split; [|exact H6]. eapply stop_ended; try done. lia.
  - subst j. wp_step. eapply wp_puts; [done|]. intros f e5 H5. wp_step. eapply wp_call; [done|done|]. intros k' e6 H6.
    wp_step. rewrite <- !(assoc_L (++)) in H6. eapply Hend; [exact H6|]. intros. rewrite <- (assoc_L (++)).
    by eapply stop_killed.
Qed.
End exe_outcomes.

(** ** Starting *)

(** The file of the identifier is written and closed, or cannot be opened. *)
Inductive pid_written (pid : Z) : trace_t -> Prop :=
  | pid_not_written a : ret a = 0 -> pid_written pid [(CFopen PID_FILE MODE_W, a)]
  | pid_stored a p c : ret a <> 0 -> shows (ret a) (pid_text pid) p ->
      pid_written pid [(CFopen PID_FILE MODE_W, a); p; (CFclose (ret a), c)].

(** What the process that was called does, with its connections and its result. *)
Inductive launch_run : trace_t -> nat -> outcome -> Prop :=
  | launch_again p : shows STDOUT (nl "SiLog Daemon is already running") p -> launch_run [p] 1 (Returned 0)
  | launch_no_fork f p : ret f < 0 ->
      launch_run [(CFork, f); (CPerror (chars "fork failed"), p)] 0 (Returned (err SILOG_SYS_CALL))
  | launch_started f p q wr : 0 < ret f -> shows STDOUT (nl "Starting SiLog Daemon...") p ->
      shows STDOUT (chars "SiLog Daemon started successfully (PID: " ++ fmt_d (ret f) ++ nl ")") q ->
      pid_written (ret f) wr -> launch_run ([(CFork, f); p; q] ++ wr) 1 (Returned 0)
  | launch_timeout f p q : 0 < ret f -> shows STDOUT (nl "Starting SiLog Daemon...") p ->
      shows STDERR (nl "Failed to start SiLog Daemon") q -> launch_run [(CFork, f); p; q] 0 (Returned (err SILOG_TIMEOUT)).

(** A process becomes a daemon: it serves, with its log file open and its queue
    empty, or it fails. *)
Definition booted (s : daemon) (fail o : outcome) : Prop :=
  daemon_inv s /\
  (o = Serving /\ dm_daemonRunning s = true /\ fm_initialized (c_mem (dm_fm s)) = true /\ daemon_repr (dm_logQueue s) [] \/
   o = fail /\ dm_daemonRunning s = false).

(** The trace only grows. *)
Definition grows {S W A} (m : M S W A) : Prop := forall e a e', m e = Some (a, e') -> exists t, trace e' = trace e ++ t.

Section grows.
Context {S W : Type} `{!Os W}.
Lemma grows_ret {A} (a : A) : grows (S:=S) (W:=W) (mret a).
Proof. intros e ? ? [= <- <-]. exists []. by rewrite app_nil_r. Qed.
Lemma grows_bind {A B} (m : M S W A) (f : A -> M S W B) : grows m -> (forall a, grows (f a)) -> grows (m ≫= f).
Proof.
  intros Hm Hf e b e2. unfold mbind, M_bind. destruct (m e) as [[a e1]|] eqn:E; [|done]. intros E2.
  destruct (Hm _ _ _ E) as [t1 H1]. destruct (Hf _ _ _ _ E2) as [t2 H2]. exists (t1 ++ t2).
  by rewrite H2, H1, (assoc_L (++)).
Qed.
Lemma grows_get : grows (S:=S) (W:=W) get.
Proof. intros e ? ? [= <- <-]. exists []. by rewrite app_nil_r. Qed.
Lemma grows_modify f : grows (S:=S) (W:=W) (modify f).
Proof. intros e ? ? [= <- <-]. exists []. by rewrite app_nil_r. Qed.
Lemma grows_lift {A} (o : option A) : grows (S:=S) (W:=W) (lift o).
Proof. intros e a e'. unfold lift. destruct o; [|done]. intros [= <- <-]. exists []. by rewrite app_nil_r. Qed.
Lemma grows_sys c : grows (S:=S) (W:=W) (sys c).
Proof. intros e a e'. unfold sys. destruct (os c (world e)). intros [= <- <-]. by eexists. Qed.
Lemma grows_diag m l f a : grows (S:=S) (W:=W) (diag m l f a).
Proof. intros e ? ? [= <- <-]. exists []. by rewrite app_nil_r. Qed.
Lemma grows_zoom {S1 A} proj upd (p : M S1 W A) : grows (S:=S) (zoom proj upd p).
Proof. intros e a e'. unfold zoom. destruct (p _) as [[? ?]|]; [|done]. intros [= <- <-]. by eexists. Qed.
End grows.

Create HintDb grows.
#[export] Hint Resolve grows_ret grows_get grows_modify grows_lift grows_sys grows_zoom : grows.
#[export] Hint Extern 1 (grows (SILOG_PRELOG_I _ _ _)) => apply grows_diag : grows.
#[export] Hint Extern 1 (grows (SILOG_PRELOG_W _ _ _)) => apply grows_diag : grows.
#[export] Hint Extern 1 (grows (SILOG_PRELOG_E _ _ _)) => apply grows_diag : grows.
Ltac solve_grows :=
  repeat first
    [ progress intros
    | solve [eauto with grows]
    | apply grows_bind
    | match goal with |- grows (if ?b then _ else _) => destruct b end
    | match goal with |- grows (match ?b with _ => _ end) => destruct b end ].

Section starting.
Context {W : Type} `{!Os W, !Others SilogPrelogManager_t W, !Others SilogFileManager W,
  !Others SilogRemoteManager W, !FileSys W, !FmOthersOk W, !OthersOk W, !PrelogOthersOk W}.
Implicit Types (e : env daemon W).

Lemma grows_daemon_init : grows (S:=daemon) (W:=W) SilogDaemonInit.
Proof.
  unfold SilogDaemonInit, queue_init, start_threads, SilogDaemonRecvThreadInit, SilogDaemonWriteThreadInit,
    SilogDaemonRemoteInit. solve_grows.
Qed.
Lemma grows_sleep n : grows (S:=daemon) (W:=W) (sleep_loop n).
Proof. induction n; cbn [sleep_loop]; solve_grows. Qed.
#[local] Hint Resolve grows_daemon_init grows_sleep : grows.
Lemma grows_daemon_process n : grows (S:=daemon) (W:=W) (daemon_process n).
Proof. unfold daemon_process. solve_grows. Qed.

Lemma sleep_spec n e :
  wp (sleep_loop n) (fun _ e' => mem e' = mem e /\ held e' = held e) e.
Proof.
  revert e. induction n as [|n IH]; intros e; cbn [sleep_loop]; [by wp_step|]. wp_step. wp_step.
  eapply wp_mono; [apply IH|]. done.
Qed.

(** The diagnostics and the daemon are initialised, as in both ways of starting. *)
Lemma boot_spec b m f (k : ErrorCode -> M daemon W outcome) (Q : outcome -> env daemon W -> Prop) e :
  daemon_inv (mem e) -> held e = false -> dm_daemonRunning (mem e) = false ->
  (forall r e', held e' = false -> daemon_inv (mem e') ->
     (r = SILOG_OK /\ dm_daemonRunning (mem e') = true /\ fm_initialized (c_mem (dm_fm (mem e'))) = true /\
        daemon_repr (dm_logQueue (mem e')) [] \/
      r <> SILOG_OK /\ dm_daemonRunning (mem e') = false) -> wp (k r) Q e') ->
  wp (_ ← zoom dm_prelog set_dmPrelog (SilogPrelogInit (Some (exe_prelog_config b)));
      SILOG_PRELOG_I m f [] ;; r ← SilogDaemonInit; k r) Q e.
Proof.
  intros Hi Hh Hr HQ. wp_step. apply wp_zoom. eapply wp_mono.
  { apply prelog_init_spec; [|apply (di_prelog _ Hi)|exact Hh]. intros c [= <-]. by apply string_array_length. }
  intros _ [m1 w1 t1 h1] (_ & Hp & Hh1 & _). cbn [mem held trace world] in *. subst h1. wp_step.
  eapply wp_mono; [apply daemon_init_spec; [by apply daemon_inv_prelog|done]|]. cbn [mem].
  intros r e2 (Hh2 & Hi2 & Hs). apply HQ; [done|done|]. unfold daemon_started in Hs. cbn in Hs. rewrite Hr in Hs.
  destruct Hs as [(-> & ? & ? & _ & ?)|(? & ? & _)]; [by left|by right].
Qed.

Lemma daemon_process_spec n e :
  daemon_inv (mem e) -> held e = false -> dm_daemonRunning (mem e) = false ->
  wp (daemon_process n) (fun o e' => booted (mem e') (Exited 1) o) e.
Proof.
  intros Hi Hh Hr. unfold daemon_process. wp_step. wp_step. wp_step.
  { wp_steps. split; [done|]. by right. }
  wp_step. wp_step. wp_step. wp_step. wp_step. wp_step. apply boot_spec; [done|done|done|].
  intros r e' Hh' Hi' Hc. destruct Hc as [(-> & Hrun & Hfm & Hq)|[Hne Hrun]].
  - rewrite decide_False by auto. wp_step. wp_step. wp_step.
    eapply wp_mono; [apply sleep_spec|]. intros _ e2 [Hm _]. wp_step. rewrite Hm. split; [done|]. by left.
  - rewrite decide_True by done. wp_step. split; [done|]. by right.
Qed.

Lemma foreground_spec n e :
  daemon_inv (mem e) -> held e = false -> dm_daemonRunning (mem e) = false ->
  wp (SilogExeStartForeground n) (fun o e' => exists r, r <> SILOG_OK /\ booted (mem e') (Returned (err r)) o) e.
Proof.
  intros Hi Hh Hr. unfold SilogExeStartForeground. apply boot_spec; [done|done|done|].
  intros r e' Hh' Hi' Hc. destruct Hc as [(-> & Hrun & Hfm & Hq)|[Hne Hrun]].
  - rewrite decide_False by auto. unfold puts. wp_step. wp_step. wp_step. wp_step. wp_step. wp_step. wp_step. wp_step.
    wp_step. wp_step. wp_step. eapply wp_mono; [apply sleep_spec|]. intros _ e2 [Hm _]. wp_step.
    rewrite Hm. exists SILOG_BUSY. split; [done|]. split; [done|]. by left.
  - rewrite decide_True by done. wp_step. exists r. split; [done|]. split; [done|]. by right.
Qed.

Lemma wp_write_pid pid v n e0 (Q : unit -> env daemon W -> Prop) e :
  acted v n e0 e -> (forall wr e', pid_written pid wr -> acted (v ++ wr) n e0 e' -> Q tt e') ->
  wp (SilogExeWritePidFile pid) Q e.
Proof.
  intros H HQ. unfold SilogExeWritePidFile. wp_step. eapply wp_call; [done|done|]. intros a e1 H1. wp_step.
  { wp_step. eapply HQ; [by apply pid_not_written|done]. }
  wp_step. eapply wp_puts; [done|]. intros p e2 H2. wp_step. eapply wp_call; [done|done|]. intros c e3 H3. wp_step.
  rewrite <- !(assoc_L (++)) in H3. eapply HQ; [|exact H3]. by apply pid_stored.
Qed.

Lemma probe_ready_ok c : probe_ready c -> ipc_comp_ok c.
Proof.
  intros [[Hc|Hc] Hl]; exists ∅; rewrite Hl, Hc; [done|]. unfold ipc_held. cbn [ia_isInit ia_sendFd ia_recvFd idle_agent].
  by rewrite fd_set_neg by lia.
Qed.

(** The process in which [fork] gave 0. *)
Definition child_run n e (o : outcome) e' : Prop :=
  exists f e1 t, ret f = 0 /\ acted [(CFork, f)] 0 e e1 /\ trace e' = trace e1 ++ t /\
    daemon_process n e1 = Some (o, e') /\ booted (mem e') (Exited 1) o.

Lemma background_spec n e :
  daemon_inv (mem e) -> held e = false -> dm_daemonRunning (mem e) = false -> probe_ready (dm_ipc (mem e)) ->
  wp (SilogExeStartDaemon n)
    (fun o e' => (exists vis k, launch_run vis k o /\ acted vis k e e') \/ child_run n e o e') e.
Proof.
  intros Hi Hh Hr Hp. unfold SilogExeStartDaemon. wp_step. eapply wp_running; [by apply acted_refl|].
  intros b e1 H1. destruct b; cbn [Nat.b2n Nat.add] in H1.
  { wp_step. eapply wp_puts; [done|]. intros p e2 H2. wp_step. left. eexists _, _. split; [|exact H2].
    by apply launch_again. }
  wp_step. eapply wp_call; [done|done|]. intros f e2 H2. rewrite app_nil_l in H2. wp_step.
  { wp_step. eapply wp_call; [done|done|]. intros p e3 H3. wp_step. left. eexists _, _. split; [|exact H3].
    by apply launch_no_fork. }
  wp_step.
  - wp_step. eapply wp_puts; [done|]. intros p e3 H3. wp_step. eapply poll_true_spec; [done|]. intros b e4 H4.
    destruct b; cbn [Nat.b2n Nat.add] in H4.
    + wp_step. eapply wp_puts; [done|]. intros q e5 H5. wp_step. eapply wp_write_pid; [done|]. intros wr e6 Hw H6. wp_step.
      rewrite <- !(assoc_L (++)) in H6. left. eexists _, _. split; [|exact H6]. by apply (launch_started f (_, p) (_, q) wr).
    + wp_step. eapply wp_puts; [done|]. intros q e5 H5. wp_step. rewrite <- !(assoc_L (++)) in H5. left.
      eexists _, _. split; [|exact H5]. by apply launch_timeout.
  - destruct H2 as (Hh2 & c & t & Hm2 & Hc & Ht & Hv & Hn & Hs).
    destruct (daemon_process_spec n e2) as (o & e3 & He3 & Hb).
    { rewrite Hm2. apply daemon_inv_ipc; [done|by apply probe_ready_ok]. }
    { by rewrite Hh2. }
    { by rewrite Hm2. }
    exists o, e3. split; [done|]. right. destruct (grows_daemon_process n _ _ _ He3) as [t3 Ht3].
    exists f, e2, t3. split; [lia|]. split; [|done]. split; [done|]. by exists c, t.
Qed.
End starting.

(** ** The status *)

(** The process has no other thread that uses the remote service. *)
Class Alone (V : Type) `{!Others SilogRemoteManager V} : Prop :=
  alone m (w : V) : others m w = (m, [], w).

(** The lines that a running daemon's status ends with; the process that prints
    them serves no clients itself. *)
Definition status_rest (pid : Z) : list (list Z) :=
  (if 0 <? pid then [chars "  PID: " ++ fmt_d pid ++ [10]] else []) ++
  [nl "  Remote clients: 0"; 10 :: nl "SiLog is ready to receive logs.";
   nl "Use SILOG_I(), SILOG_D(), etc. macros to send logs."].

Inductive status_run : trace_t -> nat -> Prop :=
  | status_down ps :
      Forall2 (shows STDOUT)
        [nl "SiLog Daemon Status:"; nl "  Running: No"; 10 :: nl "SiLog Daemon is not running.";
         nl "Start it with: silog start"] ps ->
      status_run ps 0
  | status_up ps rd pid qs :
      Forall2 (shows STDOUT) [nl "SiLog Daemon Status:"; nl "  Running: Yes"] ps ->
      pid_read rd pid -> Forall2 (shows STDOUT) (status_rest pid) qs ->
      status_run (ps ++ rd ++ qs) 1.

Section status.
Context {W : Type} `{!Os W, !Others SilogPrelogManager_t W, !Others SilogFileManager W,
  !Others SilogRemoteManager W, !PidFile W, !Alone W}.
Implicit Types (e : env daemon W).

Lemma wp_client_count v n e0 (Q : Z -> env daemon W -> Prop) e :
  acted v n e0 e -> held e0 = false -> m_isInit (c_mem (dm_remote (mem e0))) = false ->
  (forall e', acted v n e0 e' -> Q 0 e') -> wp (zoom dm_remote set_dmRemote SilogRemoteGetClientCount) Q e.
Proof.
  intros H Hh Hi HQ. apply wp_zoom. unfold SilogRemoteGetClientCount. wp_step.
  assert (held e = false) as Hhe by (destruct H as [-> _]; done).
  assert (dm_remote (mem e) = dm_remote (mem e0)) as Hr by (destruct H as (_ & c & t & -> & _); done).
  apply wp_lock; [done|]. cbn [mem world trace]. intros s t w. rewrite alone. intros [= <- <- <-].
  wp_steps. cbn [mem held trace]. rewrite app_nil_r, drop_all, app_nil_r, Hr, Hi. apply HQ.
  assert (set_dmRemote (MkComp (c_mem (dm_remote (mem e0))) (c_trace (dm_remote (mem e0)))) (mem e) = mem e) as ->
    by (rewrite <- Hr; by destruct (mem e) as [? ? ? ? ? ? ? ? ? ? []]).
  destruct e as [m0 w0 t0 h0]. cbn [mem world trace held] in *. by subst h0.
Qed.

Lemma status_spec e :
  probe_ready (dm_ipc (mem e)) -> held e = false -> m_isInit (c_mem (dm_remote (mem e))) = false ->
  wp SilogExeShowStatus (fun o e' => o = Returned 0 /\ exists vis n, status_run vis n /\ acted vis n e e') e.
Proof.
  intros Hp Hh Hi. unfold SilogExeShowStatus. wp_step. eapply wp_running; [by apply acted_refl|]. intros b e1 H1.
  wp_step. eapply wp_puts; [done|]. intros p1 e2 H2. wp_step. eapply wp_puts; [done|]. intros p2 e3 H3.
  rewrite app_nil_l in *. destruct b; cbn [Nat.b2n Nat.add] in H3.
  2:{ wp_step. wp_step. eapply wp_puts; [done|]. intros p3 e4 H4. eapply wp_puts; [done|]. intros p4 e5 H5. wp_step.
      split; [done|]. rewrite <- !(assoc_L (++)) in H5. eexists _, _. split; [|exact H5]. apply status_down.
      by repeat constructor. }
  wp_step. wp_step. eapply wp_read_pid; [done|]. intros rd pid e4 Hrd H4. rewrite <- (assoc_L (++)) in H4.
  assert (forall v e5, Forall2 (shows STDOUT) (if 0 <? pid then [chars "  PID: " ++ fmt_d pid ++ [10]] else []) v ->
    acted ([(CFputs STDOUT (nl "SiLog Daemon Status:"), p1); (CFputs STDOUT (nl "  Running: Yes"), p2)] ++ rd ++ v) 1 e e5 ->
    wp (clientCount ← zoom dm_remote set_dmRemote SilogRemoteGetClientCount;
        puts STDOUT (chars "  Remote clients: " ++ fmt_u clientCount ++ [10]) ;;
        puts STDOUT (10 :: nl "SiLog is ready to receive logs.") ;;
        puts STDOUT (nl "Use SILOG_I(), SILOG_D(), etc. macros to send logs."))
      (fun _ e' => exists vis, status_run vis 1 /\ acted vis 1 e e') e5) as Hend.
  { intros v e5 Hv H5. wp_step. eapply wp_client_count; [done|done|done|]. intros e6 H6. wp_step.
    eapply wp_puts; [done|]. intros q1 e7 H7. wp_step. eapply wp_puts; [done|]. intros q2 e8 H8.
    eapply wp_puts; [done|]. intros q3 e9 H9. rewrite <- !(assoc_L (++)) in H9. eexists. split; [|exact H9].
    apply (status_up [_; _] rd pid (v ++ [_; _; _])); [by repeat constructor|done|]. unfold status_rest.
    apply Forall2_app; [done|]. by repeat constructor. }
  wp_step. eapply wp_mono.
  { instantiate (1 := fun _ e5 => exists v, Forall2 (shows STDOUT) (if 0 <? pid then [chars "  PID: " ++ fmt_d pid ++
    [10]] else []) v /\
      acted ([(CFputs STDOUT (nl "SiLog Daemon Status:"), p1); (CFputs STDOUT (nl "  Running: Yes"), p2)] ++ rd ++ v)
        1 e e5).
    destruct (0 <? pid).
    - eapply wp_puts; [done|]. intros q e5 H5. rewrite <- !(assoc_L (++)) in H5. eexists. split; [|exact H5].
      by repeat constructor.
    - wp_step. exists []. split; [constructor|]. by rewrite app_nil_r. }
  intros _ e5 (v & Hv & H5). eapply wp_mono; [by apply (Hend v)|]. intros _ e6 (vis & Hs & H6). wp_step.
  split; [done|]. by eexists _, _.
Qed.
End status.

(** ** The test entries *)

Definition test_messages : list (silogLevel * string) :=
  [(SILOG_DEBUG, "This is a DEBUG test message"%string); (SILOG_INFO, "This is an INFO test message"%string);
   (SILOG_WARN, "This is a WARN test message"%string); (SILOG_ERROR, "This is an ERROR test message"%string)].
Definition test_entry (p1 p2 : Z) (x : silogLevel * string) : logEntry_t :=
  MkEntry 0 (i32 p1) (i32 p2) (level_val x.1) (string_array SILOG_TAG_MAX_LEN (chars "Test"))
    (string_array SILOG_FILE_MAX_LEN (chars "test.cpp")) 1 (string_array SILOG_MSG_MAX_LEN (chars x.2))
    (len (chars x.2)) 1.
Definition test_entries (p1 p2 : Z) : list logEntry_t := map (test_entry p1 p2) test_messages.
Definition test_block (e : logEntry_t) : list Z := entry_bytes e (replicate 5 0).

Lemma test_entries_wf p1 p2 : Forall wf_entry (test_entries p1 p2).
Proof.
  unfold test_entries. apply Forall_map.
  repeat constructor; try apply i32_range; try (vm_compute; congruence); by vm_compute.
Qed.

Lemma test_blocks_decode es : Forall wf_entry es -> map bytes_entry (map test_block es) = es.
Proof. induction 1 as [|x es Hx _ IH]; cbn; [done|]. rewrite IH. f_equal. apply bytes_entry_bytes; [apply Hx|done]. Qed.

Lemma err_ok r : r <> SILOG_OK -> err r <> 0.
Proof. by destruct r. Qed.

Section test.
Context {W : Type} `{!Os W, !Others SilogPrelogManager_t W, !Others SilogFileManager W,
  !Others SilogRemoteManager W}.
Implicit Types (e : env daemon W).

(** Since [e0] the datagrams [ds] have been given to the transport, in order. *)
Definition sending (ds : list (list Z)) e0 e : Prop :=
  held e = held e0 /\ exists c t, mem e = set_dmIpc c (mem e0) /\ trace e = trace e0 ++ t /\
    (exists fd, c_mem c = MkAgent true fd (-1) /\ ledger (c_trace c) = Some (fd_set fd) /\ (all_sent t -> 0 <= fd)) /\
    sublist (delivered t) ds /\ (all_sent t -> delivered t = ds).

Lemma wp_other_call ds e0 c (Q : answer -> env daemon W -> Prop) e :
  match c with CSend _ _ => False | _ => True end ->
  sending ds e0 e -> (forall a e', sending ds e0 e' -> Q a e') -> wp (sys c) Q e.
Proof.
  intros Hc (Hh & k & t & Hm & Ht & (fd & Hk & Hl & Hfd) & Hs & Hd) HQ. apply wp_sys. intros a w _. apply HQ.
  assert (sends [(c, a)] = []) as Hn by by destruct c. split; [done|]. exists k, (t ++ [(c, a)]). cbn [mem trace].
  unfold all_sent, delivered in *. rewrite sends_app, Hn, app_nil_r, Ht, (assoc_L (++)). split_and!; try done. by exists fd.
Qed.
Lemma wp_other_puts ds e0 f d (Q : unit -> env daemon W -> Prop) e :
  sending ds e0 e -> (forall e', sending ds e0 e' -> Q tt e') -> wp (puts f d) Q e.
Proof. intros H HQ. unfold puts. wp_step. eapply wp_other_call; [done|done|]. intros a e' H'. wp_step. by apply HQ. Qed.

Lemma wp_send ds d e0 (Q : ErrorCode -> env daemon W -> Prop) e :
  sending ds e0 e -> (forall r e', sending (ds ++ [d]) e0 e' -> Q r e') ->
  wp (zoom dm_ipc set_dmIpc (SilogIpcClientSend d)) Q e.
Proof.
  destruct e as [m w tr h]. intros (Hh & [c_m c_t] & t & Hm & Ht & (fd & Hk & Hl & Hfd) & Hs & Hd) HQ.
  cbn [mem trace held c_mem c_trace] in *.
  subst m tr c_m. apply wp_zoom. cbn [mem world trace held dm_ipc set_dmIpc c_mem c_trace].
  eapply wp_mono; [apply wp_and; [apply (client_send_spec ∅)|apply send_keeps_socket]|].
  { unfold iinv, ipc_held. cbn [mem trace ia_isInit ia_sendFd ia_recvFd].
    by rewrite Hl, (fd_set_neg (-1)), !(right_id_L ∅ (⊎)) by lia. }
  intros r [[i1 fd1 rf1] w1 t1 h1] [(Hh1 & Hi1 & Hr1 & Hinv & t' & Ht1 & Ho) Hfd1].
  cbn [mem world trace held ia_isInit ia_recvFd ia_sendFd] in *. subst i1 rf1 t1 h1. rewrite drop_app_length. apply HQ.
  apply send_outcome_delivered in Ho as [Hs1 Hd1]. specialize (Hd1 eq_refl). cbn [ia_sendFd] in Hd1. split; [done|].
  exists (MkComp (MkAgent true fd1 (-1)) (c_t ++ t')), (t ++ t'). cbn [mem trace c_mem c_trace].
  rewrite delivered_app, all_sent_app, (assoc_L (++)). split; [done|]. split; [done|]. split; [|split].
  - exists fd1. split; [done|]. split; [|intros [H1 H2]%all_sent_app; by apply Hfd1, Hd1; [apply Hfd|]].
    unfold iinv, ipc_held in Hinv. cbn [mem trace ia_isInit ia_sendFd ia_recvFd] in Hinv.
    by rewrite Hinv, (fd_set_neg (-1)), !(right_id_L ∅ (⊎)) by lia.
  - by apply sublist_app.
  - intros [H1 H2]. rewrite (Hd H1). f_equal. by apply Hd1; [apply Hfd|].
Qed.

Lemma wp_send_test ds e0 p1 p2 x y name (Q : logEntry_t -> env daemon W -> Prop) e :
  strncpy (msg x) (chars y.2) (SILOG_MSG_MAX_LEN - 1) = Some (string_array SILOG_MSG_MAX_LEN (chars y.2)) ->
  set_test x y.1 (string_array SILOG_MSG_MAX_LEN (chars y.2)) = test_entry p1 p2 y ->
  sending ds e0 e -> (forall e', sending (ds ++ [test_block (test_entry p1 p2 y)]) e0 e' -> Q (test_entry p1 p2 y) e') ->
  wp (send_test x y.1 name y.2) Q e.
Proof.
  intros Hc He H HQ. unfold send_test. wp_step. eapply wp_lift; [exact Hc|]. cbn beta. rewrite He. wp_step.
  eapply wp_send; [done|]. intros r e1 H1. wp_step. eapply wp_other_puts; [done|]. intros e2 H2. wp_step. by apply HQ.
Qed.

(** After a probe that found the daemon, the client socket is opened for good. *)
Lemma wp_connect {A} e0 v n (k : ErrorCode -> M daemon W A) (Q : A -> env daemon W -> Prop) e :
  acted v n e0 e ->
  (forall e', sending [] e0 e' -> wp (k SILOG_OK) Q e') ->
  (forall r e', r <> SILOG_OK -> acted v n e0 e' -> wp (k r) Q e') ->
  wp (zoom dm_ipc set_dmIpc (SilogIpcInit SILOG_IPC_TYPE_UNIX_DGRAM) ;; r ← zoom dm_ipc set_dmIpc SilogIpcClientInit;
    k r) Q e.
Proof.
  intros H Hok Hno. wp_step. apply wp_zoom. destruct e as [m w tr h].
  destruct H as (Hh & [c_m c_t] & t & Hm & [Hc Hl] & Ht & Hv & Hn & Hs).
  cbn [mem trace held world c_mem c_trace] in *. subst m tr.
  cbn [dm_ipc set_dmIpc c_mem c_trace]. exists tt, (Env idle_agent w c_t h). split; [by destruct Hc as [-> | ->]|].
  cbn [mem world trace held]. rewrite drop_all, app_nil_r. wp_step. apply wp_zoom.
  cbn [mem world trace held dm_ipc set_dmIpc c_mem c_trace].
  eapply wp_mono; [by apply connect_idle_spec|]. intros r [m1 w1 t1' h1] (Hh1 & t1 & Ht1 & Hv1 & Hs1 & Ho).
  cbn [mem world trace held] in *. subst h1 t1'. rewrite drop_app_length.
  destruct Ho as [(-> & _ & fd & Hfd & -> & Hl1)|(Hr & Hn1 & -> & Hl1)].
  - apply Hok. split; [done|]. exists (MkComp (MkAgent true fd (-1)) (c_t ++ t1)), (t ++ t1). cbn [mem trace c_mem c_trace].
    unfold delivered. rewrite sends_app, Hs, Hs1, (assoc_L (++)). split_and!; try done. exists fd.
    split; [done|]. split; [by rewrite Hl1, fd_set_pos|done].
  - apply Hno; [done|]. split; [done|]. exists (MkComp idle_agent (c_t ++ t1)), (t ++ t1). cbn [mem trace c_mem c_trace].
    rewrite visible_app, connections_app, sends_app, Hv, Hn, Hs, Hv1, Hn1, Hs1, (assoc_L (++)), app_nil_r, Nat.add_0_r.
    split_and!; try done. split; [by right|done].
Qed.

(** Closing the client at the end. *)
Lemma wp_disconnect ds e0 (Q : unit -> env daemon W -> Prop) e :
  sending ds e0 e ->
  (forall e' c t, held e' = held e0 -> mem e' = set_dmIpc c (mem e0) -> probe_ready c -> trace e' = trace e0 ++ t ->
     sublist (delivered t) ds -> (all_sent t -> delivered t = ds) -> Q tt e') ->
  wp (zoom dm_ipc set_dmIpc SilogIpcClientClose) Q e.
Proof.
  destruct e as [m w tr h]. intros (Hh & [c_m c_t] & t & Hm & Ht & (fd & Hk & Hl & Hfd) & Hs & Hd) HQ.
  cbn [mem trace held c_mem c_trace] in *.
  subst m tr c_m. apply wp_zoom. cbn [mem world trace held dm_ipc set_dmIpc c_mem c_trace].
  eapply wp_mono; [by apply ipc_disconnect_spec|]. intros [] [m1 w1 t1' h1] (Hh1 & Hm1 & Hl1 & t1 & Ht1 & _ & _ & Hs1).
  cbn [mem world trace held] in *. subst m1 h1 t1'. rewrite drop_app_length.
  apply (HQ _ (MkComp idle_agent (c_t ++ t1)) (t ++ t1)); cbn [mem trace held]; try done.
  - split; [by right|done].
  - by rewrite (assoc_L (++)).
  - rewrite delivered_app. unfold delivered at 2. by rewrite Hs1, app_nil_r.
  - rewrite delivered_app, all_sent_app. unfold delivered at 2. rewrite Hs1, app_nil_r. intros [H1 _]. by apply Hd.
Qed.

(** How the command test ends, with its calls [t]: the four entries are sent, or
    nothing is. *)
Definition test_outcome (o : outcome) (t : trace_t) : Prop :=
  (o = Returned 0 /\ exists p1 p2, let ds := map test_block (test_entries p1 p2) in
     sublist (delivered t) ds /\ (all_sent t -> delivered t = ds)) \/
  (exists r, r <> SILOG_OK /\ o = Returned (err r) /\ sends t = []).
Definition test_post e (o : outcome) e' : Prop :=
  held e' = held e /\ exists c t, mem e' = set_dmIpc c (mem e) /\ probe_ready c /\ trace e' = trace e ++ t /\
    test_outcome o t.

Lemma test_nothing e v n r e' : acted v n e e' -> r <> SILOG_OK -> test_post e (Returned (err r)) e'.
Proof. intros (Hh & c & t & ? & ? & ? & _ & _ & ?) Hr. split; [done|]. exists c, t. split_and!; try done. right.
by exists r. Qed.

#[local] Ltac test_step a1 a2 y :=
  wp_step; eapply (wp_send_test _ _ (ret a1) (ret a2) _ y); [reflexivity|reflexivity|eassumption|]; intros ? ?.

Lemma test_spec e :
  probe_ready (dm_ipc (mem e)) -> wp SilogExeSendTestLogs (test_post e) e.
Proof.
  intros Hp. unfold SilogExeSendTestLogs. wp_step. eapply wp_running; [by apply acted_refl|]. intros b e1 H1.
  destruct b; cbn [negb Nat.b2n Nat.add] in *.
  2:{ wp_step. eapply wp_puts; [done|]. intros p e2 H2. wp_step. eapply wp_puts; [done|]. intros q e3 H3. wp_step.
      by eapply test_nothing. }
  wp_step. eapply wp_puts; [done|]. intros p e2 H2.
  eapply wp_connect; [exact H2| |].
  2:{ intros r e3 Hr H3. rewrite decide_True by done. wp_step. eapply wp_puts; [done|]. intros q e4 H4. wp_step.
      by eapply test_nothing. }
  intros e3 H3. rewrite decide_False by auto. wp_step. eapply wp_other_call; [done|done|]. intros a1 e4 H4.
  wp_step. eapply wp_other_call; [done|done|]. intros a2 e5 H5.
  wp_step. eapply wp_lift; [exact (eq_refl (Some (string_array SILOG_TAG_MAX_LEN (chars "Test"))))|].
  wp_step. eapply wp_lift; [exact (eq_refl (Some (string_array SILOG_FILE_MAX_LEN (chars "test.cpp"))))|].
  test_step a1 a2 (SILOG_DEBUG, "This is a DEBUG test message"%string). wp_step. eapply wp_other_call; [done|done|].
  intros _ e7 H7.
  test_step a1 a2 (SILOG_INFO, "This is an INFO test message"%string). wp_step. eapply wp_other_call; [done|done|].
  intros _ e9 H9.
  test_step a1 a2 (SILOG_WARN, "This is a WARN test message"%string). wp_step. eapply wp_other_call; [done|done|].
  intros _ e11 H11.
  test_step a1 a2 (SILOG_ERROR, "This is an ERROR test message"%string). wp_step.
  eapply wp_disconnect; [eassumption|]. intros e13 c t Hh Hm Hc Ht Hs Hd.
  wp_step. unfold puts. wp_steps. split; [done|]. eexists c, _. cbn [mem trace]. rewrite Ht, <- !(assoc_L (++)).
  split; [done|]. split; [done|]. split; [reflexivity|]. left. split; [done|]. exists (ret a1), (ret a2).
  cbv zeta. rewrite !delivered_app, all_sent_app. unfold delivered at 2 4, all_sent at 2. cbn [sends]. rewrite !app_nil_r.
  split; [exact Hs|]. intros [? _]. by apply Hd.
Qed.
End test.

(** ** Properties *)

Lemma g_daemon_inv : daemon_inv g_daemon.
Proof.
  split; [exists ∅; by vm_compute|by vm_compute| | |reflexivity].
  - split; [|by vm_compute]. split; [by split; vm_compute|]. by vm_compute.
  - by vm_compute.
Qed.
Lemma g_daemon_ready : probe_ready (dm_ipc g_daemon).
Proof. split; [by left|done]. Qed.

(** The number that a start stores in the file is the one that a stop reads. *)
Lemma pid_text_scans pid : is_i32 pid -> scan_d (pid_text pid) = Some (Some pid).
Proof. intros H. by apply (scan_decimal pid [10]). Qed.

Section properties.
Context {W : Type} `{!Os W, !Others SilogPrelogManager_t W, !Others SilogFileManager W,
  !Others SilogRemoteManager W}.

(** A process of the program before [main]. *)
Definition fresh (w : W) : env daemon W := Env g_daemon w [] false.


(** The command start without the option runs the daemon in the process itself:
    it serves, or returns the error of the initialisation. *)
Theorem start_in_foreground `{!FileSys W, !FmOthersOk W, !OthersOk W, !PrelogOthersOk W} n program (w : W) :
  wp (exe_main n [program; chars "start"])
    (fun o e' => exists r, r <> SILOG_OK /\ booted (mem e') (Returned (err r)) o) (fresh w).
Proof. apply foreground_spec; [apply g_daemon_inv|done|done]. Qed.

(** C39: The command stop always returns 0 with the file of the identifier removed.
    It signals only the process whose identifier it has read from that file, and
    only if the daemon answers: first SIGTERM, and SIGKILL exactly if the daemon
    still answers after thirty waits. If the identifier is not known, nothing is
    signalled and the daemon is reported as stopped all the same. *)
Theorem stop_outcome `{!PidFile W} n program rest (w : W) :
  wp (exe_main n (program :: chars "stop" :: rest))
    (fun o e' => o = Returned 0 /\ exists vis k, stop_run vis k /\ acted vis k (fresh w) e') (fresh w).
Proof. apply stop_spec, g_daemon_ready. Qed.

(** The command status prints whether the daemon answers, its identifier if the
    file holds one, and then that it has no remote clients, whatever the daemon
    serves: the count is that of the process that prints it. *)
Theorem status_outcome `{!PidFile W, !Alone W} n program rest (w : W) :
  wp (exe_main n (program :: chars "status" :: rest))
    (fun o e' => o = Returned 0 /\ exists vis k, status_run vis k /\ acted vis k (fresh w) e') (fresh w).
Proof. by apply status_spec; [apply g_daemon_ready|..]. Qed.

(** C40: The command test sends four entries that the daemon can decode and print, in
    order and each delivered at most once; all of them are delivered if the kernel
    takes every datagram. If the daemon does not answer, an error is returned and
    nothing is sent. The socket is closed in the end. *)
Theorem test_sends_entries n program rest (w : W) :
  wp (exe_main n (program :: chars "test" :: rest))
    (fun o e' => test_post (fresh w) o e' /\
       forall p1 p2, Forall wf_entry (test_entries p1 p2) /\
         map bytes_entry (map test_block (test_entries p1 p2)) = test_entries p1 p2) (fresh w).
Proof.
  eapply wp_mono; [apply test_spec, g_daemon_ready|]. intros o e' Hp. split; [exact Hp|]. intros p1 p2.
  split; [|apply test_blocks_decode]; apply test_entries_wf.
Qed.

(** Without a command, or with an unknown one, the usage is shown and 1 returned. *)
Theorem usage_outcome n program argv (w : W) :
  match argv with
  | [] => True
  | c :: _ => c ∉ map chars ["start"; "stop"; "status"; "test"; "-h"; "--help"]%string
  end ->
  wp (exe_main n (program :: argv)) (fun o e' => o = Returned 1 /\ mem e' = g_daemon) (fresh w).
Proof.
  assert (forall ls (e : env daemon W), wp (puts_all ls) (fun _ e' => mem e' = mem e) e) as Hputs.
  { induction ls as [|l ls IH]; intros e; cbn [puts_all]; [by wp_step|]. wp_step. unfold puts. wp_step. wp_step.
    wp_step. eapply wp_mono; [apply IH|]. done. }
  destruct argv as [|c rest]; intros Hc; unfold exe_main, SilogExePrintUsage.
  { wp_step. eapply wp_mono; [apply Hputs|]. intros [] e' Hm. by wp_step. }
  cbv zeta. rewrite !bool_decide_false by (intros ->; apply Hc; set_solver). cbn [orb].
  wp_step. unfold puts at 1. wp_step. wp_step. wp_step. wp_step. eapply wp_mono; [apply Hputs|]. intros [] e' Hm. by wp_step.
Qed.
End properties.

(** ** The properties at concrete inputs *)

(** A scripted kernel in which the file of the identifier, if it can be opened,
    holds the number 4321. *)
Definition desk : Type := script.
#[export] Instance desk_os : Os desk := fun c w =>
  match c with CReadText _ => (Ans 0 0 (pid_text 4321) [], w) | _ => script_os c w end.
#[export] Instance desk_pid : PidFile desk.
Proof. intros f w a w' [= <- _]. change (scan_d (pid_text 4321) <> None). by rewrite pid_text_scans. Qed.
#[export] Instance desk_others : Others SilogRemoteManager desk := fun m w => (m, [], w).
#[export] Instance desk_alone : Alone desk.
Proof. done. Qed.

(** The answers of a probe that finds the daemon, and of one that does not. *)
Definition found : script := [ok 3; ok 0; ok 0; ok 0; ok 0].
Definition gone : script := [ok 3; ok 0; ok 0; fails ECONNREFUSED; ok 0].

(** The daemon ends after the second wait. *)
Definition stop_script : desk := found ++ [ok 5; ok 0; ok 0; ok 0] ++ found ++ [ok 0] ++ gone.
(** A daemon that was started in the foreground has stored no identifier: it
    keeps running, and is reported as stopped. *)
Definition stop_foreground_script : desk := found ++ [ok 0; ok 0; ok 0].

Definition kills (t : trace_t) : list (Z * Z) :=
  omap (fun ev => match ev.1 with CKill p s => Some (p, s) | _ => None end) t.
Lemma stop_signals :
  fmap (M:=option) (fun x => (x.1, kills (trace x.2))) (exe_main 0 [chars "silog"; chars "stop"] (fresh stop_script)) =
  Some (Returned 0, [(4321, SIGTERM)]).
Proof. vm_compute. reflexivity. Qed.
Lemma stop_leaves_foreground_daemon :
  fmap (M:=option) (fun x => (x.1, kills (trace x.2), last (printed (trace x.2)) (0, [])))
    (exe_main 0 [chars "silog"; chars "stop"] (fresh stop_foreground_script)) =
  Some (Returned 0, [], (STDOUT, nl "SiLog Daemon stopped")).
Proof. vm_compute. reflexivity. Qed.

Lemma stop_outcome_witness :
  wp (exe_main 0 [chars "silog"; chars "stop"]) (fun o e' => o = Returned 0) (fresh stop_script).
Proof. eapply wp_mono; [apply (stop_outcome 0 (chars "silog") [])|]. intros o e' [H _]. exact H. Defined.

Lemma status_outcome_witness :
  wp (exe_main 0 [chars "silog"; chars "status"]) (fun o e' => o = Returned 0) (fresh (found : desk)).
Proof. eapply wp_mono; [apply (status_outcome 0 (chars "silog") [])|]. intros o e' [H _]. exact H. Defined.

Definition test_script : desk :=
  found ++ [ok 0; ok 3; ok 0; ok 0; ok 0; ok 42; ok 42; ok 384; ok 0; ok 0; ok 384; ok 0; ok 0; ok 384; ok 0; ok 0; ok 384].
Lemma test_delivers :
  fmap (M:=option) (fun x => (x.1, delivered (trace x.2))) (exe_main 0 [chars "silog"; chars "test"] (fresh test_script)) =
  Some (Returned 0, map test_block (test_entries 42 42)).
Proof. vm_compute. reflexivity. Qed.

Lemma test_sends_entries_witness :
  wp (exe_main 0 [chars "silog"; chars "test"]) (fun o e' => held e' = false) (fresh test_script).
Proof. eapply wp_mono; [apply (test_sends_entries 0 (chars "silog") [])|]. intros o e' [[H _] _]. exact H. Defined.

(** The kernel of the daemon's witnesses; the accepting thread runs beside. *)
#[local] Existing Instance site_accepting.
#[local] Existing Instance site_accepting_ok.
