(* ===== verification/Network.v ===== *)
(** * What programs do to the data under way

    The kernel keeps the datagrams that the applications have sent and the daemon
    has not received, and the bytes that the daemon has sent to a viewer and the
    viewer has not received. A view of the world shows them. A program tracks the
    view if every change of it is explained by a call of its trace; most functions
    make no call that could change it. *)

From S2P Require Import Prelude Errors LogEntry CObj CMem Mpsc RemoteCodec Os Queues Format Layout.
From S2P Require Import RemoteServer RemoteClient FileManager FileManagerOps Ipc Prelog Logger Daemon Cat.
#[local] Open Scope Z_scope.

(** ** Explained changes *)

Section steps.
Context {V : Type} (R : call * answer -> V -> V -> Prop).

Inductive steps : trace_t -> V -> V -> Prop :=
  | steps_nil v : steps [] v v
  | steps_cons ev t v v1 v2 : R ev v v1 -> steps t v1 v2 -> steps (ev :: t) v v2.

Lemma steps_app t1 t2 v v1 v2 : steps t1 v v1 -> steps t2 v1 v2 -> steps (t1 ++ t2) v v2.
Proof. induction 1; intros; cbn [app]; [done|econstructor; eauto]. Qed.
Lemma steps_one ev v v' : R ev v v' -> steps [ev] v v'.
Proof. intros. econstructor; [done|constructor]. Qed.
Lemma steps_split t1 t2 v v2 : steps (t1 ++ t2) v v2 -> exists v1, steps t1 v v1 /\ steps t2 v1 v2.
Proof.
  revert v. induction t1 as [|ev t1 IH]; intros v H; [exists v; split; [constructor|done]|].
  inversion H as [|? ? ? v1 ? HR Hs]; subst. destruct (IH _ Hs) as (v3 & H1 & H2).
  exists v3. split; [by econstructor|done].
Qed.
End steps.

(** Calls that move no data between processes. *)
Definition inert (c : call) : Prop :=
  match c with CSend _ _ | CRecv _ _ | CPrelog _ _ _ _ => False | _ => True end.
(** Inert calls and sends. *)
Definition sending (c : call) : Prop := match c with CRecv _ _ | CPrelog _ _ _ _ => False | _ => True end.
(** Inert calls and receives that ask for a number of bytes that [P] allows. *)
Definition receiving (P : Z -> Prop) (c : call) : Prop :=
  match c with CRecv _ n => P n | CSend _ _ | CPrelog _ _ _ _ => False | _ => True end.
(** Calls of the kernel. *)
Definition kernel_call (c : call) : Prop := match c with CPrelog _ _ _ _ => False | _ => True end.

(** The relation explains the change of the view by the calls of a class;
    diagnostics change nothing. *)
Class Watch {W V : Type} `{!Os W} (view : W -> V) (class : call -> Prop) (R : call * answer -> V -> V -> Prop) : Prop := {
  watch_call c w a w' : class c -> os c w = (a, w') -> R (c, a) (view w) (view w');
  watch_diag m l f x w : view (os (CPrelog m l f x) w).2 = view w
}.
Lemma watch_less {W V} `{!Os W} (view : W -> V) (class class' : call -> Prop) R :
  (forall c, class c -> class' c) -> Watch view class' R -> Watch view class R.
Proof. intros Hc [H1 H2]. split; [|done]. intros c w a w' ?. by apply H1, Hc. Qed.
Lemma inert_sending c : inert c -> sending c.
Proof. by destruct c. Qed.
Lemma inert_receiving P c : inert c -> receiving P c.
Proof. by destruct c. Qed.
Lemma inert_kernel c : inert c -> kernel_call c.
Proof. by destruct c. Qed.
Lemma sending_kernel c : sending c -> kernel_call c.
Proof. by destruct c. Qed.
Lemma receiving_kernel P c : receiving P c -> kernel_call c.
Proof. by destruct c. Qed.

(** The same of the other threads of a component. *)
Class WatchOthers {S W V : Type} `{!Others S W} (view : W -> V) (R : call * answer -> V -> V -> Prop) : Prop :=
  watch_others s w s' t w' : others s w = (s', t, w') -> steps R t (view w) (view w').

Section tracks.
Context {W V : Type} `{!Os W} (view : W -> V) (R : call * answer -> V -> V -> Prop).

Definition tracks {S A} (m : M S W A) : Prop :=
  forall e a e', m e = Some (a, e') ->
  exists t, trace e' = trace e ++ t /\ steps R t (view (world e)) (view (world e')).

Section rules.
Context {S : Type}.

Lemma tracks_same {A} (m : M S W A) :
  (forall e a e', m e = Some (a, e') -> trace e' = trace e /\ view (world e') = view (world e)) -> tracks m.
Proof. intros H e a e' He. destruct (H e a e' He) as [Ht ->]. exists []. rewrite app_nil_r. split; [done|constructor]. Qed.
Lemma tracks_ret {A} (a : A) : tracks (S:=S) (mret a).
Proof. apply tracks_same. by intros e ? ? [= <- <-]. Qed.
Lemma tracks_bind {A B} (m : M S W A) (f : A -> M S W B) : tracks m -> (forall a, tracks (f a)) -> tracks (m ≫= f).
Proof.
  intros Hm Hf e b e2. unfold mbind, M_bind. destruct (m e) as [[a e1]|] eqn:E; [|done]. intros E2.
  destruct (Hm _ _ _ E) as (t1 & H1 & S1). destruct (Hf _ _ _ _ E2) as (t2 & H2 & S2). exists (t1 ++ t2).
  rewrite H2, H1, (assoc_L (++)). split; [done|]. by eapply steps_app.
Qed.
Lemma tracks_get : tracks (S:=S) get.
Proof. apply tracks_same. by intros e ? ? [= <- <-]. Qed.
Lemma tracks_put s : tracks (S:=S) (put s).
Proof. apply tracks_same. by intros e ? ? [= <- <-]. Qed.
Lemma tracks_modify f : tracks (S:=S) (modify f).
Proof. apply tracks_same. by intros e ? ? [= <- <-]. Qed.
Lemma tracks_lift {A} (o : option A) : tracks (S:=S) (lift o).
Proof. apply tracks_same. intros e a e'. unfold lift. destruct o; [|done]. by intros [= <- <-]. Qed.
Lemma tracks_undefined {A} : tracks (S:=S) (undefined (A:=A)).
Proof. by intros e a e'. Qed.
Lemma tracks_unlock : tracks (S:=S) unlock.
Proof. apply tracks_same. intros e a e'. unfold unlock. destruct (held e); [|done]. by intros [= <- <-]. Qed.
Lemma tracks_sys (class : call -> Prop) {HC : Watch view class R} c : class c -> tracks (S:=S) (sys c).
Proof.
  intros Hc e a e'. unfold sys. destruct (os c (world e)) as [b w] eqn:E. intros [= <- <-]. exists [(c, b)].
  split; [done|]. apply steps_one. by eapply watch_call.
Qed.
Lemma tracks_diag (class : call -> Prop) `{!Watch view class R} m l f x : tracks (S:=S) (diag m l f x).
Proof. apply tracks_same. intros e a e' [= <- <-]. split; [done|]. cbn. by eapply watch_diag. Qed.
Lemma tracks_lock `{!Others S W, !WatchOthers (S:=S) view R} : tracks (S:=S) lock.
Proof.
  intros e a e'. unfold lock. destruct (held e); [done|]. destruct (others _ _) as [[s t] w] eqn:E.
  intros [= <- <-]. exists t. split; [done|]. by eapply watch_others.
Qed.
Lemma tracks_zoom {S1 A} (proj : S -> comp S1) upd (p : M S1 W A) : tracks p -> tracks (zoom proj upd p).
Proof.
  intros Hp e a e'. unfold zoom. destruct (p _) as [[b e1]|] eqn:E; [|done]. intros [= <- <-].
  destruct (Hp _ _ _ E) as (t & Ht & Hs). exists t. cbn in *. by rewrite Ht, drop_app_length.
Qed.
Lemma tracks_for_lt fuel i (bound : M S W Z) body :
  tracks bound -> (forall j, tracks (body j)) -> tracks (for_lt fuel i bound body).
Proof.
  intros Hb Hbody. revert i. induction fuel as [|fuel IH]; intros i; cbn [for_lt]; [apply tracks_undefined|].
  apply tracks_bind; [done|]. intros n. destruct (i <? n); [|apply tracks_ret].
  apply tracks_bind; [done|]. intros _. apply IH.
Qed.
End rules.
End tracks.

(** A program that returns with [Q] also explains its changes. *)
Lemma wp_tracks {W V S A} `{!Os W} (view : W -> V) R (m : M S W A) Q e :
  tracks view R m -> wp m Q e ->
  wp m (fun a e' => Q a e' /\ exists t, trace e' = trace e ++ t /\ steps R t (view (world e)) (view (world e'))) e.
Proof. intros Ht (a & e' & He & HQ). exists a, e'. split; [done|]. split; [done|]. by eapply Ht. Qed.

Create HintDb tracks.
#[export] Hint Resolve tracks_ret tracks_get tracks_put tracks_modify tracks_lift tracks_undefined tracks_unlock
  tracks_lock tracks_zoom : tracks.
#[export] Hint Extern 1 (tracks _ _ (diag _ _ _ _)) => eapply tracks_diag; eassumption : tracks.
#[export] Hint Extern 1 (tracks _ _ (SILOG_PRELOG_I _ _ _)) => eapply tracks_diag; eassumption : tracks.
#[export] Hint Extern 1 (tracks _ _ (SILOG_PRELOG_W _ _ _)) => eapply tracks_diag; eassumption : tracks.
#[export] Hint Extern 1 (tracks _ _ (SILOG_PRELOG_E _ _ _)) => eapply tracks_diag; eassumption : tracks.
#[export] Hint Extern 1 (tracks _ _ (sys _)) =>
  match goal with H : Watch _ _ _ |- _ => eapply (tracks_sys _ _ _ (HC:=H)); first [exact I|eassumption|cbn; solve [auto 2]] end : tracks.
#[export] Hint Extern 1 (tracks _ _ (SiMalloc _)) => unfold SiMalloc; solve [eauto 2 with tracks] : tracks.
#[export] Hint Extern 1 (tracks _ _ SiFree) => unfold SiFree; solve [eauto 2 with tracks] : tracks.

Ltac solve_tracks :=
  repeat first
    [ progress intros
    | progress cbv zeta
    | solve [eauto 3 with tracks]
    | apply tracks_bind
    | apply tracks_zoom
    | apply tracks_for_lt
    | match goal with |- tracks _ _ (if ?b then _ else _) => destruct b end
    | match goal with |- tracks _ _ (match ?b with _ => _ end) => destruct b end ].
#[export] Hint Extern 1 (tracks _ _ SilogUtilsGetTid) => unfold SilogUtilsGetTid; solve_tracks : tracks.

(** ** Functions that move no data *)

Section still.
Context {W V : Type} `{!Os W} (view : W -> V) (R : call * answer -> V -> V -> Prop) {HW : Watch view inert R}.
#[local] Abbreviation T := (tracks view R).

Lemma t_now {S} : tracks (S:=S) view R SilogGetNowMs.
Proof. unfold SilogGetNowMs. solve_tracks. Qed.
Hint Resolve t_now : tracks.
Lemma t_wall_clock {S} ts b n : tracks (S:=S) view R (SilogFormatWallClockMs ts b n).
Proof. unfold SilogFormatWallClockMs. solve_tracks. Qed.

Section queues.
Context {S : Type}.
Lemma t_queue_init es cap q : tracks (S:=S) view R (queue_init es cap q).
Proof. unfold queue_init. solve_tracks. Qed.
Lemma t_queue_push lq el : tracks (S:=S) view R (queue_push lq el).
Proof. unfold queue_push. solve_tracks. Qed.
Lemma t_queue_destroy q : tracks (S:=S) view R (queue_destroy q).
Proof. unfold queue_destroy. solve_tracks. Qed.
Lemma t_with_temp {A} name es (k : bool -> option A) : tracks (S:=S) view R (with_temp name es k).
Proof. unfold with_temp. solve_tracks. Qed.
Hint Resolve t_with_temp : tracks.
Lemma t_pqueue_init lq es cap cmp : tracks (S:=S) view R (pqueue_init lq es cap cmp).
Proof. unfold pqueue_init. solve_tracks. Qed.
Lemma t_pqueue_push lq el : tracks (S:=S) view R (pqueue_push lq el).
Proof. unfold pqueue_push. solve_tracks. Qed.
Lemma t_pqueue_pop lq out : tracks (S:=S) view R (pqueue_pop lq out).
Proof. unfold pqueue_pop. solve_tracks. Qed.
Lemma t_pqueue_destroy lq : tracks (S:=S) view R (pqueue_destroy lq).
Proof. unfold pqueue_destroy. solve_tracks. Qed.
End queues.
#[local] Hint Resolve t_queue_init t_queue_push t_queue_destroy t_pqueue_init t_pqueue_push t_pqueue_pop t_pqueue_destroy : tracks.

Section file_manager.
Context `{!Others SilogFileManager W, !WatchOthers (S:=SilogFileManager) view R}.
Lemma t_free_names n : T (free_names n).
Proof. induction n; cbn [free_names]; solve_tracks. Qed.
Hint Resolve t_free_names : tracks.
Lemma t_scan_loop fuel dir prefix ns n i q : T (scan_loop fuel dir prefix ns n i q).
Proof. revert i q. induction fuel; intros; cbn [scan_loop]; unfold scan_entry; solve_tracks. Qed.
Lemma t_clean_loop fuel q : T (clean_loop fuel q).
Proof. revert q. induction fuel; intros; cbn [clean_loop]; solve_tracks. Qed.
Lemma t_name_loop fuel c ts seq path : T (name_loop fuel c ts seq path).
Proof. revert seq path. induction fuel; intros; cbn [name_loop]; solve_tracks. Qed.
Lemma t_rename_loop fuel from to retry : T (rename_loop fuel from to retry).
Proof. revert retry. induction fuel; intros; cbn [rename_loop]; solve_tracks. Qed.
Hint Resolve t_scan_loop t_clean_loop t_name_loop t_rename_loop : tracks.
Lemma t_do_compress f : T (SilogFileManagerDoCompress f).
Proof. unfold SilogFileManagerDoCompress. solve_tracks. Qed.
Hint Resolve t_do_compress : tracks.
Lemma t_rotate : T SilogFileManagerRotateInternal.
Proof.
  unfold SilogFileManagerRotateInternal, SilogFileManagerGetCurrentPath, SilogFileManagerFormatTimestamp,
    close_current, SilogFileManagerCompressFile, SilogFileManagerCleanOldFiles. solve_tracks.
Qed.
Hint Resolve t_rotate : tracks.
Lemma t_write_raw data n : T (SilogFileManagerWriteRaw data n).
Proof. unfold SilogFileManagerWriteRaw, write_and_flush. solve_tracks. Qed.
End file_manager.

Section server.
Context `{!Others SilogRemoteManager W, !WatchOthers (S:=SilogRemoteManager) view R}.
Lemma t_client_at i : T (client_at i).
Proof. unfold client_at. solve_tracks. Qed.
Hint Resolve t_client_at : tracks.
Lemma t_client_put i c : T (client_put i c).
Proof. unfold client_put. solve_tracks. Qed.
Hint Resolve t_client_put : tracks.
Lemma t_find_free fuel i : T (find_free_loop fuel i).
Proof. revert i. induction fuel; intros; cbn [find_free_loop]; solve_tracks. Qed.
Hint Resolve t_find_free : tracks.
Lemma t_close_client i : T (SilogRemoteCloseClientInternal i).
Proof. unfold SilogRemoteCloseClientInternal. solve_tracks. Qed.
Lemma t_accept : T SilogRemoteAccept.
Proof. unfold SilogRemoteAccept, SilogRemoteFindFreeSlot, SilogRemoteSetNonblock. solve_tracks. Qed.
End server.

Lemma t_client_init : T SilogIpcDgramClientInit.
Proof. unfold SilogIpcDgramClientInit, setNonblock. solve_tracks. Qed.
Hint Resolve t_client_init : tracks.
Lemma t_log `{!Others SilogPrelogManager_t W, !WatchOthers (S:=SilogPrelogManager_t) view R} level tag file line fmt :
  T (silogLog level tag file line fmt).
Proof.
  unfold silogLog, log_once, silogEntryMngInit, SilogPrelogInit, silogEntrySendTaskInit, SilogIpcInit, SilogIpcClientInit,
    silogCheckLevel, silogBuildEntry. solve_tracks.
Qed.

Lemma t_disconnect : T SilogRemoteClientDisconnect.
Proof. unfold SilogRemoteClientDisconnect. solve_tracks. Qed.
Lemma t_packet_loop fuel : T (packet_loop fuel).
Proof. induction fuel; cbn [packet_loop]; solve_tracks. Qed.
Lemma t_print_all es : T (print_all es).
Proof.
  induction es as [|e es IH]; cbn [print_all];
    unfold SilogCatPrintLog, SilogCatFormatTime, SilogCatGetLevelColor, out_text; solve_tracks.
Qed.
End still.
#[export] Hint Resolve t_now t_wall_clock t_queue_init t_queue_push t_queue_destroy t_write_raw t_client_at t_close_client t_accept t_client_init
  t_log t_disconnect t_packet_loop t_print_all : tracks.

(** ** Functions that send or receive *)

Section senders.
Context {W V : Type} `{!Os W} (view : W -> V) (R : call * answer -> V -> V -> Prop) {HW : Watch view sending R}.
#[local] Abbreviation T := (tracks view R).

Lemma t_ipc_send data : T (SilogIpcClientSend data).
Proof.
  pose proof (watch_less view _ _ R inert_sending HW) as HI.
  unfold SilogIpcClientSend, SilogIpcDgramClientSend, SilogIpcDgramClientClose. solve_tracks.
Qed.

Context `{!Others SilogRemoteManager W, !WatchOthers (S:=SilogRemoteManager) view R}.
Lemma t_send_loop fuel fd buf sent : T (send_loop fuel fd buf sent).
Proof. revert sent. induction fuel; intros; cbn [send_loop]; solve_tracks. Qed.
Hint Resolve t_send_loop : tracks.
Lemma t_broadcast_loop fuel buf i count : T (broadcast_loop fuel buf i count).
Proof.
  pose proof (watch_less view _ _ R inert_sending HW) as HI.
  revert i count. induction fuel; intros; cbn [broadcast_loop]; unfold broadcast_one, SilogRemoteSendFull; solve_tracks.
Qed.
Hint Resolve t_broadcast_loop : tracks.
Lemma t_broadcast en hasCount : T (SilogRemoteBroadcast en hasCount).
Proof. unfold SilogRemoteBroadcast. solve_tracks. Qed.
End senders.

Section receivers.
Context {W V : Type} `{!Os W} (view : W -> V) (R : call * answer -> V -> V -> Prop) (P : Z -> Prop)
  {HW : Watch view (receiving P) R}.
#[local] Abbreviation T := (tracks view R).

Lemma t_ipc_recv n : P n -> T (SilogIpcServerRecv n).
Proof. intros HP. unfold SilogIpcServerRecv, SilogIpcDgramServerRecv. solve_tracks. Qed.
Lemma t_receive hasCallback ms : (forall n, P n) -> T (SilogRemoteClientReceive hasCallback ms).
Proof.
  intros HP. pose proof (watch_less view _ _ R (inert_receiving P) HW) as HI.
  unfold SilogRemoteClientReceive. solve_tracks.
Qed.
End receivers.
(** The receiving thread asks for the size of an entry. *)
Abbreviation receives_entry := (receiving (fun n => n = sizeof_logEntry)).
Abbreviation receives := (receiving (fun _ => True)).
Lemma t_receive_any {W V} `{!Os W} (view : W -> V) R {HW : Watch view receives R} hasCallback ms :
  tracks view R (SilogRemoteClientReceive hasCallback ms).
Proof. by eapply t_receive. Qed.
#[export] Hint Resolve t_ipc_send t_ipc_recv t_broadcast t_receive_any : tracks.

(** ** The part of one component in a program of several *)

(** Calls that change nothing, and calls of a class with what else is known of them. *)
Definition same_view {V} (_ : call * answer) (v v' : V) : Prop := v' = v.
Definition within {V} (class : call -> Prop) (R : call * answer -> V -> V -> Prop) (ev : call * answer) (v v' : V) : Prop :=
  class ev.1 /\ R ev v v'.
Abbreviation quietly := (within inert).

Lemma steps_same {V} t (v v' : V) : steps same_view t v v' -> v' = v.
Proof. induction 1 as [|ev t v v1 v2 H1 _ IH]; [done|]. unfold same_view in H1. congruence. Qed.
Lemma steps_within {V} (class class' : call -> Prop) (R : call * answer -> V -> V -> Prop) t v v' :
  (forall c, class c -> class' c) -> steps (within class R) t v v' -> steps (within class' R) t v v'.
Proof. intros Hc. induction 1 as [|ev t v v1 v2 [Hi H1] _ IH]; econstructor; [split; [by apply Hc|done]|done]. Qed.
Lemma watch_within {W V} `{!Os W} (view : W -> V) (class : call -> Prop) R :
  (forall c, class c -> kernel_call c) -> Watch view kernel_call R -> Watch view class (within class R).
Proof. intros Hc [H1 H2]. split; [|done]. intros c w a w' Hk Ho. split; [done|]. by apply H1; [apply Hc|]. Qed.
Lemma watch_others_within {W V S} `{!Others S W} (view : W -> V) (class : call -> Prop) R :
  (forall c, inert c -> class c) -> WatchOthers (S:=S) view (quietly R) -> WatchOthers (S:=S) view (within class R).
Proof. intros Hc H s w s' t w' Ho. eapply steps_within; [exact Hc|]. by apply (H s w s' t w'). Qed.

(** Laws known in two parts, and weaker laws. *)
Definition both {V} (R1 R2 : call * answer -> V -> V -> Prop) (ev : call * answer) (v v' : V) : Prop :=
  R1 ev v v' /\ R2 ev v v'.
Definition refines {V} (R R' : call * answer -> V -> V -> Prop) : Prop := forall ev v v', R ev v v' -> R' ev v v'.
Lemma refines_refl {V} (R : call * answer -> V -> V -> Prop) : refines R R.
Proof. by intros ev v v'. Qed.
Lemma refines_both {V} (R1 R2 : call * answer -> V -> V -> Prop) : refines (both R1 R2) R1.
Proof. by intros ev v v' []. Qed.
Lemma watch_both {W V} `{!Os W} (view : W -> V) class R1 R2 :
  Watch view class R1 -> Watch view class R2 -> Watch view class (both R1 R2).
Proof. intros [H1 H2] [H3 _]. split; [|done]. intros c w a w' Hc Ho. split; [by apply H1|by apply H3]. Qed.
Lemma steps_refines {V} class (R R' : call * answer -> V -> V -> Prop) t v v' :
  refines R R' -> steps (within class R) t v v' -> steps (within class R') t v v'.
Proof. intros Hr. induction 1 as [|ev t v v1 v2 [Hi H1] _ IH]; econstructor; [split; [done|by apply Hr]|done]. Qed.

(** Inert calls leave the view alone. *)
Definition inert_still {V} (R : call * answer -> V -> V -> Prop) : Prop :=
  forall ev v v', inert ev.1 -> R ev v v' -> v' = v.
Lemma inert_refines {V} (R R' : call * answer -> V -> V -> Prop) : refines R R' -> inert_still R' -> inert_still R.
Proof. intros Hr Hi ev v v' Hev H. by apply (Hi ev), Hr. Qed.
Lemma watch_still {W V} `{!Os W} (view : W -> V) R :
  inert_still R -> Watch view kernel_call R -> Watch view inert same_view.
Proof.
  intros Hs [H1 H2]. split; [|done]. intros c w a w' Hc Ho. apply (Hs (c, a)); [done|]. by apply H1; [apply inert_kernel|].
Qed.
Lemma watch_others_still {W V S} `{!Others S W} (view : W -> V) R :
  inert_still R -> WatchOthers (S:=S) view (quietly R) -> WatchOthers (S:=S) view same_view.
Proof.
  intros Hs H s w s' t w' Ho. apply H in Ho. induction Ho as [|ev t v v1 v2 [Hi H1] _ IH]; [constructor|].
  econstructor; [|exact IH]. by apply (Hs ev).
Qed.

Section inside.
Context {W V S S1 : Type} `{!Os W} (view : W -> V) (R : call * answer -> V -> V -> Prop) (proj : S -> comp S1).
Context {HS : Watch view inert same_view}.

Definition moves_in {A} (m : M S W A) : Prop :=
  forall e a e', m e = Some (a, e') -> exists t,
  c_trace (proj (mem e')) = c_trace (proj (mem e)) ++ t /\ steps R t (view (world e)) (view (world e')).

Lemma in_same {A} (m : M S W A) :
  (forall e a e', m e = Some (a, e') -> proj (mem e') = proj (mem e) /\ view (world e') = view (world e)) -> moves_in m.
Proof.
  intros H e a e' He. destruct (H e a e' He) as [-> ->]. exists []. rewrite app_nil_r. split; [done|constructor].
Qed.
Lemma in_ret {A} (a : A) : moves_in (mret a).
Proof. apply in_same. by intros e ? ? [= <- <-]. Qed.
Lemma in_bind {A B} (m : M S W A) (f : A -> M S W B) : moves_in m -> (forall a, moves_in (f a)) -> moves_in (m ≫= f).
Proof.
  intros Hm Hf e b e2. unfold mbind, M_bind. destruct (m e) as [[a e1]|] eqn:E; [|done]. intros E2.
  destruct (Hm _ _ _ E) as (t1 & H1 & S1'). destruct (Hf _ _ _ _ E2) as (t2 & H2 & S2). exists (t1 ++ t2).
  rewrite H2, H1, (assoc_L (++)). split; [done|]. by eapply steps_app.
Qed.
Lemma in_get : moves_in get.
Proof. apply in_same. by intros e ? ? [= <- <-]. Qed.
Lemma in_lift {A} (o : option A) : moves_in (lift o).
Proof. apply in_same. intros e a e'. unfold lift. destruct o; [|done]. by intros [= <- <-]. Qed.
Lemma in_undefined {A} : moves_in (undefined (A:=A)).
Proof. by intros e a e'. Qed.
Lemma in_sys c : inert c -> moves_in (sys c).
Proof.
  intros Hc. apply in_same. intros e a e'. unfold sys. destruct (os c (world e)) as [b w] eqn:E. intros [= <- <-].
  split; [done|]. exact (watch_call (class:=inert) c _ _ _ Hc E).
Qed.
Lemma in_diag m l f x : moves_in (diag m l f x).
Proof. apply in_same. intros e a e' [= <- <-]. split; [done|]. apply (watch_diag (class:=inert) (R:=same_view)). Qed.
Lemma in_modify f : (forall s, proj (f s) = proj s) -> moves_in (modify f).
Proof. intros H. apply in_same. intros e ? ? [= <- <-]. split; [apply H|done]. Qed.
Lemma in_zoom {A} upd (p : M S1 W A) : (forall c s, proj (upd c s) = c) -> tracks view R p -> moves_in (zoom proj upd p).
Proof.
  intros Hu Hp e a e'. unfold zoom. destruct (p _) as [[b e1]|] eqn:E; [|done]. intros [= <- <-].
  destruct (Hp _ _ _ E) as (t & Ht & Hs). exists t. cbn in *. by rewrite Hu.
Qed.
Lemma in_other {S2 A} (proj2 : S -> comp S2) upd (p : M S2 W A) :
  (forall c s, proj (upd c s) = proj s) -> tracks view same_view p -> moves_in (zoom proj2 upd p).
Proof.
  intros Hu Hp. apply in_same. intros e a e'. unfold zoom. destruct (p _) as [[b e1]|] eqn:E; [|done]. intros [= <- <-].
  destruct (Hp _ _ _ E) as (t & Ht & Hs). cbn in *. split; [apply Hu|]. by eapply steps_same.
Qed.
End inside.
#[export] Hint Resolve in_ret in_get in_lift in_undefined in_diag : tracks.
#[export] Hint Extern 1 (moves_in _ _ _ (sys _)) => eapply in_sys; first [exact I|eassumption] : tracks.
#[export] Hint Extern 1 (moves_in _ _ _ (SiMalloc _)) => unfold SiMalloc; solve [eauto 2 with tracks] : tracks.
#[export] Hint Extern 1 (moves_in _ _ _ SiFree) => unfold SiFree; solve [eauto 2 with tracks] : tracks.
#[export] Hint Extern 1 (moves_in _ _ _ (modify _)) => eapply in_modify; first [reflexivity|eassumption] : tracks.
#[export] Hint Extern 1 (moves_in _ _ _ (SILOG_PRELOG_I _ _ _)) => eapply in_diag; eassumption : tracks.
#[export] Hint Extern 1 (moves_in _ _ _ (SILOG_PRELOG_W _ _ _)) => eapply in_diag; eassumption : tracks.
#[export] Hint Extern 1 (moves_in _ _ _ (SILOG_PRELOG_E _ _ _)) => eapply in_diag; eassumption : tracks.
#[export] Hint Extern 2 (moves_in _ _ _ (zoom _ _ _)) => eapply in_zoom; [try reflexivity; try eassumption..|solve [solve_tracks]] : tracks.
#[export] Hint Extern 2 (moves_in _ _ _ (zoom _ _ _)) => eapply in_other; [try reflexivity; try eassumption..|solve [solve_tracks]] : tracks.

Ltac solve_moves :=
  repeat first
    [ progress intros
    | progress cbv zeta
    | solve [eauto 3 with tracks]
    | apply in_bind
    | match goal with |- moves_in _ _ _ (if ?b then _ else _) => destruct b end
    | match goal with |- moves_in _ _ _ (match ?b with _ => _ end) => destruct b end ].

(** A program that returns with [Q] explains the changes by the calls of a component. *)
Lemma wp_moves {W V S S1 A} `{!Os W} (view : W -> V) R (proj : S -> comp S1) (m : M S W A) Q e :
  moves_in view R proj m -> wp m Q e ->
  wp m (fun a e' => Q a e' /\ exists t, c_trace (proj (mem e')) = c_trace (proj (mem e)) ++ t /\
    steps R t (view (world e)) (view (world e'))) e.
Proof. intros Ht (a & e' & He & HQ). exists a, e'. split; [done|]. split; [done|]. by eapply Ht. Qed.

(** The rounds of the processes. *)
Section rounds.
Context {W V : Type} `{!Os W} (view : W -> V) (R : call * answer -> V -> V -> Prop) (HI : inert_still R)
  {HW : Watch view kernel_call R}.

Lemma send_round_moves : moves_in view (within sending R) lg_ipc send_round.
Proof.
  pose proof (watch_still view R HI HW) as HS. pose proof (watch_within view _ R sending_kernel HW) as HC.
  unfold send_round. solve_moves.
Qed.

Lemma recv_round_moves buf : moves_in view (within receives_entry R) dm_ipc (recv_round buf).
Proof.
  pose proof (watch_still view R HI HW) as HS.
  pose proof (watch_within view _ R (receiving_kernel (fun n => n = sizeof_logEntry)) HW) as HC.
  unfold recv_round. solve_moves.
Qed.

Lemma print_moves es : moves_in view (within receives R) ct_client (print_all es).
Proof.
  pose proof (watch_still view R HI HW) as HS. induction es as [|en es IH]; cbn [print_all];
    unfold SilogCatPrintLog, SilogCatFormatTime, SilogCatGetLevelColor, out_text; solve_moves.
Qed.
Lemma receive_print_moves : moves_in view (within receives R) ct_client receive_print.
Proof.
  pose proof (watch_still view R HI HW) as HS.
  pose proof (watch_within view _ R (receiving_kernel (fun _ => True)) HW) as HC. pose proof print_moves. unfold receive_print. solve_moves.
Qed.

Section server.
Context `{!Others SilogFileManager W, !Others SilogRemoteManager W,
  !WatchOthers (S:=SilogFileManager) view (quietly R), !WatchOthers (S:=SilogRemoteManager) view (quietly R)}.

Lemma write_round_moves tb lb : moves_in view (within sending R) dm_remote (write_round tb lb).
Proof.
  pose proof (watch_still view R HI HW) as HS. pose proof (watch_within view _ R sending_kernel HW) as HC.
  pose proof (watch_others_still (S:=SilogFileManager) view R HI _) as HO.
  pose proof (watch_others_within (S:=SilogRemoteManager) view sending R inert_sending _) as HB.
  unfold write_round, relay, SilogFormatWallClockMs. solve_moves.
Qed.
Lemma remote_round_moves : moves_in view (quietly R) dm_remote remote_round.
Proof.
  pose proof (watch_still view R HI HW) as HS. pose proof (watch_within view _ R inert_kernel HW) as HQ.
  unfold remote_round. solve_moves.
Qed.
End server.
End rounds.
