(* ===== verification/Connection.v ===== *)
(** * One connection of the remote service over time

    What the daemon puts on the connection of one viewer while it handles entries:
    as long as the kernel takes entries whole or not at all on that connection, it
    carries the wire images of some of the handled entries, in their order. *)

From S2P Require Import Prelude Errors LogEntry RemoteCodec Os Queues RemoteServer FileManager FileManagerOps Ipc Prelog Daemon.
#[local] Open Scope Z_scope.

(** ** The conditions on the kernel *)

(** The descriptor [fd] is not handed out again, and each send on it is taken whole
    or refused because the buffer is full. *)
Definition steady_event (fd : Z) (ev : call * answer) : Prop :=
  match ev.1 with
  | CSocket | CAccept _ => ret ev.2 <> fd
  | CSend fd' buf => fd' = fd -> ret ev.2 = len buf \/ ret ev.2 < 0 /\ errno ev.2 = EAGAIN
  | _ => True
  end.
Definition steady (fd : Z) (t : trace_t) : Prop := Forall (steady_event fd) t.

(** No send on it is refused. *)
Definition all_taken (fd : Z) (t : trace_t) : Prop :=
  Forall (fun ev => match ev.1 with CSend fd' buf => fd' = fd -> ret ev.2 = len buf | _ => True end) t.

Lemma steady_app fd t1 t2 : steady fd (t1 ++ t2) <-> steady fd t1 /\ steady fd t2.
Proof. apply Forall_app. Qed.
Lemma all_taken_app fd t1 t2 : all_taken fd (t1 ++ t2) <-> all_taken fd t1 /\ all_taken fd t2.
Proof. apply Forall_app. Qed.

(** ** Attempts *)

Lemma chunks_steady fd buf r t :
  chunks fd buf r t -> steady fd t ->
  (r = SILOG_OK /\ sent_on fd t = buf) \/ (r = SILOG_NET_TIMEOUT /\ sent_on fd t = []).
Proof.
  destruct 1 as [|buf a Hb Ha He|buf a Hb Ha|buf a r t Ha Hc]; intros Hs.
  - by left.
  - right. split; [done|]. rewrite sent_on_one. by replace (Z.to_nat (ret a)) with 0%nat by lia.
  - exfalso. apply Forall_cons_1 in Hs as [Hs _]. cbn in Hs.
    destruct (Hs eq_refl) as [H|[H1 H2]]; (destruct Ha as [Ha|[Ha He]]; [|done || lia]); [|lia].
    destruct buf; [done|cbn in *; lia].
  - left. apply Forall_cons_1 in Hs as [Hs _]. cbn in Hs. destruct (Hs eq_refl) as [H|[H _]]; [|lia].
    rewrite H, Nat2Z.id, drop_all in Hc.
    assert (r = SILOG_OK /\ t = []) as [-> ->] by (inversion Hc; subst; done || cbn in *; lia).
    split; [done|]. rewrite sent_on_one, H, Nat2Z.id. by apply take_ge.
Qed.

Lemma chunks_taken fd buf r t : chunks fd buf r t -> all_taken fd t -> r = SILOG_OK.
Proof.
  induction 1 as [|buf a Hb Ha He|buf a Hb Ha|buf a r t Ha Hc IH]; intros Hs; apply Forall_cons_1 in Hs || done.
  - destruct Hs as [Hs _]. cbn in Hs. specialize (Hs eq_refl). lia.
  - destruct Hs as [Hs _]. cbn in Hs. specialize (Hs eq_refl). destruct buf; [done|]. cbn in *. lia.
  - destruct Hs as [_ Hs]. by apply IH.
Qed.

Lemma attempt_other fd fd' buf r t : attempt fd' buf r t -> fd' <> fd -> sent_on fd t = [].
Proof.
  intros (Hall & _) Hne. induction Hall as [|[c a] t [d Hd] _ IH]; [done|]. cbn in Hd. subst c.
  unfold sent_on in *. cbn. rewrite (proj2 (Z.eqb_neq fd' fd)) by done. exact IH.
Qed.

Lemma sent_on_none fd t : sends t = [] -> sent_on fd t = [].
Proof.
  induction t as [|ev t IH]; [done|]. rewrite sends_cons. destruct (is_send ev) eqn:E; [done|]. intros H.
  unfold sent_on in *. cbn. rewrite IH by done. unfold is_send in E. by destruct (ev.1).
Qed.

(** ** The ledger of a trace that does not hand out [fd] *)

Lemma steady_ledger fd t tr X Y :
  steady fd t -> ledger tr = Some X -> ledger (tr ++ t) = Some Y -> (multiplicity fd Y <= multiplicity fd X)%nat.
Proof.
  revert tr X. induction t as [|[c a] t IH]; intros tr X Hs HX HY.
  { rewrite app_nil_r in HY. simplify_eq. lia. }
  apply Forall_cons_1 in Hs as [Hc Hs]. change ((c, a) :: t) with ([(c, a)] ++ t) in HY. rewrite (assoc_L (++)) in HY.
  destruct (ledger (tr ++ [(c, a)])) as [Z|] eqn:HZ; cycle 1.
  { exfalso. revert HY. unfold ledger in HZ |- *. rewrite foldl_app, HZ. clear. induction t as [|ev t IH]; [done|]. exact IH. }
  etransitivity; [by apply (IH (tr ++ [(c, a)]) Z)|]. rewrite ledger_snoc, HX in HZ. unfold ledger_step in HZ. cbn in HZ.
  unfold steady_event in Hc. cbn in Hc.
  assert (forall n, n <> fd -> multiplicity fd (X ⊎ {[+ n +]}) = multiplicity fd X) as Hadd.
  { intros n Hn. rewrite multiplicity_disj_union, multiplicity_singleton_ne by done. lia. }
  destruct c; try (simplify_eq; lia).
  1,2: destruct (0 <=? ret a); simplify_eq; rewrite ?Hadd by done; lia.
  case_decide; simplify_eq. rewrite multiplicity_difference. lia.
Qed.

(** ** The connection in its slot *)

(** The slot [s] holds the connection, and nothing else of the service does. *)
Definition conn_at (fd s : Z) (m : SilogRemoteManager) : Prop :=
  (exists c, slot_of m s = Some c /\ c_active c = true /\ c_fd c = fd) /\ multiplicity fd (fds m) = 1%nat.

Lemma active_fds_in l i c : l !! i = Some c -> c_active c = true -> c_fd c ∈ active_fds l.
Proof.
  intros Hi Ha. unfold active_fds. apply list_elem_of_omap. exists c. split; [by eapply list_elem_of_lookup_2|by rewrite Ha].
Qed.
Lemma slot_in_fds m s c : slot_of m s = Some c -> c_active c = true -> c_fd c ∈ fds m.
Proof.
  unfold slot_of, fds. destruct (m_clients m) as [l|]; [|done]. cbn [mbind option_bind default from_option id]. intros Hs Ha.
  apply gmultiset_elem_of_disj_union. right. apply elem_of_list_to_set_disj. by eapply active_fds_in.
Qed.
Lemma conn_init fd s m : conn_at fd s m -> mgr_inv m -> m_isInit m = true.
Proof.
  intros [(c & Hs & _) _] Hi. unfold mgr_inv in Hi. destruct (m_isInit m); [done|]. destruct Hi as (_ & Hc & _).
  unfold slot_of in Hs. by rewrite Hc in Hs.
Qed.

(** A change of the service that keeps the slot and does not hand out the
    descriptor again keeps the connection. *)
Lemma conn_kept fd s m m' c :
  slot_of m' s = Some c -> c_active c = true -> c_fd c = fd -> conn_at fd s m ->
  (multiplicity fd (fds m') <= multiplicity fd (fds m))%nat -> conn_at fd s m'.
Proof.
  intros Hs Ha Hc [_ H1] Hle. split; [by exists c|]. pose proof (slot_in_fds _ _ _ Hs Ha) as Hin. rewrite Hc in Hin.
  rewrite elem_of_multiplicity in Hin. lia.
Qed.

(** Another active slot holds another descriptor. *)
Lemma conn_other fd s m i c :
  conn_at fd s m -> mgr_inv m -> Z.to_nat i <> Z.to_nat s -> slot_of m i = Some c -> c_active c = true -> c_fd c <> fd.
Proof.
  intros Hcn Hi Hne Hc Ha Heq. pose proof (conn_init _ _ _ Hcn Hi) as Hm. destruct Hcn as [(c0 & Hs & Ha0 & H0) H1].
  destruct (inv_table _ Hi Hm) as [_ [l Ht]]. unfold slot_of in Hs. rewrite (proj1 Ht) in Hs. cbn in Hs.
  destruct (close_slot_table m l s c0 Ht Hs) as [_ Hf]. rewrite Ha0, H0 in Hf.
  assert (fd ∈ fds (close_slot s m)) as Hin.
  { rewrite <- Heq. apply (slot_in_fds _ i); [|done]. by rewrite close_slot_lookup, decide_False. }
  rewrite Hf, multiplicity_disj_union, multiplicity_singleton, decide_True in H1 by done.
  rewrite elem_of_multiplicity in Hin. lia.
Qed.

Section conn.
Context {W : Type} `{!Others SilogFileManager W, !Others SilogRemoteManager W, !AcceptorsOnly W} (fd s : Z).
Hypothesis Hs0 : 0 <= s.

Lemma conn_interfered m t m' :
  interfered (W:=W) m t m' -> mgr_inv m -> steady fd t -> conn_at fd s m -> conn_at fd s m'.
Proof.
  intros Hint Hi Ht Hcn. pose proof Hcn as [(c & Hs & Ha & Hc) _].
  apply (conn_kept _ _ m _ c); [by eapply keep_slot|done|done|done|].
  destruct Hint as (w & w' & Ho). destruct (others_ok _ _ _ _ _ Ho Hi) as (_ & _ & Hl).
  destruct (ledger_exists (fds m) (fds_pos m Hi)) as [tr Htr].
  specialize (Hl tr ∅). rewrite !(right_id_L ∅ (⊎)) in Hl. specialize (Hl Htr).
  pose proof (steady_ledger _ _ _ _ _ Ht Htr Hl). lia.
Qed.

Lemma accepted_conn c c' :
  accepted_one (W:=W) c c' -> remote_comp_ok c ->
  remote_comp_ok c' /\ exists t, c_trace c' = c_trace c ++ t /\ (steady fd t -> conn_at fd s (c_mem c) ->
    conn_at fd s (c_mem c') /\ sent_on fd t = []).
Proof.
  intros ((t & Ht) & w & w' & r & _ & Hg & _ & m1 & t1 & Hm1 & Hst & Hse) [Hi Hl]. cbn [mem trace] in *.
  split; [exact Hg|]. exists t. split; [done|]. intros Hsd Hcn.
  assert (sends t1 = [] /\ (forall c0, slot_of (c_mem c) s = Some c0 -> c_active c0 = true -> slot_of m1 s = Some c0)) as [Hs1 Hk].
  { destruct Hm1 as [[-> ->]|Hint]; [done|]. split; [by apply (interfered_ok _ _ _ Hint Hi)|]. intros. by eapply keep_slot. }
  split.
  - destruct Hcn as [(c0 & Hs & Ha & Hc) H1]. apply (conn_kept _ _ (c_mem c) _ c0); [|done|done|by split; [exists c0|]|].
    + apply Hk in Hs; [|done]. pose proof (accept_step_keeps _ _ _ Hst) as Hkc. unfold slot_of in *.
      destruct (m_clients m1) as [l|] eqn:El; [|done]. destruct (Hkc l El) as (l' & -> & Hl'). by apply Hl'.
    + destruct Hg as [_ Hg]. unfold led in Hg. cbn [trace mem] in Hg. rewrite Ht, !(right_id_L ∅ (⊎)) in *.
      pose proof (steady_ledger _ _ _ _ _ Hsd Hl Hg). lia.
  - apply sent_on_none. rewrite Ht, sends_app, Hs1 in Hse. by apply app_inv_head in Hse.
Qed.

(** ** Broadcasts *)

(** What a visit of the slot [i] puts on the connection. *)
Lemma visit_conn buf i m m1 t ok :
  visit (W:=W) buf i m m1 t ok -> mgr_inv m -> 0 <= i -> steady fd t -> conn_at fd s m ->
  conn_at fd s m1 /\
  if decide (i = s) then (sent_on fd t = buf \/ sent_on fd t = []) /\ (all_taken fd t -> sent_on fd t = buf)
  else sent_on fd t = [].
Proof.
  intros Hv Hi H0 Hsd Hcn. pose proof (conn_init _ _ _ Hcn Hi) as Hm.
  destruct (visit_facts _ _ _ _ _ _ Hv Hi Hm) as (Hi1 & _ & Hkeep & _). pose proof Hcn as [(c0 & Hc0 & Ha0 & Hf0) _].
  assert (forall c ts t1 r, slot_of m i = Some c -> c_active c = true -> attempt (c_fd c) buf r ts -> sends t1 = [] ->
    steady fd (ts ++ t1) ->
    (i = s -> r <> SILOG_NET_FILE_ERROR) /\
    if decide (i = s) then (sent_on fd (ts ++ t1) = buf \/ sent_on fd (ts ++ t1) = []) /\
      (all_taken fd (ts ++ t1) -> sent_on fd (ts ++ t1) = buf)
    else sent_on fd (ts ++ t1) = []) as Hsent.
  { intros c ts t1 r Hc Ha Hatt Ht1 [Hst _]%steady_app. rewrite sent_on_app, (sent_on_none fd t1 Ht1), app_nil_r.
    case_decide as Hd.
    - subst i. assert (c = c0) as -> by congruence. rewrite Hf0 in Hatt. destruct Hatt as (_ & _ & _ & Hch).
      pose proof (chunks_steady _ _ _ _ Hch Hst) as Hout. split; [intros _; by destruct Hout as [[-> _]|[-> _]]|].
      split; [by destruct Hout as [[_ ->]|[_ ->]]; auto|]. intros [Hat _]%all_taken_app.
      pose proof (chunks_taken _ _ _ _ Hch Hat) as ->. by destruct Hout as [[_ ->]|[? _]].
    - split; [done|]. eapply attempt_other; [done|]. apply (conn_other fd s m i); try done. lia. }
  destruct Hv as [c Hc Ha|c ts m1 t1 Hc Ha Hatt Hint|c ts m1 t1 Hc Ha Hatt Hint|c ts m1 t1 c1 tc Hc Ha Hatt Hint Hc1 Htc].
  - split; [done|]. case_decide; [subst i; congruence|done].
  - destruct (interfered_ok _ _ _ Hint Hi) as (_ & _ & Hse). destruct (Hsent c ts t1 _ Hc Ha Hatt Hse Hsd) as [_ ?].
    apply steady_app in Hsd as [_ Hsd]. split; [by eapply conn_interfered|done].
  - destruct (interfered_ok _ _ _ Hint Hi) as (_ & _ & Hse). destruct (Hsent c ts t1 _ Hc Ha Hatt Hse Hsd) as [_ ?].
    apply steady_app in Hsd as [_ Hsd]. split; [by eapply conn_interfered|done].
  - destruct (interfered_ok _ _ _ Hint Hi) as (Hi2 & Hs2 & Hse). pose proof Hs2 as (Hm2 & _). rewrite Hm in Hm2.
    assert (sends (t1 ++ tc) = []) as Hse2.
    { rewrite sends_app, Hse. destruct (c_active c1); [destruct Htc as [a ->]|subst tc]; done. }
    destruct (Hsent c ts (t1 ++ tc) _ Hc Ha Hatt Hse2 Hsd) as [Hne ?]. split; [|done].
    apply steady_app in Hsd as [_ [Hsd _]%steady_app]. pose proof (conn_interfered _ _ _ Hint Hi Hsd Hcn) as Hcn1.
    assert (Z.to_nat s <> Z.to_nat i) as Hsi by (intros ?; apply Hne; [lia|done]).
    apply (conn_kept _ _ m1 _ c0); [by apply Hkeep|done|done|done|].
    destruct (inv_table _ Hi2 Hm2) as [_ [l Ht]]. unfold slot_of in Hc1. rewrite (proj1 Ht) in Hc1. cbn in Hc1.
    destruct (close_slot_table m1 l i c1 Ht Hc1) as [_ ->]. rewrite multiplicity_disj_union. lia.
Qed.

Lemma visits_conn buf N i m m' t k :
  visits (W:=W) buf N i m m' t k -> mgr_inv m -> 0 <= i -> steady fd t -> conn_at fd s m ->
  conn_at fd s m' /\
  if decide (i <= s < N) then (sent_on fd t = buf \/ sent_on fd t = []) /\ (all_taken fd t -> sent_on fd t = buf)
  else sent_on fd t = [].
Proof.
  induction 1 as [m|i m m1 m2 t1 t2 ok n HN Hv Hvs IH]; intros Hi H0 Hsd Hcn.
  { split; [done|]. case_decide; [lia|done]. }
  apply steady_app in Hsd as [Hsd1 Hsd2]. pose proof (conn_init _ _ _ Hcn Hi) as Hm.
  destruct (visit_facts _ _ _ _ _ _ Hv Hi Hm) as (Hi1 & _). destruct (visit_conn _ _ _ _ _ _ Hv Hi H0 Hsd1 Hcn) as [Hcn1 Hv1].
  destruct IH as [Hcn2 Hv2]; [done|lia|done|done|]. split; [done|]. rewrite sent_on_app. revert Hv1.
  destruct (decide (i = s)) as [Heq|Hne]; intros Hv1.
  - rewrite decide_False in Hv2 by lia. rewrite decide_True by lia. rewrite Hv2, app_nil_r. split; [apply Hv1|].
    intros [? _]%all_taken_app. by apply Hv1.
  - rewrite Hv1. destruct (decide (i + 1 <= s < N)).
    + rewrite decide_True by lia. split; [apply Hv2|]. intros [_ ?]%all_taken_app. by apply Hv2.
    + by rewrite decide_False by lia.
Qed.

Lemma relayed_conn c en c' :
  relayed_one (W:=W) c en c' -> remote_comp_ok c ->
  remote_comp_ok c' /\ exists t, c_trace c' = c_trace c ++ t /\ (steady fd t -> conn_at fd s (c_mem c) ->
    conn_at fd s (c_mem c') /\ (sent_on fd t = wire en \/ sent_on fd t = []) /\
    (all_taken fd t -> sent_on fd t = wire en)).
Proof.
  intros (Hok & w & w' & r & _ & m0 & t0 & t & k & Hint & Hi0 & Htr & Hv & _) [Hi _]. cbn [mem trace] in *.
  split; [done|]. exists (t0 ++ t). split; [done|]. intros [Hs1 Hs2]%steady_app Hcn.
  pose proof (conn_interfered _ _ _ Hint Hi Hs1 Hcn) as Hcn0.
  destruct (interfered_ok _ _ _ Hint Hi) as (_ & (_ & _ & Hmx) & Hse).
  destruct (visits_conn _ _ _ _ _ _ _ Hv Hi0 ltac:(lia) Hs2 Hcn0) as [Hcn1 Hv1]. split; [done|].
  rewrite sent_on_app, (sent_on_none fd t0 Hse), app_nil_l, all_taken_app.
  rewrite decide_True in Hv1; [split; [apply Hv1|intros [_ ?]; by apply Hv1]|]. split; [done|].
  destruct Hcn0 as [(c0 & Hc0 & Ha & _) _]. destruct (m_isInit m0) eqn:Hm0; cycle 1.
  { unfold mgr_inv in Hi0. rewrite Hm0 in Hi0. destruct Hi0 as (_ & H & _). unfold slot_of in Hc0. by rewrite H in Hc0. }
  destruct (inv_table _ Hi0 Hm0) as [_ [l (Hc & Hl & _)]]. unfold slot_of in Hc0. rewrite Hc in Hc0. cbn in Hc0.
  apply lookup_lt_Some in Hc0. rewrite <- Hmx. lia.
Qed.

(** What is put on the connection while the daemon handles entries. *)
Lemma served_conn fm rm ens fm' rm' :
  served (W:=W) true fm rm ens fm' rm' -> remote_comp_ok rm ->
  exists t, c_trace rm' = c_trace rm ++ t /\ (steady fd t -> conn_at fd s (c_mem rm) ->
    conn_at fd s (c_mem rm') /\ exists V, sublist V ens /\ sent_on fd t = concat (map wire V) /\
      (all_taken fd t -> V = ens)).
Proof.
  remember true as b. induction 1 as [fm rm|fm rm rm1 ens fm' rm' Hac _ IH|fm rm d en fm1 rm1 ens fm' rm' Hd Hlw Hrel _ IH];
    intros Hok; subst b.
  - exists []. rewrite app_nil_r. split; [done|]. intros _ Hcn. split; [done|]. by exists [].
  - destruct (accepted_conn _ _ Hac Hok) as [Hok1 (t1 & Ht1 & H1)]. destruct (IH Hok1) as (t2 & Ht2 & H2).
    exists (t1 ++ t2). rewrite Ht2, Ht1, (assoc_L (++)). split; [done|]. intros [Hs1 Hs2]%steady_app Hcn.
    destruct (H1 Hs1 Hcn) as [Hcn1 He1]. destruct (H2 Hs2 Hcn1) as [Hcn2 (V & HV & He2 & Hall)]. split; [done|].
    exists V. rewrite sent_on_app, He1, He2, all_taken_app. split; [done|]. split; [done|]. intros [_ ?]. by apply Hall.
  - destruct (relayed_conn _ _ _ Hrel Hok) as [Hok1 (t1 & Ht1 & H1)]. destruct (IH Hok1) as (t2 & Ht2 & H2).
    exists (t1 ++ t2). rewrite Ht2, Ht1, (assoc_L (++)). split; [done|]. intros [Hs1 Hs2]%steady_app Hcn.
    destruct (H1 Hs1 Hcn) as (Hcn1 & He1 & Hw1). destruct (H2 Hs2 Hcn1) as [Hcn2 (V & HV & He2 & Hall)]. split; [done|].
    rewrite sent_on_app, He2.
    destruct (decide (sent_on fd t1 = wire en)) as [Hw|Hw].
    + exists (en :: V). split; [by apply sublist_skip|]. split; [by rewrite Hw|]. intros [_ ?]%all_taken_app. by rewrite Hall.
    + exists V. split; [by apply sublist_cons|]. destruct He1 as [?|He1]; [done|]. split; [by rewrite He1|].
      intros [? _]%all_taken_app. by destruct Hw; apply Hw1.
Qed.
End conn.
