(* ===== verification/System.v ===== *)
(** * The whole system

    An application that logs, the daemon and a viewer run together on one machine
    model: the kernel carries the datagrams from the application to the daemon and
    the bytes of one connection from the daemon to the viewer. Each process makes
    its rounds in any order. *)

From S2P Require Import Prelude Errors LogEntry CObj CMem Mpsc RemoteCodec Os Queues Format Layout.
From S2P Require Import RemoteServer RemoteClient FileManager FileManagerOps Ipc Prelog Logger Daemon Cat Network Connection.
#[local] Open Scope Z_scope.

(** ** Data under way *)

(** The datagrams sent to the daemon and not yet received, and the bytes sent on
    the connection of the viewer and not yet received. *)
Record transit := MkTransit { dgrams : list (list Z); flow : list Z }.

(** What the calls of each process do to them. A datagram socket keeps the
    datagrams whole and in order, a connection carries bytes and keeps them in
    order; a receiver gets no more of a datagram than it asks for. *)
Definition app_moves (ev : call * answer) (v v' : transit) : Prop :=
  flow v' = flow v /\
  dgrams v' = dgrams v ++ match ev.1 with CSend _ d => if 0 <=? ret ev.2 then [d] else [] | _ => [] end.

Definition daemon_moves (conn : Z) (ev : call * answer) (v v' : transit) : Prop :=
  match ev.1 with
  | CRecv _ n =>
      flow v' = flow v /\
      if ret ev.2 <? 0 then dgrams v' = dgrams v
      else exists d, dgrams v = d :: dgrams v' /\ out ev.2 = take (Z.to_nat n) d /\ ret ev.2 = len (out ev.2)
  | CSend fd d =>
      dgrams v' = dgrams v /\ flow v' = flow v ++ map u8 (if fd =? conn then take (Z.to_nat (ret ev.2)) d else [])
  | _ => v' = v
  end.

Definition viewer_moves (ev : call * answer) (v v' : transit) : Prop :=
  dgrams v' = dgrams v /\
  flow v = match ev.1 with CRecv _ _ => if 0 <? ret ev.2 then out ev.2 else [] | _ => [] end ++ flow v'.

Lemma transit_eq v v' : dgrams v' = dgrams v -> flow v' = flow v -> v' = v.
Proof. destruct v, v'. cbn. by intros -> ->. Qed.
Lemma app_inert : inert_still app_moves.
Proof.
  intros [c a] v v' Hc [Hf Hd]. apply transit_eq; [|done]. destruct c; try done; by rewrite app_nil_r in Hd.
Qed.
Lemma daemon_inert conn : inert_still (daemon_moves conn).
Proof. intros [c a] v v' Hc H. by destruct c. Qed.
Lemma viewer_inert : inert_still viewer_moves.
Proof. intros [c a] v v' Hc [Hd Hf]. apply transit_eq; [done|]. by destruct c. Qed.

(** The same for a whole piece of a trace. *)
Lemma app_steps t v v' :
  steps (within sending app_moves) t v v' -> flow v' = flow v /\ dgrams v' = dgrams v ++ delivered t.
Proof.
  induction 1 as [v|[c a] t v v1 v2 [Hc [Hf Hd]] _ [IH1 IH2]]; [by rewrite app_nil_r|].
  split; [congruence|]. rewrite IH2, Hd, <- (assoc_L (++)). f_equal. unfold delivered. rewrite sends_cons.
  destruct c; cbn in *; try done. by destruct (0 <=? ret a).
Qed.

Lemma recv_steps conn t v v' :
  steps (within receives_entry (daemon_moves conn)) t v v' -> Forall (fun d => len d = sizeof_logEntry) (dgrams v) ->
  flow v' = flow v /\ dgrams v = datagrams t ++ dgrams v'.
Proof.
  induction 1 as [v|[c a] t v v1 v2 [Hc H] _ IH]; intros Hv; [done|]. unfold daemon_moves in H.
  assert (flow v1 = flow v /\ dgrams v = datagrams [(c, a)] ++ dgrams v1) as [Hf1 Hd1].
  { destruct c; cbn in Hc, H; try done; try (subst v1; done). destruct H as [Hf H]. split; [done|].
    rewrite Hc in H. unfold datagrams. cbn. destruct (ret a <? 0) eqn:Hr; reflectZ; [by ztest|].
    destruct H as (d & Hd & Ho & Hra). rewrite Hd in Hv |- *. apply Forall_cons_1 in Hv as [Hl _]. cbn beta in Hl.
    rewrite take_ge in Ho by lia. rewrite Ho in *. change sizeof_logEntry with 384 in Hl. by ztest. }
  destruct IH as [Hf2 Hd2]; [rewrite Hd1 in Hv; by apply Forall_app in Hv as [_ ?]|].
  change ((c, a) :: t) with ([(c, a)] ++ t). rewrite datagrams_app, <- (assoc_L (++)), <- Hd2. split; [congruence|done].
Qed.

Lemma relay_steps conn t v v' :
  steps (within sending (daemon_moves conn)) t v v' -> dgrams v' = dgrams v /\ flow v' = flow v ++ map u8 (sent_on conn t).
Proof.
  induction 1 as [v|[c a] t v v1 v2 [Hc H] _ [IH1 IH2]]; [by rewrite app_nil_r|].
  change ((c, a) :: t) with ([(c, a)] ++ t). rewrite sent_on_app, map_app, (assoc_L (++)), IH1, IH2. unfold daemon_moves in H.
  unfold sent_on at 2. cbn. rewrite app_nil_r. destruct c; cbn in Hc, H; try done; try (subst v1; by rewrite app_nil_r).
  by destruct H as [-> ->].
Qed.

Lemma viewer_steps t v v' :
  steps (within receives viewer_moves) t v v' -> dgrams v' = dgrams v /\ flow v = stream t ++ flow v'.
Proof.
  induction 1 as [v|[c a] t v v1 v2 [Hc [Hd Hf]] _ [IH1 IH2]]; [done|].
  change ((c, a) :: t) with ([(c, a)] ++ t). rewrite stream_app, <- (assoc_L (++)), <- IH2. split; [congruence|].
  rewrite Hf. unfold stream. cbn. rewrite app_nil_r. by destruct c.
Qed.

(** ** The application *)

(** A message given to the logging library. *)
Record message := MkMessage {
  ms_level : Z; ms_tag : list Z; ms_file : list Z; ms_line : Z; ms_fmt : list Z
}.
Definition message_ok (m : message) : Prop :=
  is_u32 (ms_level m) /\ is_u32 (ms_line m) /\ c_chars (ms_tag m) /\ c_chars (ms_file m) /\
  exists s, expand_noargs (ms_fmt m) = Some s /\ c_chars s.
(** The entry of a message: its level, line, tag, file and text, cut to their
    arrays. *)
Definition entry_for (m : message) (en : logEntry_t) : Prop :=
  exists s, expand_noargs (ms_fmt m) = Some s /\ entry_of (ms_level m) (ms_tag m) (ms_file m) (ms_line m) s en.
Definition block_for (m : message) (x : list Z) : Prop :=
  exists en, entry_for m en /\ x = entry_bytes en (replicate 5 0).

Lemma cstr_whole a : has_nul a = false -> cstr a = a.
Proof.
  unfold has_nul. induction a as [|c a IH]; [done|]. cbn [existsb cstr]. intros [H1 H2]%orb_false_iff.
  rewrite Z.eqb_sym in H1. by rewrite H1, IH.
Qed.
Lemma cut_has_nul a s n : cstr a = take n s -> (n < length a)%nat -> has_nul a = true.
Proof.
  intros Hc Hl. destruct (has_nul a) eqn:E; [done|]. apply cstr_whole in E. rewrite E in Hc.
  apply (f_equal length) in Hc. rewrite length_take in Hc. lia.
Qed.
Lemma entry_for_wf m en : entry_for m en -> wf_entry en.
Proof.
  intros (s & _ & [Ht _ _ Htag Hfile Hmsg _ _]). split; [done|..]; destruct Ht as [_ _ _ _ [Hlt _] [Hlf _] _ [Hlm _] _ _];
    unfold SILOG_TAG_MAX_LEN, SILOG_FILE_MAX_LEN, SILOG_MSG_MAX_LEN in *.
  - apply (cut_has_nul _ _ _ Htag). lia.
  - apply (cut_has_nul _ _ _ Hfile). lia.
  - apply (cut_has_nul _ _ _ Hmsg). lia.
Qed.
Lemma block_for_ok m x : block_for m x -> entry_block x.
Proof. intros (en & He & ->). exists en, (replicate 5 0). split; [done|]. split; [by eapply entry_for_wf|done]. Qed.

(** The blocks queued for the messages [ms], in their order; a message is lost only
    if 1024 are waiting. *)
Definition queued (ms : list message) (L : list (list Z)) : Prop :=
  exists ms', sublist ms' ms /\ Forall2 block_for ms' L /\ (len ms <= LOG_ENTRY_QUEUE_CAPACITY -> ms' = ms).

(** The application with the minimum level [lv] after the messages [ms] were let
    through: the blocks [P] have left its queue and [qa] are in it; [t] are its
    calls since [a0]. *)
Record app_link (a0 : logger) (lv : Z) (ms : list message) (P qa : list (list Z)) (t : trace_t) (a : logger) : Prop := {
  al_once : lm_initOnce (lg_mgr a) = true;
  al_success : lm_initSuccess (lg_mgr a) = true;
  al_min : lm_minLevel (lg_mgr a) = lv;
  al_ipc : ipc_ok a;
  al_queue : log_repr (lm_logQueue (lg_mgr a)) qa;
  al_trace : c_trace (lg_ipc a) = c_trace (lg_ipc a0) ++ t;
  al_queued : queued ms (P ++ qa);
  al_sent : sublist (delivered t) P;
  al_lossless : can_send a0 -> all_sent t -> delivered t = P /\ can_send a
}.

Section application.
Context {W : Type} `{!Os W, !Others SilogPrelogManager_t W} (view : W -> transit) (R : call * answer -> transit -> transit -> Prop)
  (HR : refines R app_moves) {HW : Watch view kernel_call R} {HO : WatchOthers (S:=SilogPrelogManager_t) view same_view}.
Implicit Types (e : env logger W).

(** A message is let through if its level is not below the minimum. *)
Definition heard (lv : Z) (m : message) : list message := if ms_level m <? lv then [] else [m].

Definition log_message (m : message) : M logger W unit :=
  silogLog (ms_level m) (ms_tag m) (ms_file m) (ms_line m) (ms_fmt m).

Lemma log_message_spec a0 lv ms P qa t m e :
  app_link a0 lv ms P qa t (mem e) -> message_ok m ->
  wp (log_message m)
    (fun _ e' => view (world e') = view (world e) /\ lg_ipc (mem e') = lg_ipc (mem e) /\
       exists qa', app_link a0 lv (ms ++ heard lv m) P qa' t (mem e')) e.
Proof.
  intros [H1 H2 H3 H4 H5 H6 H7 H8 H9] (Hlv & Hln & Htg & Hfl & s & Hx & Hs).
  pose proof (watch_still view R (inert_refines _ _ HR app_inert) HW) as HS. unfold log_message.
  eapply wp_mono; [eapply wp_tracks; [by apply t_log|by apply (log_spec _ _ _ _ _ s qa)]|].
  intros _ e' [(_ & Hipc & Hmgr & qa' & Hq & Ho) (t' & _ & Hv)]. apply steps_same in Hv. split; [done|]. split; [done|]. exists qa'.
  assert (lm_minLevel (lg_mgr (mem e')) = lm_minLevel (lg_mgr (mem e)) /\ lm_initOnce (lg_mgr (mem e')) = true /\
    lm_initSuccess (lg_mgr (mem e')) = true) as (Hmin & Honce & Hsucc) by (rewrite Hmgr; done).
  split; try done; rewrite ?Hipc; try done; [congruence|by unfold ipc_ok; rewrite Hipc| |].
  - destruct H7 as (ms' & Hsub & Hf & Hc). unfold queued, heard. rewrite H3 in Ho.
    destruct (ms_level m <? lv).
    { subst qa'. rewrite app_nil_r. by exists ms'. }
    destruct Ho as (en & Hen & ->). pose proof (Forall2_length Hf) as Hlen. rewrite length_app in Hlen.
    rewrite length_app. cbn [length]. destruct (len qa <? LOG_ENTRY_QUEUE_CAPACITY) eqn:Hcap; reflectZ.
    + exists (ms' ++ [m]). split; [by apply sublist_app|]. rewrite (assoc_L (++)). split.
      * apply Forall2_app; [done|]. constructor; [|constructor]. exists en. split; [by exists s|done].
      * intros Hl. rewrite Hc; [done|lia].
    + exists ms'. split; [by apply sublist_inserts_r|]. split; [done|]. intros Hl.
      exfalso. specialize (Hc ltac:(lia)). subst ms'. lia.
  - intros Hcs Has. destruct (H9 Hcs Has) as [? [? ?]]. split; [done|]. unfold can_send. by rewrite Hipc.
Qed.

Lemma set_level_spec a0 lv ms P qa t l e :
  app_link a0 lv ms P qa t (mem e) ->
  wp (silogSetLevel l)
    (fun _ e' => view (world e') = view (world e) /\ app_link a0 l ms P qa t (mem e')) e.
Proof. intros []. unfold silogSetLevel. wp_step. split; [done|]. by split. Qed.

Lemma send_step_spec a0 lv ms P qa t e :
  app_link a0 lv ms P qa t (mem e) ->
  wp send_round
    (fun _ e' => exists t', app_link a0 lv ms (P ++ take 1 qa) (drop 1 qa) (t ++ t') (mem e') /\
       steps (within sending R) t' (view (world e)) (view (world e')) /\
       (can_send (mem e) -> all_sent t' -> can_send (mem e'))) e.
Proof.
  intros [H1 H2 H3 H4 H5 H6 H7 H8 H9].
  pose proof (send_round_moves view R (inert_refines _ _ HR app_inert)) as Hmv. destruct qa as [|x qa].
  - eapply wp_mono; [exact (wp_moves view _ lg_ipc _ _ _ Hmv (send_idle_spec _ H5))|].
    intros _ e' [[_ Hm] (t' & Ht & Hv)]. rewrite Hm in *.
    rewrite <- (app_nil_r (c_trace _)) in Ht at 1. apply app_inv_head in Ht. subst t'.
    exists []. rewrite app_nil_r. cbn [take drop]. rewrite app_nil_r. by split.
  - eapply wp_mono; [exact (wp_moves view _ lg_ipc _ _ _ Hmv (send_round_spec x qa _ H4 H5))|].
    intros _ e' [(_ & Hok & Hq & t1 & k & _ & _ & _ & Hdel & Ht1 & Hmgr & Hall) (t' & Ht & Hv)].
    rewrite Ht1 in Ht. apply app_inv_head in Ht. subst t1.
    exists t'. cbn [take drop]. split; [|split; [done|intros Hcs Ha; by apply Hall]].
    assert (lm_minLevel (lg_mgr (mem e')) = lm_minLevel (lg_mgr (mem e)) /\ lm_initOnce (lg_mgr (mem e')) = true /\
      lm_initSuccess (lg_mgr (mem e')) = true) as (Hmin & Honce & Hsucc) by (rewrite Hmgr; done).
    split; try done; [congruence|by rewrite Ht1, H6, (assoc_L (++))|by rewrite <- (assoc_L (++))| |].
    + rewrite delivered_app. by apply sublist_app.
    + intros Hcs [Ha1 Ha2]%all_sent_app. destruct (H9 Hcs Ha1) as [Hp Hcs1]. destruct (Hall Hcs1 Ha2) as [Hp2 ?].
      by rewrite delivered_app, Hp, Hp2.
Qed.
End application.

(** ** The daemon *)

Section the_daemon.
Context {W : Type} `{!Os W, !Others SilogPrelogManager_t W, !Others SilogFileManager W, !Others SilogRemoteManager W}.
Context (view : W -> transit) (conn : Z) (R : call * answer -> transit -> transit -> Prop)
  (Hrf : refines R (daemon_moves conn)) {HW : Watch view kernel_call R}
  {HF : WatchOthers (S:=SilogFileManager) view (quietly R)}
  {HR : WatchOthers (S:=SilogRemoteManager) view (quietly R)}.
Context `{!FileSys W, !FmOthersOk W, !AcceptorsOnly W, !SendLaw W}.
Implicit Types (e : env daemon W).

Lemma entries_only w : Forall entry_block (dgrams (view w)) -> only_entries w.
Proof.
  intros Hd fd a w' Ho Hr. apply (watch_call (class:=kernel_call)), Hrf in Ho; [|done]. cbn in Ho. destruct Ho as [_ Ho].
  assert (ret a <? 0 = false) as Hn by (apply Z.ltb_ge; lia). rewrite Hn in Ho. destruct Ho as (d & Hv & Hout & Hl).
  rewrite Hv in Hd. apply Forall_cons_1 in Hd as [Hd _]. pose proof (entry_block_length _ Hd) as Hlen.
  rewrite take_ge in Hout by lia. rewrite Hl, Hout. done.
Qed.

(** One round of each thread of the daemon. *)
Lemma recv_link lc l e :
  Forall entry_block (dgrams (view (world e))) -> piped l e lc ->
  wp (run_step StRecv lc)
    (fun lc' e' => exists l' ti, piped l' e' lc' /\ piped_to l e [] l' e' /\
       c_trace (dm_ipc (mem e')) = c_trace (dm_ipc (mem e)) ++ ti /\ dm_remote (mem e') = dm_remote (mem e) /\
       c_mem (dm_ipc (mem e')) = c_mem (dm_ipc (mem e)) /\ asked (mem e) ti /\
       steps (within receives_entry R) ti (view (world e)) (view (world e'))) e.
Proof.
  intros Hd Hp. pose proof (inert_refines _ _ Hrf (daemon_inert conn)) as Hin.
  eapply wp_mono; [apply (wp_moves view (within receives_entry R) dm_ipc);
    [|apply (recv_step_spec lc l); [by apply entries_only|done]]|].
  - cbn [run_step]. apply in_bind; [by apply recv_round_moves|]. intros b. apply in_ret.
  - intros lc' e' [(l' & Hp' & Hto & Hm & Ha & Hrm) (ti & Hti & Hv)]. exists l', ti.
    unfold recv_news in Ha. rewrite Hti, drop_app_length in Ha. done.
Qed.
Lemma write_link lc l e :
  piped l e lc ->
  wp (run_step StWrite lc)
    (fun lc' e' => piped (drop 1 l) e' lc' /\ piped_to l e (take 1 l) (drop 1 l) e' /\
       dm_ipc (mem e') = dm_ipc (mem e) /\ exists tr, c_trace (dm_remote (mem e')) = c_trace (dm_remote (mem e)) ++ tr /\
       steps (within sending R) tr (view (world e)) (view (world e'))) e.
Proof.
  intros Hp. pose proof (inert_refines _ _ Hrf (daemon_inert conn)) as Hin.
  eapply wp_mono; [apply (wp_moves view (within sending R) dm_remote); [|by apply (write_step_spec lc l)]|].
  - cbn [run_step]. apply in_bind; [by apply write_round_moves|]. intros b. apply in_ret.
  - by intros lc' e' [(Hp' & Hto & Hipc) ?].
Qed.
Lemma accept_link lc l e :
  piped l e lc ->
  wp (run_step StAccept lc)
    (fun lc' e' => piped l e' lc' /\ piped_to l e [] l e' /\
       dm_ipc (mem e') = dm_ipc (mem e) /\ exists tr, c_trace (dm_remote (mem e')) = c_trace (dm_remote (mem e)) ++ tr /\
       steps (quietly R) tr (view (world e)) (view (world e'))) e.
Proof.
  intros Hp. pose proof (inert_refines _ _ Hrf (daemon_inert conn)) as Hin.
  eapply wp_mono; [apply (wp_moves view (quietly R) dm_remote); [|by apply (accept_step_spec lc l)]|].
  - cbn [run_step]. apply in_bind; [by apply remote_round_moves|]. intros b. apply in_ret.
  - by intros lc' e' [(Hp' & Hto & Hipc) ?].
Qed.

Definition daemon_round_post l e (lc' : locals) e' : Prop :=
  exists ens l' ti tr, piped (W:=W) l' e' lc' /\ piped_to l e ens l' e' /\
    c_trace (dm_ipc (mem e')) = c_trace (dm_ipc (mem e)) ++ ti /\
    c_trace (dm_remote (mem e')) = c_trace (dm_remote (mem e)) ++ tr /\
    dgrams (view (world e)) = datagrams ti ++ dgrams (view (world e')) /\
    flow (view (world e')) = flow (view (world e)) ++ map u8 (sent_on conn tr).

Lemma daemon_round_spec o lc l e :
  Forall entry_block (dgrams (view (world e))) -> piped l e lc ->
  wp (run_step o lc) (daemon_round_post l e) e.
Proof.
  intros Hd Hp. destruct o.
  - eapply wp_mono; [by apply (recv_link lc l)|]. intros lc' e' (l' & ti & Hp' & Hto & Hti & Hrm & _ & _ & Hv).
    apply (steps_refines _ _ _ _ _ _ Hrf), recv_steps in Hv as [Hf Hdg]; [|eapply Forall_impl; [apply entry_block_length|exact Hd]].
    exists [], l', ti, []. rewrite Hrm, !app_nil_r. done.
  - eapply wp_mono; [by apply (write_link lc l)|]. intros lc' e' (Hp' & Hto & Hipc & tr & Htr & Hv).
    apply (steps_refines _ _ _ _ _ _ Hrf), relay_steps in Hv as [Hdg Hf].
    exists (take 1 l), (drop 1 l), [], tr. rewrite Hipc, app_nil_r. done.
  - eapply wp_mono; [by apply (accept_link lc l)|]. intros lc' e' (Hp' & Hto & Hipc & tr & Htr & Hv).
    apply (steps_refines _ _ _ _ _ _ Hrf), (steps_within _ sending _ _ _ _ inert_sending), relay_steps in Hv as [Hdg Hf].
    exists [], l, [], tr. rewrite Hipc, app_nil_r. done.
Qed.
End the_daemon.

(** ** The viewer *)

(** The viewer after the calls [tc] since [c0]. *)
Record view_link {V : Type} `{!Os V} (c0 : cat) (tc : trace_t) (c : cat) : Prop := {
  vl_ok : cat_ok c;
  vl_viewed : viewed (W:=V) c0 c;
  vl_trace : c_trace (ct_client c) = c_trace (ct_client c0) ++ tc;
  vl_blocks : exists bs p, callbacks tc = map decode_block bs /\ cut (stream tc) bs p /\
    (x_isConnected (c_mem (ct_client c)) = true -> p = pending (c_mem (ct_client c)))
}.

Section the_viewer.
Context {W : Type} `{!Os W, !Others SilogPrelogManager_t W, !RecvLaw W, !LocalTime W} (view : W -> transit)
  (R : call * answer -> transit -> transit -> Prop) (HR : refines R viewer_moves) {HW : Watch view kernel_call R}.
Implicit Types (e : env cat W).

(** A round of the viewer's main loop while its connection lasts; reconnections are
    not followed. *)
Definition view_round : M cat W unit :=
  s ← get;
  if x_isConnected (c_mem (ct_client s)) then _ ← cat_round true; mret tt else mret tt.

Lemma cat_round_connected (Q : bool -> env cat W -> Prop) e b :
  cat_ok (mem e) -> x_isConnected (c_mem (ct_client (mem e))) = true ->
  wp receive_print (fun _ => Q b) e -> wp (cat_round b) Q e.
Proof.
  intros (_ & _ & Hi) Hc H. unfold cat_round. wp_step. exists true, e. split.
  { destruct e as [[cf pl [x tc] tm] w t h]. cbn in Hc, Hi. unfold zoom, SilogRemoteClientIsConnected, mbind, M_bind, get. cbn.
    by rewrite Hi, Hc, drop_all, app_nil_r. }
  wp_step. eapply wp_mono; [exact H|]. intros r e' HQ. by wp_step.
Qed.

Lemma view_round_spec c0 tc e :
  view_link (V:=W) c0 tc (mem e) ->
  wp view_round
    (fun _ e' => exists t, view_link (V:=W) c0 (tc ++ t) (mem e') /\
       steps (within receives R) t (view (world e)) (view (world e'))) e.
Proof.
  intros [H1 H2 H3 (bs & p & Hcb & Hcut & Hpe)]. unfold view_round. wp_step. wp_step.
  destruct (x_isConnected (c_mem (ct_client (mem e)))) eqn:Hc; cycle 1.
  { wp_step. exists []. rewrite app_nil_r. split; [|constructor]. split; try done. exists bs, p.
    split; [done|]. split; [done|]. by rewrite Hc. }
  wp_step. apply cat_round_connected; [done..|].
  eapply wp_mono; [exact (wp_moves view _ ct_client _ _ _ (receive_print_moves view R (inert_refines _ _ HR viewer_inert))
    (receive_print_full e H1 Hc))|].
  intros r e' [(Hok & Hvd & t & Ht & Hrec) (t' & Ht' & Hv)]. rewrite Ht in Ht'. apply app_inv_head in Ht'. subst t'.
  wp_step. exists t. split; [|done]. rewrite (Hpe eq_refl) in Hcut.
  split; [done|by eapply viewed_trans|by rewrite Ht, H3, (assoc_L (++))|]. rewrite callbacks_app, stream_app, Hcb.
  destruct (x_isConnected (c_mem (ct_client (mem e')))).
  - destruct Hrec as (bs2 & -> & _ & Hcut2). exists (bs ++ bs2), (pending (c_mem (ct_client (mem e')))).
    rewrite map_app. split; [done|]. split; [by eapply cut_app|done].
  - destruct Hrec as [-> ->]. rewrite !app_nil_r. by exists bs, (pending (c_mem (ct_client (mem e)))).
Qed.
End the_viewer.

(** ** The processes together *)

(** The kernel as each process meets it. *)
Record kernels (W : Type) := MkKernels { k_app : Os W; k_daemon : Os W; k_viewer : Os W }.
Arguments k_app {W}.
Arguments k_daemon {W}.
Arguments k_viewer {W}.

(** One kernel carries the data between the processes; what the other threads of
    the processes do moves none of it. The rest are the laws that the components
    rely on. *)
Class Network {W : Type} `{!Others SilogPrelogManager_t W, !Others SilogFileManager W, !Others SilogRemoteManager W}
    (K : kernels W) (view : W -> transit) (conn : Z) : Prop := {
  net_app : Watch (Os0:=k_app K) view kernel_call app_moves;
  net_prelog : WatchOthers (S:=SilogPrelogManager_t) view same_view;
  net_daemon : Watch (Os0:=k_daemon K) view kernel_call (daemon_moves conn);
  net_fm : WatchOthers (S:=SilogFileManager) view (quietly (daemon_moves conn));
  net_remote : WatchOthers (S:=SilogRemoteManager) view (quietly (daemon_moves conn));
  net_viewer : Watch (Os0:=k_viewer K) view kernel_call viewer_moves;
  net_files : FileSys W (Os0:=k_daemon K);
  net_fm_ok : FmOthersOk W;
  net_acceptors : AcceptorsOnly W;
  net_send : SendLaw W (Os0:=k_daemon K);
  net_recv : RecvLaw W (Os0:=k_viewer K);
  net_time : LocalTime W (Os0:=k_viewer K)
}.

(** The variables of the processes, those of the rounds of the daemon's threads,
    and the kernel. *)
Record system (W : Type) := MkSystem {
  sy_app : logger; sy_daemon : daemon; sy_locals : locals; sy_viewer : cat; sy_world : W
}.
Arguments MkSystem {W}.
Arguments sy_app {W}.
Arguments sy_daemon {W}.
Arguments sy_locals {W}.
Arguments sy_viewer {W}.
Arguments sy_world {W}.

(** The application logs a message or sets its minimum level, its sending thread
    makes a round, a thread of the daemon makes a round, the viewer makes a round. *)
Inductive sys_op := SysLog (m : message) | SysLevel (lv : Z) | SysSend | SysDaemon (o : daemon_step) | SysView.
Definition op_ok (o : sys_op) : Prop := match o with SysLog m => message_ok m | _ => True end.

(** The minimum level after a step, and the messages it let through. *)
Definition level_after (lv : Z) (o : sys_op) : Z := match o with SysLevel l => l | _ => lv end.
Definition heard_in (lv : Z) (o : sys_op) : list message := match o with SysLog m => heard lv m | _ => [] end.
(** The messages logged at a sufficient level by a schedule that starts with the
    minimum level [lv]. *)
Fixpoint loud (lv : Z) (ops : list sys_op) : list message :=
  match ops with
  | [] => []
  | o :: ops => heard_in lv o ++ loud (level_after lv o) ops
  end.

(** The variables and the kernel after a program. *)
Definition run {S W A} (m : M S W A) (s : S) (w : W) : option (A * S * W) :=
  match m (Env s w [] false) with Some (a, e) => Some (a, mem e, world e) | None => None end.

Lemma run_wp {S W A} (m : M S W A) Q s w :
  wp m Q (Env s w [] false) -> exists a s' w', run m s w = Some (a, s', w') /\ exists t h, Q a (Env s' w' t h).
Proof.
  intros (a & [s' w' t h] & Hm & HQ). exists a, s', w'. unfold run. rewrite Hm. split; [done|]. by exists t, h.
Qed.

Lemma sublist_Forall {A} (P : A -> Prop) l k : sublist l k -> Forall P k -> Forall P l.
Proof. induction 1; intros Hp; [constructor|apply Forall_cons_1 in Hp as [? ?]..]; eauto. Qed.
Lemma sublist_Forall2 {A B} (R : A -> B -> Prop) k l :
  sublist k l -> forall ms, Forall2 R ms l -> exists ms', sublist ms' ms /\ Forall2 R ms' k.
Proof.
  induction 1 as [|x k l _ IH|x k l _ IH]; intros ms Hf.
  - exists []. split; [apply sublist_nil_l|constructor].
  - inversion Hf as [|m ? ms1 ? Hx Hf1]; subst. destruct (IH _ Hf1) as (ms' & ? & ?). exists (m :: ms').
    split; [by apply sublist_skip|by constructor].
  - inversion Hf as [|m ? ms1 ? Hx Hf1]; subst. destruct (IH _ Hf1) as (ms' & ? & ?). exists ms'.
    split; [by apply sublist_cons|done].
Qed.

(** A queue that holds nothing holds nothing else. *)
Lemma repr_unique es cap q l : mpsc_repr es cap q l -> mpsc_repr es cap q [] -> l = [].
Proof.
  intros Hl Hn. destruct l as [|x l]; [done|]. pose proof (fifo_pop_empty (Fifo:=mpsc_fifo es cap) _ Hn) as H1.
  destruct (fifo_pop_ok (Fifo:=mpsc_fifo es cap) _ _ _ Hl) as (q' & H2 & _). congruence.
Qed.

Section system.
Context {W : Type} `{!Others SilogPrelogManager_t W, !Others SilogFileManager W, !Others SilogRemoteManager W}.
Context (K : kernels W) (view : W -> transit) (conn : Z) {HN : Network K view conn}.
Implicit Types (s : system W).

Definition sys_step (o : sys_op) (s : system W) : option (system W) :=
  match o with
  | SysLog m =>
      r ← run (log_message (Os0:=k_app K) m) (sy_app s) (sy_world s);
      Some (MkSystem r.1.2 (sy_daemon s) (sy_locals s) (sy_viewer s) r.2)
  | SysLevel lv =>
      r ← run (silogSetLevel lv) (sy_app s) (sy_world s);
      Some (MkSystem r.1.2 (sy_daemon s) (sy_locals s) (sy_viewer s) r.2)
  | SysSend =>
      r ← run (send_round (Os0:=k_app K)) (sy_app s) (sy_world s);
      Some (MkSystem r.1.2 (sy_daemon s) (sy_locals s) (sy_viewer s) r.2)
  | SysDaemon o =>
      r ← run (run_step (Os0:=k_daemon K) o (sy_locals s)) (sy_daemon s) (sy_world s);
      Some (MkSystem (sy_app s) r.1.2 r.1.1 (sy_viewer s) r.2)
  | SysView =>
      r ← run (view_round (Os0:=k_viewer K)) (sy_viewer s) (sy_world s);
      Some (MkSystem (sy_app s) (sy_daemon s) (sy_locals s) r.1.2 r.2)
  end.
Fixpoint sys_run (ops : list sys_op) (s : system W) : option (system W) :=
  match ops with
  | [] => Some s
  | o :: ops => s ← sys_step o s; sys_run ops s
  end.

Definition denv (s : system W) : env daemon W := Env (sy_daemon s) (sy_world s) [] false.

(** The processes after [ms] were let through, connected by what the kernel carries:
    what the daemon has received followed by what is under way was sent by the
    application, and what the viewer has received followed by what is under way was
    put on its connection by the daemon. *)
Record linked (s0 : system W) (lv : Z) (ms : list message) (P qa : list (list Z)) (ta : trace_t) (Hd qd : list (list Z))
    (ti tr tc : trace_t) (s : system W) : Prop := {
  ln_app : app_link (sy_app s0) lv ms P qa ta (sy_app s);
  ln_piped : piped qd (denv s) (sy_locals s);
  ln_daemon : piped_to [] (denv s0) Hd qd (denv s);
  ln_ipc : c_trace (dm_ipc (sy_daemon s)) = c_trace (dm_ipc (sy_daemon s0)) ++ ti;
  ln_remote : c_trace (dm_remote (sy_daemon s)) = c_trace (dm_remote (sy_daemon s0)) ++ tr;
  ln_viewer : view_link (Os0:=k_viewer K) (sy_viewer s0) tc (sy_viewer s);
  ln_dgrams : datagrams ti ++ dgrams (view (sy_world s)) = delivered ta;
  ln_flow : stream tc ++ flow (view (sy_world s)) = map u8 (sent_on conn tr)
}.
Definition some_linked (s0 : system W) (lv : Z) (ms : list message) (s : system W) : Prop :=
  exists P qa ta Hd qd ti tr tc, linked s0 lv ms P qa ta Hd qd ti tr tc s.

Lemma linked_entries s0 lv ms P qa ta Hd qd ti tr tc s :
  linked s0 lv ms P qa ta Hd qd ti tr tc s -> Forall entry_block (dgrams (view (sy_world s))).
Proof.
  intros Hl. destruct (al_queued _ _ _ _ _ _ _ (ln_app _ _ _ _ _ _ _ _ _ _ _ _ Hl)) as (ms' & _ & Hf & _).
  assert (Forall entry_block (P ++ qa)) as Hb.
  { clear -Hf. induction Hf as [|m x ms' L Hx _ IH]; constructor; [by eapply block_for_ok|done]. }
  apply Forall_app in Hb as [Hb _]. pose proof (al_sent _ _ _ _ _ _ _ (ln_app _ _ _ _ _ _ _ _ _ _ _ _ Hl)) as Hs.
  apply (sublist_Forall _ _ _ Hs) in Hb. rewrite <- (ln_dgrams _ _ _ _ _ _ _ _ _ _ _ _ Hl) in Hb.
  by apply Forall_app in Hb as [_ ?].
Qed.

Lemma sys_step_spec s0 lv ms o s :
  some_linked s0 lv ms s -> op_ok o ->
  exists s', sys_step o s = Some s' /\ some_linked s0 (level_after lv o) (ms ++ heard_in lv o) s'.
Proof.
  intros (P & qa & ta & Hd & qd & ti & tr & tc & Hl) Ho. pose proof (linked_entries _ _ _ _ _ _ _ _ _ _ _ _ Hl) as Hent.
  destruct Hl as [H1 H2 H3 H4 H5 H6 H7 H8]. destruct o as [m|l| |o|]; cbn [sys_step level_after heard_in]; rewrite ?app_nil_r.
  - pose proof net_app. pose proof net_prelog.
    destruct (run_wp _ _ _ _ (log_message_spec (Os0:=k_app K) view app_moves (refines_refl _) (sy_app s0) lv ms P qa ta m
      (Env (sy_app s) (sy_world s) [] false) H1 Ho)) as (? & a & w & -> & ? & ? & Hv & _ & qa' & Ha). cbn in Hv, Ha.
    eexists. split; [reflexivity|]. exists P, qa', ta, Hd, qd, ti, tr, tc. split; try done; cbn; by rewrite Hv.
  - destruct (run_wp _ _ _ _ (set_level_spec view (sy_app s0) lv ms P qa ta l (Env (sy_app s) (sy_world s) [] false) H1))
      as (? & a & w & -> & ? & ? & Hv & Ha). cbn in Hv, Ha.
    eexists. split; [reflexivity|]. exists P, qa, ta, Hd, qd, ti, tr, tc. split; try done; cbn; by rewrite Hv.
  - pose proof net_app.
    destruct (run_wp _ _ _ _ (send_step_spec (Os0:=k_app K) view app_moves (refines_refl _) (sy_app s0) lv ms P qa ta
      (Env (sy_app s) (sy_world s) [] false) H1)) as (? & a & w & -> & ? & ? & t' & Ha & Hv & _). cbn in Ha, Hv.
      apply app_steps in Hv as [Hf Hdg].
    eexists. split; [reflexivity|]. exists (P ++ take 1 qa), (drop 1 qa), (ta ++ t'), Hd, qd, ti, tr, tc. split; try done; cbn.
    + by rewrite Hdg, (assoc_L (++)), H7, delivered_app.
    + by rewrite Hf.
  - pose proof net_daemon. pose proof net_fm. pose proof net_remote. pose proof net_files. pose proof net_fm_ok.
    pose proof net_acceptors. pose proof net_send.
    destruct (run_wp _ _ _ _ (daemon_round_spec (Os0:=k_daemon K) view conn _ (refines_refl _) o (sy_locals s) qd (denv s) Hent H2))
      as (lc & d & w & -> & t & h & ens & l' & ti' & tr' & Hp & Hto & Hti & Htr & Hdg & Hf). cbn in Hti, Htr, Hdg, Hf.
    pose proof Hp as [Hh _]. cbn in Hh. subst h.
    eexists. split; [reflexivity|]. exists P, qa, ta, (Hd ++ ens), l', (ti ++ ti'), (tr ++ tr'), tc. split; try done; cbn.
    + exact (piped_to_trans _ _ _ _ _ _ _ _ H3 Hto).
    + by rewrite Hti, H4, (assoc_L (++)).
    + by rewrite Htr, H5, (assoc_L (++)).
    + by rewrite datagrams_app, <- (assoc_L (++)), <- Hdg.
    + by rewrite Hf, (assoc_L (++)), H8, sent_on_app, map_app.
  - pose proof net_viewer. pose proof net_recv. pose proof net_time.
    destruct (run_wp _ _ _ _ (view_round_spec (Os0:=k_viewer K) view viewer_moves (refines_refl _) (sy_viewer s0) tc
      (Env (sy_viewer s) (sy_world s) [] false) H6)) as (? & c & w & -> & ? & ? & t & Hv & Hst). cbn in Hv, Hst.
      apply viewer_steps in Hst as [Hdg Hf].
    eexists. split; [reflexivity|]. exists P, qa, ta, Hd, qd, ti, tr, (tc ++ t). split; try done; cbn.
    + by rewrite Hdg.
    + by rewrite stream_app, <- (assoc_L (++)), <- Hf.
Qed.

Lemma sys_run_spec s0 lv ms ops s :
  some_linked s0 lv ms s -> Forall op_ok ops ->
  exists s' lv', sys_run ops s = Some s' /\ some_linked s0 lv' (ms ++ loud lv ops) s'.
Proof.
  intros Hl Hops. revert lv ms s Hl. induction Hops as [|o ops Ho _ IH]; intros lv ms s Hl; cbn [sys_run loud].
  { exists s, lv. by rewrite app_nil_r. }
  destruct (sys_step_spec _ _ _ _ _ Hl Ho) as (s1 & -> & Hl1). rewrite (assoc_L (++)). by apply IH.
Qed.

(** ** What the system does *)

(** The processes have started, their queues are empty, the viewer is connected
    through the slot [slot] of the daemon, and nothing is under way. *)
Record ready (slot : Z) (s : system W) : Prop := {
  rd_once : lm_initOnce (lg_mgr (sy_app s)) = true;
  rd_success : lm_initSuccess (lg_mgr (sy_app s)) = true;
  rd_ipc : ipc_ok (sy_app s);
  rd_queue : log_repr (lm_logQueue (lg_mgr (sy_app s))) [];
  rd_daemon : piped [] (denv s) (sy_locals s);
  rd_slot : 0 <= slot;
  rd_conn : conn_at conn slot (c_mem (dm_remote (sy_daemon s)));
  rd_viewer : cat_ok (sy_viewer s);
  rd_connected : x_isConnected (c_mem (ct_client (sy_viewer s))) = true;
  rd_fresh : x_recvOffset (c_mem (ct_client (sy_viewer s))) = 0;
  rd_view : view (sy_world s) = MkTransit [] []
}.

(** The minimum level of the application. *)
Definition min_level (s : system W) : Z := lm_minLevel (lg_mgr (sy_app s)).

Lemma ready_linked slot s : ready slot s -> linked s (min_level s) [] [] [] [] [] [] [] [] [] s.
Proof.
  intros []. split; rewrite ?app_nil_r, ?rd_view0; try done.
  - split; rewrite ?app_nil_r; try done. by exists [].
  - by apply piped_to_refl.
  - split; rewrite ?app_nil_r; try done; [apply viewed_refl|]. exists [], []. split; [done|]. split; [done|].
    intros _. unfold pending. by rewrite rd_fresh0.
Qed.

Lemma ready_some_linked slot s : ready slot s -> some_linked s (min_level s) [] s.
Proof. intros Hr. exists [], [], [], [], [], [], [], []. by eapply ready_linked. Qed.

(** From [s] to [s'] the daemon has handled the entries [ens]. *)
Definition daemon_served (s : system W) (ens : list logEntry_t) (s' : system W) : Prop :=
  served true (dm_fm (sy_daemon s)) (dm_remote (sy_daemon s)) ens (dm_fm (sy_daemon s')) (dm_remote (sy_daemon s')).
(** The calls made from [s] to [s']: by the transport of the application, by the
    remote service, and by the client of the viewer. *)
Definition app_calls (s s' : system W) (t : trace_t) : Prop :=
  c_trace (lg_ipc (sy_app s')) = c_trace (lg_ipc (sy_app s)) ++ t.
Definition remote_calls (s s' : system W) (t : trace_t) : Prop :=
  c_trace (dm_remote (sy_daemon s')) = c_trace (dm_remote (sy_daemon s)) ++ t.
Definition viewer_calls (s s' : system W) (t : trace_t) : Prop :=
  c_trace (ct_client (sy_viewer s')) = c_trace (ct_client (sy_viewer s)) ++ t.

Lemma block_for_entry m x : block_for m x -> entry_for m (bytes_entry x).
Proof.
  intros (en & He & ->). pose proof (entry_for_wf _ _ He) as [Ht _ _ _]. by rewrite bytes_entry_bytes.
Qed.
Lemma Forall2_fmap_entry ms L : Forall2 block_for ms L -> Forall2 entry_for ms (map bytes_entry L).
Proof. induction 1 as [|m x ms L Hx _ IH]; cbn [map]; constructor; [by apply block_for_entry|done]. Qed.
Lemma entries_typed ms ens : Forall2 entry_for ms ens -> Forall entry_typed ens.
Proof. induction 1 as [|m en ms ens He _ IH]; constructor; [by apply (entry_for_wf m)|done]. Qed.

(** The entries handled by the daemon come from the blocks that the application
    has sent. *)
Lemma linked_handled s0 lv ms P qa ta Hd qd ti tr tc s :
  linked s0 lv ms P qa ta Hd qd ti tr tc s -> sublist Hd (P ++ qa).
Proof.
  intros [H1 _ (ti' & acc & Ht & Hsub & _ & He & _) H4 _ _ H7 _]. cbn in Ht, He. rewrite H4 in Ht. apply app_inv_head in Ht.
  subst ti'. etransitivity; [|apply sublist_inserts_r; reflexivity]. etransitivity; [|apply (al_sent _ _ _ _ _ _ _ H1)].
  rewrite <- H7. etransitivity; [|apply sublist_inserts_r; reflexivity]. etransitivity; [|exact Hsub]. rewrite He.
  by apply sublist_inserts_r.
Qed.

Lemma linked_typed s0 lv ms P qa ta Hd qd ti tr tc s :
  linked s0 lv ms P qa ta Hd qd ti tr tc s ->
  exists ms', sublist ms' ms /\ Forall2 entry_for ms' (map bytes_entry Hd) /\
    Forall entry_typed (map bytes_entry Hd).
Proof.
  intros Hl. destruct (al_queued _ _ _ _ _ _ _ (ln_app _ _ _ _ _ _ _ _ _ _ _ _ Hl)) as (ms1 & Hms1 & Hf1 & _).
  destruct (sublist_Forall2 _ _ _ (linked_handled _ _ _ _ _ _ _ _ _ _ _ _ Hl) _ Hf1) as (ms2 & Hms2 & Hf2).
  apply Forall2_fmap_entry in Hf2. exists ms2. split; [by etransitivity|]. split; [done|by eapply entries_typed].
Qed.

Lemma linked_served slot s0 lv ms P qa ta Hd qd ti tr tc s :
  linked s0 lv ms P qa ta Hd qd ti tr tc s -> ready slot s0 ->
  daemon_served s0 (map bytes_entry Hd) s /\
  (steady conn tr -> exists V, sublist V (map bytes_entry Hd) /\ map u8 (sent_on conn tr) = concat (map wire V) /\
    (all_taken conn tr -> V = map bytes_entry Hd)).
Proof.
  intros Hl. destruct (linked_typed _ _ _ _ _ _ _ _ _ _ _ _ Hl) as (_ & _ & _ & Hty). revert Hl.
  intros [_ _ H3 _ H5 _ _ _] [_ _ _ _ Hp Hslot Hcn _ _ _ _]. destruct H3 as (_ & _ & _ & _ & _ & _ & _ & Hsv).
  destruct Hp as (_ & Hi & _). pose proof net_acceptors. pose proof (di_remote _ Hi) as Hok. cbn in Hsv, Hok.
  pose proof (di_enabled _ Hi) as Hen. cbn in Hen. rewrite (conn_init _ _ _ Hcn (proj1 Hok)) in Hen. rewrite Hen in Hsv.
  split; [exact Hsv|]. intros Hsd. destruct (served_conn conn slot Hslot _ _ _ _ _ Hsv Hok) as (tr' & Htr & Hc).
  rewrite H5 in Htr. apply app_inv_head in Htr. subst tr'.
  destruct (Hc Hsd Hcn) as (_ & V & HV & -> & ?). exists V. split; [done|]. split; [|done].
  by apply wires_bytes, (sublist_Forall _ _ _ HV).
Qed.

(** If nothing was refused and nothing is waiting any more, everything has arrived. *)
Lemma linked_lossless slot s0 lv ms P ta Hd ti tr tc s :
  linked s0 lv ms P [] ta Hd [] ti tr tc s -> ready slot s0 -> view (sy_world s) = MkTransit [] [] ->
  can_send (sy_app s0) -> len ms <= LOG_ENTRY_QUEUE_CAPACITY -> all_sent ta -> steady conn tr -> all_taken conn tr ->
  exists ens, Forall2 entry_for ms ens /\ daemon_served s0 ens s /\ callbacks tc = map received ens.
Proof.
  intros Hl Hr Hv Hcs Hlen Has Hsd Hat.
  destruct (linked_served _ _ _ _ _ _ _ _ _ _ _ _ _ Hl Hr) as [Hsv Hconn].
  destruct Hl as [H1 _ H3 H4 _ [_ _ _ (bs & p & Hcb & Hcut & _)] H7 H8].
  rewrite Hv in H7, H8. cbn [dgrams flow] in H7, H8. rewrite app_nil_r in H7, H8.
  destruct (al_lossless _ _ _ _ _ _ _ H1 Hcs Has) as [HP _]. destruct (al_queued _ _ _ _ _ _ _ H1) as (ms1 & _ & Hf & Hms).
  rewrite app_nil_r in Hf. specialize (Hms Hlen). subst ms1. pose proof (Forall2_length Hf) as Hfl.
  destruct H3 as (ti' & acc & Ht & _ & Hacc & He & _). cbn in Ht, He. rewrite H4 in Ht. apply app_inv_head in Ht. subst ti'.
  rewrite app_nil_r in He. rewrite H7, HP in Hacc. cbn [length] in Hacc.
  assert (Hd = P) as -> by (rewrite <- He; apply Hacc; unfold LOG_ENTRY_QUEUE_CAPACITY, DAEMON_LOG_QUEUE_CAPACITY in *; lia).
  apply Forall2_fmap_entry in Hf. exists (map bytes_entry P). split; [done|]. split; [done|].
  destruct (Hconn Hsd) as (V & _ & Hs & HV). rewrite (HV Hat) in Hs. pose proof (entries_typed _ _ Hf) as Hty.
  destruct Hcut as (Hst & Hbs & Hp). rewrite H8, Hs in Hst.
  pose proof (wires_length _ Hty) as Hw. rewrite Hst, length_app, Nat2Z.inj_add, blocks_length, length_map in Hw by done.
  change SILOG_REMOTE_ENTRY_SIZE with 377 in Hw, Hp.
  assert (bs = map wire (take (length bs) (map bytes_entry P))) as Hbw.
  { apply (cut_wires bs p); [done|done|]. by rewrite Hst. }
  rewrite Hcb, Hbw at 1. rewrite decode_wires by (by apply Forall_take). f_equal. apply take_ge. rewrite length_map. lia.
Qed.


End system.
