(* ===== verification/Progress.v ===== *)
(** * Delivery when the kernel cooperates

    The system of System.v on a kernel that refuses no send, delivers what is under
    way and hands no descriptor out twice: a schedule that gives every process
    enough rounds brings every message to the file and to the viewer. *)

From S2P Require Import Prelude Errors LogEntry CObj CMem Mpsc RemoteCodec Os Queues Format Layout.
From S2P Require Import RemoteServer RemoteClient FileManager FileManagerOps Ipc Prelog Logger Daemon Cat Network Connection.
From S2P Require Import System.
#[local] Open Scope Z_scope.

(** ** A kernel that cooperates *)

Definition app_taken (ev : call * answer) (_ _ : transit) : Prop :=
  match ev.1 with CSend _ _ => 0 <= ret ev.2 | _ => True end.
Definition daemon_taken (conn : Z) (ev : call * answer) (v _ : transit) : Prop :=
  match ev.1 with
  | CRecv _ _ => dgrams v <> [] -> 0 <= ret ev.2
  | CSend fd d => fd = conn -> ret ev.2 = len d
  | CSocket | CAccept _ => ret ev.2 <> conn
  | _ => True
  end.
Definition viewer_taken (ev : call * answer) (v _ : transit) : Prop :=
  match ev.1 with
  | CSelect _ _ => 0 <= ret ev.2 /\ (flow v <> [] -> 0 < ret ev.2)
  | CRecv _ n => if decide (flow v = []) then ret ev.2 < 0 /\ errno ev.2 = EAGAIN else 0 < n -> 0 < ret ev.2
  | _ => True
  end.

Class Cooperative {W : Type} `{!Others SilogFileManager W, !Others SilogRemoteManager W} (K : kernels W) (view : W -> transit) (conn : Z) : Prop := {
  coop_app : Watch (Os0:=k_app K) view kernel_call app_taken;
  coop_daemon : Watch (Os0:=k_daemon K) view kernel_call (daemon_taken conn);
  coop_viewer : Watch (Os0:=k_viewer K) view kernel_call viewer_taken;
  coop_fm m (w : W) m' t w' : others (S:=SilogFileManager) m w = (m', t, w') -> steady conn t;
  coop_remote m (w : W) m' t w' : others (S:=SilogRemoteManager) m w = (m', t, w') -> steady conn t
}.

(** What it means for traces. *)
Lemma app_taken_sent t v v' : steps (within sending (both app_moves app_taken)) t v v' -> all_sent t.
Proof.
  induction 1 as [v|[c a] t v v1 v2 [Hc [_ H]] _ IH]; [constructor|]. unfold all_sent in *. rewrite sends_cons.
  destruct (is_send (c, a)) eqn:E; [|done]. constructor; [|done]. by destruct c.
Qed.
Lemma daemon_taken_steady conn t v v' :
  steps (within sending (both (daemon_moves conn) (daemon_taken conn))) t v v' -> steady conn t /\ all_taken conn t.
Proof.
  induction 1 as [v|[c a] t v v1 v2 [Hc [_ H]] _ [IH1 IH2]]; [split; constructor|].
  split; (constructor; [|done]); destruct c; cbn in *; try done. intros ->. left. by apply H.
Qed.
(** Inert calls have the law if they do not hand the descriptor out. *)
Lemma both_quietly conn t v v' :
  steps (quietly (daemon_moves conn)) t v v' -> steady conn t ->
  steps (quietly (both (daemon_moves conn) (daemon_taken conn))) t v v'.
Proof.
  induction 1 as [v|[c a] t v v1 v2 [Hc H] _ IH]; intros Hs; [constructor|]. apply Forall_cons_1 in Hs as [Hc' Hs].
  econstructor; [|by apply IH]. split; [done|]. split; [done|]. by destruct c.
Qed.

(** ** The viewer receives what is under way *)

Section receiving.
Context {W : Type} `{!Os W, !RecvLaw W} (view : W -> transit)
  {HW : Watch view kernel_call (both viewer_moves viewer_taken)}.
Implicit Types (e : env SilogRemoteClientCtx W).

(** The program keeps the client connected. *)
Definition stays {A} (m : M SilogRemoteClientCtx W A) : Prop :=
  forall e a e', m e = Some (a, e') -> x_isConnected (mem e') = x_isConnected (mem e).
Lemma stays_ret {A} (a : A) : stays (mret a).
Proof. by intros e ? ? [= <- <-]. Qed.
Lemma stays_bind {A B} (m : M SilogRemoteClientCtx W A) (f : A -> M SilogRemoteClientCtx W B) :
  stays m -> (forall a, stays (f a)) -> stays (m ≫= f).
Proof.
  intros Hm Hf e b e2. unfold mbind, M_bind. destruct (m e) as [[a e1]|] eqn:E; [|done]. intros E2.
  by rewrite (Hf _ _ _ _ E2), (Hm _ _ _ E).
Qed.
Lemma stays_get : stays get.
Proof. by intros e ? ? [= <- <-]. Qed.
Lemma stays_lift {A} (o : option A) : stays (lift o).
Proof. intros e a e'. unfold lift. destruct o; [|done]. by intros [= <- <-]. Qed.
Lemma stays_undefined {A} : stays (undefined (A:=A)).
Proof. by intros e a e'. Qed.
Lemma stays_sys c : stays (sys c).
Proof. intros e a e'. unfold sys. destruct (os c (world e)). by intros [= <- <-]. Qed.
Lemma stays_modify f : (forall x, x_isConnected (f x) = x_isConnected x) -> stays (modify f).
Proof. intros H e ? ? [= <- <-]. apply H. Qed.

Lemma stays_packets fuel : stays (packet_loop fuel).
Proof.
  induction fuel as [|fuel IH]; cbn [packet_loop]; [apply stays_undefined|].
  apply stays_bind; [apply stays_get|]. intros x. destruct (_ <=? _); [|apply stays_ret].
  apply stays_bind; [apply stays_lift|]. intros [r [en|]];
    (apply stays_bind; [destruct r; repeat (apply stays_bind || apply stays_sys || apply stays_ret || intros ?)|]; intros _);
    (apply stays_bind; [destruct (_ <? _); [|apply stays_ret]; apply stays_bind; [apply stays_lift|]; intros; by apply stays_modify|]);
    intros _; (apply stays_bind; [by apply stays_modify|]); intros _; apply IH.
Qed.

Lemma receive_progress e ms :
  cginv e -> x_isInit (mem e) = true -> x_isConnected (mem e) = true ->
  wp (SilogRemoteClientReceive true ms)
    (fun _ e' => x_isConnected (mem e') = true /\
       (flow (view (world e)) <> [] -> exists t, trace e' = trace e ++ t /\ stream t <> [])) e.
Proof.
  intros Hg Hi Hc. assert (Watch view inert (fun _ _ _ => True)) as HT by (split; [done|apply HW]).
  unfold SilogRemoteClientReceive. wp_step. wp_step. rewrite Hi, Hc. cbn [negb]. cbv zeta.
  set (tv := if 0 <? ms then _ else _). wp_step. wp_step.
  destruct (watch_call (class:=kernel_call) (CSelect (x_socketFd (mem e)) tv) _ _ _ I H) as [[_ Hfs] [Hs0 Hs1]].
  cbn [fst snd app] in Hfs, Hs0, Hs1. wp_step; [lia|]. wp_step.
  { wp_step. split; [done|]. intros Hf. specialize (Hs1 Hf). lia. }
  wp_step. wp_step. set (n := u64 _) in *.
  destruct (watch_call (class:=kernel_call) (CRecv (x_socketFd (mem e)) n) _ _ _ I H0) as [_ Ht]. cbn [viewer_taken fst snd] in Ht.
  destruct Hg as [Hx Hl]. pose proof Hx as (_ & Ho & _). assert (SILOG_REMOTE_ENTRY_SIZE < 2 ^ 64) by done.
  assert (n = SILOG_REMOTE_ENTRY_SIZE - x_recvOffset (mem e)) as Hn by (unfold n; rewrite u64_small by (unfold is_u64; lia); done).
  rewrite Hfs. destruct (decide (flow (view w) = [])) as [He|Hne].
  - rewrite decide_True in Ht by done. destruct Ht as [Hr Her]. wp_step; [|lia]. rewrite Her, Z.eqb_refl. wp_step. split; [done|].
    intros Hf. by destruct Hf.
  - rewrite decide_False in Ht by done. specialize (Ht ltac:(lia)). wp_step; [lia|]. wp_step; [lia|].
    destruct (recv_data _ _ _ _ _ H0 Ht) as (Hr & Hle & Hby).
    set (t' := [(CSelect (x_socketFd (mem e)) tv, a)] ++ [(CRecv (x_socketFd (mem e)) n, a0)]).
    rewrite <- (assoc_L (++)). fold t'.
    assert (stream t' = out a0) as Hst by (unfold t'; cbn; ztest; by rewrite app_nil_r).
    assert (neutral t') as Hnt by (unfold t'; solve_neutral).
    destruct e as [x w1 tr h]. cbn [mem world trace held] in *.
    destruct (receive_data x w1 w0 tr h t' a0 Hx Hi Hc Hl Hnt Hst eq_refl Ht Hr ltac:(lia) Hby) as (r & e' & Hrun & _ & _ & _ & t & Htr & Hpost).
    exists r, e'. split; [exact Hrun|]. cbn [trace] in Htr.
    assert (x_isConnected (mem e') = true) as Hc'.
    { revert Hrun. match goal with |- ?m ?e0 = _ -> _ => assert (stays m) as Hsm; [|intros Hrun; rewrite (Hsm _ _ _ Hrun); exact Hc] end.
      apply stays_bind; [apply stays_lift|]. intros b. apply stays_bind; [by apply stays_modify|]. intros _.
      apply stays_bind; [by apply stays_modify|]. intros _. apply stays_bind; [apply stays_get|]. intros x'.
      apply stays_bind; [apply stays_packets|]. intros _. apply stays_ret. }
    split; [done|]. intros _. exists t. split; [done|].
    assert (exists t2, trace e' = (tr ++ t') ++ t2) as [t2 Ht2].
    { revert Hrun. match goal with |- ?m ?e0 = _ -> _ => assert (tracks view (fun _ _ _ => True) m) as Htr2 by solve_tracks end.
      intros Hrun. destruct (Htr2 _ _ _ Hrun) as (t2 & ? & _). by exists t2. }
    rewrite Ht2, <- (assoc_L (++)) in Htr. apply app_inv_head in Htr. rewrite <- Htr, stream_app, Hst.
    intros [Hz _]%app_eq_nil. rewrite Hz in Hr. cbn in Hr. lia.
Qed.
End receiving.

Section viewing.
Context {W : Type} `{!Os W, !RecvLaw W, !LocalTime W} (view : W -> transit)
  {HW : Watch view kernel_call (both viewer_moves viewer_taken)}.
Implicit Types (e : env cat W).

Lemma view_round_progress c0 tc e :
  view_link (V:=W) c0 tc (mem e) -> x_isConnected (c_mem (ct_client (mem e))) = true ->
  wp view_round
    (fun _ e' => x_isConnected (c_mem (ct_client (mem e'))) = true /\ exists t, view_link (V:=W) c0 (tc ++ t) (mem e') /\
       steps (within receives viewer_moves) t (view (world e)) (view (world e')) /\
       (flow (view (world e)) <> [] -> stream t <> [])) e.
Proof.
  intros Hl Hc. pose proof (vl_ok _ _ _ Hl) as Hok.
  assert (wp view_round (fun _ e' => x_isConnected (c_mem (ct_client (mem e'))) = true /\
    (flow (view (world e)) <> [] -> exists t, c_trace (ct_client (mem e')) = c_trace (ct_client (mem e)) ++ t /\ stream t <> [])) e) as H1.
  { unfold view_round. wp_step. wp_step. rewrite Hc. wp_step. apply cat_round_connected; [done..|]. eapply wp_mono;
      [apply (receive_print_with (fun c => x_isConnected (c_mem c) = true /\ (flow (view (world e)) <> [] ->
        exists t, c_trace c = c_trace (ct_client (mem e)) ++ t /\ stream t <> [])) e); [done|done|]|].
    - destruct Hok as (Hx & Hld & Hi). by apply (receive_progress view (Env _ _ _ _)).
    - intros r e' (_ & _ & _ & ?). by wp_step. }
  eapply wp_mono; [apply wp_and; [exact H1|]|].
  - by apply (view_round_spec view _ (refines_both viewer_moves viewer_taken)).
  - intros [] e' [[Hc' Hp] (t & Hl' & Hv)]. split; [done|]. exists t. split; [done|].
    split; [by apply (steps_refines _ _ _ _ _ _ (refines_both viewer_moves viewer_taken))|].
    intros Hf. destruct (Hp Hf) as (t2 & Ht2 & Hs). pose proof (vl_trace _ _ _ Hl') as Ht. rewrite Ht2, (vl_trace _ _ _ Hl) in Ht.
    rewrite <- (assoc_L (++)) in Ht. apply app_inv_head, app_inv_head in Ht. by subst t2.
Qed.
End viewing.

(** ** Rounds that make progress *)

Section going.
Context {W : Type} `{!Others SilogPrelogManager_t W, !Others SilogFileManager W, !Others SilogRemoteManager W}.
Context (K : kernels W) (view : W -> transit) (conn : Z) {HN : Network K view conn} {HC : Cooperative K view conn}.
Context (slot : Z) (s0 : system W) (Hrd : ready view conn slot s0) (Hcs : can_send (sy_app s0)).
Implicit Types (s : system W).

(** A state of the system in which nothing has been refused, with the blocks [qa]
    in the queue of the application and [qd] in that of the daemon. *)
Definition going (lv : Z) (ms : list message) (qa qd : list (list Z)) s : Prop :=
  0 <= ia_recvFd (c_mem (dm_ipc (sy_daemon s))) /\ x_isConnected (c_mem (ct_client (sy_viewer s))) = true /\
  exists P ta Hd ti tr tc, linked K view conn s0 lv ms P qa ta Hd qd ti tr tc s /\
    all_sent ta /\ steady conn tr /\ all_taken conn tr.

Lemma going_log lv ms qa qd m s :
  going lv ms qa qd s -> message_ok m ->
  exists s' qa', sys_step K (SysLog m) s = Some s' /\ going lv (ms ++ heard lv m) qa' qd s'.
Proof.
  intros (Hfd & Hcn & P & ta & Hd & ti & tr & tc & [H1 H2 H3 H4 H5 H6 H7 H8] & Hs) Hm.
  pose proof net_app. pose proof net_prelog. cbn [sys_step].
  destruct (run_wp _ _ _ _ (log_message_spec (Os0:=k_app K) view app_moves (refines_refl _) (sy_app s0) lv ms P qa ta m
    (Env (sy_app s) (sy_world s) [] false) H1 Hm)) as (? & a & w & -> & ? & ? & Hv & _ & qa' & Ha). cbn in Hv, Ha.
  eexists _, qa'. split; [reflexivity|]. split; [done|]. split; [done|]. exists P, ta, Hd, ti, tr, tc.
  split; [|done]. split; try done; cbn; by rewrite Hv.
Qed.

Lemma going_level lv ms qa qd l s :
  going lv ms qa qd s -> exists s', sys_step K (SysLevel l) s = Some s' /\ going l ms qa qd s'.
Proof.
  intros (Hfd & Hcn & P & ta & Hd & ti & tr & tc & [H1 H2 H3 H4 H5 H6 H7 H8] & Hs). cbn [sys_step].
  destruct (run_wp _ _ _ _ (set_level_spec view (sy_app s0) lv ms P qa ta l (Env (sy_app s) (sy_world s) [] false) H1))
    as (? & a & w & -> & ? & ? & Hv & Ha). cbn in Hv, Ha.
  eexists. split; [reflexivity|]. split; [done|]. split; [done|]. exists P, ta, Hd, ti, tr, tc.
  split; [|done]. split; try done; cbn; by rewrite Hv.
Qed.

Lemma going_send lv ms qa qd s :
  going lv ms qa qd s -> exists s', sys_step K SysSend s = Some s' /\ going lv ms (drop 1 qa) qd s'.
Proof.
  intros (Hfd & Hcn & P & ta & Hd & ti & tr & tc & [H1 H2 H3 H4 H5 H6 H7 H8] & Hs & Hst).
  pose proof (watch_both (Os0:=k_app K) _ _ _ _ net_app coop_app) as HW. cbn [sys_step].
  destruct (run_wp _ _ _ _ (send_step_spec (Os0:=k_app K) view _ (refines_both app_moves app_taken) (sy_app s0) lv ms P qa ta
    (Env (sy_app s) (sy_world s) [] false) H1)) as (? & a & w & -> & ? & ? & t' & Ha & Hv & _). cbn in Ha, Hv.
  pose proof (app_taken_sent _ _ _ Hv) as Hs'. apply (steps_refines _ _ _ _ _ _ (refines_both _ _)), app_steps in Hv as [Hf Hdg].
  eexists. split; [reflexivity|]. split; [done|]. split; [done|].
  exists (P ++ take 1 qa), (ta ++ t'), Hd, ti, tr, tc. split; [|split; [by apply all_sent_app|done]].
  split; try done; cbn.
  - by rewrite Hdg, (assoc_L (++)), H7, delivered_app.
  - by rewrite Hf.
Qed.

(** Nothing waits that was not logged. *)
Lemma linked_bounds lv ms P qa ta Hd qd ti tr tc s :
  linked K view conn s0 lv ms P qa ta Hd qd ti tr tc s ->
  len (P ++ qa) <= len ms /\ len (delivered ta) <= len P /\ len Hd + len qd <= len (datagrams ti).
Proof.
  intros [H1 _ (ti' & acc & Ht & Hsub & _ & He & _) H4 _ _ _ _]. cbn in Ht, He. rewrite H4 in Ht. apply app_inv_head in Ht.
  subst ti'. destruct (al_queued _ _ _ _ _ _ _ H1) as (ms' & Hms & Hf & _). pose proof (Forall2_length Hf) as Hl.
  pose proof (sublist_length _ _ Hms).
  pose proof (sublist_length _ _ (al_sent _ _ _ _ _ _ _ H1)). apply sublist_length in Hsub. rewrite He, length_app in Hsub. lia.
Qed.

Lemma going_bounds lv ms qa qd s :
  going lv ms qa qd s -> len qa <= len ms /\ len (dgrams (view (sy_world s))) + len qd <= len ms.
Proof.
  intros (_ & _ & P & ta & Hd & ti & tr & tc & Hl & _). pose proof (linked_bounds _ _ _ _ _ _ _ _ _ _ _ Hl) as (H1 & H2 & H3).
  pose proof (f_equal length (ln_dgrams _ _ _ _ _ _ _ _ _ _ _ _ _ _ _ Hl)) as H4. rewrite length_app in H1, H4. lia.
Qed.

Lemma recv_takes fd n a v v' :
  steps (within receives_entry (both (daemon_moves conn) (daemon_taken conn))) [(CRecv fd n, a)] v v' ->
  dgrams v' = drop 1 (dgrams v).
Proof.
  intros Hst. inversion Hst as [|? ? ? v1 ? Hev Hs]; subst. inversion Hs; subst. destruct Hev as [_ [Hm Ht]]. cbn in Hm, Ht.
  destruct Hm as [_ Hm].
  destruct (ret a <? 0) eqn:Hr; reflectZ.
  - rewrite Hm. destruct (dgrams v) as [|d ds]; [done|]. specialize (Ht ltac:(done)). lia.
  - by destruct Hm as (d & -> & _).
Qed.

Lemma going_recv lv ms qa qd s :
  going lv ms qa qd s -> len ms <= LOG_ENTRY_QUEUE_CAPACITY ->
  exists s', sys_step K (SysDaemon StRecv) s = Some s' /\
    going lv ms qa (qd ++ take 1 (dgrams (view (sy_world s)))) s' /\
    dgrams (view (sy_world s')) = drop 1 (dgrams (view (sy_world s))).
Proof.
  intros Hg Hlen. pose proof (going_bounds _ _ _ _ _ Hg) as [_ Hb].
  destruct Hg as (Hfd & Hcn & P & ta & Hd & ti & tr & tc & Hl & Hs & Hst & Hat).
  pose proof (linked_entries _ _ _ _ _ _ _ _ _ _ _ _ _ _ _ Hl) as Hent. destruct Hl as [H1 H2 H3 H4 H5 H6 H7 H8].
  pose proof (watch_both (Os0:=k_daemon K) _ _ _ _ net_daemon coop_daemon) as HW.
  pose proof net_files. pose proof net_fm_ok. pose proof net_acceptors. pose proof net_send. cbn [sys_step].
  destruct (run_wp _ _ _ _ (recv_link (Os0:=k_daemon K) view conn _ (refines_both (daemon_moves conn) (daemon_taken conn))
    (sy_locals s) qd (denv s) Hent H2)) as (lc & d & w & -> & t & h & l' & ti' & Hp & Hto & Hti & Hrm & Hm & Ha & Hv).
  cbn in Hti, Hrm, Hm. pose proof Hp as [Hh _]. cbn in Hh. subst h. destruct (Ha Hfd) as (fd & a & ->).
  pose proof (recv_takes _ _ _ _ _ Hv) as Hdrop. cbn in Hdrop.
  apply (steps_refines _ _ _ _ _ _ (refines_both _ _)), recv_steps in Hv as [Hf Hdg];
    [|eapply Forall_impl; [apply entry_block_length|exact Hent]]. unfold denv in Hf, Hdg. cbn [world] in Hf, Hdg.
  assert (datagrams [(CRecv fd sizeof_logEntry, a)] = take 1 (dgrams (view (sy_world s)))) as Hdt.
  { rewrite Hdrop in Hdg. rewrite <- (take_drop 1 (dgrams (view (sy_world s)))) in Hdg at 1. by apply app_inv_tail in Hdg. }
  assert (l' = qd ++ take 1 (dgrams (view (sy_world s)))) as ->.
  { destruct Hto as (t1 & acc & Ht1 & _ & Hc & He & _). cbn in Ht1. rewrite Hti in Ht1. apply app_inv_head in Ht1. subst t1.
    rewrite Hdt in Hc. cbn [app] in He. rewrite <- He, Hc; [done|]. rewrite length_take.
    unfold LOG_ENTRY_QUEUE_CAPACITY, DAEMON_LOG_QUEUE_CAPACITY in *. lia. }
  eexists. split; [reflexivity|]. split; [|exact Hdrop].
  split; [cbn; by rewrite Hm|]. split; [done|]. exists P, ta, (Hd ++ []), (ti ++ [(CRecv fd sizeof_logEntry, a)]), tr, tc.
  split; [|done]. split; try done; cbn.
  - exact (piped_to_trans _ _ _ _ _ _ _ _ H3 Hto).
  - by rewrite Hti, H4, (assoc_L (++)).
  - by rewrite Hrm.
  - by rewrite datagrams_app, <- (assoc_L (++)), <- Hdg.
  - by rewrite Hf.
Qed.

(** A round of the other threads of the daemon. *)
Lemma going_relay lv ms qa qd qd' ens o s lc d w t h tr' :
  going lv ms qa qd s -> run (run_step (Os0:=k_daemon K) o (sy_locals s)) (sy_daemon s) (sy_world s) = Some (lc, d, w) ->
  piped qd' (Env d w t h) lc -> piped_to qd (denv s) ens qd' (Env d w t h) -> dm_ipc d = dm_ipc (sy_daemon s) ->
  c_trace (dm_remote d) = c_trace (dm_remote (sy_daemon s)) ++ tr' ->
  steps (within sending (both (daemon_moves conn) (daemon_taken conn))) tr' (view (sy_world s)) (view w) ->
  exists s', sys_step K (SysDaemon o) s = Some s' /\ going lv ms qa qd' s' /\
    dgrams (view (sy_world s')) = dgrams (view (sy_world s)).
Proof.
  intros (Hfd & Hcn & P & ta & Hd & ti & tr & tc & [H1 H2 H3 H4 H5 H6 H7 H8] & Hs & Hst & Hat) Hrun Hp Hto Hipc Htr Hv.
  pose proof Hp as [Hh _]. cbn in Hh. subst h. destruct (daemon_taken_steady _ _ _ _ Hv) as [Hst' Hat'].
  apply (steps_refines _ _ _ _ _ _ (refines_both _ _)), relay_steps in Hv as [Hdg Hf].
  cbn [sys_step]. rewrite Hrun. eexists. split; [reflexivity|]. split; [|exact Hdg].
  split; [cbn; by rewrite Hipc|]. split; [done|]. exists P, ta, (Hd ++ ens), ti, (tr ++ tr'), tc.
  split; [|split; [done|split; [by apply steady_app|by apply all_taken_app]]]. split; try done; cbn.
  - exact (piped_to_trans _ _ _ _ _ _ _ _ H3 Hto).
  - by rewrite Hipc.
  - by rewrite Htr, H5, (assoc_L (++)).
  - by rewrite Hdg.
  - by rewrite Hf, (assoc_L (++)), H8, sent_on_app, map_app.
Qed.

Lemma coop_fm_others : WatchOthers (S:=SilogFileManager) view (quietly (both (daemon_moves conn) (daemon_taken conn))).
Proof. intros m w m' t w' Ho. apply both_quietly; [by apply (net_fm m w m' t w')|by apply (coop_fm m w m' t w')]. Qed.
Lemma coop_others : WatchOthers (S:=SilogRemoteManager) view (quietly (both (daemon_moves conn) (daemon_taken conn))).
Proof.
  intros m w m' t w' Ho. apply both_quietly; [by apply (net_remote m w m' t w')|by apply (coop_remote m w m' t w')].
Qed.

Lemma going_write lv ms qa qd s :
  going lv ms qa qd s ->
  exists s', sys_step K (SysDaemon StWrite) s = Some s' /\ going lv ms qa (drop 1 qd) s' /\
    dgrams (view (sy_world s')) = dgrams (view (sy_world s)).
Proof.
  intros Hg. pose proof Hg as (_ & _ & P & ta & Hd & ti & tr & tc & Hl & _).
  pose proof (watch_both (Os0:=k_daemon K) _ _ _ _ net_daemon coop_daemon) as HW. pose proof coop_others. pose proof coop_fm_others.
  pose proof net_files. pose proof net_fm_ok. pose proof net_acceptors. pose proof net_send.
  destruct (run_wp _ _ _ _ (write_link (Os0:=k_daemon K) view conn _ (refines_both (daemon_moves conn) (daemon_taken conn))
    (sy_locals s) qd (denv s) (ln_piped _ _ _ _ _ _ _ _ _ _ _ _ _ _ _ Hl))) as (lc & d & w & Hrun & t & h & Hp & Hto & Hipc & tr' & Htr & Hv).
  by eapply going_relay.
Qed.

Lemma going_accept lv ms qa qd s :
  going lv ms qa qd s -> exists s', sys_step K (SysDaemon StAccept) s = Some s' /\ going lv ms qa qd s'.
Proof.
  intros Hg. pose proof Hg as (_ & _ & P & ta & Hd & ti & tr & tc & Hl & _).
  pose proof (watch_both (Os0:=k_daemon K) _ _ _ _ net_daemon coop_daemon) as HW. pose proof coop_others. pose proof coop_fm_others.
  pose proof net_files. pose proof net_fm_ok. pose proof net_acceptors. pose proof net_send.
  destruct (run_wp _ _ _ _ (accept_link (Os0:=k_daemon K) view conn _ (refines_both (daemon_moves conn) (daemon_taken conn))
    (sy_locals s) qd (denv s) (ln_piped _ _ _ _ _ _ _ _ _ _ _ _ _ _ _ Hl))) as (lc & d & w & Hrun & t & h & Hp & Hto & Hipc & tr' & Htr & Hv).
  apply (steps_within _ sending _ _ _ _ inert_sending) in Hv.
  destruct (going_relay _ _ _ _ _ _ _ _ _ _ _ _ _ _ Hg Hrun Hp Hto Hipc Htr Hv) as (s' & ? & ? & _). by exists s'.
Qed.

(** The bytes under way shrink. *)
Definition drained (v v' : transit) : Prop :=
  dgrams v' = dgrams v /\ (flow v' = [] \/ (length (flow v') < length (flow v))%nat).

Lemma going_view lv ms qa qd s :
  going lv ms qa qd s ->
  exists s', sys_step K SysView s = Some s' /\ going lv ms qa qd s' /\ drained (view (sy_world s)) (view (sy_world s')).
Proof.
  intros (Hfd & Hcn & P & ta & Hd & ti & tr & tc & [H1 H2 H3 H4 H5 H6 H7 H8] & Hs & Hst).
  pose proof (watch_both (Os0:=k_viewer K) _ _ _ _ net_viewer coop_viewer) as HW. pose proof net_recv. pose proof net_time.
  cbn [sys_step]. destruct (run_wp _ _ _ _ (view_round_progress (Os0:=k_viewer K) view (sy_viewer s0) tc
    (Env (sy_viewer s) (sy_world s) [] false) H6 Hcn)) as (? & c & w & -> & ? & ? & Hc & t & Hv & Hvs & Hpr). cbn in Hc, Hv, Hvs, Hpr.
  apply viewer_steps in Hvs as [Hdg Hf]. eexists. split; [reflexivity|]. split; [split; [done|]; split; [done|]|].
  - exists P, ta, Hd, ti, tr, (tc ++ t). split; [|done]. split; try done; cbn.
    + by rewrite Hdg.
    + by rewrite stream_app, <- (assoc_L (++)), <- Hf.
  - split; [done|]. cbn. destruct (decide (flow (view (sy_world s)) = [])) as [He|Hne].
    + left. rewrite He in Hf. symmetry in Hf. by apply app_eq_nil in Hf as [_ ?].
    + right. specialize (Hpr Hne). rewrite Hf, length_app. destruct (stream t); [done|]. cbn. lia.
Qed.

(** Every step keeps the system going. *)
Lemma going_step lv ms qa qd o s :
  going lv ms qa qd s -> op_ok o -> len ms <= LOG_ENTRY_QUEUE_CAPACITY ->
  exists s' qa' qd', sys_step K o s = Some s' /\ going (level_after lv o) (ms ++ heard_in lv o) qa' qd' s'.
Proof.
  intros Hg Ho Hl. destruct o as [m|l| |[| |]|]; cbn [level_after heard_in]; rewrite ?app_nil_r.
  - destruct (going_log _ _ _ _ _ _ Hg Ho) as (s' & qa' & ? & ?). by exists s', qa', qd.
  - destruct (going_level _ _ _ _ l _ Hg) as (s' & ? & ?). by exists s', qa, qd.
  - destruct (going_send _ _ _ _ _ Hg) as (s' & ? & ?). by eexists s', _, qd.
  - destruct (going_recv _ _ _ _ _ Hg Hl) as (s' & ? & ? & _). by eexists s', qa, _.
  - destruct (going_write _ _ _ _ _ Hg) as (s' & ? & ? & _). by eexists s', qa, _.
  - destruct (going_accept _ _ _ _ _ Hg) as (s' & ? & ?). by exists s', qa, qd.
  - destruct (going_view _ _ _ _ _ Hg) as (s' & ? & ? & _). by exists s', qa, qd.
Qed.
Lemma going_run lv ms qa qd ops s :
  going lv ms qa qd s -> Forall op_ok ops -> len (ms ++ loud lv ops) <= LOG_ENTRY_QUEUE_CAPACITY ->
  exists s' lv' qa' qd', sys_run K ops s = Some s' /\ going lv' (ms ++ loud lv ops) qa' qd' s'.
Proof.
  intros Hg Hops. revert lv ms qa qd s Hg.
  induction Hops as [|o ops Ho _ IH]; intros lv ms qa qd s Hg Hl; cbn [sys_run loud] in *.
  { exists s, lv, qa, qd. by rewrite app_nil_r. }
  rewrite (assoc_L (++)) in Hl |- *.
  destruct (going_step _ _ _ _ _ _ Hg Ho) as (s1 & qa1 & qd1 & -> & Hg1); [rewrite !length_app in Hl; lia|]. by eapply IH.
Qed.

(** ** The schedule that drains the system *)

Definition drain (n : nat) : list sys_op :=
  replicate n SysSend ++ replicate n (SysDaemon StRecv) ++ replicate n (SysDaemon StWrite) ++
  replicate (Z.to_nat SILOG_REMOTE_ENTRY_SIZE * n) SysView.

Lemma sys_run_app ops1 ops2 s : sys_run K (ops1 ++ ops2) s = s' ← sys_run K ops1 s; sys_run K ops2 s'.
Proof. revert s. induction ops1 as [|o ops1 IH]; intros s; cbn; [done|]. destruct (sys_step K o s); cbn; [apply IH|done]. Qed.

(** [n] rounds of one kind, each of which takes a step towards [n = 0]. *)
Lemma repeat_rounds (I : nat -> system W -> Prop) o n s :
  I n s -> (forall k s, I (S k) s -> exists s', sys_step K o s = Some s' /\ I k s') ->
  exists s', sys_run K (replicate n o) s = Some s' /\ I 0%nat s'.
Proof.
  intros HI Hstep. revert s HI. induction n as [|n IH]; intros s HI; cbn; [by exists s|].
  destruct (Hstep _ _ HI) as (s1 & -> & H1). by apply IH.
Qed.

(** The bytes under way belong to entries that were handled. *)
Lemma flow_bound lv ms qa qd s :
  going lv ms qa qd s -> (length (flow (view (sy_world s))) <= Z.to_nat SILOG_REMOTE_ENTRY_SIZE * length ms)%nat.
Proof.
  intros (_ & _ & P & ta & Hd & ti & tr & tc & Hl & _ & Hsd & _). pose proof (linked_bounds _ _ _ _ _ _ _ _ _ _ _ Hl) as (H1 & _).
  destruct (linked_served K view conn _ _ _ _ _ _ _ _ _ _ _ _ _ Hl Hrd) as [_ Hc]. destruct (Hc Hsd) as (V & HV & Hs & _).
  destruct (linked_typed _ _ _ _ _ _ _ _ _ _ _ _ _ _ _ Hl) as (ms2 & _ & _ & Hty).
  pose proof (linked_handled _ _ _ _ _ _ _ _ _ _ _ _ _ _ _ Hl) as Hsub. destruct Hl as [_ _ _ _ _ _ _ H8].
  pose proof (sublist_Forall _ _ _ HV Hty) as Ht.
  pose proof (wires_length _ Ht) as Hw. rewrite <- Hs, <- H8, length_app in Hw. apply sublist_length in HV, Hsub.
  rewrite length_map in HV. change SILOG_REMOTE_ENTRY_SIZE with 377 in *. lia.
Qed.

Lemma drain_spec lv ms qa qd s n :
  going lv ms qa qd s -> len ms <= LOG_ENTRY_QUEUE_CAPACITY -> n = length ms ->
  exists s', sys_run K (drain n) s = Some s' /\ going lv ms [] [] s' /\ view (sy_world s') = MkTransit [] [].
Proof.
  intros Hg Hl Hn. pose proof (going_bounds _ _ _ _ _ Hg) as [Hb _]. unfold drain.
  destruct (repeat_rounds (fun k s => exists qa, going lv ms qa qd s /\ (length qa <= k)%nat) SysSend n s) as (s1 & Hr1 & qa1 & Hg1 & Hq1).
  { exists qa. split; [done|lia]. }
  { intros k s1 (qa1 & Hg1 & Hk). destruct (going_send _ _ _ _ _ Hg1) as (s2 & ? & ?). exists s2. split; [done|].
    eexists. split; [done|]. rewrite length_drop. lia. }
  rewrite sys_run_app, Hr1. cbn [mbind option_bind]. destruct qa1; [|cbn in Hq1; lia].
  pose proof (going_bounds _ _ _ _ _ Hg1) as [_ Hb1].
  destruct (repeat_rounds (fun k s => exists qd, going lv ms [] qd s /\ (length (dgrams (view (sy_world s))) <= k)%nat)
    (SysDaemon StRecv) n s1) as (s2 & Hr2 & qd2 & Hg2 & Hq2).
  { exists qd. split; [done|lia]. }
  { intros k s2 (qd2 & Hg2 & Hk). destruct (going_recv _ _ _ _ _ Hg2 Hl) as (s3 & ? & ? & Hd). exists s3. split; [done|].
    eexists. split; [done|]. rewrite Hd, length_drop. lia. }
  rewrite sys_run_app, Hr2. cbn [mbind option_bind]. apply Nat.le_0_r, length_zero_iff_nil in Hq2.
  pose proof (going_bounds _ _ _ _ _ Hg2) as [_ Hb2].
  destruct (repeat_rounds (fun k s => exists qd, going lv ms [] qd s /\ dgrams (view (sy_world s)) = [] /\ (length qd <= k)%nat)
    (SysDaemon StWrite) n s2) as (s3 & Hr3 & qd3 & Hg3 & Hd3 & Hq3).
  { exists qd2. split; [done|]. split; [done|lia]. }
  { intros k s3 (qd3 & Hg3 & Hd3 & Hk). destruct (going_write _ _ _ _ _ Hg3) as (s4 & ? & ? & Hd). exists s4. split; [done|].
    eexists. split; [done|]. split; [congruence|]. rewrite length_drop. lia. }
  rewrite sys_run_app, Hr3. cbn [mbind option_bind]. destruct qd3; [|cbn in Hq3; lia].
  destruct (repeat_rounds (fun k s => going lv ms [] [] s /\ dgrams (view (sy_world s)) = [] /\
    (length (flow (view (sy_world s))) <= k)%nat) SysView (Z.to_nat SILOG_REMOTE_ENTRY_SIZE * n) s3) as (s4 & Hr4 & Hg4 & Hd4 & Hq4).
  { split; [done|]. split; [done|]. rewrite Hn. by eapply flow_bound. }
  { intros k s4 (Hg4 & Hd4 & Hk). destruct (going_view _ _ _ _ _ Hg4) as (s5 & ? & ? & Hd & Hf). exists s5. split; [done|].
    split; [done|]. split; [congruence|]. destruct Hf as [->|?]; [cbn; lia|lia]. }
  exists s4. split; [done|]. split; [done|]. apply Nat.le_0_r, length_zero_iff_nil in Hq4.
  destruct (view (sy_world s4)) as [dg fl]. cbn in Hd4, Hq4. by subst.
Qed.

(** After the schedule, nothing is waiting and nothing was refused. *)
Lemma drains ops :
  Forall op_ok ops -> len (loud (min_level s0) ops) <= LOG_ENTRY_QUEUE_CAPACITY -> 0 <= ia_recvFd (c_mem (dm_ipc (sy_daemon s0))) ->
  exists s, sys_run K (ops ++ drain (length (loud (min_level s0) ops))) s0 = Some s /\ (exists lv, going lv (loud (min_level s0) ops) [] [] s) /\
    view (sy_world s) = MkTransit [] [].
Proof.
  intros Hops Hl Hfd.
  assert (going (min_level s0) [] [] [] s0) as Hg.
  { split; [done|]. split; [apply Hrd|]. exists [], [], [], [], [], [].
    split; [exact (ready_linked K view conn slot s0 Hrd)|]. by repeat constructor. }
  destruct (going_run _ _ _ _ _ _ Hg Hops Hl) as (s1 & lv & qa & qd & Hr1 & Hg1). cbn [app] in Hg1.
  destruct (drain_spec _ _ _ _ _ _ Hg1 Hl eq_refl) as (s2 & Hr2 & Hg2 & Hv). exists s2. rewrite sys_run_app, Hr1.
  split; [exact Hr2|]. split; [by exists lv|done].
Qed.

(** What [going] says of the calls and the queues. *)
Lemma going_facts lv ms s :
  going lv ms [] [] s ->
  exists ta tr tc, app_calls s0 s ta /\ remote_calls s0 s tr /\ viewer_calls s0 s tc /\
    all_sent ta /\ steady conn tr /\ all_taken conn tr /\
    log_repr (lm_logQueue (lg_mgr (sy_app s))) [] /\ daemon_repr (dm_logQueue (sy_daemon s)) [] /\
    (view (sy_world s) = MkTransit [] [] -> len ms <= LOG_ENTRY_QUEUE_CAPACITY ->
     exists ens, Forall2 entry_for ms ens /\ daemon_served s0 ens s /\
       callbacks tc = map received ens).
Proof.
  intros (_ & _ & P & ta & Hd & ti & tr & tc & Hlk & Has & Hsd & Hat). exists ta, tr, tc.
  split; [apply (al_trace _ _ _ _ _ _ _ (ln_app _ _ _ _ _ _ _ _ _ _ _ _ _ _ _ Hlk))|].
  split; [apply (ln_remote _ _ _ _ _ _ _ _ _ _ _ _ _ _ _ Hlk)|].
  split; [apply (vl_trace _ _ _ (ln_viewer _ _ _ _ _ _ _ _ _ _ _ _ _ _ _ Hlk))|]. do 3 (split; [done|]).
  split; [apply (al_queue _ _ _ _ _ _ _ (ln_app _ _ _ _ _ _ _ _ _ _ _ _ _ _ _ Hlk))|].
  split; [apply (ln_piped _ _ _ _ _ _ _ _ _ _ _ _ _ _ _ Hlk)|].
  intros Hv Hl. exact (linked_lossless K view conn _ _ _ _ _ _ _ _ _ _ _ Hlk Hrd Hv Hcs Hl Has Hsd Hat).
Qed.
End going.

(** ** Property *)

Section property.
Context {W : Type} `{!Others SilogPrelogManager_t W, !Others SilogFileManager W, !Others SilogRemoteManager W}.
Context (K : kernels W) (view : W -> transit) (conn : Z) {HN : Network K view conn} {HC : Cooperative K view conn}.

End property.

(** ** A concrete machine *)

(** Datagrams and bytes under way and a small file system; the descriptor 4 of the
    daemon is the connection of the viewer. *)
Record machine := MkMachine { ma_dgrams : list (list Z); ma_flow : list Z; ma_fs : fs }.
Definition ma_view (w : machine) : transit := MkTransit (ma_dgrams w) (map u8 (ma_flow w)).

Definition ma_app : Os machine := fun c w =>
  match c with
  | CSend _ d => (ok (len d), MkMachine (ma_dgrams w ++ [d]) (ma_flow w) (ma_fs w))
  | _ => (ok 0, w)
  end.
Definition ma_daemon : Os machine := fun c w =>
  match c with
  | CRecv _ n =>
      match ma_dgrams w with
      | [] => (fails EAGAIN, w)
      | d :: ds => let x := take (Z.to_nat n) d in (Ans (len x) 0 x [], MkMachine ds (ma_flow w) (ma_fs w))
      end
  | CSend fd d => (ok (len d), if fd =? 4 then MkMachine (ma_dgrams w) (ma_flow w ++ d) (ma_fs w) else w)
  | CSocket | CAccept _ => (fails EAGAIN, w)
  | _ => let '(a, f) := fs_os c (ma_fs w) in (a, MkMachine (ma_dgrams w) (ma_flow w) f)
  end.
Definition ma_viewer : Os machine := fun c w =>
  match c with
  | CSelect _ _ => (ok 1, w)
  | CRecv _ n =>
      let x := map u8 (take (Z.to_nat n) (ma_flow w)) in
      if len x =? 0 then (fails EAGAIN, w)
      else (Ans (len x) 0 x [], MkMachine (ma_dgrams w) (drop (Z.to_nat n) (ma_flow w)) (ma_fs w))
  | CLocaltime _ => (Ans 1 0 [125; 5; 15; 23; 6; 40] [], w)
  | _ => (ok 0, w)
  end.
Definition ma_kernels : kernels machine := MkKernels machine ma_app ma_daemon ma_viewer.

#[local] Instance ma_accepting : Others SilogRemoteManager machine := @accepting machine ma_daemon.

Lemma ma_app_laws : Watch (Os0:=ma_app) ma_view kernel_call (both app_moves app_taken).
Proof.
  split; [|done]. intros c w a w' _ Ho. unfold os in Ho.
  destruct c; injection Ho as <- <-; (split; [|done || (cbn; lia)]); unfold app_moves; cbn; rewrite ?app_nil_r; try done.
  by assert (0 <=? len buf = true) as -> by (apply Z.leb_le; lia).
Qed.
Lemma ma_daemon_laws : Watch (Os0:=ma_daemon) ma_view kernel_call (both (daemon_moves 4) (daemon_taken 4)).
Proof.
  split; [|by intros m l f x [d fl s]]. intros c w a w' _ Ho. unfold os in Ho.
  destruct c; unfold ma_daemon in Ho; try (destruct (fs_os _ _) as [a0 f0] in Ho; by injection Ho as <- <-);
    try by injection Ho as <- <-.
  - injection Ho as <- <-. split; [|done]. cbn. rewrite Nat2Z.id, take_ge by lia.
    destruct (fd =? 4); cbn; rewrite ?map_app, ?app_nil_r; done.
  - destruct (ma_dgrams w) as [|d ds] eqn:Hd; injection Ho as <- <-.
    + split; unfold daemon_moves, daemon_taken; cbn; [by rewrite Hd|by rewrite Hd].
    + split; unfold daemon_moves, daemon_taken; cbn; rewrite Hd; [|intros; lia].
      assert (len (take (Z.to_nat n) d) <? 0 = false) as -> by (apply Z.ltb_ge; lia). split; [done|]. by exists d.
Qed.
Lemma ma_viewer_laws : Watch (Os0:=ma_viewer) ma_view kernel_call (both viewer_moves viewer_taken).
Proof.
  split; [|done]. intros c w a w' _ Ho. unfold os in Ho. destruct c; unfold ma_viewer in Ho; try by injection Ho as <- <-.
  destruct (len (map u8 (take (Z.to_nat n) (ma_flow w))) =? 0) eqn:E; reflectZ; injection Ho as <- <-.
  - split; [done|]. unfold viewer_taken. cbn. rewrite length_map, length_take in E. case_decide as Hf; [done|].
    intros Hn. destruct (ma_flow w); [done|]. cbn in E. lia.
  - split; unfold viewer_moves, viewer_taken; cbn.
    + assert (0 <? len (map u8 (take (Z.to_nat n) (ma_flow w))) = true) as -> by (apply Z.ltb_lt; lia).
      by rewrite <- map_app, take_drop.
    + case_decide as Hf; [|lia]. destruct (ma_flow w); [|done]. by rewrite take_nil in E.
Qed.
Lemma ma_accepting_moves m (w : machine) m' t w' :
  others m w = (m', t, w') -> steps (quietly (both (daemon_moves 4) (daemon_taken 4))) t (ma_view w) (ma_view w').
Proof.
  unfold others, ma_accepting, accepting. pose proof ma_daemon_laws as HD.
  pose proof (watch_within _ _ _ inert_kernel HD) as HQ.
  assert (WatchOthers (Others0:=idle) ma_view (quietly (both (daemon_moves 4) (daemon_taken 4)))) as HO.
  { intros ? ? ? ? ? [= <- <- <-]. constructor. }
  destruct (SilogRemoteAccept _) as [[r e]|] eqn:E; [|intros [= <- <- <-]; constructor]. intros [= <- <- <-].
  destruct (t_accept (Os0:=ma_daemon) (Others0:=idle) ma_view _ _ _ _ E) as (t & Ht & Hs). cbn in Ht. by rewrite Ht.
Qed.

#[local] Instance ma_network : Network ma_kernels ma_view 4.
Proof.
  assert (forall t v v', steps (quietly (both (daemon_moves 4) (daemon_taken 4))) t v v' -> steps (quietly (daemon_moves 4)) t v v')
    as Hq by (intros t v v'; apply steps_refines, refines_both).
  split; cbn [k_app k_daemon k_viewer ma_kernels].
  - split; [|done]. intros c w a w' Hc Ho. by destruct (watch_call (Watch:=ma_app_laws) c w a w' Hc Ho).
  - intros m w m' t w' [= <- <- <-]. constructor.
  - split; [|apply ma_daemon_laws]. intros c w a w' Hc Ho. by destruct (watch_call (Watch:=ma_daemon_laws) c w a w' Hc Ho).
  - intros m w m' t w' [= <- <- <-]. constructor.
  - intros m w m' t w' Ho. apply Hq. by apply (ma_accepting_moves m w m').
  - split; [|apply ma_viewer_laws]. intros c w a w' Hc Ho. by destruct (watch_call (Watch:=ma_viewer_laws) c w a w' Hc Ho).
  - split; intros ? [d fl f] a w'; unfold os, ma_daemon; cbn [ma_fs]; destruct (fs_os _ _) as [a0 f0] eqn:E; intros [= <- _].
    + exact (malloc_ok (W:=fs) _ _ _ _ E).
    + exact (scandir_ok (W:=fs) _ _ _ _ E).
    + exact (stat_ok (W:=fs) _ _ _ _ E).
    + exact (localtime_ok (W:=fs) _ _ _ _ E).
  - apply fm_idle_ok.
  - apply (accepting_ok (W:=machine)).
  - intros fd b w a w' [= <- _]. cbn. lia.
  - intros fd n w a w' Ho Hr. unfold os, ma_viewer in Ho.
    destruct (len (map u8 (take (Z.to_nat n) (ma_flow w))) =? 0); injection Ho as <- <-; cbn in Hr |- *; [lia|].
    split; [done|]. split; [rewrite length_map, length_take in *; lia|]. apply Forall_fmap, Forall_true. intros x. apply u8_range.
  - intros s w a w' [= <- _] _. split; [done|]. intros i Hi. do 6 (destruct i as [|i]; [cbn; lia|]). lia.
Qed.
#[local] Instance ma_cooperative : Cooperative ma_kernels ma_view 4.
Proof.
  split; cbn [k_app k_daemon k_viewer ma_kernels].
  - split; [|done]. intros c w a w' Hc Ho. by destruct (watch_call (Watch:=ma_app_laws) c w a w' Hc Ho).
  - split; [|apply ma_daemon_laws]. intros c w a w' Hc Ho. by destruct (watch_call (Watch:=ma_daemon_laws) c w a w' Hc Ho).
  - split; [|apply ma_viewer_laws]. intros c w a w' Hc Ho. by destruct (watch_call (Watch:=ma_viewer_laws) c w a w' Hc Ho).
  - intros m w m' t w' [= _ <- _]. constructor.
  - intros m w m' t w' Ho. pose proof (ma_accepting_moves m w m' t w' Ho) as Hs. 
    by apply (steps_within _ sending _ _ _ _ inert_sending), daemon_taken_steady in Hs as [? _].
Qed.

(** An application, the daemon and a viewer that have started on it. *)
Definition demo_cat : cat :=
  MkCat g_silogCatConfig (MkComp g_prelogMgr []) (MkComp demo_ctx [(CSocket, ok 6)]) (MkComp tt []).
Definition demo_system : system machine :=
  MkSystem demo_logger (demo_daemon demo_daemon_queue) demo_locals demo_cat (MkMachine [] [] []).
Lemma demo_ready : ready ma_view 4 0 demo_system.
Proof.
  split; [done|done|exists ∅; by vm_compute|exact demo_log_queue_ok| |done| |  |done|done|done].
  - split; [done|]. split; [exact (demo_daemon_inv _)|]. split; [done|]. split; [done|].
    split; [exact demo_daemon_queue_ok|constructor].
  - split; [by eexists|by vm_compute].
  - destruct (demo_cginv []) as [? ?]. done.
Qed.

Definition demo_message : message := MkMessage (level_val SILOG_WARN) (chars "net") (chars "a.c") 7 (chars "up").
Lemma demo_message_ok : message_ok demo_message.
Proof.
  split; [split; cbn; lia|]. split; [split; cbn; lia|]. split; [repeat constructor; cbn; lia|].
  split; [repeat constructor; cbn; lia|]. exists (chars "up"). split; [done|]. repeat constructor; cbn; lia.
Qed.
Definition demo_ops : list sys_op :=
  [SysLog demo_message; SysSend; SysDaemon StRecv; SysLevel (level_val SILOG_ERROR); SysLog demo_message; SysLevel (level_val SILOG_INFO);
   SysLog demo_message; SysDaemon StWrite; SysDaemon StAccept; SysView].
Lemma demo_ops_ok : Forall op_ok demo_ops.
Proof. repeat (apply Forall_cons_2; [first [exact demo_message_ok|exact I]|]). apply Forall_nil_2. Qed.



